(* ===== verification/_CoqProject ===== *)
-Q . S2P
Prelude.v
F64.v
F64Int.v
F64Bound.v
F64Step.v
Coding.v
Crc.v
Alt.v
Num.v
Cpr.v
Frames.v
Beast.v
Text.v
Decimal.v
Proto.v
Engine.v
Geo.v
ClockSync.v
Track.v
Solve.v
ServerState.v
SyncMlat.v
SolveGroup.v
Shard.v
Router.v
Calendar.v
Results.v
Metrics.v
Capture.v
Framing.v
Session.v
Wire.v
Output.v
Client.v
Isolation.v
Trajectory.v
SimClock.v
Scenario.v
Gen.v
Replay.v
Tap.v
GenCmd.v
BeastServe.v
Fuzz.v
Locards.v
Sampling.v
ScoreCmd.v
ScenarioToml.v
Served.v
Link.v
Run.v
Server.v
Input.v
Start.v
Probe.v
Report.v
RunCmd.v
Bench.v
