(* ===== verification/Prelude.v ===== *)
(** * mlat-bench: a verification library

    The repository is a bench for multilateration servers: it simulates receivers and aircraft
    (crates/mb-sim), keeps client streams as captures (mb-capture), replays them against a
    server (mlat-bench), and scores the results (mb-metrics); with it come a server (mlatd), a
    client (mlatc) and what they share: Mode S frames (mb-modes), the wire protocol (mb-proto)
    and positions (mb-core).  This library models those crates, file by file, as executable
    definitions under the names of the source, and proves what each part promises the others.

    ** How the parts interact

    A client's decoder ([Beast]) turns its input into receptions; the engine ([Engine]) pairs
    and selects them and offers messages to the servers' queues ([Client]); sessions carry them
    as lines, or compressed frames ([Proto], [Framing]), to a server's connection ([Session]).
    The connection is assigned to a shard by its place ([Router]); the shard's loop ([Shard])
    owns one state: slots of receivers ([ServerState]), clock models fed by sync pairs
    ([SyncMlat], [ClockSync]), groups of receptions solved into fixes ([SolveGroup], [Solve],
    [Track]); the text of a fix ([Results], [Calendar]) goes through the output task's gates
    ([Output]) to files and back to the clients ([Session], [Client]).  The bench's own side
    makes streams from scenarios ([Scenario], [Trajectory], [SimClock], [Gen]), from a live
    connection ([Tap]) or from published data ([Locards]), writes captures ([Capture],
    [GenCmd], [Fuzz]), replays them ([Replay], [BeastServe]), drives a server through a run and
    scores it ([Run], [RunCmd], [ScoreCmd], [Metrics], [Sampling], [Report]).

    Some files compose.  [Input] is the client's input task with its engine; [Server] router,
    shards, connections and output task as the server.  [Wire] gives the messages' JSON and
    what the server's connection makes of it; with it [Served] puts the simulated client,
    [Link] a session of mlatc, [Start] a client from its command line and [Probe] the bench's
    probe at that connection.  [ScenarioToml] reads back the scenario that an import writes
    and scores the import against it; [Bench] is the bench's commands over all its parts.

    ** The files

    Foundations.  [Prelude]: machine integers, generic lemmas, hint databases and tactics.
    [F64], [F64Int], [F64Bound], [F64Step]: binary64 on the Standard Library's [spec_float],
    its conversions to and from integers, bounds that survive its rounding, and sums that
    rounding does not stop; [Coding]: floats as digits, for the texts of the concrete instances,
    whose reader drops the last bit of some.  [Num]: the class of
    arithmetics, at binary64 and at the reals.  [Text], [Decimal]: the standard library's text
    of numbers and its string operations.
    - mb-modes: [Crc] (lib.rs), [Alt] (alt.rs), [Cpr] (cpr.rs), [Frames] (frames.rs, decode.rs).
    - mb-core: [Geo] (positions and distances); rng_for is in [SimClock].
    - mb-proto: [Proto] and [Wire] (lib.rs), [Framing] (framing.rs); sbs.rs is in [Results].
    - mlatc: [Beast] (beast.rs), [Engine] (engine.rs), [Client], [Input] and [Start] (main.rs).
    - mlatd: [ClockSync] (clocksync.rs), [Track] (track.rs), [Solve] (solve.rs), [ServerState],
      [SyncMlat], [SolveGroup], [Calendar] and [Results] (state.rs), [Shard] and [Router]
      (shard.rs), [Session], [Output] and [Server] (main.rs).
    - mb-metrics: [Metrics] (truth index and score), [Report] (render_report), [Results] (the
      parser of results.csv).
    - mb-capture: [Capture].
    - mb-sim: [Trajectory] (traj.rs), [SimClock] (clock.rs), [Scenario] and [ScenarioToml]
      (scenario.rs), [Gen] (gen.rs).
    - mlat-bench: [Replay], [Sampling], [Run] and [RunCmd] (runcmd.rs), [Tap] (recordcmd.rs), [GenCmd]
      (gencmd.rs), [BeastServe] (beastcmd.rs), [Fuzz] (fuzzcmd.rs), [Locards] (locards.rs),
      [ScoreCmd] and [Report] (scorecmd.rs), [Probe] (probe.rs, doctor.rs), [Bench] (main.rs).
    - across the client: [Isolation] (engine.rs with the engine's task of main.rs, two servers).
    - across crates: [Served] (gen.rs of mb-sim against main.rs of mlatd), [Link] (main.rs of
      mlatc against main.rs of mlatd).

    ** How the code is modelled

    A struct is a record, an enum an inductive type, a function a definition; a method that
    changes its receiver returns the new one.  A task is a state machine over the events its
    [select] waits for; what interleaves is a list of events.  Errors are [option] or sum
    values.  Integers are [Z] with the wrap of each operation of a release build; floats are
    [spec_float] values, operation by operation.  Numeric code is written once over the class
    [Num]: theorems on NaN, infinities and rounding are at binary64, theorems on what a formula
    computes at the reals.  A [HashMap] is a [gmap] visited in the order of the class
    [HashIter], any permutation.  Platform functions ([Elem], [Ln]), the random streams
    ([Rand]), serde_json ([Json]), the hex and flate2 crates ([Hex], [Flate]), zstd, SHA-256
    and the derived serialisers ([Codec]), the writing of JSON ([JsonWrite]) and the reading and
    writing of TOML documents ([Toml], [TomlWrite]) are classes of operations, the documented
    laws separate classes ([FlateLaws], [CodecLaws], [JsonWriteLaws], [TomlLaws]); every property that assumes laws has
    a witness at an instance that is a concrete function.

    The laws keep to what the libraries document.  zlib's inflate is assumed to decode what
    its own deflate made, nothing of other input; so what a peer may send that is not a stream
    ends a connection.  serde_json reads a float back to the nearest only on request, which
    the repository does not make: a float of a file comes back as [json_f64] has it, possibly
    another or, for NaN, none, and the theorems on captures speak of the fields as read
    ([reread_point], [reread_entry], [reread_manifest]).  A timer is a step like any other and
    may tick at any time; where a theorem needs it to be prompt ([prompt] in [Session]) or away
    from a line in flight ([undisturbed]), it says so.  A proxied connection's read, its writes
    in pieces, its registration and its end are steps of their own, so that a failure or the
    deadline may come between any two.

    ** What the theorems show

    - Codes: the CRC is the remainder by its generator polynomial; altitude codes and
      positions are inverse to their encoders, positions to half a quantum; a frame that is
      accepted with few wrong bits is the frame that was sent; Beast and compressed streams
      decode to the same messages however they are cut.
    - The client: whatever bytes come in, well-formed receptions; pairs that never span two
      connections of the input; traffic only for what a server requested, announcements that alternate, one
      server's queue what it would be without the others' requests, resets and reading, every
      line offered delivered in order, what programs downstream decode.
    - The server: clock models are the weighted least-squares fit of what they accepted; a
      shard's indices, generations and bounds hold in every reachable state; a reference that
      loses its slot publishes nothing; a fix is published only through its gates, once; the
      clustering loop ends exactly on finite times; a connection reads the lines it was sent,
      answers, and leaves nothing behind; the router's assignments stick, for cells of less than
      2^32 degrees (beyond them the eight bits of a level wrap and its descent may not end).
    - The server as a whole, in every interleaving of its tasks: live slots and the router's
      counts agree with the connections, and what is published is what the shards emitted, in
      order and once.
    - The simulator: the simulated clocks' range and order, the messages of a client, losses
      that do not depend on other aircraft, frames that carry the lines, legs flown at
      constant speed.
    - The bench: captures read back as written and cut captures as far as they go; a recording
      is transparent and replays what it passed on; a generated capture replays what was
      generated and is scored against it; an imported set never shows a held-out aircraft; a
      copy with moved receivers still replays; a replay never sends early, and its deadlines
      are durations at every speed the command accepts; a run is logged and scored whatever
      its clients meet, by the bench's server or another alike; what its collectors sampled is
      what the score reads; every result row is counted once; the report shows every aircraft
      of the score once, by address.
    - Client and server: a server's connection hears from a simulated client exactly what was
      simulated, plain or compressed, however the bytes arrive; a session of mlatc and a
      connection of mlatd accept each other, and the server understands everything the engine
      offers; a client that starts registers what its command line said; a probe is accepted
      and leaves nothing behind.
    - The commands: a run is what generating, replaying and scoring make of it; a replay against a
      server already running names its results, and the speeds left out are accepted; an
      imported set is scored against exactly the aircraft that were held out.

    ** Bounds and fuel

    Structural recursion where the code's loops have it.  Elsewhere: the scan of a Beast
    buffer runs on its length and the record reader on the length of its stream, each consuming
    a byte at least per turn; the year loop of a date on its days divided by 365; the descent
    to a router's leaf cell on the number of split cells, one level each, so that it runs out
    only where the levels have wrapped and the code does not end; the solver's
    iterations are bounded by the code itself. The encoder's and decoder's loops over flate2 take
    a fuel beyond their first turn, and 0 is enough under [FlateLaws]. The clustering of a group
    takes a fuel and is proved to end, for enough of it, exactly when the times are finite.
    Heartbeats and framing windows of a simulated client take the duration in seconds as fuel,
    which is proved to be enough. An ADS-B aircraft's reports end, and the fuel that is enough is
    given, at rates below a million a second ([Gen.adsb_emission_ends]); the Poisson processes of
    a Mode S aircraft take a fuel without such a theorem, for nothing bounds their gaps from
    below, and no rate is validated by the code ([Gen.negative_rate_runs_on]). The Beast server's
    speed is not validated by its command, and its deadlines are assumed to be durations.

    ** Not modelled

    Reading a command line (clap: the parsed arguments and their defaults are modelled),
    sockets, files other than a capture's, containers and processes; log lines and progress
    output; the text of JSON and TOML documents, whose fields are modelled and whose grammar is
    an interface; Unicode in string operations (text is bytes, operated on as ASCII); file
    systems that fail otherwise than by missing files.  The names of clients' files in a
    capture are compared as written, not as paths.  Tests, the oracle's container, plots and
    documents are not part of the program. *)
From Stdlib Require Export ZArith Lia.
From Stdlib Require Import Zbitwise.
From stdpp Require Export base tactics numbers list gmap strings sorting relations option.

#[export] Set Default Goal Selector "!".

(** ** Hint databases of the development *)
Create HintDb mlat.
Create HintDb mlat_len.
Create HintDb text.

(** [lia] with the equations of [/], [mod], [quot] and [rem]. *)
Ltac zlia := Z.to_euclidean_division_equations; lia.

(** ** Machine integers: a w-bit unsigned integer is a [Z] in [0, 2^w) *)
Definition wrap (w z : Z) : Z := (z mod 2 ^ w)%Z.
Abbreviation u8 := (wrap 8).
Abbreviation u16 := (wrap 16).
Abbreviation u32 := (wrap 32).
Abbreviation u64 := (wrap 64).

(** [x.saturating_sub(y)] on an unsigned type. *)
Definition saturating_sub (x y : Z) : Z := Z.max 0 (x - y).
(** [x.abs_diff(y)]. *)
Definition abs_diff (x y : Z) : Z := Z.abs (x - y).
(** [z] clamped to the range of the target type, as Rust's [as] does from a float. *)
Definition sat (lo hi z : Z) : Z := Z.max lo (Z.min hi z).

(** Two's complement value of a signed 32-bit integer. *)
Definition i32 (z : Z) : Z := ((z + 2 ^ 31) mod 2 ^ 32 - 2 ^ 31)%Z.

Definition u64_max : Z := (2 ^ 64 - 1)%Z.
Definition usize_max : Z := u64_max.

(** A byte string: a list of integers in [0, 256). *)
Definition byte_ok (b : Z) : Prop := (0 <= b < 256)%Z.
Definition bytes_ok (l : list Z) : Prop := Forall byte_ok l.

#[export] Instance byte_ok_dec b : Decision (byte_ok b).
Proof. unfold byte_ok. apply _. Defined.
#[export] Instance bytes_ok_dec l : Decision (bytes_ok l).
Proof. unfold bytes_ok. apply _. Defined.

Section Wrap.
Local Open Scope Z_scope.

Lemma wrap_range w z : 0 <= w -> 0 <= wrap w z < 2 ^ w.
Proof. intros Hw. apply Z.mod_pos_bound. lia. Qed.

Lemma wrap_small w z : 0 <= z < 2 ^ w -> wrap w z = z.
Proof. apply Z.mod_small. Qed.

Lemma wrap_testbit w z i :
  0 <= w -> 0 <= i -> Z.testbit (wrap w z) i = (i <? w) && Z.testbit z i.
Proof.
  intros Hw Hi. unfold wrap. destruct (Z.ltb_spec i w).
  - by rewrite Z.mod_pow2_bits_low.
  - rewrite Z.mod_pow2_bits_high; [done|lia].
Qed.

Lemma testbit_above n w i : 0 <= n < 2 ^ w -> w <= i -> 0 <= w -> Z.testbit n i = false.
Proof.
  intros Hn Hi Hw. rewrite <- (Z.mod_small n (2 ^ w)) by done.
  apply Z.mod_pow2_bits_high. lia.
Qed.

(** Bits below [w] bound a nonnegative integer. *)
Lemma bits_bound n w :
  0 <= w -> 0 <= n -> (forall i, w <= i -> Z.testbit n i = false) -> n < 2 ^ w.
Proof.
  intros Hw Hn Hb.
  assert (n = n mod 2 ^ w) as ->.
  { apply Z.bits_inj'. intros i Hi. destruct (Z.lt_ge_cases i w).
    - by rewrite Z.mod_pow2_bits_low.
    - rewrite Z.mod_pow2_bits_high by lia. by apply Hb. }
  apply Z.mod_pos_bound. lia.
Qed.

Lemma lxor_bound a b w :
  0 <= w -> 0 <= a < 2 ^ w -> 0 <= b < 2 ^ w -> 0 <= Z.lxor a b < 2 ^ w.
Proof.
  intros Hw Ha Hb. assert (0 <= Z.lxor a b) by (apply Z.lxor_nonneg; lia).
  split; [done|]. apply bits_bound; [done..|]. intros i Hi.
  rewrite Z.lxor_spec, (testbit_above a w i), (testbit_above b w i) by lia. done.
Qed.

Lemma lor_bound a b w :
  0 <= w -> 0 <= a < 2 ^ w -> 0 <= b < 2 ^ w -> 0 <= Z.lor a b < 2 ^ w.
Proof.
  intros Hw Ha Hb. assert (0 <= Z.lor a b) by (apply Z.lor_nonneg; lia).
  split; [done|]. apply bits_bound; [done..|]. intros i Hi.
  rewrite Z.lor_spec, (testbit_above a w i), (testbit_above b w i) by lia. done.
Qed.

Lemma i32_small z : - 2 ^ 31 <= z < 2 ^ 31 -> i32 z = z.
Proof. intros H. unfold i32. rewrite Z.mod_small; lia. Qed.

(** A boolean property of a bounded integer, by evaluation. *)
Lemma range_forallb (P : Z -> bool) (n : Z) :
  forallb P (seqZ 0 n) = true -> forall z, 0 <= z < n -> P z = true.
Proof.
  rewrite forallb_forall. intros H z Hz. apply H, list_elem_of_In, elem_of_seqZ. lia.
Qed.

Lemma land_ones_bound a w : 0 <= w -> 0 <= Z.land a (Z.ones w) < 2 ^ w.
Proof. intros Hw. rewrite Z.land_ones by done. apply Z.mod_pos_bound. lia. Qed.
End Wrap.

(** ** Generic list lemmas *)
Section Lists.
Context {A B : Type}.

Lemma fold_left_snoc (f : B -> A -> B) (l : list A) (x : A) (b : B) :
  fold_left f (l ++ [x]) b = f (fold_left f l b) x.
Proof. by rewrite fold_left_app. Qed.

Lemma bytes_ok_app l k : bytes_ok (l ++ k) <-> bytes_ok l /\ bytes_ok k.
Proof. apply Forall_app. Qed.

Lemma bytes_ok_cons b l : bytes_ok (b :: l) <-> byte_ok b /\ bytes_ok l.
Proof. apply Forall_cons_iff. Qed.
Lemma bytes_ok_snoc l b : bytes_ok (l ++ [b]) <-> bytes_ok l /\ byte_ok b.
Proof. rewrite bytes_ok_app, bytes_ok_cons. split; [tauto|]. intros []. split; [done|]. split; [done|constructor]. Qed.

Lemma fold_left_invariant (P : B -> Prop) (f : B -> A -> B) (l : list A) (b : B) :
  P b -> (forall b x, P b -> x ∈ l -> P (f b x)) -> P (fold_left f l b).
Proof.
  revert b. induction l as [|x l IH]; intros b Hb Hstep; [done|]. simpl.
  apply IH; [apply Hstep; [done|by left]|].
  intros b' y Hb' Hy. apply Hstep; [done|by right].
Qed.
End Lists.

(** A map built by inserting, in some order, the entries of the elements that satisfy [p]. *)
Section InsertAll.
Context {X V : Type} `{Countable K} (p : X -> bool) (k : X -> K) (v : X -> V).

Lemma fold_insert_lookup (l : list X) key y :
  (forall a b, a ∈ l -> b ∈ l -> p a = true -> p b = true -> k a = k b -> a = b) ->
  fold_left (fun (m : gmap K V) x => if p x then <[k x := v x]> m else m) l ∅ !! key = Some y <->
  exists x, x ∈ l /\ p x = true /\ k x = key /\ v x = y.
Proof.
  induction l as [|x l IH] using rev_ind; intros Hinj.
  - cbn [fold_left]. rewrite lookup_empty. split; [done|]. intros (x & Hx & _). by apply elem_of_nil in Hx.
  - rewrite fold_left_snoc. specialize (IH ltac:(set_solver)). destruct (p x) eqn:Ep.
    + rewrite lookup_insert_Some, IH. split.
      * intros [[<- <-]|[? (z & Hz & ?)]]; [exists x|exists z]; (split; [set_solver|done]).
      * intros (z & Hz & Epz & <- & <-). destruct (decide (k x = k z)) as [E|E].
        -- left. assert (x = z) as <- by (apply Hinj; [set_solver|done..]). done.
        -- right. split; [done|]. exists z. split; [|done]. apply elem_of_app in Hz as [?|Hz%list_elem_of_singleton]; [done|congruence].
    + rewrite IH. split; intros (z & Hz & Epz & ?); exists z; (split; [|done]); [set_solver|].
      apply elem_of_app in Hz as [?|Hz%list_elem_of_singleton]; [done|congruence].
Qed.
End InsertAll.

(** The best element of a scan: [better b y] replaces [b] by [y]. *)
Section Best.
Context {A : Type} (better : A -> A -> bool) (R : A -> A -> Prop).
Context (R_refl : forall x, R x x) (R_trans : forall x y z, R x y -> R y z -> R x z).
Context (better_spec : forall b y, if better b y then R b y else R y b).

Lemma fold_best (l : list A) (x : A) :
  let m := fold_left (fun best y => if better best y then y else best) l x in
  m ∈ x :: l /\ forall y, y ∈ x :: l -> R y m.
Proof.
  induction l as [|z l IH] using rev_ind.
  - split; [by left|]. by intros y ->%list_elem_of_singleton.
  - rewrite fold_left_snoc. set (m := fold_left _ l x) in *. destruct IH as [Hin Hle].
    assert (forall y, y ∈ x :: l ++ [z] -> y ∈ x :: l \/ y = z) as Hy by set_solver.
    pose proof (better_spec m z) as Hb. destruct (better m z); (split; [set_solver|]); intros y [Hm|Hz]%Hy.
    + by eapply R_trans; [apply Hle|].
    + by rewrite Hz.
    + by apply Hle.
    + by rewrite Hz.
Qed.
End Best.

(** ** Stable sorting: [sort_by] with a total order given as "less or equal" *)
Section StableSort.
Context {A : Type} (le : A -> A -> bool).

Fixpoint sort_insert (x : A) (l : list A) : list A :=
  match l with
  | [] => [x]
  | y :: l' => if le x y then x :: l else y :: sort_insert x l'
  end.
Definition stable_sort (l : list A) : list A := foldr sort_insert [] l.

Lemma sort_insert_perm x l : sort_insert x l ≡ₚ x :: l.
Proof.
  induction l as [|y l IH]; [done|]. simpl. destruct (le x y); [done|].
  rewrite IH. apply perm_swap.
Qed.
Lemma stable_sort_perm l : stable_sort l ≡ₚ l.
Proof. induction l as [|x l IH]; [done|]. simpl. by rewrite sort_insert_perm, IH. Qed.
Lemma stable_sort_length l : length (stable_sort l) = length l.
Proof. apply Permutation_length, stable_sort_perm. Qed.

Context (le_total : forall x y, le x y = true \/ le y x = true).
Context (le_trans : forall x y z, le x y = true -> le y z = true -> le x z = true).

Lemma sort_insert_sorted x l :
  StronglySorted (fun a b => le a b = true) l -> StronglySorted (fun a b => le a b = true) (sort_insert x l).
Proof.
  induction 1 as [|y l Hl IH Hy]; simpl; [by repeat constructor|]. destruct (le x y) eqn:E.
  - constructor; [by constructor|]. constructor; [done|].
    eapply list.Forall_impl; [exact Hy|]. intros z Hz. by eapply le_trans.
  - constructor; [done|]. rewrite sort_insert_perm. constructor; [|done].
    destruct (le_total x y); congruence.
Qed.
Lemma stable_sort_sorted l : StronglySorted (fun a b => le a b = true) (stable_sort l).
Proof. induction l as [|x l IH]; [constructor|]. by apply sort_insert_sorted. Qed.
End StableSort.
Lemma sort_insert_fmap {A B} (f : A -> B) (le : A -> A -> bool) (le' : B -> B -> bool) x l :
  (forall x y, le' (f x) (f y) = le x y) -> sort_insert le' (f x) (f <$> l) = f <$> sort_insert le x l.
Proof.
  intros Hle. induction l as [|y l IH]; [done|]. rewrite fmap_cons. cbn [sort_insert]. rewrite Hle.
  destruct (le x y); [done|]. by rewrite IH.
Qed.
Lemma stable_sort_fmap {A B} (f : A -> B) (le : A -> A -> bool) (le' : B -> B -> bool) l :
  (forall x y, le' (f x) (f y) = le x y) -> stable_sort le' (f <$> l) = f <$> stable_sort le l.
Proof.
  intros Hle. induction l as [|x l IH]; [done|]. rewrite fmap_cons. cbn [stable_sort foldr]. fold (stable_sort le l).
  fold (stable_sort le' (f <$> l)). rewrite IH. by apply sort_insert_fmap.
Qed.

(** Unordered iteration over a [HashMap]: the order is unspecified, so it is an
    argument of the development; all that is known is that it visits the entries
    of the map, each once. *)
Class HashIter (K A : Type) `{Countable K} := {
  hash_iter : gmap K A -> list (K * A);
  hash_iter_perm m : hash_iter m ≡ₚ map_to_list m
}.

(** One admissible order: that of [map_to_list]. *)
Program Definition hash_iter_list (K A : Type) `{Countable K} : HashIter K A :=
  {| hash_iter m := map_to_list m |}.
Next Obligation. done. Qed.

Section HashIterLemmas.
Context {A : Type} `{Countable K} `{!HashIter K A}.

Lemma elem_of_hash_iter (m : gmap K A) k x : (k, x) ∈ hash_iter m <-> m !! k = Some x.
Proof. rewrite hash_iter_perm. apply elem_of_map_to_list. Qed.
Lemma NoDup_hash_iter (m : gmap K A) : NoDup (hash_iter m).*1.
Proof. rewrite hash_iter_perm. apply NoDup_fst_map_to_list. Qed.
End HashIterLemmas.

(** Reachability of a step relation, and invariants by rule induction. *)
Section Reach.
Context {S : Type} (init : S -> Prop) (step : S -> S -> Prop).

Inductive reachable : S -> Prop :=
| reach_init s : init s -> reachable s
| reach_step s s' : reachable s -> step s s' -> reachable s'.

Lemma invariant_reachable (I : S -> Prop) :
  (forall s, init s -> I s) -> (forall s s', I s -> step s s' -> I s') ->
  forall s, reachable s -> I s.
Proof. intros Hi Hs s Hr. induction Hr; eauto. Qed.
End Reach.
