(* ===== verification/F64.v ===== *)
(** * IEEE 754 binary64, the type [f64]

    Arithmetic of the language, on the Standard Library's [spec_float] at
    precision 53 and maximal exponent 1024: [+ - * / sqrt], comparisons,
    [floor], [round], [trunc], [%], [min]/[max]/[clamp]/[abs], [as]-casts and
    literals, all executable.  Functions whose result the standard library
    leaves to the platform ([sin], [cos], [acos], [atan2], [ln], [powi], ...)
    are the fields of the record [Libm], a parameter of the definitions
    that use them.  The order lemmas hold for every value, NaN and
    infinities included. *)
From S2P Require Import Prelude.
From Stdlib Require Export SpecFloat.
Local Open Scope Z_scope.

Abbreviation f64 := spec_float.
#[export] Instance f64_eq_dec : EqDecision f64.
Proof. solve_decision. Defined.
Declare Scope f64_scope.
Delimit Scope f64_scope with f64.

Definition fadd : f64 -> f64 -> f64 := SFadd 53 1024.
Definition fsub : f64 -> f64 -> f64 := SFsub 53 1024.
Definition fmul : f64 -> f64 -> f64 := SFmul 53 1024.
Definition fdiv : f64 -> f64 -> f64 := SFdiv 53 1024.
Definition fsqrt : f64 -> f64 := SFsqrt 53 1024.
Definition fneg : f64 -> f64 := SFopp.
Definition fabs : f64 -> f64 := SFabs.
Definition flt (x y : f64) : bool := SFltb x y.
Definition fle (x y : f64) : bool := SFleb x y.
Definition feq (x y : f64) : bool := SFeqb x y.

Infix "+" := fadd : f64_scope.
Infix "-" := fsub : f64_scope.
Infix "*" := fmul : f64_scope.
Infix "/" := fdiv : f64_scope.
Notation "- x" := (fneg x) : f64_scope.
Infix "<?" := flt : f64_scope.
Infix "<=?" := fle : f64_scope.
Infix "=?" := feq : f64_scope.
Notation "x >? y" := (flt y x) (only parsing) : f64_scope.
Notation "x >=? y" := (fle y x) (only parsing) : f64_scope.

Definition fnan : f64 := S754_nan.
Definition finf : f64 := S754_infinity false.
Definition fzero : f64 := S754_zero false.
Definition is_nan (x : f64) : bool := match x with S754_nan => true | _ => false end.
Definition is_finite (x : f64) : bool :=
  match x with S754_nan | S754_infinity _ => false | _ => true end.
Definition sign_of (x : f64) : bool :=
  match x with S754_zero s | S754_infinity s | S754_finite s _ _ => s | S754_nan => false end.

(** [z as f64] (round to nearest, ties to even). *)
Definition of_Z (z : Z) : f64 := binary_normalize 53 1024 z 0 false.
(** The literal [n/d], correctly rounded. *)
Definition lit (n d : positive) : f64 :=
  fdiv (S754_finite false n 0) (S754_finite false d 0).

(** The integer a finite value truncates to, and its floor. *)
Definition trunc_Z (x : f64) : Z :=
  match x with
  | S754_finite s m e => cond_Zopp s (Z.shiftl (Zpos m) e)
  | _ => 0
  end.
Definition floor_Z (x : f64) : Z :=
  match x with
  | S754_finite s m e => Z.shiftl (cond_Zopp s (Zpos m)) e
  | _ => 0
  end.
(** Round half away from zero. *)
Definition round_Z (x : f64) : Z :=
  match x with
  | S754_finite s m e =>
      cond_Zopp s (if 0 <=? e then Z.shiftl (Zpos m) e
                   else Z.shiftr (Z.shiftl (Zpos m) 1 + Z.shiftl 1 (- e)) (1 - e))
  | _ => 0
  end.

Definition integral (r : f64 -> Z) (x : f64) : f64 :=
  match x with
  | S754_finite s _ _ => binary_normalize 53 1024 (r x) 0 s
  | _ => x
  end.
Definition ffloor : f64 -> f64 := integral floor_Z.
Definition fround : f64 -> f64 := integral round_Z.

(** [x % y]: exact remainder with the sign of [x]. *)
Definition frem (x y : f64) : f64 :=
  match x, y with
  | S754_nan, _ | _, S754_nan | S754_infinity _, _ | _, S754_zero _ => S754_nan
  | S754_zero _, _ | _, S754_infinity _ => x
  | S754_finite sx mx ex, S754_finite _ my ey =>
      let ez := Z.min ex ey in
      let r := Z.modulo (Z.shiftl (Zpos mx) (ex - ez)) (Z.shiftl (Zpos my) (ey - ez)) in
      binary_normalize 53 1024 (cond_Zopp sx r) ez sx
  end.

Definition fmax (x y : f64) : f64 :=
  if is_nan x then y else if is_nan y then x else if flt x y then y else x.
Definition fmin (x y : f64) : f64 :=
  if is_nan x then y else if is_nan y then x else if flt y x then y else x.
Definition fclamp (x lo hi : f64) : f64 :=
  if flt x lo then lo else if flt hi x then hi else x.
(** [(lo..=hi).contains(&x)]. *)
Definition fin_range (lo hi x : f64) : bool := fle lo x && fle x hi.

(** [x as T] for an integer type with the given bounds: truncation toward zero,
    saturation at the bounds, NaN to zero. *)
Definition fcast (lo hi : Z) (x : f64) : Z :=
  match x with
  | S754_nan => 0
  | S754_infinity s => if s then lo else hi
  | _ => sat lo hi (trunc_Z x)
  end.
Definition as_u32 : f64 -> Z := fcast 0 (2 ^ 32 - 1).
Definition as_u64 : f64 -> Z := fcast 0 (2 ^ 64 - 1).
Definition as_i16 : f64 -> Z := fcast (- 2 ^ 15) (2 ^ 15 - 1).
Definition as_i32 : f64 -> Z := fcast (- 2 ^ 31) (2 ^ 31 - 1).
Definition as_i64 : f64 -> Z := fcast (- 2 ^ 63) (2 ^ 63 - 1).
Definition as_i128 : f64 -> Z := fcast (- 2 ^ 127) (2 ^ 127 - 1).

(** [f64::total_cmp], as "less or equal": a total order with [-0 < +0] and the
    (positive) NaN above every other value. *)
Definition total_le (x y : f64) : bool :=
  match SFcompare x y with
  | Some Lt => true
  | Some Gt => false
  | Some Eq => match x, y with S754_zero sx, S754_zero sy => sx || negb sy | _, _ => true end
  | None => is_nan y
  end.

(** Platform functions of the standard library. *)
Record Libm := {
  lm_sin : f64 -> f64; lm_cos : f64 -> f64; lm_acos : f64 -> f64; lm_asin : f64 -> f64;
  lm_atan2 : f64 -> f64 -> f64; lm_ln : f64 -> f64; lm_powi : f64 -> Z -> f64
}.

Definition PI : f64 := Eval vm_compute in lit 884279719003555 281474976710656.
(** [x.to_radians()] and [x.to_degrees()]. *)
Definition DEG : f64 := Eval vm_compute in fdiv (of_Z 180) PI.
Definition RAD : f64 := Eval vm_compute in fdiv PI (of_Z 180).
Definition to_radians (x : f64) : f64 := fmul x RAD.
Definition to_degrees (x : f64) : f64 := fmul x DEG.

(** ** Order *)
Section Order.
Definition key (x : f64) : option (Z * Z * Z) :=
  match x with
  | S754_nan => None
  | S754_infinity true => Some (-2, 0, 0)
  | S754_finite true m e => Some (-1, - e, - Zpos m)
  | S754_zero _ => Some (0, 0, 0)
  | S754_finite false m e => Some (1, e, Zpos m)
  | S754_infinity false => Some (2, 0, 0)
  end.
Definition key_lt (a b : Z * Z * Z) : Prop :=
  let '(a1, a2, a3) := a in let '(b1, b2, b3) := b in
  a1 < b1 \/ (a1 = b1 /\ (a2 < b2 \/ (a2 = b2 /\ a3 < b3))).

Lemma compare_key x y :
  match SFcompare x y, key x, key y with
  | None, _, None | None, None, _ => True
  | Some Lt, Some a, Some b => key_lt a b
  | Some Gt, Some a, Some b => key_lt b a
  | Some Eq, Some a, Some b => a = b
  | _, _, _ => False
  end.
Proof.
  destruct x as [[]|[]| |[] mx ex], y as [[]|[]| |[] my ey]; simpl; try done;
    try lia; try (left; lia).
  all: change (Pos.compare_cont Eq mx my) with (Pos.compare mx my).
  all: destruct (Z.compare_spec ex ey) as [->| |]; simpl;
    [destruct (Pos.compare_spec mx my) as [->| |]; simpl|..]; try done; lia.
Qed.

(** Comparisons as boolean functions of the keys. *)
Definition klt (a b : option (Z * Z * Z)) : bool :=
  match a, b with
  | Some (a1, a2, a3), Some (b1, b2, b3) =>
      (a1 <? b1)%Z || (a1 =? b1)%Z && ((a2 <? b2)%Z || (a2 =? b2)%Z && (a3 <? b3)%Z)
  | _, _ => false
  end.
Definition kle (a b : option (Z * Z * Z)) : bool :=
  match a, b with Some _, Some _ => negb (klt b a) | _, _ => false end.

Lemma flt_key x y : flt x y = klt (key x) (key y).
Proof.
  unfold flt, SFltb. pose proof (compare_key x y) as H.
  destruct (SFcompare x y) as [[]|], (key x) as [[[? ?] ?]|], (key y) as [[[? ?] ?]|];
    simplify_eq; simpl in *; try done; lia.
Qed.
Lemma fle_key x y : fle x y = kle (key x) (key y).
Proof.
  unfold fle, SFleb. pose proof (compare_key x y) as H.
  destruct (SFcompare x y) as [[]|], (key x) as [[[? ?] ?]|], (key y) as [[[? ?] ?]|];
    simplify_eq; simpl in *; try done; lia.
Qed.
Lemma is_nan_key x : is_nan x = match key x with None => true | _ => false end.
Proof. by destruct x as [[]|[]| |[]]. Qed.

Ltac ord :=
  intros; rewrite ?flt_key, ?fle_key, ?is_nan_key in *;
  repeat match goal with
  | |- context [key ?x] => destruct (key x) as [[[? ?] ?]|]
  | H : context [key ?x] |- _ => destruct (key x) as [[[? ?] ?]|]
  end; simpl in *; try done; lia.

Lemma flt_irrefl x : flt x x = false.
Proof. ord. Qed.
Lemma flt_trans x y z : flt x y = true -> flt y z = true -> flt x z = true.
Proof. ord. Qed.
Lemma fle_trans x y z : fle x y = true -> fle y z = true -> fle x z = true.
Proof. ord. Qed.
Lemma flt_le_trans x y z : flt x y = true -> fle y z = true -> flt x z = true.
Proof. ord. Qed.
Lemma fle_lt_trans x y z : fle x y = true -> flt y z = true -> flt x z = true.
Proof. ord. Qed.
Lemma flt_fle x y : flt x y = true -> fle x y = true.
Proof. ord. Qed.
Lemma flt_not_le x y : flt x y = true -> fle y x = false.
Proof. ord. Qed.
Lemma fle_not_lt x y : fle x y = true -> flt y x = false.
Proof. ord. Qed.
Lemma fle_refl x : is_nan x = false -> fle x x = true.
Proof. ord. Qed.
(** On non-NaN values the order is total. *)
Lemma fnot_lt_le x y : is_nan x = false -> is_nan y = false -> flt x y = false -> fle y x = true.
Proof. ord. Qed.
Lemma flt_nan_l x y : is_nan x = true -> flt x y = false.
Proof. by destruct x. Qed.
Lemma flt_nan_r x y : is_nan y = true -> flt x y = false.
Proof. by destruct x as [[]|[]| |[]], y. Qed.
Lemma fle_nan_l x y : is_nan x = true -> fle x y = false.
Proof. by destruct x. Qed.
Lemma fle_nan_r x y : is_nan y = true -> fle x y = false.
Proof. by destruct x as [[]|[]| |[]], y. Qed.
Lemma fle_not_nan x y : fle x y = true -> is_nan x = false /\ is_nan y = false.
Proof. by destruct x as [[]|[]| |[]], y as [[]|[]| |[]]. Qed.
Lemma flt_not_nan x y : flt x y = true -> is_nan x = false /\ is_nan y = false.
Proof. intros ?%flt_fle. by apply fle_not_nan. Qed.

(** [clamp] lands in its interval for every non-NaN argument. *)
Lemma fclamp_range x lo hi :
  is_nan x = false -> fle lo hi = true ->
  fle lo (fclamp x lo hi) = true /\ fle (fclamp x lo hi) hi = true.
Proof.
  intros Hx Hlh. destruct (fle_not_nan _ _ Hlh). unfold fclamp.
  destruct (flt x lo) eqn:E1; [split; [by apply fle_refl|done]|].
  destruct (flt hi x) eqn:E2; [split; [done|by apply fle_refl]|].
  split; by apply fnot_lt_le.
Qed.
Lemma fmax_not_nan x y : is_nan y = false -> is_nan (fmax x y) = false.
Proof. intros Hy. unfold fmax. rewrite Hy. destruct (is_nan x) eqn:?, (flt x y); done. Qed.
Lemma fmax_ge_r x y : is_nan y = false -> fle y (fmax x y) = true.
Proof.
  intros Hy. unfold fmax. rewrite Hy. destruct (is_nan x) eqn:Hx; [by apply fle_refl|].
  destruct (flt x y) eqn:E; [by apply fle_refl|by apply fnot_lt_le].
Qed.
End Order.

(** ** [total_cmp] is a total order with NaN last *)
Section TotalOrder.
Definition tkey (x : f64) : Z * Z * Z :=
  match x with
  | S754_nan => (3, 0, 0)
  | S754_zero s => (0, if s then 0 else 1, 0)
  | _ => default (0, 0, 0) (key x)
  end.
Definition tle (a b : Z * Z * Z) : bool :=
  let '(a1, a2, a3) := a in let '(b1, b2, b3) := b in
  (a1 <? b1)%Z || (a1 =? b1)%Z && ((a2 <? b2)%Z || (a2 =? b2)%Z && (a3 <=? b3)%Z).
Lemma total_le_key x y : total_le x y = tle (tkey x) (tkey y).
Proof.
  unfold total_le. destruct x as [[]|[]| |[] mx ex], y as [[]|[]| |[] my ey]; try done; simpl;
    change (Pos.compare_cont Eq mx my) with (Pos.compare mx my).
  all: destruct (Z.compare_spec ex ey) as [->| |]; simpl;
    [destruct (Pos.compare_spec mx my) as [->| |]; simpl|..]; try lia.
Qed.
Lemma total_le_total x y : total_le x y = true \/ total_le y x = true.
Proof. rewrite !total_le_key. destruct (tkey x) as [[? ?] ?], (tkey y) as [[? ?] ?]. simpl. lia. Qed.
Lemma total_le_trans x y z : total_le x y = true -> total_le y z = true -> total_le x z = true.
Proof.
  rewrite !total_le_key. destruct (tkey x) as [[? ?] ?], (tkey y) as [[? ?] ?], (tkey z) as [[? ?] ?]. simpl. lia.
Qed.
Lemma total_le_down a b t : total_le a b = true -> fle b t = true -> fle a t = true.
Proof.
  rewrite total_le_key, !fle_key. unfold tkey.
  destruct a as [[]|[]| |[] ma ea], b as [[]|[]| |[] mb eb], t as [[]|[]| |[] mt et]; cbn; try done; lia.
Qed.
Lemma total_le_fle x y : total_le x y = true -> is_nan y = false -> fle x y = true.
Proof. intros Ht Hy. eapply total_le_down; [exact Ht|by apply fle_refl]. Qed.
Lemma total_le_neg_inf x : total_le x (S754_infinity true) = true -> x = S754_infinity true.
Proof. by destruct x as [[]|[]| |[]]. Qed.
End TotalOrder.

(** ** Differences *)
Lemma binary_normalize_0 e s : binary_normalize 53 1024 0 e s = S754_zero s.
Proof. done. Qed.
(** A finite value minus itself is a zero. *)
Lemma fsub_self x : is_finite x = true -> exists s, fsub x x = S754_zero s.
Proof.
  destruct x as [s| | |s m e]; try done; intros _; [by destruct s; eexists|].
  unfold fsub, SFsub. rewrite Z.sub_diag. by eexists.
Qed.
(** A difference from a value that is not finite, other than the negative infinity, is
    never below a bound. *)
Lemma fsub_infinite_le x y b : is_finite x = false -> x <> S754_infinity true \/ x = y -> is_finite b = true ->
  fle (fsub x y) b = false.
Proof.
  intros Hx Hy Hb. destruct x as [|[]| |]; try done.
  - destruct Hy as [|<-]; done.
  - destruct y as [[]|[]| |[]], b as [[]| | |[]]; done.
Qed.

(** ** Casts stay in the range of the target type *)
Lemma fcast_range lo hi x : lo <= 0 <= hi -> lo <= fcast lo hi x <= hi.
Proof. intros H. destruct x as [[]|[]| |s m e]; unfold fcast, sat; simpl; lia. Qed.

(** ** Executable sanity checks *)
Example f64_add : (lit 1 10 + lit 2 10)%f64 = lit 3000000000000000444 10000000000000000000.
Proof. vm_compute. reflexivity. Qed.
Example f64_rem : frem (fneg (of_Z 7)) (of_Z 4) = fneg (of_Z 3).
Proof. vm_compute. reflexivity. Qed.
Example f64_round : (round_Z (lit 5 2), round_Z (fneg (lit 5 2)), floor_Z (fneg (lit 5 2))) = (3, -3, -3).
Proof. vm_compute. reflexivity. Qed.
Example f64_cast : (as_u32 fnan, as_u32 (fneg (of_Z 5)), as_i16 (of_Z 70000)) = (0, 0, 32767).
Proof. vm_compute. reflexivity. Qed.
