(* ===== verification/F64Int.v ===== *)
(** * Integers in binary64

    Integers below 2^53 are represented exactly, and so are their sums; their order is that
    of the floats.  Loops that count in floats are bounded with these lemmas. *)
From S2P Require Import Prelude F64.
From Stdlib Require Import SpecFloat.
Local Open Scope Z_scope.

Section Exact.
Definition digits (n : positive) : Z := Zpos (digits2_pos n).
Lemma digits_log2 n : digits n = Z.log2 (Zpos n) + 1.
Proof.
  unfold digits. induction n as [n IH|n IH|]; cbn [digits2_pos]; [| |done]; rewrite Pos2Z.inj_succ, IH.
  - pose proof (Z.log2_succ_double (Zpos n)) as E. change (2 * Zpos n + 1) with (Zpos n~1) in E. rewrite E by lia. lia.
  - pose proof (Z.log2_double (Zpos n)) as E. change (2 * Zpos n) with (Zpos n~0) in E. rewrite E by lia. lia.
Qed.
Lemma digits_pow2 (m n : positive) j : 0 <= j -> Zpos m = Zpos n * 2 ^ j -> digits m = digits n + j.
Proof. intros Hj E. rewrite !digits_log2, E, Z.log2_mul_pow2 by lia. lia. Qed.
Lemma digits_bound n : 0 < digits n /\ (Zpos n < 2 ^ 53 -> digits n <= 53).
Proof.
  rewrite digits_log2. pose proof (Z.log2_nonneg (Zpos n)). split; [lia|]. intros Hn.
  apply Z.log2_lt_pow2 in Hn; lia.
Qed.
(** Shifting right what is a multiple of the power loses nothing. *)
Lemma shr_1_double m : 0 < m -> shr_1 (Build_shr_record (m * 2) false false) = Build_shr_record m false false.
Proof. intros Hm. destruct m as [|p|p]; [done| |done]. by rewrite Z.mul_comm. Qed.
Lemma iter_shr p m : 0 < m ->
  iter_pos shr_1 p (Build_shr_record (m * 2 ^ Zpos p) false false) = Build_shr_record m false false.
Proof.
  revert m. induction p as [p IH|p IH|]; intros m Hm; cbn [iter_pos].
  - rewrite (Pos2Z.inj_xI p). replace (m * 2 ^ (2 * Zpos p + 1)) with (m * 2 ^ Zpos p * 2 ^ Zpos p * 2)
      by (rewrite Z.pow_add_r, <- Z.add_diag, Z.pow_add_r by lia; ring).
    rewrite shr_1_double, !IH by nia. done.
  - rewrite (Pos2Z.inj_xO p). replace (m * 2 ^ (2 * Zpos p)) with (m * 2 ^ Zpos p * 2 ^ Zpos p)
      by (rewrite <- Z.add_diag, Z.pow_add_r by lia; ring).
    by rewrite !IH by nia.
  - by apply shr_1_double.
Qed.
Lemma iter_xO d m : Zpos (Pos.iter xO m d) = Zpos m * 2 ^ Zpos d.
Proof.
  rewrite <- Pos2Z.inj_pow, <- Pos2Z.inj_mul. f_equal. induction d as [|d IH] using Pos.peano_ind; [cbn; lia|].
  rewrite Pos.iter_succ, IH, Pos.pow_succ_r. lia.
Qed.

(** The float of a positive integer: its digits, scaled to 53 of them. *)
Definition scaled (n : positive) : positive := Z.to_pos (Zpos n * 2 ^ (53 - digits n)).
Lemma scaled_val n : digits n <= 53 -> Zpos (scaled n) = Zpos n * 2 ^ (53 - digits n).
Proof. intros Hd. unfold scaled. rewrite Z2Pos.id; [done|]. pose proof (Z.pow_pos_nonneg 2 (53 - digits n)). nia. Qed.
Definition int_float (n : positive) : f64 := S754_finite false (scaled n) (digits n - 53).

Lemma scaled_digits n : digits n <= 53 -> digits (scaled n) = 53.
Proof. intros Hd. rewrite (digits_pow2 (scaled n) n (53 - digits n)); [lia|lia|by apply scaled_val]. Qed.
Lemma fexp_small d : 0 < d <= 53 -> fexp 53 1024 d = d - 53.
Proof. intros Hd. unfold fexp, emin. lia. Qed.
(** A mantissa of 53 digits is final. *)
Lemma round_aux_final n : digits n <= 53 ->
  binary_round_aux 53 1024 false (Zpos (scaled n)) (digits n - 53) loc_Exact = int_float n.
Proof.
  intros Hd. pose proof (proj1 (digits_bound n)). unfold binary_round_aux, shr_fexp.
  change (Zdigits2 (Zpos (scaled n))) with (digits (scaled n)). rewrite scaled_digits by done.
  rewrite fexp_small by lia. replace (53 + (digits n - 53) - 53 - (digits n - 53)) with 0 by lia.
  cbn [shr shr_record_of_loc shr_m loc_of_shr_record round_nearest_even].
  change (Zdigits2 (Zpos (scaled n))) with (digits (scaled n)). rewrite scaled_digits by done.
  rewrite fexp_small by lia. replace (53 + (digits n - 53) - 53 - (digits n - 53)) with 0 by lia. cbn [shr shr_m].
  by rewrite (proj2 (Z.leb_le (digits n - 53) (1024 - 53))) by lia.
Qed.
Lemma normalize_exact (m n : positive) j : digits n <= 53 -> 0 <= j -> Zpos m = Zpos n * 2 ^ j ->
  binary_normalize 53 1024 (Zpos m) (- j) false = int_float n.
Proof.
  intros Hd Hj Hm. pose proof (proj1 (digits_bound n)) as Hd0. cbn [binary_normalize]. unfold binary_round.
  change (Zpos (digits2_pos m)) with (digits m). rewrite (digits_pow2 m n j) by done.
  rewrite fexp_small by lia. unfold shl_align. replace (digits n + j + - j - 53 - - j) with (digits n + j - 53) by lia.
  destruct (digits n + j - 53) as [|k|k] eqn:Ek.
  - replace (Zpos m) with (Zpos (scaled n)) by (rewrite scaled_val, Hm by done; do 2 f_equal; lia).
    replace (- j) with (digits n - 53) by lia. by apply round_aux_final.
  - unfold binary_round_aux at 1. unfold shr_fexp at 1. change (Zdigits2 (Zpos m)) with (digits m).
    rewrite (digits_pow2 m n j) by done. rewrite fexp_small by lia.
    replace (digits n + j + - j - 53 - - j) with (Zpos k) by lia. cbn [shr shr_record_of_loc].
    replace (Zpos m) with (Zpos (scaled n) * 2 ^ Zpos k)
      by (rewrite scaled_val, Hm, <- Z.mul_assoc, <- Z.pow_add_r by lia; do 2 f_equal; lia).
    rewrite iter_shr by lia. cbn [shr_m loc_of_shr_record round_nearest_even]. replace (- j + Zpos k) with (digits n - 53) by lia.
    pose proof (round_aux_final n Hd) as Hf. unfold binary_round_aux in Hf. unfold shr_fexp at 1 in Hf.
    change (Zdigits2 (Zpos (scaled n))) with (digits (scaled n)) in Hf. rewrite scaled_digits in Hf by done.
    rewrite fexp_small in Hf by lia. replace (53 + (digits n - 53) - 53 - (digits n - 53)) with 0 in Hf by lia.
    cbn [shr shr_record_of_loc shr_m loc_of_shr_record round_nearest_even] in Hf. exact Hf.
  - assert (Zpos (Pos.iter xO m k) = Zpos (scaled n)) as ->.
    { rewrite iter_xO, scaled_val, Hm, <- Z.mul_assoc, <- Z.pow_add_r by lia. do 2 f_equal. lia. }
    replace (digits n + j + - j - 53) with (digits n - 53) by lia. by apply round_aux_final.
Qed.

Lemma of_Z_float n : digits n <= 53 -> of_Z (Zpos n) = int_float n.
Proof. intros Hd. apply (normalize_exact n n 0); [done|lia|lia]. Qed.
Lemma shl_align_val (m : positive) e e' : e' <= e -> Zpos (shl_align m e e').1 = Zpos m * 2 ^ (e - e').
Proof.
  intros He. unfold shl_align. destruct (e' - e) as [|k|k] eqn:Ek; [|lia|]; cbn [fst].
  - replace (e - e') with 0 by lia. lia.
  - rewrite iter_xO. do 2 f_equal. lia.
Qed.

(** Sums of integers below 2^53 are exact. *)
Lemma of_Z_add a b : 0 <= a -> 0 <= b -> a + b < 2 ^ 53 -> fadd (of_Z a) (of_Z b) = of_Z (a + b).
Proof.
  intros Ha Hb Hab. destruct a as [|a|a]; [|destruct b as [|b|b]|]; try lia.
  - rewrite Z.add_0_l. unfold fadd. change (of_Z 0) with (S754_zero false). destruct b as [|b|b]; [done| |lia].
    by rewrite of_Z_float by (apply digits_bound; lia).
  - rewrite Z.add_0_r. by rewrite of_Z_float by (apply digits_bound; lia).
  - pose proof (proj2 (digits_bound a) ltac:(lia)) as Da. pose proof (proj2 (digits_bound b) ltac:(lia)) as Db.
    change (Zpos a + Zpos b) with (Zpos (a + b)) in *. pose proof (proj2 (digits_bound (a + b)) Hab) as Dab.
    rewrite !of_Z_float by done. unfold int_float at 1 2. unfold fadd. cbn [SFadd cond_Zopp].
    set (ez := Z.min (digits a - 53) (digits b - 53)).
    assert (Zpos (shl_align (scaled a) (digits a - 53) ez).1 = Zpos a * 2 ^ (- ez)) as Ea.
    { rewrite shl_align_val, scaled_val, <- Z.mul_assoc, <- Z.pow_add_r by lia. do 2 f_equal. lia. }
    assert (Zpos (shl_align (scaled b) (digits b - 53) ez).1 = Zpos b * 2 ^ (- ez)) as Eb.
    { rewrite shl_align_val, scaled_val, <- Z.mul_assoc, <- Z.pow_add_r by lia. do 2 f_equal. lia. }
    change (Zpos ?x + Zpos ?y) with (Zpos (x + y)). replace ez with (- - ez) at 3 by lia.
    apply normalize_exact; [done|lia|]. rewrite !Pos2Z.inj_add, Ea, Eb. lia.
Qed.
(** Their order. *)
Lemma of_Z_lt a b : 0 <= a < 2 ^ 53 -> 0 <= b < 2 ^ 53 -> flt (of_Z a) (of_Z b) = (a <? b).
Proof.
  intros Ha Hb. destruct a as [|a|a]; [| |lia]; (destruct b as [|b|b]; [| |lia]).
  - done.
  - by rewrite of_Z_float by (apply digits_bound; lia).
  - by rewrite of_Z_float by (apply digits_bound; lia).
  - pose proof (proj2 (digits_bound a) ltac:(lia)) as Da. pose proof (proj2 (digits_bound b) ltac:(lia)) as Db.
    rewrite !of_Z_float by done. unfold flt, SFltb, int_float. cbn [SFcompare].
    destruct (Z.compare_spec (digits a - 53) (digits b - 53)) as [E|Hlt|Hgt].
    + assert (digits a = digits b) as E' by lia. change (Pos.compare_cont Eq ?x ?y) with (Zpos x ?= Zpos y).
      rewrite !scaled_val, E' by done.
      pose proof (Z.pow_pos_nonneg 2 (53 - digits b) ltac:(lia) ltac:(lia)).
      destruct (Z.compare_spec (Zpos a * 2 ^ (53 - digits b)) (Zpos b * 2 ^ (53 - digits b)));
        symmetry; [apply Z.ltb_ge|apply Z.ltb_lt|apply Z.ltb_ge]; nia.
    + symmetry. apply Z.ltb_lt. rewrite !digits_log2 in *. apply Z.log2_lt_cancel. lia.
    + symmetry. apply Z.ltb_ge. rewrite !digits_log2 in *. apply Z.lt_le_incl, Z.log2_lt_cancel. lia.
Qed.
Lemma of_Z_not_nan a : 0 <= a < 2 ^ 53 -> is_nan (of_Z a) = false.
Proof. intros Ha. destruct a as [|a|a]; [done| |lia]. by rewrite of_Z_float by (apply digits_bound; lia). Qed.
End Exact.
