(* ===== verification/F64Bound.v ===== *)
(** * Bounds of binary64 results

    How large a nonnegative result can get: conversion from an integer and division keep it
    below a power of two, so they neither overflow nor turn into NaN. *)
From S2P Require Import Prelude F64 F64Int.
From Stdlib Require Import SpecFloat.
Local Open Scope Z_scope.

Section Bounds.
(** [m * 2 ^ e < 2 ^ K], without a negative power. *)
Definition below (K m e : Z) : Prop := e <= K /\ 0 <= m < 2 ^ (K - e).
Definition bounded_by (K : Z) (x : f64) : Prop :=
  match x with S754_zero false => True | S754_finite false m e => below K (Zpos m) e | _ => False end.

Lemma below_weaken K K' m e : below K m e -> K <= K' -> below K' m e.
Proof.
  intros [He Hm] HK. split; [lia|]. split; [lia|]. pose proof (Z.pow_le_mono_r 2 (K - e) (K' - e)). lia.
Qed.
Lemma below_digits K m e : below K m e -> Zdigits2 m + e <= K.
Proof.
  intros [He Hm]. destruct m as [|m|m]; cbn [Zdigits2]; [lia| |lia].
  change (Zpos (digits2_pos m)) with (digits m). rewrite digits_log2.
  pose proof (Z.log2_lt_pow2 (Zpos m) (K - e)). lia.
Qed.
Lemma below_shift K m e n : below K m e -> 0 <= n -> e + n <= K -> below K (m / 2 ^ n) (e + n).
Proof.
  intros [He Hm] Hn HK. pose proof (Z.pow_pos_nonneg 2 n). split; [lia|]. split; [apply Z.div_pos; lia|].
  apply Z.div_lt_upper_bound; [lia|]. rewrite <- Z.pow_add_r by lia. replace (n + (K - (e + n))) with (K - e) by lia. lia.
Qed.

Lemma shr_1_half r : 0 <= shr_m r -> shr_m (shr_1 r) = shr_m r / 2.
Proof.
  destruct r as [[|[p|p|]|p] ? ?]; cbn; try done; intros _; [|by rewrite (Pos2Z.inj_xO p), Z.mul_comm, Z.div_mul].
  rewrite (Pos2Z.inj_xI p). apply (Z.div_unique _ _ _ 1); lia.
Qed.
Lemma iter_shr_div p r : 0 <= shr_m r -> shr_m (iter_pos shr_1 p r) = shr_m r / 2 ^ Zpos p.
Proof.
  assert (forall a b, 0 <= a -> 0 <= b -> forall m, m / 2 ^ a / 2 ^ b = m / 2 ^ (a + b)) as Hdiv.
  { intros a b Ha Hb m. pose proof (Z.pow_pos_nonneg 2 a). pose proof (Z.pow_pos_nonneg 2 b).
    rewrite Z.div_div by lia. by rewrite Z.pow_add_r. }
  revert r. induction p as [p IH|p IH|]; intros r Hr; cbn [iter_pos].
  - assert (0 <= shr_m (shr_1 r)) as H1 by (rewrite shr_1_half by done; apply Z.div_pos; lia).
    assert (0 <= shr_m (iter_pos shr_1 p (shr_1 r))) as H2 by (rewrite IH by done; apply Z.div_pos; [done|apply Z.pow_pos_nonneg; lia]).
    rewrite !IH, shr_1_half by done. change 2 with (2 ^ 1) at 1. rewrite !Hdiv by lia. do 2 f_equal. lia.
  - assert (0 <= shr_m (iter_pos shr_1 p r)) as H2 by (rewrite IH by done; apply Z.div_pos; [done|apply Z.pow_pos_nonneg; lia]).
    rewrite !IH by done. rewrite Hdiv by lia. do 2 f_equal. lia.
  - by apply shr_1_half.
Qed.
Lemma shr_fexp_below K m e l : below K m e -> -1074 <= K ->
  below K (shr_m (shr_fexp 53 1024 m e l).1) (shr_fexp 53 1024 m e l).2 /\
  (shr_fexp 53 1024 m e l).2 <= Z.max e (Z.max (K - 53) (-1074)).
Proof.
  intros Hb HK. pose proof (below_digits _ _ _ Hb) as Hd. unfold shr_fexp, fexp, emin.
  assert (shr_m (shr_record_of_loc m l) = m) as Em by (by destruct l as [|[]]).
  destruct (Z.max _ _ - e) as [|n|n] eqn:En; cbn [shr fst snd]; rewrite ?Em; try (split; [done|lia]).
  rewrite iter_shr_div by (rewrite Em; apply Hb). rewrite Em. split; [apply below_shift; [done|lia|lia]|lia].
Qed.
Lemma round_below K m e l : below K m e -> below (K + 1) (round_nearest_even m l) e.
Proof.
  intros [He Hm]. assert (2 ^ (K - e) < 2 ^ (K + 1 - e)) by (apply Z.pow_lt_mono_r; lia).
  assert (1 <= 2 ^ (K - e)) by (pose proof (Z.pow_pos_nonneg 2 (K - e)); lia).
  split; [lia|]. replace (K + 1 - e) with (Z.succ (K - e)) in * by lia. rewrite Z.pow_succ_r in * by lia.
  destruct l as [|[]]; cbn; try lia. destruct (Z.even m); lia.
Qed.
Lemma round_aux_bounded K m e l : below K m e -> -1074 <= K <= 1000 -> e <= 971 ->
  bounded_by (K + 1) (binary_round_aux 53 1024 false m e l).
Proof.
  intros Hb HK He. unfold binary_round_aux. destruct (shr_fexp_below K m e l Hb) as [Hb1 He1]; [lia|].
  destruct (shr_fexp 53 1024 m e l) as [r1 e1]. cbn [fst snd] in *.
  apply (round_below _ _ _ (loc_of_shr_record r1)) in Hb1.
  destruct (shr_fexp_below _ _ _ loc_Exact Hb1) as [Hb2 He2]; [lia|]. destruct (shr_fexp _ _ _ e1 _) as [r2 e2]. cbn [fst snd] in *.
  destruct (shr_m r2) as [|p|p] eqn:Em; [done| |destruct Hb2; lia].
  rewrite (proj2 (Z.leb_le e2 (1024 - 53))) by lia. done.
Qed.

Lemma of_Z_bounded n K : 0 <= n < 2 ^ K -> 0 <= K <= 900 -> bounded_by (K + 1) (of_Z n).
Proof.
  intros Hn HK. destruct n as [|n|n]; [done| |lia]. unfold of_Z, binary_normalize, binary_round.
  assert (below K (Zpos n) 0) as Hb by (split; [lia|]; by rewrite Z.sub_0_r).
  set (e' := fexp _ _ _). destruct (Z.le_gt_cases e' 0) as [He|He].
  - pose proof (shl_align_val n 0 e' He) as Ev. assert ((shl_align n 0 e').2 = e') as E2
      by (unfold shl_align; rewrite Z.sub_0_r; destruct e'; [done|lia|done]).
    destruct (shl_align n 0 e') as [m e]. cbn [fst snd] in *. subst e. apply round_aux_bounded; [|lia|lia].
    split; [lia|]. rewrite Ev. replace (K - e') with (K + (0 - e')) by lia. rewrite Z.pow_add_r by lia.
    pose proof (Z.pow_pos_nonneg 2 (0 - e')). nia.
  - unfold shl_align. rewrite Z.sub_0_r. destruct e' as [|p|p]; [lia| |lia]. apply round_aux_bounded; [done|lia|lia].
Qed.
(** Dividing what is below [2 ^ A] by at least [2 ^ B]. *)
Lemma div_bounded A B x m2 e2 : bounded_by A x -> e2 <= B -> 2 ^ (B - e2) <= Zpos m2 -> -1074 <= A - B <= 900 ->
  bounded_by (A - B + 1) (x / S754_finite false m2 e2)%f64.
Proof.
  intros Hx He2 Hm2 HAB. destruct x as [[]| | |[] m1 e1]; try done. cbn [bounded_by] in Hx.
  unfold fdiv, SFdiv. cbn [xorb]. unfold SFdiv_core_binary.
  change (Zdigits2 (Zpos m1)) with (digits m1). change (Zdigits2 (Zpos m2)) with (digits m2).
  assert (digits m1 + e1 <= A) as Hd1 by exact (below_digits _ _ _ Hx).
  assert (B - e2 <= Z.log2 (Zpos m2)) as Hd2 by (apply Z.log2_le_pow2; lia). rewrite (digits_log2 m2).
  set (e' := Z.min _ _). assert (e' <= A - B /\ e' <= 971 /\ e' <= e1 - e2) as (H1 & H2 & H3) by (unfold e', fexp, emin; lia).
  assert ((match e1 - e2 - e' with Z0 => Zpos m1 | Zpos _ => Z.shiftl (Zpos m1) (e1 - e2 - e') | Zneg _ => 0 end) = Zpos m1 * 2 ^ (e1 - e2 - e')) as ->.
  { destruct (e1 - e2 - e') as [|s|s] eqn:Es; [lia|by rewrite Z.shiftl_mul_pow2|lia]. }
  pose proof (Z_div_mod (Zpos m1 * 2 ^ (e1 - e2 - e')) (Zpos m2) ltac:(lia)) as Hdm. destruct (Z.div_eucl _ _) as [q r].
  apply round_aux_bounded; [|lia|lia]. split; [lia|]. destruct Hdm as [Eq Hr]. destruct Hx as [Hx1 [_ Hx2]].
  pose proof (Z.pow_pos_nonneg 2 (e1 - e2 - e') ltac:(lia) ltac:(lia)). split; [nia|].
  assert (2 ^ (A - e1) * 2 ^ (e1 - e2 - e') = 2 ^ (A - B - e') * 2 ^ (B - e2)) as Ep
    by (rewrite <- !Z.pow_add_r by lia; f_equal; lia).
  apply (Z.mul_lt_mono_pos_r (Zpos m2)); [lia|]. pose proof (Z.pow_pos_nonneg 2 (A - B - e') ltac:(lia) ltac:(lia)). nia.
Qed.
End Bounds.
