(* ===== verification/F64Step.v ===== *)
(** * Sums of binary64 that advance

    A clock kept in binary64 to which a period is added again and again: as long as it is
    below 2^31 and the period at least 2^-20, rounding does not stop it.  Values are counted in
    whole ticks of 2^-20, and a sum has the ticks of both its operands at least. *)
From S2P Require Import Prelude F64 F64Int F64Bound.
From Stdlib Require Import SpecFloat.
Local Open Scope Z_scope.

(** The whole ticks of 2^-20 in [m * 2 ^ e], and in a nonnegative float. *)
Definition whole (m e : Z) : Z := Z.shiftr m (-20 - e).
Definition ticks (x : f64) : Z := match x with S754_finite false m e => whole (Zpos m) e | _ => 0 end.
(** What rounding makes of a mantissa, and the sign of a clock. *)
Definition short (x : f64) : Prop := match x with S754_finite _ m _ => Zpos m < 2 ^ 53 | _ => True end.
Definition unsigned (x : f64) : Prop := match x with S754_finite true _ _ | S754_infinity true => False | _ => True end.

Lemma whole_nonneg m e : 0 <= m -> 0 <= whole m e.
Proof. intros Hm. by apply Z.shiftr_nonneg. Qed.
Lemma ticks_nonneg x : 0 <= ticks x.
Proof. destruct x as [| | |[] m e]; cbn [ticks]; try lia. apply whole_nonneg. lia. Qed.
Lemma whole_scale m e k : 0 <= k -> whole (m * 2 ^ k) (e - k) = whole m e.
Proof.
  intros Hk. unfold whole. rewrite <- Z.shiftl_mul_pow2 by done. replace (-20 - (e - k)) with (k - (20 + e)) by lia.
  rewrite <- (Z.shiftl_opp_r _ (k - (20 + e))), Z.shiftl_shiftl by done. rewrite <- (Z.shiftl_opp_r m (-20 - e)). f_equal. lia.
Qed.
Lemma whole_low m e : e <= -20 -> whole m e = m / 2 ^ (-20 - e).
Proof. intros He. unfold whole. by rewrite Z.shiftr_div_pow2 by lia. Qed.
Lemma whole_high m e : -20 <= e -> whole m e = m * 2 ^ (e + 20).
Proof. intros He. unfold whole. rewrite <- Z.shiftl_opp_r, Z.shiftl_mul_pow2 by lia. do 2 f_equal. lia. Qed.
Lemma whole_le m m' e : m <= m' -> whole m e <= whole m' e.
Proof.
  intros Hm. destruct (Z.le_ge_cases e (-20)) as [He|He].
  - rewrite !whole_low by done. apply Z.div_le_mono; [|done]. apply Z.pow_pos_nonneg; lia.
  - rewrite !whole_high by done. pose proof (Z.pow_pos_nonneg 2 (e + 20)). nia.
Qed.
Lemma whole_add a b e : whole a e + whole b e <= whole (a + b) e.
Proof.
  destruct (Z.le_ge_cases e (-20)) as [He|He]; [|rewrite !whole_high by done; lia].
  rewrite !whole_low by done. pose proof (Z.pow_pos_nonneg 2 (-20 - e) ltac:(lia) ltac:(lia)) as Hq. set (q := 2 ^ _) in *.
  apply Z.div_le_lower_bound; [done|]. pose proof (Z.mul_div_le a q Hq). pose proof (Z.mul_div_le b q Hq). lia.
Qed.
Lemma whole_below m e K : 0 < m -> 0 <= K -> whole m e < 2 ^ (K + 20) -> below K m e.
Proof.
  intros Hm HK Ht. destruct (Z.le_ge_cases e (-20)) as [He|He].
  - rewrite whole_low in Ht by done. pose proof (Z.pow_pos_nonneg 2 (-20 - e) ltac:(lia) ltac:(lia)) as Hq.
    split; [lia|]. split; [lia|]. replace (K - e) with (-20 - e + (K + 20)) by lia. rewrite Z.pow_add_r by lia.
    apply Z.lt_nge. intros Hge. apply (Z.div_le_lower_bound _ _ _ Hq) in Hge. lia.
  - rewrite whole_high in Ht by done. pose proof (Z.pow_pos_nonneg 2 (e + 20) ltac:(lia) ltac:(lia)) as Hq.
    assert (e + 20 < K + 20) as He' by (apply (Z.pow_lt_mono_r_iff 2); [lia|lia|nia]).
    split; [lia|]. split; [lia|]. replace (K + 20) with (K - e + (e + 20)) in Ht by lia. rewrite (Z.pow_add_r 2 (K - e)) in Ht by lia.
    by apply (Z.mul_lt_mono_pos_r (2 ^ (e + 20))).
Qed.

(** ** Rounding *)
Lemma shr_fexp_val m e l : 0 <= m -> exists n, 0 <= n /\ fexp 53 1024 (Zdigits2 m + e) - e <= n /\
  shr_m (shr_fexp 53 1024 m e l).1 = m / 2 ^ n /\ (shr_fexp 53 1024 m e l).2 = e + n.
Proof.
  intros Hm. unfold shr_fexp. assert (shr_m (shr_record_of_loc m l) = m) as Em by (by destruct l as [|[]]).
  destruct (fexp _ _ _ - e) as [|n|n] eqn:En; cbn [shr fst snd]; [exists 0|exists (Zpos n)|exists 0]; rewrite ?iter_shr_div, ?Em by lia;
    split_and!; try lia; by rewrite ?Z.div_1_r.
Qed.
Lemma round_ge m l : m <= round_nearest_even m l.
Proof. destruct l as [|[]]; cbn; try lia. destruct (Z.even m); lia. Qed.
Lemma digits_above m : 0 <= m -> m < 2 ^ Zdigits2 m.
Proof.
  intros Hm. destruct m as [|p|p]; [done| |lia]. cbn [Zdigits2]. change (Zpos (digits2_pos p)) with (digits p).
  rewrite digits_log2. apply Z.log2_spec; lia.
Qed.
Lemma shr_fexp_short m e l : 0 <= m -> 0 <= shr_m (shr_fexp 53 1024 m e l).1 < 2 ^ 53.
Proof.
  intros Hm. destruct (shr_fexp_val m e l Hm) as (n & Hn & Hf & -> & _). pose proof (Z.pow_pos_nonneg 2 n ltac:(lia) Hn).
  split; [by apply Z.div_pos|]. apply Z.div_lt_upper_bound; [done|]. pose proof (digits_above m Hm).
  rewrite <- Z.pow_add_r by lia. pose proof (Z.pow_le_mono_r 2 (Zdigits2 m) (n + 53) ltac:(lia)). unfold fexp, emin in Hf. lia.
Qed.
Lemma round_aux_short s m e l : 0 <= m -> short (binary_round_aux 53 1024 s m e l).
Proof.
  intros Hm. unfold binary_round_aux. pose proof (shr_fexp_short m e l Hm) as [H1 _]. destruct (shr_fexp 53 1024 m e l) as [r1 e1]. cbn [fst] in H1.
  pose proof (round_ge (shr_m r1) (loc_of_shr_record r1)) as Hr. set (m1 := round_nearest_even _ _) in *.
  pose proof (shr_fexp_short m1 e1 loc_Exact ltac:(lia)) as [H2 H3]. destruct (shr_fexp 53 1024 m1 e1 _) as [r2 e2]. cbn [fst] in *.
  destruct (shr_m r2); [done| |done]. by destruct (_ <=? _).
Qed.
Lemma shr_fexp_tick m e l K : below K m e -> e <= -20 -> -1074 <= K -> K <= 33 ->
  whole (shr_m (shr_fexp 53 1024 m e l).1) (shr_fexp 53 1024 m e l).2 = whole m e /\ (shr_fexp 53 1024 m e l).2 <= -20.
Proof.
  intros Hb He HK HK'. assert (0 <= m) as Hm by apply Hb. destruct (shr_fexp_below K m e l Hb HK) as [_ He'].
  assert ((shr_fexp 53 1024 m e l).2 <= -20) as He2 by lia. split; [|done].
  destruct (shr_fexp_val m e l Hm) as (n & Hn & _ & Em & Ee). rewrite Ee in He2. rewrite Em, Ee. unfold whole.
  rewrite <- Z.shiftr_div_pow2, Z.shiftr_shiftr by lia. f_equal. lia.
Qed.
Lemma round_aux_tick m e l : below 32 m e -> e <= -20 ->
  unsigned (binary_round_aux 53 1024 false m e l) /\ whole m e <= ticks (binary_round_aux 53 1024 false m e l).
Proof.
  intros Hb He. unfold binary_round_aux. destruct (shr_fexp_tick m e l 32 Hb) as [E1 He1]; [done|lia|lia|].
  destruct (shr_fexp_below 32 m e l Hb ltac:(lia)) as [Hb1 _]. destruct (shr_fexp 53 1024 m e l) as [r1 e1]. cbn [fst snd] in *.
  apply (round_below _ _ _ (loc_of_shr_record r1)) in Hb1. pose proof (whole_le _ _ e1 (round_ge (shr_m r1) (loc_of_shr_record r1))) as Hr.
  set (m1 := round_nearest_even _ _) in *. destruct (shr_fexp_tick m1 e1 loc_Exact 33 Hb1) as [E2 He2]; [done|lia|lia|].
  pose proof (shr_fexp_short m1 e1 loc_Exact (proj1 (proj2 Hb1))) as [H2 _]. destruct (shr_fexp 53 1024 m1 e1 _) as [r2 e2]. cbn [fst snd] in *.
  destruct (shr_m r2) as [|p|p]; [|rewrite (proj2 (Z.leb_le e2 (1024 - 53))) by lia; cbn [ticks unsigned]; split; [done|lia]|lia].
  split; [done|]. cbn [ticks]. unfold whole in E2. rewrite Z.shiftr_0_l in E2. unfold whole in *. lia.
Qed.
Lemma normalize_tick m e : 0 < m -> below 32 m e ->
  let x := binary_normalize 53 1024 m e false in unsigned x /\ short x /\ whole m e <= ticks x.
Proof.
  intros Hm Hb. destruct m as [|p|p]; [lia| |lia]. cbn [binary_normalize]. unfold binary_round.
  change (Zpos (digits2_pos p)) with (Zdigits2 (Zpos p)). pose proof (below_digits _ _ _ Hb) as Hd. set (e' := fexp _ _ _).
  assert (e' <= -21) as He' by (unfold e', fexp, emin; lia). destruct (Z.le_gt_cases e' e) as [He|He].
  - pose proof (shl_align_val p e e' He) as Ev. assert ((shl_align p e e').2 = e') as E2
      by (unfold shl_align; destruct (e' - e) eqn:Ee; cbn [snd]; lia).
    destruct (shl_align p e e') as [q e2]. cbn [fst snd] in *. subst e2.
    assert (whole (Zpos q) e' = whole (Zpos p) e) as Et by (rewrite Ev; replace e' with (e - (e - e')) at 2 by lia; by rewrite whole_scale by lia).
    assert (below 32 (Zpos q) e') as Hb'.
    { split; [lia|]. rewrite Ev. destruct Hb as (H1 & _ & H2). replace (32 - e') with (32 - e + (e - e')) by lia. rewrite Z.pow_add_r by lia.
      pose proof (Z.pow_pos_nonneg 2 (e - e')). nia. }
    destruct (round_aux_tick _ _ loc_Exact Hb') as [Hu Ht]; [lia|]. split_and!; [done|by apply round_aux_short|lia].
  - unfold shl_align. destruct (e' - e) as [|k|k] eqn:Ee; [lia| |lia].
    destruct (round_aux_tick _ _ loc_Exact Hb) as [Hu Ht]; [lia|]. split_and!; [done|by apply round_aux_short|lia].
Qed.

(** ** The sum, the quotient and the order *)
Theorem add_ticks t p : unsigned t -> short t -> unsigned p -> short p -> ticks t < 2 ^ 51 -> 1 <= ticks p < 2 ^ 51 -> is_finite t = true ->
  unsigned (t + p)%f64 /\ short (t + p)%f64 /\ ticks t + ticks p <= ticks (t + p)%f64.
Proof.
  intros Ut St Up Sp Ht Hp Hf. destruct p as [| | |[] mp ep]; cbn [ticks] in Hp; try lia.
  destruct t as [[]| | |[] mt et]; try done. cbn [ticks] in *. unfold fadd. cbn [SFadd cond_Zopp]. set (ez := Z.min et ep).
  rewrite !shl_align_val by lia.
  assert (forall m e, ez <= e -> 0 < m -> whole m e < 2 ^ 51 -> 0 < m * 2 ^ (e - ez) /\ whole (m * 2 ^ (e - ez)) ez = whole m e /\ below 31 (m * 2 ^ (e - ez)) ez) as Hal.
  { intros m e He Hm Htk. pose proof (Z.pow_pos_nonneg 2 (e - ez) ltac:(lia) ltac:(lia)).
    assert (whole (m * 2 ^ (e - ez)) ez = whole m e) as E by (replace ez with (e - (e - ez)) at 2 by lia; by rewrite whole_scale by lia).
    split_and!; [nia|done|]. apply whole_below; [nia|lia|by rewrite E]. }
  destruct (Hal (Zpos mt) et) as (Pt & Et & Bt); [lia|lia|done|]. destruct (Hal (Zpos mp) ep) as (Pp & Ep & Bp); [lia|lia|lia|].
  rewrite <- Et, <- Ep. pose proof (whole_add (Zpos mt * 2 ^ (et - ez)) (Zpos mp * 2 ^ (ep - ez)) ez) as Hadd.
  destruct (normalize_tick (Zpos mt * 2 ^ (et - ez) + Zpos mp * 2 ^ (ep - ez)) ez) as (Hu & Hs & Hn); [lia| |split_and!; [done|done|lia]].
  destruct Bt as (B1 & _ & B2), Bp as (_ & _ & B4). split; [lia|]. replace (32 - ez) with (31 - ez + 1) by lia. rewrite Z.pow_add_r by lia. lia.
Qed.
Lemma div_short x y : short x -> short (x / y)%f64.
Proof.
  intros Hx. destruct x as [| | |sx m1 e1], y as [| | |sy m2 e2]; try done. unfold fdiv. cbn [SFdiv]. unfold SFdiv_core_binary.
  set (m' := match _ with Z0 => _ | _ => _ end).
  assert (0 <= m') as Hm by (unfold m'; destruct (_ - _); [lia|by apply Z.shiftl_nonneg|lia]).
  pose proof (Z_div_mod m' (Zpos m2) ltac:(lia)) as Hdm. destruct (Z.div_eucl _ _) as [q r]. apply round_aux_short. nia.
Qed.
Lemma lt_ticks t d : 0 <= d < 2 ^ 31 -> unsigned t -> short t -> (t <? of_Z d)%f64 = true -> is_finite t = true /\ ticks t < d * 2 ^ 20.
Proof.
  intros Hd Ut St Hlt. destruct d as [|d|d]; [by destruct t as [[]|[]| |[] ? ?]| |lia].
  assert (digits d <= 31) as Dd by (rewrite digits_log2; pose proof (proj1 (Z.log2_lt_pow2 (Zpos d) 31 ltac:(lia)) ltac:(lia)); lia).
  rewrite of_Z_float in Hlt by lia. destruct t as [[]|[]| |[] m e]; try done; cbn [ticks]. split; [done|].
  unfold flt, SFltb, int_float in Hlt. cbn [SFcompare] in Hlt. cbn [short] in St.
  assert (e <= digits d - 53 /\ Zpos m < Zpos d * 2 ^ (- e)) as [He Hm].
  { destruct (Z.compare_spec e (digits d - 53)) as [->|He|He]; [|split; [lia|]|done].
    - split; [lia|]. change (Pos.compare_cont Eq ?x ?y) with (Zpos x ?= Zpos y) in Hlt. rewrite scaled_val in Hlt by lia.
      replace (- (digits d - 53)) with (53 - digits d) by lia. destruct (Z.compare_spec (Zpos m) (Zpos d * 2 ^ (53 - digits d))); done.
    - rewrite digits_log2 in He, Dd. pose proof (Z.log2_spec (Zpos d) ltac:(lia)) as [Hlo _].
      pose proof (Z.log2_nonneg (Zpos d)). pose proof (Z.pow_le_mono_r 2 53 (Z.log2 (Zpos d) + - e) ltac:(lia) ltac:(lia)) as Hp.
      rewrite Z.pow_add_r in Hp by lia. pose proof (Z.pow_pos_nonneg 2 (- e) ltac:(lia) ltac:(lia)). nia. }
  rewrite whole_low by lia. apply Z.div_lt_upper_bound; [apply Z.pow_pos_nonneg; lia|].
  rewrite (Z.mul_comm (2 ^ _)), <- Z.mul_assoc, <- Z.pow_add_r by lia. by replace (20 + (-20 - e)) with (- e) by lia.
Qed.
