(* ===== verification/Coding.v ===== *)
(** * A concrete text of values

    Texts the samples write and read back: the digits, in base 4, of a value's code.  The
    library's encodings of countable types give the code; this file adds the floats and the
    digits.  No code of the program is modelled here. *)
From S2P Require Import Prelude F64.
From stdpp Require Import countable.
Local Open Scope Z_scope.

(** ** The code of a float *)
#[export] Instance f64_eq_dec : EqDecision f64.
Proof. intros x y. unfold Decision. repeat decide equality. Defined.
Definition float_code (x : f64) : (bool + bool) + (unit + bool * positive * Z) :=
  match x with
  | S754_zero s => inl (inl s) | S754_infinity s => inl (inr s) | S754_nan => inr (inl ()) | S754_finite s m e => inr (inr (s, m, e))
  end.
Definition code_float (c : (bool + bool) + (unit + bool * positive * Z)) : f64 :=
  match c with
  | inl (inl s) => S754_zero s | inl (inr s) => S754_infinity s | inr (inl _) => S754_nan | inr (inr (s, m, e)) => S754_finite s m e
  end.
Lemma code_float_code x : code_float (float_code x) = x.
Proof. by destruct x. Qed.
#[export] Instance f64_countable : Countable f64 := inj_countable' float_code code_float code_float_code.

(** ** Digits *)
Fixpoint text_digits (p : positive) : list Z :=
  match p with
  | 1%positive => [52] | (1~0)%positive => [53] | (1~1)%positive => [54]
  | (p~0~0)%positive => 48 :: text_digits p | (p~0~1)%positive => 49 :: text_digits p
  | (p~1~0)%positive => 50 :: text_digits p | (p~1~1)%positive => 51 :: text_digits p
  end.
Fixpoint undigits (l : list Z) : option positive :=
  match l with
  | [] => None
  | d :: l =>
      if d =? 52 then Some 1%positive else if d =? 53 then Some 2%positive else if d =? 54 then Some 3%positive
      else p ← undigits l;
        Some (if d =? 48 then (p~0~0)%positive else if d =? 49 then (p~0~1)%positive else if d =? 50 then (p~1~0)%positive else (p~1~1)%positive)
  end.
Lemma undigits_text p : undigits (text_digits p) = Some p.
Proof. revert p. fix IH 1. intros [[p|p|]|[p|p|]|]; cbn; rewrite ?IH; reflexivity. Qed.
Lemma digits_text p : text_digits p <> [] /\ Forall (fun d => 48 <= d < 123) (text_digits p).
Proof. revert p. fix IH 1. intros [[p|p|]|[p|p|]|]; cbn; (split; [discriminate|]); repeat constructor; try lia; apply IH. Qed.

(** ** A reader that loses the last digit of a float *)
Definition last_digit (x : f64) : f64 := match x with S754_finite s (m~1) e => S754_finite s (m~0) e | _ => x end.
Definition read_float (x : f64) : option f64 := if is_finite x then Some (last_digit x) else None.
