(* ===== verification/Crc.v ===== *)
(** * CRC-24 (crates/mb-modes/src/lib.rs)

    [crc24] as the code computes it, on an unmasked [u32], and its
    specification: the remainder of the message polynomial times x^24 modulo
    the generator, over GF(2).  Polynomials are nonnegative integers (bit i is
    the coefficient of x^i), addition is [Z.lxor], multiplication [clmul]. *)
From S2P Require Import Prelude.
Local Open Scope Z_scope.

Definition CRC24_POLY : Z := 0xFFF409.

(** One turn of the inner loop, on the [u32] register. *)
Definition crc_bit (crc : Z) : Z :=
  let crc := u32 (Z.shiftl crc 1) in
  if negb (Z.land crc 0x1000000 =? 0) then Z.lxor crc CRC24_POLY else crc.
Definition crc_byte (crc byte : Z) : Z :=
  Nat.iter 8 crc_bit (Z.lxor crc (u32 (Z.shiftl byte 16))).
Definition crc24 (data : list Z) : Z :=
  Z.land (fold_left crc_byte data 0) 0xFFFFFF.

(** Big-endian value of a byte string. *)
Definition be_step (acc b : Z) : Z := Z.lor (Z.shiftl acc 8) b.
Definition be (l : list Z) : Z := fold_left be_step l 0.
(** The three parity bytes as the builders write them: [(p >> 16) as u8], ... *)
Definition be24_bytes (p : Z) : list Z :=
  [u8 (Z.shiftr p 16); u8 (Z.shiftr p 8); u8 p].

(** ** Polynomials over GF(2) *)
Module Gf2.
Fixpoint clmul_pos (q : positive) (g : Z) : Z :=
  match q with
  | xH => g
  | xO q => 2 * clmul_pos q g
  | xI q => Z.lxor g (2 * clmul_pos q g)
  end.
Definition clmul (q g : Z) : Z := match q with Zpos q => clmul_pos q g | _ => 0 end.

(** The generator polynomial, leading coefficient included. *)
Definition G : Z := 0x1FFF409.

Lemma bin_ind (P : Z -> Prop) :
  P 0 -> (forall a, 0 <= a -> P a -> P (2 * a)) -> (forall a, 0 <= a -> P a -> P (2 * a + 1)) ->
  forall a, 0 <= a -> P a.
Proof.
  intros H0 He Ho [|p|p] Ha; [done| |lia]. clear Ha.
  induction p as [p IH|p IH|].
  - by apply (Ho (Zpos p)).
  - by apply (He (Zpos p)).
  - by apply (Ho 0).
Qed.

Lemma lxor_ee a b : Z.lxor (2 * a) (2 * b) = 2 * Z.lxor a b.
Proof. rewrite !(Z.mul_comm 2), <- !(Z.shiftl_mul_pow2 _ 1) by done. symmetry. apply Z.shiftl_lxor. Qed.
Lemma odd_lxor a : 2 * a + 1 = Z.lxor (2 * a) 1.
Proof.
  apply Z.add_nocarry_lxor. change 1 with (Z.ones 1). rewrite Z.land_ones by done.
  change (2 ^ 1) with 2. zlia.
Qed.
Lemma lxor_oe a b : Z.lxor (2 * a + 1) (2 * b) = 2 * Z.lxor a b + 1.
Proof. by rewrite !odd_lxor, Z.lxor_assoc, (Z.lxor_comm 1), <- Z.lxor_assoc, lxor_ee. Qed.
Lemma lxor_eo a b : Z.lxor (2 * a) (2 * b + 1) = 2 * Z.lxor a b + 1.
Proof. by rewrite Z.lxor_comm, lxor_oe, Z.lxor_comm. Qed.
Lemma lxor_oo a b : Z.lxor (2 * a + 1) (2 * b + 1) = 2 * Z.lxor a b.
Proof.
  rewrite (odd_lxor b), <- Z.lxor_assoc, lxor_oe, odd_lxor, Z.lxor_assoc, Z.lxor_nilpotent.
  apply Z.lxor_0_r.
Qed.
Lemma lxor_nonneg2 a b : 0 <= a -> 0 <= b -> 0 <= Z.lxor a b.
Proof. intros. apply Z.lxor_nonneg. lia. Qed.

Lemma clmul_e q g : 0 <= q -> clmul (2 * q) g = 2 * clmul q g.
Proof. by destruct q. Qed.
Lemma clmul_o q g : 0 <= q -> clmul (2 * q + 1) g = Z.lxor g (2 * clmul q g).
Proof. destruct q; [|done|lia]. intros _. simpl. by rewrite Z.lxor_0_r. Qed.
Lemma clmul_nonneg q g : 0 <= q -> 0 <= g -> 0 <= clmul q g.
Proof.
  intros Hq Hg. revert q Hq. apply bin_ind; [done|..]; intros q Hq IH.
  - rewrite clmul_e by done. lia.
  - rewrite clmul_o by done. apply lxor_nonneg2; lia.
Qed.

Lemma clmul_lxor p q g :
  0 <= p -> 0 <= q -> clmul (Z.lxor p q) g = Z.lxor (clmul p g) (clmul q g).
Proof.
  intros Hp. revert q. revert p Hp. apply (bin_ind (fun p => forall q, 0 <= q -> _)).
  - intros q _. by rewrite !Z.lxor_0_l.
  - intros p Hp IH. apply bin_ind; [by rewrite !Z.lxor_0_r|..]; intros q Hq _.
    + rewrite lxor_ee, !clmul_e, IH, lxor_ee by auto using lxor_nonneg2. done.
    + rewrite lxor_eo, !clmul_o, !clmul_e, IH, <- lxor_ee by auto using lxor_nonneg2.
      by rewrite <- !Z.lxor_assoc, (Z.lxor_comm g).
  - intros p Hp IH. apply bin_ind; [by rewrite !Z.lxor_0_r|..]; intros q Hq _.
    + rewrite lxor_oe, !clmul_o, !clmul_e, IH, <- lxor_ee by auto using lxor_nonneg2.
      by rewrite !Z.lxor_assoc.
    + rewrite lxor_oo, !clmul_o, !clmul_e, IH, <- lxor_ee by auto using lxor_nonneg2.
      rewrite (Z.lxor_comm g), Z.lxor_assoc, <- (Z.lxor_assoc g g), Z.lxor_nilpotent.
      by rewrite Z.lxor_0_l.
Qed.

Lemma clmul_shiftl q g k : 0 <= q -> 0 <= k -> clmul (Z.shiftl q k) g = Z.shiftl (clmul q g) k.
Proof.
  intros Hq Hk. revert k Hk. apply natlike_ind; [by rewrite !Z.shiftl_0_r|].
  intros k Hk IH. rewrite <- !Z.add_1_r, <- !Z.shiftl_shiftl by done.
  rewrite !(Z.shiftl_mul_pow2 _ 1) by done. change (2 ^ 1) with 2.
  rewrite !(Z.mul_comm _ 2), clmul_e, IH by (apply Z.shiftl_nonneg; lia). done.
Qed.

(** A nonzero multiple of a degree-24 polynomial has degree at least 24. *)
Lemma clmul_degree q : 0 < q -> 2 ^ 24 <= clmul q G.
Proof.
  intros Hq. assert (Hq0 : 0 <= q) by lia. revert Hq.
  enough (0 < q -> Z.log2 (clmul q G) = Z.log2 q + 24 /\ 0 < clmul q G) as H.
  { intros Hq. destruct (H Hq) as [Hl Hp]. pose proof (Z.log2_spec _ Hp) as [Hs _].
    pose proof (Z.log2_nonneg q). etransitivity; [|exact Hs].
    apply Z.pow_le_mono_r; lia. }
  revert q Hq0.
  apply (bin_ind (fun q => 0 < q -> Z.log2 (clmul q G) = Z.log2 q + 24 /\ 0 < clmul q G));
    [lia|..]; intros q Hq IH Hpos.
  - destruct IH as [Hl Hp]; [lia|]. rewrite clmul_e by done.
    rewrite Z.log2_double, (Z.log2_double q) by lia. lia.
  - rewrite clmul_o by done. destruct (decide (q = 0)) as [->|Hn]; [done|].
    destruct IH as [Hl Hp]; [lia|].
    assert (Hlog : Z.log2 (Z.lxor G (2 * clmul q G)) = Z.log2 (2 * clmul q G)).
    { apply Z.log2_bits_unique.
      - rewrite Z.lxor_spec, Z.bit_log2 by lia.
        assert (24 < Z.log2 (2 * clmul q G)).
        { rewrite Z.log2_double by done. pose proof (Z.log2_nonneg q). lia. }
        by rewrite Z.bits_above_log2.
      - intros m Hm. assert (24 < Z.log2 (2 * clmul q G)).
        { rewrite Z.log2_double by done. pose proof (Z.log2_nonneg q). lia. }
        rewrite Z.lxor_spec, !Z.bits_above_log2; try done; try lia.
        change (Z.log2 G) with 24. lia. }
    rewrite Hlog, Z.log2_double, Z.log2_succ_double by lia. split; [lia|].
    destruct (Z.lt_trichotomy (Z.lxor G (2 * clmul q G)) 0) as [H|[H|H]]; [| |done].
    + pose proof (lxor_nonneg2 G (2 * clmul q G)). unfold G in *. lia.
    + rewrite H in Hlog. rewrite Z.log2_double in Hlog by done.
      pose proof (Z.log2_nonneg q). simpl in Hlog. lia.
Qed.

(** Remainders modulo [G] are unique. *)
Lemma remainder_unique p q r s :
  0 <= p -> 0 <= q -> 0 <= r < 2 ^ 24 -> 0 <= s < 2 ^ 24 ->
  Z.lxor (clmul p G) r = Z.lxor (clmul q G) s -> p = q /\ r = s.
Proof.
  intros Hp Hq Hr Hs He.
  assert (Hc : clmul (Z.lxor p q) G = Z.lxor r s).
  { rewrite clmul_lxor by done. apply Z.lxor_eq.
    rewrite (Z.lxor_comm r), <- Z.lxor_assoc, (Z.lxor_assoc _ _ s), <- He.
    rewrite <- Z.lxor_assoc, Z.lxor_nilpotent, Z.lxor_0_l. apply Z.lxor_nilpotent. }
  pose proof (lxor_bound r s 24 ltac:(done) Hr Hs).
  pose proof (lxor_nonneg2 p q Hp Hq).
  destruct (decide (Z.lxor p q = 0)) as [E|E].
  - apply Z.lxor_eq in E as ->. split; [done|].
    apply Z.lxor_eq. by rewrite <- Hc, Z.lxor_nilpotent.
  - pose proof (clmul_degree (Z.lxor p q)). lia.
Qed.

(** [G] has a nonzero constant term: x^k divides [q * G] only if it divides [q]. *)
Lemma shiftl_multiple k a q :
  0 <= k -> 0 <= a -> 0 <= q -> Z.shiftl a k = clmul q G ->
  exists q', 0 <= q' /\ q = Z.shiftl q' k /\ a = clmul q' G.
Proof.
  intros Hk. revert k Hk a q.
  apply (natlike_ind (fun k => forall a q, 0 <= a -> 0 <= q -> Z.shiftl a k = clmul q G ->
    exists q', 0 <= q' /\ q = Z.shiftl q' k /\ a = clmul q' G)).
  { intros a q Ha Hq. rewrite Z.shiftl_0_r. exists q. by rewrite Z.shiftl_0_r. }
  intros k Hk IH a q Ha Hq. rewrite <- Z.add_1_r.
  rewrite Z.add_comm, <- Z.shiftl_shiftl by done. intros He.
  destruct (IH (Z.shiftl a 1) q) as (q1 & Hq1 & -> & Ha1);
    [apply Z.shiftl_nonneg; lia|done|done|].
  rewrite Z.shiftl_mul_pow2, Z.mul_comm in Ha1 by done. change (2 ^ 1) with 2 in Ha1.
  assert (q1 = 2 * (q1 / 2) \/ q1 = 2 * (q1 / 2) + 1) as [E|E] by zlia.
  - exists (q1 / 2). split; [zlia|]. split.
    + rewrite <- Z.shiftl_shiftl by done.
      rewrite (Z.shiftl_mul_pow2 _ 1) by done. change (2 ^ 1) with 2. f_equal. lia.
    + rewrite E, clmul_e in Ha1 by zlia. lia.
  - exfalso. rewrite E, clmul_o in Ha1 by zlia.
    apply (f_equal (fun z => Z.testbit z 0)) in Ha1.
    rewrite Z.lxor_spec, !Z.testbit_even_0 in Ha1. done.
Qed.
End Gf2.
Import Gf2.

(** ** The code's register against the clean 24-bit shift register *)
Section Register.
(** The textbook step: shift, reduce by the generator when bit 24 appears. *)
Definition lfsr_bit (c : Z) : Z :=
  let d := Z.shiftl c 1 in if Z.testbit d 24 then Z.lxor d G else d.

Definition low24 (c : Z) : Z := c mod 2 ^ 24.

Lemma low24_range c : 0 <= low24 c < 2 ^ 24.
Proof. by apply Z.mod_pos_bound. Qed.
Lemma low24_testbit c i : 0 <= i -> Z.testbit (low24 c) i = (i <? 24) && Z.testbit c i.
Proof. intros Hi. exact (wrap_testbit 24 c i ltac:(done) Hi). Qed.
Lemma low24_id c : 0 <= c < 2 ^ 24 -> low24 c = c.
Proof. apply Z.mod_small. Qed.

Lemma land_bit24 c : negb (Z.land c 0x1000000 =? 0) = Z.testbit c 24.
Proof.
  change 0x1000000 with (2 ^ 24).
  destruct (Z.testbit c 24) eqn:E.
  - apply negb_true_iff, Z.eqb_neq. intros H.
    apply (f_equal (fun z => Z.testbit z 24)) in H.
    rewrite Z.land_spec, E, Z.pow2_bits_true, Z.bits_0 in H by done. done.
  - apply negb_false_iff, Z.eqb_eq, Z.bits_inj'. intros i Hi.
    rewrite Z.land_spec, Z.bits_0. destruct (decide (i = 24)) as [->|Hn].
    + by rewrite E.
    + rewrite Z.pow2_bits_false by lia. apply andb_false_r.
Qed.

(** Whatever the register holds above bit 24, one step agrees with the
    textbook step on the low 24 bits. *)
Lemma crc_bit_low24 c : low24 (crc_bit c) = lfsr_bit (low24 c).
Proof.
  apply Z.bits_inj'. intros i Hi. rewrite low24_testbit by done.
  unfold crc_bit, lfsr_bit. rewrite land_bit24.
  assert (Hw : forall j, 0 <= j <= 24 ->
    Z.testbit (u32 (Z.shiftl c 1)) j = Z.testbit (Z.shiftl (low24 c) 1) j).
  { intros j Hj. rewrite wrap_testbit, !Z.shiftl_spec by lia.
    destruct (Z.ltb_spec j 32); [|lia]. destruct (decide (j = 0)) as [->|]; [done|].
    rewrite low24_testbit by lia. by destruct (Z.ltb_spec (j - 1) 24); [|lia]. }
  rewrite <- (Hw 24) by lia.
  assert (Habove : forall j, 25 <= j -> Z.testbit (Z.shiftl (low24 c) 1) j = false).
  { intros j Hj. rewrite Z.shiftl_spec, low24_testbit by lia.
    by destruct (Z.ltb_spec (j - 1) 24); [lia|]. }
  change G with (Z.lxor (2 ^ 24) CRC24_POLY).
  assert (Hp : forall j, 24 <= j -> Z.testbit CRC24_POLY j = false)
    by (intros; by apply (testbit_above _ 24)).
  destruct (Z.ltb_spec i 24) as [Hlt|Hge]; cbn [andb].
  - destruct (Z.testbit (u32 (Z.shiftl c 1)) 24); [|by apply Hw; lia].
    rewrite !Z.lxor_spec, Hw by lia. by rewrite Z.pow2_bits_false by lia.
  - symmetry. destruct (Z.testbit (u32 (Z.shiftl c 1)) 24) eqn:E.
    + rewrite !Z.lxor_spec, Hp by done.
      destruct (decide (i = 24)) as [->|]; [by rewrite <- Hw, E, Z.pow2_bits_true by lia|].
      rewrite Habove, Z.pow2_bits_false by lia. done.
    + destruct (decide (i = 24)) as [->|]; [by rewrite <- Hw by lia|]. apply Habove. lia.
Qed.

Lemma lfsr_bit_spec c : 0 <= c < 2 ^ 24 ->
  0 <= lfsr_bit c < 2 ^ 24 /\
  exists q, 0 <= q < 2 /\ Z.shiftl c 1 = Z.lxor (clmul q G) (lfsr_bit c).
Proof.
  intros Hc. unfold lfsr_bit. set (d := Z.shiftl c 1).
  assert (Hd : 0 <= d < 2 ^ 25) by (unfold d; rewrite Z.shiftl_mul_pow2 by done; lia).
  destruct (Z.testbit d 24) eqn:E.
  - split.
    + assert (0 <= Z.lxor d G) by (apply lxor_nonneg2; [lia|done]). split; [done|].
      apply bits_bound; [done..|]. intros i Hi. rewrite Z.lxor_spec.
      destruct (decide (i = 24)) as [->|]; [by rewrite E|].
      assert (Z.testbit G i = false) as -> by (apply (testbit_above G 25); (done || lia)).
      by rewrite (testbit_above d 25) by lia.
    + exists 1. split; [lia|]. simpl. rewrite (Z.lxor_comm d), <- Z.lxor_assoc.
      by rewrite Z.lxor_nilpotent, Z.lxor_0_l.
  - split; [|by exists 0].
    split; [lia|]. apply bits_bound; [done|lia|]. intros i Hi.
    destruct (decide (i = 24)) as [->|]; [done|]. apply (testbit_above d 25); lia.
Qed.

Lemma lfsr_iter_spec n c : 0 <= c < 2 ^ 24 ->
  0 <= Nat.iter n lfsr_bit c < 2 ^ 24 /\
  exists q, 0 <= q /\ Z.shiftl c (Z.of_nat n) = Z.lxor (clmul q G) (Nat.iter n lfsr_bit c).
Proof.
  intros Hc. induction n as [|n [Hr (q & Hq & IH)]].
  { split; [done|]. exists 0. by rewrite Z.shiftl_0_r, Z.lxor_0_l. }
  destruct (lfsr_bit_spec _ Hr) as [Hr' (b & Hb & Hbit)]. simpl Nat.iter.
  split; [done|]. exists (Z.lxor (Z.shiftl q 1) b).
  assert (0 <= Z.shiftl q 1) by (apply Z.shiftl_nonneg; lia).
  split; [apply lxor_nonneg2; lia|].
  rewrite Nat2Z.inj_succ, <- Z.add_1_r, <- Z.shiftl_shiftl, IH, Z.shiftl_lxor by lia.
  by rewrite Hbit, clmul_lxor, clmul_shiftl, Z.lxor_assoc by lia.
Qed.

Lemma low24_lxor a b : low24 (Z.lxor a b) = Z.lxor (low24 a) (low24 b).
Proof.
  apply Z.bits_inj'. intros i Hi. rewrite Z.lxor_spec, !low24_testbit, Z.lxor_spec by done.
  by destruct (i <? 24), (Z.testbit a i), (Z.testbit b i).
Qed.

Lemma crc_byte_low24 c b : byte_ok b ->
  low24 (crc_byte c b) = Nat.iter 8 lfsr_bit (Z.lxor (low24 c) (Z.shiftl b 16)).
Proof.
  intros [Hb0 Hb]. unfold crc_byte.
  assert (Hs : 0 <= Z.shiftl b 16 < 2 ^ 24) by (rewrite Z.shiftl_mul_pow2 by done; lia).
  rewrite wrap_small by lia. rewrite <- (low24_id (Z.shiftl b 16)) at 2 by done.
  rewrite <- low24_lxor. generalize (Z.lxor c (Z.shiftl b 16)).
  generalize 8%nat. intros n. induction n as [|n IH]; intros x; [done|].
  simpl. by rewrite crc_bit_low24, IH.
Qed.

Lemma crc24_low24 data : crc24 data = low24 (fold_left crc_byte data 0).
Proof. unfold crc24, low24. change 0xFFFFFF with (Z.ones 24). by rewrite Z.land_ones. Qed.

Lemma crc24_snoc data b : byte_ok b ->
  crc24 (data ++ [b]) = Nat.iter 8 lfsr_bit (Z.lxor (crc24 data) (Z.shiftl b 16)).
Proof. intros Hb. by rewrite !crc24_low24, fold_left_snoc, crc_byte_low24. Qed.

Lemma crc24_range data : 0 <= crc24 data < 2 ^ 24.
Proof. rewrite crc24_low24. apply low24_range. Qed.
End Register.

(** ** Big-endian values *)
Section BigEndian.
Lemma be_snoc l b : be (l ++ [b]) = Z.lor (Z.shiftl (be l) 8) b.
Proof. unfold be. by rewrite fold_left_snoc. Qed.
Lemma be_nonneg l : bytes_ok l -> 0 <= be l.
Proof.
  induction l as [|b l IH] using rev_ind; [done|]. intros [Hl [Hb Hb']]%bytes_ok_snoc.
  rewrite be_snoc. apply Z.lor_nonneg. split; [apply Z.shiftl_nonneg; auto|done].
Qed.
Lemma lor_lxor_disjoint a b k : 0 <= k -> 0 <= b < 2 ^ k ->
  Z.lor (Z.shiftl a k) b = Z.lxor (Z.shiftl a k) b.
Proof.
  intros Hk Hb. apply Z.bits_inj'. intros i Hi. rewrite Z.lor_spec, Z.lxor_spec.
  destruct (Z.lt_ge_cases i k).
  - by rewrite Z.shiftl_spec_low, orb_false_l, xorb_false_l by done.
  - rewrite (testbit_above b k) by lia. by destruct (Z.testbit _ _).
Qed.
Lemma be_snoc_lxor l b : byte_ok b -> be (l ++ [b]) = Z.lxor (Z.shiftl (be l) 8) b.
Proof. intros Hb. rewrite be_snoc. by apply lor_lxor_disjoint. Qed.
Lemma be_app l k : bytes_ok k ->
  be (l ++ k) = Z.lxor (Z.shiftl (be l) (8 * Z.of_nat (length k))) (be k).
Proof.
  induction k as [|b k IH] using rev_ind; intros Hk.
  { by rewrite app_nil_r, Z.shiftl_0_r, Z.lxor_0_r. }
  apply bytes_ok_snoc in Hk as [Hk Hb].
  rewrite app_assoc, !be_snoc_lxor, IH, Z.shiftl_lxor, Z.shiftl_shiftl by (done || lia).
  rewrite Z.lxor_assoc, length_app. simpl. do 2 f_equal. lia.
Qed.
Lemma be_bound l : bytes_ok l -> be l < 2 ^ (8 * Z.of_nat (length l)).
Proof.
  induction l as [|b l IH] using rev_ind; [done|]. intros [Hl Hb]%bytes_ok_snoc.
  specialize (IH Hl). pose proof (be_nonneg l Hl).
  rewrite be_snoc, length_app. simpl. rewrite Nat2Z.inj_add, Z.mul_add_distr_l.
  change (8 * Z.of_nat 1) with 8. rewrite Z.pow_add_r by lia. unfold byte_ok in Hb.
  rewrite lor_lxor_disjoint by (done || lia).
  rewrite <- Z.add_nocarry_lxor.
  - rewrite Z.shiftl_mul_pow2 by done. lia.
  - apply Z.bits_inj'. intros i Hi. rewrite Z.land_spec, Z.bits_0.
    destruct (Z.lt_ge_cases i 8); [by rewrite Z.shiftl_spec_low|].
    rewrite (testbit_above b 8) by lia. apply andb_false_r.
Qed.
(** Disjoint bit fields add. *)
Lemma lor_add k a b : 0 <= k -> 0 <= b < 2 ^ k -> Z.lor (a * 2 ^ k) b = a * 2 ^ k + b.
Proof.
  intros Hk Hb. rewrite <- Z.shiftl_mul_pow2 by done. rewrite lor_lxor_disjoint by done.
  symmetry. apply Z.add_nocarry_lxor, Z.bits_inj'. intros i Hi.
  rewrite Z.land_spec, Z.bits_0. destruct (Z.lt_ge_cases i k).
  - by rewrite Z.shiftl_spec_low.
  - rewrite (testbit_above b k i) by lia. apply andb_false_r.
Qed.
Lemma lor_add' k x b : 0 <= k -> x mod 2 ^ k = 0 -> 0 <= b < 2 ^ k -> Z.lor x b = x + b.
Proof.
  intros Hk Hx Hb. rewrite (Z.div_mod x (2 ^ k)), Hx, Z.add_0_r, Z.mul_comm by lia.
  by apply lor_add.
Qed.

Lemma land_mask x k : 0 <= k -> Z.land x (Z.ones k) = x mod 2 ^ k.
Proof. apply Z.land_ones. Qed.

Lemma be_cons_add b l : byte_ok b -> bytes_ok l ->
  be (b :: l) = b * 2 ^ (8 * Z.of_nat (length l)) + be l.
Proof.
  intros Hb Hl. pose proof (be_bound l Hl). pose proof (be_nonneg l Hl).
  rewrite (be_app [b] l Hl : be (b :: l) = _). change (be [b]) with b.
  rewrite <- lor_lxor_disjoint by lia. rewrite Z.shiftl_mul_pow2 by lia. apply lor_add; lia.
Qed.

Lemma be_zero l : be (0 :: l) = be l.
Proof. done. Qed.

End BigEndian.

(** ** Specification *)

(** The functional specification of [crc24]: the message polynomial times x^24
    is a multiple of the generator plus [crc24 data]. *)
Lemma crc24_remainder data : bytes_ok data ->
  exists q, 0 <= q /\ Z.shiftl (be data) 24 = Z.lxor (clmul q G) (crc24 data).
Proof.
  induction data as [|b data IH] using rev_ind; intros Hd.
  { exists 0. done. }
  apply bytes_ok_snoc in Hd as [Hd Hb].
  destruct (IH Hd) as (q & Hq & He). rewrite crc24_snoc, be_snoc_lxor by done.
  assert (Hs : 0 <= Z.shiftl b 16 < 2 ^ 24)
    by (unfold byte_ok in Hb; rewrite Z.shiftl_mul_pow2 by done; lia).
  pose proof (crc24_range data) as Hr.
  destruct (lfsr_iter_spec 8 (Z.lxor (crc24 data) (Z.shiftl b 16))) as [_ (p & Hp & Hpe)].
  { by apply lxor_bound. }
  exists (Z.lxor (Z.shiftl q 8) p).
  assert (0 <= Z.shiftl q 8) by (apply Z.shiftl_nonneg; lia).
  split; [by apply lxor_nonneg2|].
  rewrite clmul_lxor, clmul_shiftl, Z.lxor_assoc, <- Hpe by lia.
  rewrite !Z.shiftl_lxor, Z.shiftl_shiftl, (Z.add_comm 8), <- (Z.shiftl_shiftl _ 24) by done.
  rewrite He, Z.shiftl_lxor, !Z.lxor_assoc. do 2 f_equal.
Qed.

(** A multiple of [G] is what [crc24] maps to zero. *)
Lemma crc24_zero data : bytes_ok data ->
  crc24 data = 0 <-> exists q, 0 <= q /\ be data = clmul q G.
Proof.
  intros Hd. destruct (crc24_remainder data Hd) as (q & Hq & He). split.
  - intros H0. rewrite H0, Z.lxor_0_r in He.
    apply shiftl_multiple in He as (q' & ? & _ & ?); [eauto|done|by apply be_nonneg|done].
  - intros (q' & Hq' & Hb).
    rewrite Hb, <- clmul_shiftl, <- (Z.lxor_0_r (clmul (Z.shiftl _ _) _)) in He by done.
    apply remainder_unique in He as [_ <-];
      [done|apply Z.shiftl_nonneg; lia|done|done|apply crc24_range].
Qed.

Lemma be24_bytes_ok p : bytes_ok (be24_bytes p).
Proof. repeat constructor; unfold byte_ok; apply (wrap_range 8); done. Qed.

(** [(p >> 16) as u8, (p >> 8) as u8, p as u8] is the big-endian form of a 24-bit [p]. *)
Lemma be_be24_bytes p : 0 <= p < 2 ^ 24 -> be (be24_bytes p) = p.
Proof.
  intros Hp. unfold be, be24_bytes, be_step. simpl. rewrite Z.shiftl_0_l, Z.lor_0_l.
  apply Z.bits_inj'. intros i Hi.
  rewrite !Z.lor_spec, !wrap_testbit by done.
  destruct (Z.lt_ge_cases i 8).
  { rewrite Z.shiftl_spec_low by done. by destruct (Z.ltb_spec i 8); [|lia]. }
  rewrite Z.shiftl_spec, Z.lor_spec, !wrap_testbit, Z.shiftr_spec by lia.
  destruct (Z.ltb_spec i 8); [lia|]. rewrite andb_false_l, orb_false_r.
  destruct (Z.lt_ge_cases i 16).
  { rewrite Z.shiftl_spec_low by lia. destruct (Z.ltb_spec (i - 8) 8); [|lia].
    rewrite orb_false_l, andb_true_l. f_equal. lia. }
  rewrite Z.shiftl_spec, !wrap_testbit, Z.shiftr_spec by lia.
  destruct (Z.ltb_spec (i - 8) 8); [lia|]. rewrite andb_false_l, orb_false_r.
  destruct (Z.ltb_spec (i - 8 - 8) 8); rewrite ?andb_true_l, ?andb_false_l.
  - f_equal. lia.
  - symmetry. apply (testbit_above p 24); lia.
Qed.

(** Appending three parity bytes makes the frame's remainder zero exactly when
    they are the message's own CRC. *)
Lemma crc24_parity data par : bytes_ok data -> bytes_ok par -> length par = 3%nat ->
  crc24 (data ++ par) = 0 <-> be par = crc24 data.
Proof.
  intros Hd Hp Hl. rewrite crc24_zero by (apply bytes_ok_app; done).
  rewrite be_app, Hl by done. change (8 * Z.of_nat 3) with 24.
  destruct (crc24_remainder data Hd) as (q & Hq & He). rewrite He.
  pose proof (be_nonneg par Hp). pose proof (be_bound par Hp) as Hb. rewrite Hl in Hb.
  change (8 * Z.of_nat 3) with 24 in Hb. pose proof (crc24_range data) as Hr.
  assert (Hx : 0 <= Z.lxor (crc24 data) (be par) < 2 ^ 24) by (apply lxor_bound; lia).
  split.
  - intros (q' & Hq' & H'). rewrite Z.lxor_assoc, <- (Z.lxor_0_r (clmul q' G)) in H'.
    apply remainder_unique in H' as [_ H']; [|done..]. symmetry. by apply Z.lxor_eq.
  - intros ->. exists q. by rewrite Z.lxor_assoc, Z.lxor_nilpotent, Z.lxor_0_r.
Qed.

(** A burst of at most 24 bits turns a frame of remainder zero into one of
    nonzero remainder. *)
Lemma crc24_burst f f' e k :
  bytes_ok f -> bytes_ok f' -> 0 <= k -> 0 < e < 2 ^ 24 ->
  be f' = Z.lxor (be f) (Z.shiftl e k) -> crc24 f = 0 -> crc24 f' <> 0.
Proof.
  intros Hf Hf' Hk He Hx H0 H1.
  apply crc24_zero in H0 as (q & Hq & Eq); [|done].
  apply crc24_zero in H1 as (q' & Hq' & Eq'); [|done].
  assert (Hm : Z.shiftl e k = clmul (Z.lxor q q') G).
  { rewrite clmul_lxor, <- Eq, <- Eq', Hx by done.
    by rewrite <- Z.lxor_assoc, Z.lxor_nilpotent, Z.lxor_0_l. }
  apply shiftl_multiple in Hm as (m & Hm0 & _ & Hm); [|lia..|by apply lxor_nonneg2].
  destruct (decide (m = 0)) as [->|]; [simpl in Hm; lia|].
  pose proof (clmul_degree m). lia.
Qed.

(** A body whose parity field carries the CRC and an overlay [ic]: the remainder of the
    whole frame is that of [ic] shifted past the field, not [ic] itself. *)
Lemma crc24_overlay data ic : bytes_ok data -> 0 <= ic < 2 ^ 24 ->
  crc24 (data ++ be24_bytes (Z.lxor (crc24 data) ic)) = Nat.iter 24 lfsr_bit ic.
Proof.
  intros Hd Hi. set (p := Z.lxor _ ic).
  assert (0 <= p < 2 ^ 24) as Hp by (apply lxor_bound; [lia|apply crc24_range|done]).
  assert (bytes_ok (data ++ be24_bytes p)) as Hok by (apply bytes_ok_app; split; [done|apply be24_bytes_ok]).
  destruct (crc24_remainder _ Hok) as (q1 & Hq1 & E1).
  destruct (crc24_remainder _ Hd) as (q0 & Hq0 & E0).
  destruct (lfsr_iter_spec 24 ic Hi) as (Hr & q2 & Hq2 & E2).
  rewrite be_app in E1 by apply be24_bytes_ok. rewrite be_be24_bytes in E1 by done.
  change (8 * Z.of_nat (length (be24_bytes p))) with 24 in E1. rewrite E0 in E1.
  assert (Z.lxor (Z.lxor (clmul q0 G) (crc24 data)) p = Z.lxor (clmul q0 G) ic) as E3.
  { unfold p. rewrite Z.lxor_assoc. f_equal. by rewrite <- Z.lxor_assoc, Z.lxor_nilpotent, Z.lxor_0_l. }
  rewrite E3, Z.shiftl_lxor, <- clmul_shiftl in E1 by lia.
  change (Z.of_nat 24) with 24 in E2. rewrite E2, <- Z.lxor_assoc, <- clmul_lxor in E1
    by (try done; by apply Z.shiftl_nonneg).
  symmetry in E1. apply remainder_unique in E1 as [_ E1]; [done|done| |apply crc24_range|done].
  apply lxor_nonneg2; [by apply Z.shiftl_nonneg|done].
Qed.
