(* ===== verification/Alt.v ===== *)
(** * Altitude field encoding (crates/mb-modes/src/alt.rs)

    The 25-ft (Q = 1) codes of the 12-bit field of DF17 and of the 13-bit field
    of DF4.  Integers are [i32] and [u16] values written as [Z], with the
    wrap-around of each operation; the division is Rust's, which truncates
    toward zero. *)
From S2P Require Import Prelude F64.
Local Open Scope Z_scope.

Definition ac12 (alt_ft : Z) : option Z :=
  let n := Z.quot (i32 (alt_ft + 1000)) 25 in
  if negb ((0 <=? n) && (n <=? 2047)) then None
  else
    let n := u16 n in
    Some (Z.lor (Z.lor (u16 (Z.shiftl (Z.land n 0x7F0) 1)) 0x010) (Z.land n 0x00F)).

Definition ac13 (alt_ft : Z) : option Z :=
  let n := Z.quot (i32 (alt_ft + 1000)) 25 in
  if negb ((0 <=? n) && (n <=? 2047)) then None
  else
    let n := u16 n in
    Some (Z.lor (Z.lor (Z.lor (u16 (Z.shiftl (Z.land n 0x7E0) 2))
                              (u16 (Z.shiftl (Z.land n 0x010) 1))) 0x010) (Z.land n 0x00F)).

(** Quantize a true altitude to the nearest encodable 25-ft step. *)
Definition quantize_25ft (alt_ft : f64) : Z :=
  i32 (i32 (as_i32 (fround ((alt_ft + of_Z 1000) / of_Z 25)%f64) * 25) - 1000).

Definition ac12_decode (field : Z) : option Z :=
  if Z.land field 0x010 =? 0 then None
  else
    let n := Z.lor (Z.shiftr (Z.land field 0xFE0) 1) (Z.land field 0x00F) in
    Some (i32 (25 * n - 1000)).

Definition ac13_decode (field : Z) : option Z :=
  if negb (Z.land field 0x040 =? 0) || (Z.land field 0x010 =? 0) then None
  else
    let n := Z.lor (Z.lor (Z.shiftr (Z.land field 0x1F80) 2)
                          (Z.shiftr (Z.land field 0x020) 1)) (Z.land field 0x00F) in
    Some (i32 (25 * n - 1000)).

(** An [i32] altitude both formats carry: a multiple of 25 ft in range. *)
Definition encodable (alt_ft : Z) : Prop := exists n, 0 <= n <= 2047 /\ alt_ft = 25 * n - 1000.

(** ** The two codes, by their 11-bit altitude number *)
Section Codes.
Definition is_code (o : option Z) (z : Z) : bool :=
  match o with Some x => x =? z | None => false end.
Lemma is_code_true o z : is_code o z = true -> o = Some z.
Proof. destruct o; simpl; [intros ?%Z.eqb_eq; by subst|done]. Qed.

Lemma ac12_number n : 0 <= n <= 2047 ->
  exists f, ac12 (25 * n - 1000) = Some f /\ 0 <= f < 2 ^ 12 /\
            ac12_decode f = Some (25 * n - 1000).
Proof.
  intros Hn.
  pose proof (range_forallb (fun n => match ac12 (25 * n - 1000) with
    | Some f => (0 <=? f) && (f <? 2 ^ 12) && is_code (ac12_decode f) (25 * n - 1000)
    | None => false end) 2048 ltac:(vm_compute; reflexivity) n ltac:(lia)) as H.
  cbv beta in H. destruct (ac12 _) as [f|]; [|done]. exists f.
  apply andb_true_iff in H as [[??]%andb_true_iff ?%is_code_true]. split; [done|].
  split; [lia|done].
Qed.

Lemma ac13_number n : 0 <= n <= 2047 ->
  exists f, ac13 (25 * n - 1000) = Some f /\ 0 <= f < 2 ^ 13 /\
            ac13_decode f = Some (25 * n - 1000).
Proof.
  intros Hn.
  pose proof (range_forallb (fun n => match ac13 (25 * n - 1000) with
    | Some f => (0 <=? f) && (f <? 2 ^ 13) && is_code (ac13_decode f) (25 * n - 1000)
    | None => false end) 2048 ltac:(vm_compute; reflexivity) n ltac:(lia)) as H.
  cbv beta in H. destruct (ac13 _) as [f|]; [|done]. exists f.
  apply andb_true_iff in H as [[??]%andb_true_iff ?%is_code_true]. split; [done|].
  split; [lia|done].
Qed.

(** Every 12-bit (13-bit) word with a decodable altitude is the code of that altitude. *)
Lemma ac12_of_decode f a : 0 <= f < 2 ^ 12 -> ac12_decode f = Some a -> ac12 a = Some f.
Proof.
  intros Hf Ha.
  pose proof (range_forallb (fun f => match ac12_decode f with
    | Some a => is_code (ac12 a) f | None => true end)
    (2 ^ 12) ltac:(vm_compute; reflexivity) f Hf) as H.
  cbv beta in H. rewrite Ha in H. by apply is_code_true in H.
Qed.
Lemma ac13_of_decode f a : 0 <= f < 2 ^ 13 -> ac13_decode f = Some a -> ac13 a = Some f.
Proof.
  intros Hf Ha.
  pose proof (range_forallb (fun f => match ac13_decode f with
    | Some a => is_code (ac13 a) f | None => true end)
    (2 ^ 13) ltac:(vm_compute; reflexivity) f Hf) as H.
  cbv beta in H. rewrite Ha in H. by apply is_code_true in H.
Qed.

(** The encoders see an altitude only through its quotient by 25 ft. *)
Lemma ac12_quot alt : ac12 alt = ac12 (25 * Z.quot (i32 (alt + 1000)) 25 - 1000).
Proof.
  unfold ac12. set (n := Z.quot (i32 (alt + 1000)) 25).
  assert (- 2 ^ 31 <= i32 (alt + 1000) < 2 ^ 31) by (unfold i32; pose proof (Z.mod_pos_bound (alt + 1000 + 2 ^ 31) (2 ^ 32)); lia).
  replace (25 * n - 1000 + 1000) with (25 * n) by lia.
  rewrite i32_small by (subst n; zlia). by rewrite (Z.mul_comm 25), Z.quot_mul.
Qed.
Lemma ac13_quot alt : ac13 alt = ac13 (25 * Z.quot (i32 (alt + 1000)) 25 - 1000).
Proof.
  unfold ac13. set (n := Z.quot (i32 (alt + 1000)) 25).
  assert (- 2 ^ 31 <= i32 (alt + 1000) < 2 ^ 31) by (unfold i32; pose proof (Z.mod_pos_bound (alt + 1000 + 2 ^ 31) (2 ^ 32)); lia).
  replace (25 * n - 1000 + 1000) with (25 * n) by lia.
  rewrite i32_small by (subst n; zlia). by rewrite (Z.mul_comm 25), Z.quot_mul.
Qed.

Lemma ac12_inv alt f : ac12 alt = Some f ->
  0 <= f < 2 ^ 12 /\ ac12_decode f = Some (25 * Z.quot (i32 (alt + 1000)) 25 - 1000).
Proof.
  intros H. pose proof H as H'. unfold ac12 in H'.
  destruct (negb _) eqn:E; [done|]. clear H'. rewrite ac12_quot in H.
  destruct (ac12_number (Z.quot (i32 (alt + 1000)) 25)) as (f' & Hf & Hb & Hd); [lia|].
  rewrite H in Hf. by simplify_eq.
Qed.
Lemma ac13_inv alt f : ac13 alt = Some f ->
  0 <= f < 2 ^ 13 /\ ac13_decode f = Some (25 * Z.quot (i32 (alt + 1000)) 25 - 1000).
Proof.
  intros H. pose proof H as H'. unfold ac13 in H'.
  destruct (negb _) eqn:E; [done|]. clear H'. rewrite ac13_quot in H.
  destruct (ac13_number (Z.quot (i32 (alt + 1000)) 25)) as (f' & Hf & Hb & Hd); [lia|].
  rewrite H in Hf. by simplify_eq.
Qed.
End Codes.
