(* ===== verification/Num.v ===== *)
(** * Arithmetic on which numeric code is run

    The numeric components (CPR, clock fits, the multilateration solver) are
    written once, over the operations of the class [Num], and evaluated at two
    instances: [num_f64], the program's binary64 arithmetic, and [num_R], the
    real numbers.  Theorems about rounding, NaN and infinities are stated at
    the first; theorems about what the formulas compute are stated at the
    second, where no operation rounds.  The platform functions are the fields
    of [Elem], an interface instantiated by the caller. *)
From S2P Require Import Prelude F64.
From Stdlib Require Export Reals Lra.
From Stdlib Require Export Zfloor.
Local Open Scope Z_scope.

Class Num (F : Type) := {
  nadd : F -> F -> F; nsub : F -> F -> F; nmul : F -> F -> F; ndiv : F -> F -> F;
  nneg : F -> F; nabs : F -> F; nsqrt : F -> F;
  nlt : F -> F -> bool; nle : F -> F -> bool;
  nZ : Z -> F;                     (** an integer, converted *)
  nlit : positive -> positive -> F; (** the literal [n/d] *)
  nfloor : F -> F; nround : F -> F; nrem : F -> F -> F;
  ncast : Z -> Z -> F -> Z;        (** [as] an integer type of given bounds *)
  nmax : F -> F -> F; nmin : F -> F -> F;
  nisnan : F -> bool; nisfinite : F -> bool; npi : F
}.

Declare Scope num_scope.
Delimit Scope num_scope with num.
Infix "+" := nadd : num_scope.
Infix "-" := nsub : num_scope.
Infix "*" := nmul : num_scope.
Infix "/" := ndiv : num_scope.
Notation "- x" := (nneg x) : num_scope.
Infix "<?" := nlt : num_scope.
Infix "<=?" := nle : num_scope.
Notation "x >? y" := (nlt y x) (only parsing) : num_scope.
Notation "x >=? y" := (nle y x) (only parsing) : num_scope.
Notation "# z" := (nZ z%Z) (at level 1, format "# z") : num_scope.

(** Elementary functions the standard library leaves to the platform. *)
Class Elem (F : Type) := {
  esin : F -> F; ecos : F -> F; eacos : F -> F; easin : F -> F;
  eatan2 : F -> F -> F; epowi : F -> Z -> F
}.

(** [x.clamp(lo, hi)] and [(lo..=hi).contains(&x)]. *)
Definition nclamp `{Num F} (x lo hi : F) : F :=
  if (x <? lo)%num then lo else if (hi <? x)%num then hi else x.
Definition ncontains `{Num F} (lo hi x : F) : bool := (lo <=? x)%num && (x <=? hi)%num.

#[export] Instance num_f64 : Num f64 := {
  nadd := fadd; nsub := fsub; nmul := fmul; ndiv := fdiv; nneg := fneg; nabs := fabs;
  nsqrt := fsqrt; nlt := flt; nle := fle; nZ := of_Z; nlit := lit;
  nfloor := ffloor; nround := fround; nrem := frem; ncast := fcast; nmax := fmax; nmin := fmin;
  nisnan := is_nan; nisfinite := is_finite; npi := F64.PI
}.

(** ** The real numbers *)
Section Real.
Local Open Scope R_scope.
Definition Rltb (x y : R) : bool := if Rlt_dec x y then true else false.
Definition Rleb (x y : R) : bool := if Rle_dec x y then true else false.
Definition Rtrunc (x : R) : Z := if Rlt_dec x 0 then (- Zfloor (- x))%Z else Zfloor x.
Definition Rround (x : R) : Z :=
  if Rlt_dec x 0 then (- Zfloor (- x + 1 / 2))%Z else Zfloor (x + 1 / 2).

#[export] Instance num_R : Num R := {
  nadd := Rplus; nsub := Rminus; nmul := Rmult; ndiv := Rdiv; nneg := Ropp; nabs := Rabs;
  nsqrt := sqrt; nlt := Rltb; nle := Rleb; nZ := IZR; nlit n d := IZR (Zpos n) / IZR (Zpos d);
  nfloor x := IZR (Zfloor x); nround x := IZR (Rround x);
  nrem x y := x - y * IZR (Rtrunc (x / y));
  ncast lo hi x := sat lo hi (Rtrunc x); nmax := Rmax; nmin := Rmin;
  nisnan _ := false; nisfinite _ := true; npi := PI
}.

Lemma Rltb_spec x y : reflect (x < y) (Rltb x y).
Proof. unfold Rltb. destruct (Rlt_dec x y); by constructor. Qed.
Lemma Rleb_spec x y : reflect (x <= y) (Rleb x y).
Proof. unfold Rleb. destruct (Rle_dec x y); by constructor. Qed.

Lemma Rltb_true x y : Rltb x y = true <-> x < y.
Proof. destruct (Rltb_spec x y); split; done. Qed.
Lemma Rltb_false x y : Rltb x y = false <-> y <= x.
Proof. destruct (Rltb_spec x y); split; try done; lra. Qed.
Lemma Rleb_true x y : Rleb x y = true <-> x <= y.
Proof. destruct (Rleb_spec x y); split; done. Qed.
Lemma Rleb_false x y : Rleb x y = false <-> y < x.
Proof. destruct (Rleb_spec x y); split; try done; lra. Qed.

Lemma Rtrunc_IZR z : Rtrunc (IZR z) = z.
Proof.
  unfold Rtrunc. rewrite <- opp_IZR, !ZfloorZ. by destruct (Rlt_dec _ _); lia.
Qed.

Lemma Zfloor_mono x y : (x <= y)%R -> (Zfloor x <= Zfloor y)%Z.
Proof. apply Zfloor_le. Qed.
Lemma Zfloor_unique z x : IZR z <= x < IZR z + 1 -> Zfloor x = z.
Proof. apply Zfloor_eq. Qed.
Lemma Zfloor_bounds x : IZR (Zfloor x) <= x < IZR (Zfloor x) + 1.
Proof. apply Zfloor_bound. Qed.
Lemma Zfloor_add_Z x z : Zfloor (x + IZR z) = (Zfloor x + z)%Z.
Proof. apply Zfloor_addz. Qed.
Lemma Zfloor_IZR z : Zfloor (IZR z) = z.
Proof. apply ZfloorZ. Qed.
End Real.
Abbreviation Rfloor := Zfloor.Zfloor.

(** The elementary functions of the reals. *)
Section RealElem.
Local Open Scope R_scope.
Definition Ratan2 (y x : R) : R :=
  if Rlt_dec 0 x then atan (y / x)
  else if Rlt_dec x 0 then (if Rle_dec 0 y then atan (y / x) + PI else atan (y / x) - PI)
  else if Rlt_dec 0 y then PI / 2 else if Rlt_dec y 0 then - PI / 2 else 0.
#[export] Instance elem_R : Elem R := {
  esin := sin; ecos := cos; eacos := acos; easin := asin; eatan2 := Ratan2; epowi := powerRZ
}.
End RealElem.

(** Elementary functions that never return a number, for examples that reach none of them. *)
Definition elem_nan : Elem f64 := {|
  esin _ := fnan; ecos _ := fnan; eacos _ := fnan; easin _ := fnan;
  eatan2 _ _ := fnan; epowi _ _ := fnan |}.

(** Elementary functions by their first Taylor terms, for examples at small angles;
    powers are computed. *)
Definition elem_taylor : Elem f64 :=
  let asin x := (x + x * x * x / of_Z 6)%f64 in {|
  esin x := (x - x * x * x / of_Z 6 + x * x * x * x * x / of_Z 120)%f64;
  ecos x := (of_Z 1 - x * x / of_Z 2 + x * x * x * x / of_Z 24)%f64;
  eacos x := (F64.PI / of_Z 2 - asin x)%f64; easin x := asin x;
  eatan2 _ _ := fzero; epowi x n := Nat.iter (Z.to_nat n) (fmul x) (of_Z 1) |}.

(** The operations of [Num] and [Elem] at the reals, as those of the Standard Library. *)
Ltac real_ops :=
  change (@nadd R num_R) with Rplus in *; change (@nsub R num_R) with Rminus in *;
  change (@nmul R num_R) with Rmult in *; change (@ndiv R num_R) with Rdiv in *;
  change (@nneg R num_R) with Ropp in *; change (@nabs R num_R) with Rabs in *;
  change (@nsqrt R num_R) with sqrt in *; change (@nlt R num_R) with Rltb in *;
  change (@nle R num_R) with Rleb in *; change (@nZ R num_R) with IZR in *;
  change (@nmax R num_R) with Rmax in *; change (@nmin R num_R) with Rmin in *;
  change (@esin R elem_R) with sin in *; change (@ecos R elem_R) with cos in *;
  change (@epowi R elem_R) with powerRZ in *.
