(* ===== verification/Cpr.v ===== *)
(** * Compact Position Reporting (crates/mb-modes/src/cpr.rs)

    The airborne even/odd position encoder, the NL function and the global
    decoder, over any arithmetic: [num_f64] is the program's.  Over the reals
    the decoder inverts the encoder up to half a quantum whenever both parities
    round inside their zone and see the same NL. *)
From S2P Require Import Prelude F64 Num.
Local Open Scope Z_scope.

Section Code.
Context `{Num F, Elem F}.
Local Open Scope num_scope.

Definition NZ : F := #15.
Definition TWO17 : F := #131072.

(** Number of longitude zones at a latitude. *)
Definition nl (lat_deg : F) : Z :=
  let lat := nabs lat_deg in
  if lat <? nlit 1047047130 100000000 then 59%Z
  else if lat >? #87 then 1%Z
  else
    let a := #1 - ecos (npi / (#2 * NZ)) in
    let b := epowi (ecos (npi * lat / #180)) 2 in
    let x := #1 - a / b in
    if negb (ncontains (- #1) (#1) x) then 1%Z
    else
      let nl := #2 * npi / eacos x in
      Z.max 1 (Z.min 59 (ncast 0 (2 ^ 32 - 1) (nfloor nl))).

(** Positive modulo. *)
Definition modp (x m : F) : F :=
  let r := nrem x m in
  if r <? #0 then r + m else r.

(** The 17-bit code of a coordinate in zones of a given size. *)
Definition encode_coord (x d : F) : Z :=
  let z := nfloor (TWO17 * modp x d / d + nlit 1 2) in
  (ncast 0 (2 ^ 64 - 1) z mod Z.shiftl 1 17)%Z.

(** Latitude code and the latitude at which NL is evaluated. *)
Definition encode_lat (lat_deg : F) (odd : bool) : Z * F :=
  let i := if odd then #1 else #0 in
  let dlat := #360 / (#4 * NZ - i) in
  let yz := encode_coord lat_deg dlat in
  (yz, dlat * (#yz / TWO17 + nfloor (lat_deg / dlat))).

Definition nlon_of (nl_here : Z) (odd : bool) : Z :=
  if odd then Z.max (saturating_sub nl_here 1) 1 else Z.max nl_here 1.

Definition encode_airborne (lat_deg lon_deg : F) (odd : bool) : Z * Z :=
  let '(yz, rlat) := encode_lat lat_deg odd in
  let nl_here := nl rlat in
  let nlon := nlon_of nl_here odd in
  let dlon := #360 / #nlon in
  let xz := encode_coord lon_deg dlon in
  (yz, xz).

(** Latitudes of the two messages of a pair, unwrapped to [-90, 270). *)
Definition decode_lats (yz_e yz_o : F) : F * F :=
  let dlat_e := #360 / #60 in
  let dlat_o := #360 / #59 in
  let j := nfloor ((#59 * yz_e - #60 * yz_o) / TWO17 + nlit 1 2) in
  let rlat_e := dlat_e * (modp j (#60) + yz_e / TWO17) in
  let rlat_o := dlat_o * (modp j (#59) + yz_o / TWO17) in
  let rlat_e := if rlat_e >=? #270 then rlat_e - #360 else rlat_e in
  let rlat_o := if rlat_o >=? #270 then rlat_o - #360 else rlat_o in
  (rlat_e, rlat_o).

Definition decode_lon (nl_v xz_e xz_o : F) (recent_odd : bool) : F :=
  let m := nfloor ((xz_e * (nl_v - #1) - xz_o * nl_v) / TWO17 + nlit 1 2) in
  let lon :=
    if recent_odd then
      let ni := nmax (nl_v - #1) (#1) in
      let dlon := #360 / ni in
      dlon * (modp m ni + xz_o / TWO17)
    else
      let ni := nmax nl_v (#1) in
      let dlon := #360 / ni in
      dlon * (modp m ni + xz_e / TWO17) in
  if lon >=? #180 then lon - #360 else lon.

Definition global_decode_airborne (even odd : Z * Z) (recent_odd : bool) : option (F * F) :=
  let '(yz_e, xz_e) := (#(even.1), #(even.2)) in
  let '(yz_o, xz_o) := (#(odd.1), #(odd.2)) in
  let '(rlat_e, rlat_o) := decode_lats yz_e yz_o in
  if (nabs rlat_e >? #90) || (nabs rlat_o >? #90) then None
  else if negb (nl rlat_e =? nl rlat_o)%Z then None
  else
    let nl_v := #(nl rlat_e) in
    Some (if recent_odd then rlat_o else rlat_e, decode_lon nl_v xz_e xz_o recent_odd).

(** ** Ranges, in any arithmetic *)
Lemma nl_range lat : (1 <= nl lat <= 59)%Z.
Proof. unfold nl. repeat case_match; lia. Qed.

Lemma encode_coord_range x d : (0 <= encode_coord x d < 2 ^ 17)%Z.
Proof. unfold encode_coord. apply Z.mod_pos_bound. vm_compute. reflexivity. Qed.

Lemma encode_lat_range lat odd : (0 <= (encode_lat lat odd).1 < 2 ^ 17)%Z.
Proof. apply encode_coord_range. Qed.

Lemma encode_airborne_bounds lat lon odd :
  (0 <= (encode_airborne lat lon odd).1 < 2 ^ 17 /\
   0 <= (encode_airborne lat lon odd).2 < 2 ^ 17)%Z.
Proof.
  unfold encode_airborne. pose proof (encode_lat_range lat odd).
  destruct (encode_lat lat odd) as [yz rlat]. split; [done|apply encode_coord_range].
Qed.
End Code.

(** ** Over the reals *)
Section Exact.
Local Open Scope R_scope.

(** A coordinate in units of [1/2^17] of a zone, rounded to the nearest. *)
Definition quanta (x d : R) : Z := Rfloor (x / d * 131072 + 1 / 2).
(** The centre of the quantum that holds [x]. *)
Definition snap (x d : R) : R := d * (IZR (quanta x d) / 131072).
(** [x] does not round up into the next zone. *)
Definition in_zone (x d : R) : Prop := (quanta x d < 131072 * (Rfloor (x / d) + 1))%Z.

Lemma modp_real x m : 0 < m -> modp x m = x - m * IZR (Rfloor (x / m)).
Proof.
  intros Hm. unfold modp. simpl.
  assert (forall k, m * IZR k = IZR k * m) as Hc by (intros; ring).
  pose proof (Zfloor_bounds (x / m)) as [Hf1 Hf2].
  assert (x = x / m * m) as Hx by (field; lra).
  unfold Rtrunc. destruct (Rlt_dec (x / m) 0) as [Hneg|Hneg].
  - pose proof (Zfloor_bounds (- (x / m))) as [Hg1 Hg2]. rewrite opp_IZR.
    set (g := Rfloor (- (x / m))) in *. set (f := Rfloor (x / m)) in *.
    destruct (Rltb_spec (x - m * - IZR g) 0) as [Hr|Hr].
    + assert (f = (- g - 1)%Z) as ->.
      { assert (- IZR g > x / m) by nra.
        assert (IZR f < IZR (- g) /\ IZR (- g) < IZR f + 2) as [Ha Hb] by (rewrite opp_IZR; lra).
        rewrite <- plus_IZR in Hb. apply lt_IZR in Ha, Hb. lia. }
      rewrite minus_IZR, opp_IZR. lra.
    + assert (f = (- g)%Z) as ->; [|rewrite opp_IZR; lra].
      assert (- IZR g = x / m) as Hz by nra.
      unfold f. rewrite <- Hz, <- opp_IZR. apply Zfloor_IZR.
  - destruct (Rltb_spec (x - m * IZR (Rfloor (x / m))) 0) as [Hr|Hr]; [nra|done].
Qed.

Lemma modp_Z (j n : Z) : (0 < n)%Z -> modp (IZR j) (IZR n) = IZR (j mod n).
Proof.
  intros Hn. assert (0 < IZR n) by (by apply IZR_lt). rewrite modp_real by done.
  replace (Rfloor (IZR j / IZR n)) with (j / n)%Z.
  - rewrite <- mult_IZR, <- minus_IZR. f_equal. rewrite Z.mod_eq; lia.
  - symmetry. apply Zfloor_unique. pose proof (Z.div_mod j n ltac:(lia)) as E.
    pose proof (Z.mod_pos_bound j n Hn) as B.
    assert (IZR j = IZR n * IZR (j / n) + IZR (j mod n)) as ER by (rewrite <- mult_IZR, <- plus_IZR; f_equal; lia).
    assert (0 <= IZR (j mod n) < IZR n) by (split; [apply IZR_le|apply IZR_lt]; lia).
    split.
    + apply (Rmult_le_reg_r (IZR n)); [done|]. unfold Rdiv. rewrite Rmult_assoc, Rinv_l by lra. lra.
    + apply (Rmult_lt_reg_r (IZR n)); [done|]. unfold Rdiv. rewrite Rmult_assoc, Rinv_l by lra. lra.
Qed.

Lemma quanta_bounds x d : IZR (quanta x d) - 1 / 2 <= x / d * 131072 < IZR (quanta x d) + 1 / 2.
Proof. unfold quanta. pose proof (Zfloor_bounds (x / d * 131072 + 1 / 2)). lra. Qed.

Lemma snap_error x d : 0 < d -> Rabs (snap x d - x) <= d / 262144.
Proof.
  intros Hd. unfold snap. pose proof (quanta_bounds x d).
  replace (d * (IZR (quanta x d) / 131072) - x)
    with (d * ((IZR (quanta x d) - x / d * 131072) / 131072)) by (field; lra).
  apply Rabs_le. nra.
Qed.

Lemma encode_coord_real x d : 0 < d -> encode_coord x d = (quanta x d mod 2 ^ 17)%Z.
Proof.
  intros Hd. unfold encode_coord. rewrite modp_real by done. unfold TWO17. simpl.
  replace (131072 * (x - d * IZR (Rfloor (x / d))) / d + 1 / 2)
    with (x / d * 131072 + 1 / 2 + IZR (- 131072 * Rfloor (x / d)))
    by (rewrite mult_IZR; field; lra).
  rewrite Zfloor_add_Z. fold (quanta x d). rewrite Rtrunc_IZR.
  pose proof (Zfloor_bounds (x / d)) as [? ?]. pose proof (quanta_bounds x d) as [? ?].
  assert (- 1 < quanta x d - 131072 * Rfloor (x / d) < 131073)%Z as B.
  { split; apply lt_IZR; rewrite minus_IZR, mult_IZR; lra. }
  unfold sat. change (Z.shiftl 1 17) with (2 ^ 17)%Z.
  rewrite Z.min_r, Z.max_r by lia.
  replace (quanta x d + -131072 * Rfloor (x / d))%Z
    with (quanta x d + (- Rfloor (x / d)) * 2 ^ 17)%Z by lia.
  apply Z.mod_add. lia.
Qed.

(** The index both parities agree on: with [n] zones even and [n - 1] odd. *)
Lemma zone_index (n : Z) (u : R) (Ne No : Z) :
  (1 <= n <= 60)%Z ->
  IZR Ne - 1 / 2 <= IZR n * u < IZR Ne + 1 / 2 ->
  IZR No - 1 / 2 <= IZR (n - 1) * u < IZR No + 1 / 2 ->
  Rfloor ((IZR (n - 1) * IZR (Ne mod 2 ^ 17) - IZR n * IZR (No mod 2 ^ 17)) / 131072 + 1 / 2)
  = (n * (No / 2 ^ 17) - (n - 1) * (Ne / 2 ^ 17))%Z.
Proof.
  intros Hn He Ho. apply Zfloor_unique.
  rewrite !(Z.mod_eq _ (2 ^ 17)) by lia.
  set (ze := (Ne / 2 ^ 17)%Z). set (zo := (No / 2 ^ 17)%Z).
  rewrite !minus_IZR, !mult_IZR, !minus_IZR in *. change (IZR (2 ^ 17)) with 131072.
  assert (1 <= IZR n <= 60) by (split; apply IZR_le; lia).
  nra.
Qed.

Lemma zone_mod_even n zo ze : (0 < n -> (n * zo - (n - 1) * ze) mod n = ze mod n)%Z.
Proof.
  intros Hn. replace (n * zo - (n - 1) * ze)%Z with (ze + (zo - ze) * n)%Z by ring.
  apply Z.mod_add. lia.
Qed.
Lemma zone_mod_odd n zo ze : (1 < n -> (n * zo - (n - 1) * ze) mod (n - 1) = zo mod (n - 1))%Z.
Proof.
  intros Hn. replace (n * zo - (n - 1) * ze)%Z with (zo + (zo - ze) * (n - 1))%Z by ring.
  apply Z.mod_add. lia.
Qed.

(** A zone index and a code give back the snapped coordinate, modulo a turn. *)
Lemma zone_coord (n N : Z) :
  (0 < n)%Z ->
  360 / IZR n * (IZR (N / 2 ^ 17 mod n) + IZR (N mod 2 ^ 17) / 131072)
  = 360 / IZR n * (IZR N / 131072) - 360 * IZR (N / 2 ^ 17 / n).
Proof.
  intros Hn. rewrite (Z.mod_eq _ n), (Z.mod_eq N) by lia.
  assert (0 < IZR n) by (by apply IZR_lt).
  rewrite !minus_IZR, !mult_IZR. change (IZR (2 ^ 17)) with 131072. field. lra.
Qed.

Lemma quanta_turn x n : (0 < n)%Z ->
  IZR (quanta x (360 / IZR n)) - 1 / 2 <= IZR n * (x / 360 * 131072)
    < IZR (quanta x (360 / IZR n)) + 1 / 2.
Proof.
  intros Hn. assert (0 < IZR n) by (by apply IZR_lt).
  pose proof (quanta_bounds x (360 / IZR n)).
  replace (IZR n * (x / 360 * 131072)) with (x / (360 / IZR n) * 131072) by (field; lra). done.
Qed.

(** One latitude: the zone index, its unwrapping and the code. *)
Lemma unwrap_lat (n N : Z) (h : R) :
  (59 <= n <= 60)%Z -> h = IZR n / 4 ->
  - (131072 * h) <= IZR N <= 131072 * h ->
  (let r := 360 / IZR n * (IZR (N / 2 ^ 17 mod n) + IZR (N mod 2 ^ 17) / 131072) in
   if Rleb 270 r then r - 360 else r) = 360 / IZR n * (IZR N / 131072) /\
  - 90 <= 360 / IZR n * (IZR N / 131072) <= 90.
Proof.
  intros Hn Hh HN. cbv zeta. rewrite zone_coord by lia.
  assert (59 <= IZR n <= 60) by (split; apply IZR_le; lia).
  set (s := 360 / IZR n * (IZR N / 131072)).
  assert (s * IZR n = 360 * (IZR N / 131072)) as Hs by (unfold s; field; lra).
  assert (- 90 <= s <= 90) as Hb by nra. split; [|done].
  pose proof (Z.div_mod N (2 ^ 17) ltac:(lia)). pose proof (Z.mod_pos_bound N (2 ^ 17) ltac:(lia)).
  assert (- 15 * 131072 <= N <= 15 * 131072)%Z.
  { split; apply le_IZR; rewrite mult_IZR; lra. }
  assert (N / 2 ^ 17 / n = 0 /\ 0 <= N \/ N / 2 ^ 17 / n = -1)%Z as [[Hq HN0]| Hq].
  { destruct (Z.lt_ge_cases N 0).
    - right. symmetry. apply (Z.div_unique_pos _ _ _ (N / 2 ^ 17 + n)); lia.
    - left. split; [|done]. apply Z.div_small. lia. }
  - rewrite Hq. rewrite Rmult_0_r, Rminus_0_r.
    destruct (Rleb_spec 270 s); [lra|done].
  - rewrite Hq. destruct (Rleb_spec 270 (s - 360 * -1)); lra.
Qed.

Lemma quanta_quadrant x n :
  (59 <= n <= 60)%Z -> - 90 <= x <= 90 ->
  - (131072 * (IZR n / 4)) <= IZR (quanta x (360 / IZR n)) <= 131072 * (IZR n / 4).
Proof.
  intros Hn Hx. pose proof (quanta_turn x n ltac:(lia)) as Hq.
  assert (59 <= IZR n <= 60) by (split; apply IZR_le; lia).
  replace (131072 * (IZR n / 4)) with (IZR (32768 * n)) by (rewrite mult_IZR; field).
  rewrite <- opp_IZR.
  assert (- IZR (32768 * n) - 1 < IZR (quanta x (360 / IZR n)) < IZR (32768 * n) + 1) as [Ha Hb].
  { rewrite mult_IZR. nra. }
  rewrite <- opp_IZR, <- minus_IZR in Ha. rewrite <- plus_IZR in Hb.
  apply lt_IZR in Ha, Hb. split; apply IZR_le; lia.
Qed.

Lemma decode_lats_real lat :
  - 90 <= lat <= 90 ->
  decode_lats (IZR (quanta lat (360 / 60) mod 2 ^ 17)) (IZR (quanta lat (360 / 59) mod 2 ^ 17))
  = (snap lat (360 / 60), snap lat (360 / 59)) /\
  - 90 <= snap lat (360 / 60) <= 90 /\ - 90 <= snap lat (360 / 59) <= 90.
Proof.
  intros Hlat. unfold decode_lats. change (2 ^ 17)%Z with 131072%Z. simpl.
  set (Ne := quanta lat (360 / 60)). set (No := quanta lat (360 / 59)).
  pose proof (zone_index 60 (lat / 360 * 131072) Ne No ltac:(lia)
    (quanta_turn lat 60 ltac:(lia)) (quanta_turn lat 59 ltac:(lia))) as Hj.
  change (60 - 1)%Z with 59%Z in Hj. change (2 ^ 17)%Z with 131072%Z in Hj.
  rewrite Hj, !modp_Z by lia.
  pose proof (zone_mod_even 60 (No / 131072) (Ne / 131072) ltac:(lia)) as Hy.
  pose proof (zone_mod_odd 60 (No / 131072) (Ne / 131072) ltac:(lia)) as Hz.
  change (60 - 1)%Z with 59%Z in Hy, Hz. rewrite Hy, Hz.
  destruct (unwrap_lat 60 Ne (60 / 4) ltac:(lia) eq_refl (quanta_quadrant lat 60 ltac:(lia) Hlat)) as [E1 B1].
  destruct (unwrap_lat 59 No (59 / 4) ltac:(lia) eq_refl (quanta_quadrant lat 59 ltac:(lia) Hlat)) as [E2 B2].
  cbv zeta in E1, E2. change (2 ^ 17)%Z with 131072%Z in E1, E2. rewrite E1, E2. done.
Qed.

Lemma zone_coord_turn (n N : Z) :
  (0 < n)%Z ->
  0 <= 360 / IZR n * (IZR (N / 131072 mod n) + IZR (N mod 131072) / 131072) < 360.
Proof.
  intros Hn. pose proof (Z.mod_pos_bound (N / 131072) n ltac:(lia)) as [Ha Hb].
  pose proof (Z.mod_pos_bound N 131072 ltac:(lia)) as [Hd He].
  assert (0 < IZR n) by (by apply IZR_lt).
  apply IZR_le in Ha, Hd. apply Zlt_le_succ, IZR_le in Hb. apply IZR_lt in He.
  rewrite succ_IZR in Hb. set (y := IZR _ + _).
  assert (0 <= y < IZR n) by (unfold y; lra).
  assert (360 / IZR n * y * IZR n = 360 * y) by (field; lra). nra.
Qed.

Definition zones (odd : bool) : Z := if odd then 59 else 60.
Definition zone_size (odd : bool) : R := 360 / IZR (zones odd).

(** Inside a zone the encoder evaluates NL where the decoder will. *)
Lemma encode_lat_real lat odd :
  in_zone lat (zone_size odd) ->
  encode_lat lat odd = ((quanta lat (zone_size odd) mod 2 ^ 17)%Z, snap lat (zone_size odd)).
Proof.
  intros Hz. unfold encode_lat. simpl.
  replace (360 / (4 * 15 - (if odd then 1 else 0))) with (zone_size odd)
    by (unfold zone_size; destruct odd; simpl; field).
  assert (0 < zone_size odd) by (unfold zone_size; destruct odd; simpl; lra).
  rewrite encode_coord_real by done. f_equal. unfold snap, in_zone in *.
  set (d := zone_size odd) in *. set (N := quanta lat d) in *.
  assert (131072 * Rfloor (lat / d) <= N)%Z.
  { apply Zfloor_lub. rewrite mult_IZR. pose proof (Zfloor_bounds (lat / d)). lra. }
  f_equal. rewrite Z.mod_eq by lia.
  replace (Rfloor (lat / d)) with (N / 2 ^ 17)%Z.
  - rewrite minus_IZR, mult_IZR. change (IZR (2 ^ 17)) with 131072. field.
  - symmetry. apply (Z.div_unique_pos _ _ _ (N - 131072 * Rfloor (lat / d))); lia.
Qed.

(** Number of longitude zones a parity uses. *)
Lemma nlon_of_spec n odd : (1 <= n)%Z -> nlon_of n odd = if odd then Z.max (n - 1) 1 else n.
Proof. intros Hn. unfold nlon_of, saturating_sub. destruct odd; lia. Qed.

(** Longitude of a pair encoded with the same NL. *)
Lemma decode_lon_real (n : Z) (lon : R) (recent : bool) :
  (1 <= n <= 59)%Z ->
  let ni := nlon_of n recent in
  exists k : Z,
    decode_lon (IZR n) (IZR (quanta lon (360 / IZR (nlon_of n false)) mod 2 ^ 17))
      (IZR (quanta lon (360 / IZR (nlon_of n true)) mod 2 ^ 17)) recent
    = snap lon (360 / IZR ni) - 360 * IZR k /\
    - 180 <= snap lon (360 / IZR ni) - 360 * IZR k < 180.
Proof.
  intros Hn ni. unfold ni. rewrite !nlon_of_spec by lia.
  set (nr := if recent then Z.max (n - 1) 1 else n).
  set (Ne := quanta lon (360 / IZR n)). set (No := quanta lon (360 / IZR (Z.max (n - 1) 1))).
  set (Ni := if recent then No else Ne).
  assert (1 <= nr)%Z as Hnr by (unfold nr; destruct recent; lia).
  assert (exists j : Z,
    Rfloor ((IZR (Ne mod 2 ^ 17) * (IZR n - 1) - IZR (No mod 2 ^ 17) * IZR n) / 131072 + 1 / 2) = j /\
    (j mod nr = Ni / 2 ^ 17 mod nr)%Z) as (j & Hj & Hm).
  { eexists. split; [done|]. destruct (Z.eq_dec n 1) as [Hn1|Hn1].
    - replace nr with 1%Z by (unfold nr; destruct recent; lia). by rewrite !Z.mod_1_r.
    - rewrite <- (minus_IZR n 1), (Rmult_comm _ (IZR (n - 1))), (Rmult_comm _ (IZR n)).
      pose proof (quanta_turn lon n ltac:(lia)) as H1.
      pose proof (quanta_turn lon (n - 1) ltac:(lia)) as H2.
      assert (quanta lon (360 / IZR (n - 1)) = No) as E by (unfold No; do 3 f_equal; lia).
      rewrite E in H2. rewrite (zone_index n _ Ne No ltac:(lia) H1 H2). unfold nr, Ni. destruct recent.
      + rewrite Z.max_l by lia. apply zone_mod_odd. lia.
      + apply zone_mod_even. lia. }
  change (2 ^ 17)%Z with 131072%Z in Hj. 
  pose proof (zone_coord nr Ni ltac:(lia)) as Hc. change (2 ^ 17)%Z with 131072%Z in *.
  assert (decode_lon (IZR n) (IZR (Ne mod 131072)) (IZR (No mod 131072)) recent
    = let lon := 360 / IZR nr * (IZR (Ni / 131072 mod nr) + IZR (Ni mod 131072) / 131072) in
      if Rleb 180 lon then lon - 360 else lon) as ->.
  { unfold decode_lon. simpl. rewrite Hj, <- Hm.
    replace (Rmax (IZR n - 1) 1) with (IZR (Z.max (n - 1) 1))
      by (destruct (Z.max_spec (n - 1) 1) as [[? ->]|[? ->]];
          rewrite <- ?minus_IZR; [rewrite Rmax_right|rewrite Rmax_left]; try done; apply IZR_le; lia).
    rewrite Rmax_left by (apply IZR_le; lia).
    unfold nr, Ni. destruct recent; rewrite modp_Z by lia; done. }
  cbv zeta. rewrite Hc.
  replace (snap lon (360 / IZR nr)) with (360 / IZR nr * (IZR Ni / 131072))
    by (unfold nr, Ni, snap; by destruct recent).
  pose proof (zone_coord_turn nr Ni ltac:(lia)) as Hb. rewrite Hc in Hb.
  destruct (Rleb_spec 180 (360 / IZR nr * (IZR Ni / 131072) - 360 * IZR (Ni / 131072 / nr))).
  - exists (Ni / 131072 / nr + 1)%Z. rewrite plus_IZR. lra.
  - exists (Ni / 131072 / nr)%Z. lra.
Qed.

(** A position CPR can carry: each parity rounds inside its latitude zone, and
    both reconstructed latitudes have the same NL. *)
Definition decodable (lat : R) : Prop :=
  - 90 <= lat <= 90 /\ (forall odd, in_zone lat (zone_size odd)) /\
  nl (snap lat (zone_size false)) = nl (snap lat (zone_size true)).

(** C21: over the reals, the global decode of the two messages encoded at one
    position returns that position: the latitude to half a quantum of the parity
    that is newer, the longitude to half a quantum modulo whole turns, in [-180, 180). *)
Theorem cpr_roundtrip (lat lon : R) (recent : bool) :
  decodable lat ->
  exists lat' lon' (k : Z),
    global_decode_airborne (encode_airborne lat lon false) (encode_airborne lat lon true) recent
      = Some (lat', lon') /\
    Rabs (lat' - lat) <= zone_size recent / 262144 /\
    - 180 <= lon' < 180 /\
    Rabs (lon' + 360 * IZR k - lon)
      <= 360 / IZR (nlon_of (nl (snap lat (zone_size recent))) recent) / 262144.
Proof.
  intros (Hlat & Hz & Hnl). set (n := nl (snap lat (zone_size recent))).
  assert (nl (snap lat (zone_size false)) = n /\ nl (snap lat (zone_size true)) = n) as [He Ho]
    by (unfold n; destruct recent; [rewrite Hnl|rewrite <- Hnl]; split; reflexivity).
  pose proof (nl_range (snap lat (zone_size recent)) : (1 <= n <= 59)%Z) as Hn.
  unfold encode_airborne. rewrite !encode_lat_real by done.
  assert (forall odd, 0 < 360 / IZR (nlon_of n odd)) as Hd.
  { intros odd. apply Rdiv_lt_0_compat; [lra|apply IZR_lt]. rewrite nlon_of_spec by lia. destruct odd; lia. }
  change (@nZ R num_R) with IZR. change (@ndiv R num_R) with Rdiv. cbv beta iota zeta.
  rewrite He, Ho, !encode_coord_real by apply Hd.
  unfold global_decode_airborne. cbn [fst snd].
  destruct (decode_lats_real lat Hlat) as (E & Be & Bo).
  change (360 / 60) with (zone_size false) in *. change (360 / 59) with (zone_size true) in *.
  change (@nZ R num_R) with IZR. rewrite E. clear E.
  destruct (decode_lon_real n lon recent Hn) as (k & Hk & Bk).
  assert (forall s, - 90 <= s <= 90 -> @nlt R num_R (IZR 90) (nabs s) = false) as Habs.
  { intros s Hs. simpl. apply Rltb_false, Rabs_le. lra. }
  rewrite !Habs by done. cbn [orb]. rewrite He, Ho, Z.eqb_refl. cbn [negb].
  eexists _, _, k. split; [reflexivity|]. rewrite Hk. split; [|split; [done|]].
  - destruct recent; apply snap_error; unfold zone_size, zones; lra.
  - replace (_ - 360 * IZR k + 360 * IZR k - lon)
      with (snap lon (360 / IZR (nlon_of n recent)) - lon) by ring.
    by apply snap_error.
Qed.

Lemma nl_tropics lat : Rabs lat <= 10 -> nl lat = 59%Z.
Proof. intros Hl. unfold nl. simpl. by destruct (Rltb_spec (Rabs lat) (1047047130 / 100000000)); [|lra]. Qed.

Lemma quanta_eq x d (z : Z) : 0 < d -> (IZR z - 1 / 2) * d <= x * 131072 < (IZR z + 1 / 2) * d -> quanta x d = z.
Proof.
  intros Hd [H1 H2]. apply Zfloor_unique.
  assert (x / d * d = x) by (field; lra). nra.
Qed.

Lemma cpr_roundtrip_witness :
  decodable 3 /\
  exists lat' lon' (k : Z),
    global_decode_airborne (encode_airborne 3 (-200) false) (encode_airborne 3 (-200) true) true
      = Some (lat', lon') /\
    Rabs (lat' - 3) <= zone_size true / 262144 /\
    - 180 <= lon' < 180 /\
    Rabs (lon' + 360 * IZR k - -200)
      <= 360 / IZR (nlon_of (nl (snap 3 (zone_size true))) true) / 262144.
Proof.
  assert (decodable 3) as Hd.
  { assert (quanta 3 (zone_size false) = 65536%Z) as E1 by (apply quanta_eq; unfold zone_size, zones; lra).
    assert (quanta 3 (zone_size true) = 64444%Z) as E2 by (apply quanta_eq; unfold zone_size, zones; lra).
    split; [lra|split].
    - intros odd. unfold in_zone.
      rewrite (Zfloor_unique 0) by (unfold zone_size, zones; destruct odd; lra).
      destruct odd; [rewrite E2|rewrite E1]; lia.
    - unfold snap. rewrite E1, E2, !nl_tropics; [done|..];
        unfold zone_size, zones; apply Rabs_le; lra. }
  split; [exact Hd|]. exact (cpr_roundtrip 3 (-200) true Hd).
Defined.
End Exact.

(** ** In the sliver below a zone boundary the code rounds into the next zone,
    and the encoder evaluates NL one zone (6 degrees) too low: at 53.99999 N the
    even message decodes to 54, and the encoder took NL at 48. *)
Example encode_lat_sliver :
  encode_lat (lit 5399999 100000) false = (0, of_Z 48) /\
  (decode_lats (of_Z 0) (of_Z (encode_lat (lit 5399999 100000) true).1)).1 = of_Z 54.
Proof. split; vm_compute; reflexivity. Qed.

(** The published pair of aircraft 40621D, decoded in latitude as on the air. *)
Example decode_lats_reference :
  (decode_lats (of_Z 93000) (of_Z 74158)).1 = lit 522572021484375 10000000000000.
Proof. vm_compute. reflexivity. Qed.
