(* ===== verification/Frames.v ===== *)
(** * Downlink frames (crates/mb-modes/src/frames.rs and decode.rs)

    The builders of DF17, DF18, DF11 and DF4 frames, parity included, and the
    parsers of the server.  A frame is its byte string; the position code is
    that of [Cpr], in any arithmetic. *)
From S2P Require Import Prelude F64 Num Crc Alt Cpr.
Local Open Scope Z_scope.

(** [Icao(pub u32)]. *)
Abbreviation Icao := Z.

Section Builders.
Context `{Num F, Elem F}.

(** The seven ME bytes, [(me >> (48 - 8 * i)) as u8]. *)
Definition me_bytes (me : Z) : list Z :=
  (fun i => u8 (Z.shiftr me (48 - 8 * i))) <$> seqZ 0 7.

(** A body and its parity: [let p = crc24(&f[..n])] and the three bytes of [p]. *)
Definition seal (f : list Z) : list Z := let p := crc24 f in f ++ be24_bytes p.

(** Fields of the 56-bit ME of an airborne position. *)
Definition me_position (tc alt12 : Z) (odd : bool) (yz xz : Z) : Z :=
  Z.lor (Z.lor (Z.lor (Z.lor (u64 (Z.shiftl tc 51)) (u64 (Z.shiftl alt12 36)))
    (u64 (Z.shiftl (Z.b2z odd) 34))) (u64 (Z.shiftl yz 17))) xz.

Definition df17_airborne_position
    (icao : Icao) (ca tc alt_ft : Z) (lat_deg lon_deg : F) (odd : bool) : option (list Z) :=
  alt12 ← ac12 alt_ft;
  let '(yz, xz) := encode_airborne lat_deg lon_deg odd in
  let me := me_position tc alt12 odd yz xz in
  let f := Z.lor (u8 (Z.shiftl 17 3)) (Z.land ca 0x7) :: be24_bytes icao ++ me_bytes me in
  Some (seal f).

(** One frame of the TIS-B pair. *)
Definition df18_frame (icao : Icao) (alt12 : Z) (lat_deg lon_deg : F) (odd : bool) : list Z :=
  let '(yz, xz) := encode_airborne lat_deg lon_deg odd in
  let me := me_position 18 alt12 odd yz xz in
  let f := Z.lor (u8 (Z.shiftl 18 3)) 2 :: be24_bytes icao ++ me_bytes me in
  seal f.

Definition df18_position_pair
    (icao : Icao) (alt_ft : Z) (lat_deg lon_deg : F) : option (list (list Z)) :=
  alt12 ← ac12 alt_ft;
  Some (df18_frame icao alt12 lat_deg lon_deg <$> [false; true]).

Definition df11 (icao : Icao) (ca : Z) : list Z :=
  let f := Z.lor (u8 (Z.shiftl 11 3)) (Z.land ca 0x7) :: be24_bytes icao in
  seal f.

Definition df4_head (fs ac13 : Z) : Z :=
  Z.lor (Z.lor (u32 (Z.shiftl 4 27)) (u32 (Z.shiftl (Z.land fs 0x7) 24))) ac13.

Definition df4 (icao : Icao) (fs alt_ft : Z) : option (list Z) :=
  ac13 ← ac13 alt_ft;
  let head := df4_head fs ac13 in
  let f := [u8 (Z.shiftr head 24); u8 (Z.shiftr head 16); u8 (Z.shiftr head 8); u8 head] in
  let ap := Z.lxor (crc24 f) icao in
  Some (f ++ be24_bytes ap).
End Builders.

(** ** Parsers *)
Record Df17Airborne := {
  icao : Icao; odd : bool; cpr_lat : Z; cpr_lon : Z; alt_ft : option Z
}.

(** [((a as u32) << 16) | ((b as u32) << 8) | c as u32]. *)
Definition u24_of (a b c : Z) : Z :=
  Z.lor (Z.lor (u32 (Z.shiftl a 16)) (u32 (Z.shiftl b 8))) c.

Definition parse_df17_airborne (f : list Z) : option Df17Airborne :=
  if negb (length f =? 14)%nat || negb (Z.shiftr (f !!! 0%nat) 3 =? 17) || negb (crc24 f =? 0)
  then None
  else
    let icao := u24_of (f !!! 1%nat) (f !!! 2%nat) (f !!! 3%nat) in
    let me := be (0 :: take 7 (drop 4 f)) in
    let tc := Z.land (Z.shiftr me 51) 0x1F in
    if negb ((9 <=? tc) && (tc <=? 18)) then None
    else
      let alt12 := Z.land (Z.shiftr me 36) 0xFFF in
      Some {| icao := icao;
              odd := Z.land (Z.shiftr me 34) 1 =? 1;
              cpr_lat := Z.land (Z.shiftr me 17) 0x1FFFF;
              cpr_lon := Z.land me 0x1FFFF;
              alt_ft := ac12_decode alt12 |}.

Definition parse_df11 (f : list Z) : option Icao :=
  if negb (length f =? 7)%nat || negb (Z.shiftr (f !!! 0%nat) 3 =? 11) then None
  else Some (u24_of (f !!! 1%nat) (f !!! 2%nat) (f !!! 3%nat)).

Definition parse_df4 (f : list Z) : option (Icao * option Z) :=
  if negb (length f =? 7)%nat || negb (Z.shiftr (f !!! 0%nat) 3 =? 4) then None
  else
    let ap := u24_of (f !!! 4%nat) (f !!! 5%nat) (f !!! 6%nat) in
    let icao := Z.land (Z.lxor (crc24 (take 4 f)) ap) 0xFFFFFF in
    let head := be (take 4 f) in
    let ac13 := Z.land head 0x1FFF in
    Some (icao, ac13_decode ac13).

Definition df_of (f : list Z) : option Z :=
  if ((length f =? 7) || (length f =? 14))%nat then Some (Z.shiftr (f !!! 0%nat) 3) else None.

(** ** Bit fields *)
Section Fields.
Lemma u24_of_be a b c : byte_ok a -> byte_ok b -> byte_ok c -> u24_of a b c = be [a; b; c].
Proof.
  unfold byte_ok. intros. unfold u24_of.
  rewrite !be_cons_add by (repeat constructor; unfold byte_ok; lia).
  simpl. rewrite !wrap_small, !Z.shiftl_mul_pow2 by (rewrite ?Z.shiftl_mul_pow2 by lia; lia).
  rewrite (lor_add' 16 (a * 2 ^ 16)) by zlia.
  rewrite (lor_add' 8) by zlia.
  change (be []) with 0. lia.
Qed.

Lemma be24_bytes_u24 p : 0 <= p < 2 ^ 24 ->
  u24_of (u8 (Z.shiftr p 16)) (u8 (Z.shiftr p 8)) (u8 p) = p.
Proof.
  intros Hp. rewrite u24_of_be by (apply (wrap_range 8); done). by apply be_be24_bytes.
Qed.

Lemma me_bytes_ok me : bytes_ok (me_bytes me).
Proof. unfold me_bytes. apply Forall_fmap, Forall_true. intros i. apply (wrap_range 8). done. Qed.
Lemma me_bytes_length me : length (me_bytes me) = 7%nat.
Proof. done. Qed.
Lemma be_me_bytes me : 0 <= me < 2 ^ 56 -> be (me_bytes me) = me.
Proof.
  intros Hm. unfold me_bytes. change (seqZ 0 7) with [0; 1; 2; 3; 4; 5; 6]. simpl.
  rewrite !be_cons_add by (repeat constructor; apply (wrap_range 8); done).
  simpl. change (be []) with 0. unfold wrap.
  rewrite !Z.shiftr_div_pow2 by done. simpl. zlia.
Qed.

Lemma me_position_add tc alt12 odd yz xz :
  0 <= tc < 2 ^ 5 -> 0 <= alt12 < 2 ^ 12 -> 0 <= yz < 2 ^ 17 -> 0 <= xz < 2 ^ 17 ->
  me_position tc alt12 odd yz xz
  = tc * 2 ^ 51 + alt12 * 2 ^ 36 + Z.b2z odd * 2 ^ 34 + yz * 2 ^ 17 + xz.
Proof.
  intros. assert (0 <= Z.b2z odd < 2) by (destruct odd; simpl; lia).
  unfold me_position. rewrite !Z.shiftl_mul_pow2, !wrap_small by lia.
  rewrite (lor_add' 51 _ (alt12 * 2 ^ 36)) by zlia.
  rewrite (lor_add' 36 _ (Z.b2z odd * 2 ^ 34)) by zlia.
  rewrite (lor_add' 34 _ (yz * 2 ^ 17)) by zlia. rewrite (lor_add' 17 _ xz) by zlia.
  lia.
Qed.

(** The parser's field extractions on a packed ME. *)
Lemma me_fields tc alt12 odd yz xz me :
  0 <= tc < 2 ^ 5 -> 0 <= alt12 < 2 ^ 12 -> 0 <= yz < 2 ^ 17 -> 0 <= xz < 2 ^ 17 ->
  me = me_position tc alt12 odd yz xz ->
  0 <= me < 2 ^ 56 /\ Z.land (Z.shiftr me 51) 0x1F = tc /\ Z.land (Z.shiftr me 36) 0xFFF = alt12 /\
  Z.land (Z.shiftr me 34) 1 = Z.b2z odd /\ Z.land (Z.shiftr me 17) 0x1FFFF = yz /\
  Z.land me 0x1FFFF = xz.
Proof.
  intros Ht Ha Hy Hx ->. rewrite me_position_add by done.
  assert (0 <= Z.b2z odd < 2) by (destruct odd; simpl; lia).
  change 0x1F with (Z.ones 5). change 0xFFF with (Z.ones 12).
  change (Z.land (Z.shiftr ?x 34) 1) with (Z.land (Z.shiftr x 34) (Z.ones 1)).
  change 0x1FFFF with (Z.ones 17).
  rewrite !land_mask, !Z.shiftr_div_pow2 by done.
  split_and!; zlia.
Qed.

Lemma head_lor n k : 0 <= n < 32 -> 0 <= k < 8 -> Z.lor (u8 (Z.shiftl n 3)) k = 8 * n + k.
Proof.
  intros. rewrite Z.shiftl_mul_pow2, wrap_small by lia. rewrite (lor_add' 3) by zlia. lia.
Qed.
Lemma land7 x : 0 <= Z.land x 7 < 8.
Proof. change 7 with (Z.ones 3). apply (land_ones_bound x 3). done. Qed.
Lemma head_df n k : 0 <= n < 32 -> 0 <= k < 8 -> Z.shiftr (Z.lor (u8 (Z.shiftl n 3)) k) 3 = n.
Proof. intros. rewrite head_lor, Z.shiftr_div_pow2 by lia. zlia. Qed.
Lemma head_ok n k : 0 <= n < 32 -> 0 <= k < 8 -> byte_ok (Z.lor (u8 (Z.shiftl n 3)) k).
Proof. intros. rewrite head_lor by lia. unfold byte_ok. lia. Qed.

Lemma seal_ok f : bytes_ok f -> bytes_ok (seal f).
Proof. intros Hf. apply bytes_ok_app. split; [done|apply be24_bytes_ok]. Qed.

(** A body followed by its parity passes the check. *)
Lemma crc24_append f : bytes_ok f -> crc24 (seal f) = 0.
Proof.
  unfold seal.
  intros Hf. apply crc24_parity; [done|apply be24_bytes_ok|done|].
  apply be_be24_bytes, crc24_range.
Qed.
End Fields.

(** ** What the builders produce *)
Section Built.
Context `{Num F, Elem F}.

Lemma df17_bytes_ok icao ca tc alt lat lon odd f :
  df17_airborne_position icao ca tc alt lat lon odd = Some f -> bytes_ok f.
Proof.
  unfold df17_airborne_position. destruct (ac12 alt) as [a|]; [|done]. cbn [mbind option_bind].
  destruct (encode_airborne lat lon odd) as [yz xz]. intros <-%(inj Some).
  apply seal_ok, bytes_ok_cons. split; [apply head_ok, land7; lia|].
  apply bytes_ok_app. split; [apply be24_bytes_ok|apply me_bytes_ok].
Qed.

(** C34: a built DF17 frame is 14 bytes long, passes the CRC, and is parsed back to the
    address, parity, position codes and altitude it was built from, for every address,
    airborne type code and capability, and every altitude AC12 carries. *)
Theorem df17_roundtrip icao ca tc alt lat lon odd f :
  0 <= icao < 2 ^ 24 -> 9 <= tc <= 18 ->
  df17_airborne_position icao ca tc alt lat lon odd = Some f ->
  length f = 14%nat /\ bytes_ok f /\ crc24 f = 0 /\
  parse_df17_airborne f = Some {|
    icao := icao; odd := odd;
    cpr_lat := (encode_airborne lat lon odd).1; cpr_lon := (encode_airborne lat lon odd).2;
    alt_ft := Some (25 * Z.quot (i32 (alt + 1000)) 25 - 1000) |}.
Proof.
  intros Hi Ht Hf. pose proof (df17_bytes_ok _ _ _ _ _ _ _ _ Hf) as Hok.
  unfold df17_airborne_position in Hf.
  destruct (ac12 alt) as [a|] eqn:Ha; [|done]. cbn [mbind option_bind] in Hf.
  destruct (ac12_inv _ _ Ha) as [Hab Hdec].
  pose proof (encode_airborne_bounds lat lon odd) as [Hy Hx].
  destruct (encode_airborne lat lon odd) as [yz xz]. cbn [fst snd] in *. apply (inj Some) in Hf as <-.
  set (me := me_position tc a odd yz xz) in *.
  destruct (me_fields tc a odd yz xz me) as (Hm & E1 & E2 & E3 & E4 & E5); try done; [lia|].
  set (h := Z.lor _ _) in *.
  assert (byte_ok h /\ Z.shiftr h 3 = 17) as [Hh Hs]
    by (split; [apply head_ok|apply head_df]; try apply land7; lia).
  assert (bytes_ok (h :: be24_bytes icao ++ me_bytes me)) as Hbody.
  { rewrite bytes_ok_cons, bytes_ok_app. split_and!; [done|apply be24_bytes_ok|apply me_bytes_ok]. }
  pose proof (crc24_append _ Hbody) as Hcrc.
  split_and!; [done..|]. unfold parse_df17_airborne. rewrite Hcrc.
  set (f := seal _) in *.
  assert (take 7 (drop 4 f) = me_bytes me) as -> by reflexivity.
  rewrite be_zero, be_me_bytes, E1, E2, E3, E4, E5 by done.
  assert (f !!! 0%nat = h /\ length f = 14%nat) as [-> ->] by (split; reflexivity).
  assert (u24_of (f !!! 1%nat) (f !!! 2%nat) (f !!! 3%nat) = icao) as ->
    by exact (be24_bytes_u24 icao Hi).
  rewrite Hs. cbn [orb negb Nat.eqb Z.eqb Pos.eqb].
  destruct (Z.leb_spec 9 tc), (Z.leb_spec tc 18); try lia. cbn [andb negb].
  rewrite Hdec. do 2 f_equal. by destruct odd.
Qed.
End Built.

(** ** DF11 and DF4 replies *)
Section Replies.
Lemma df11_roundtrip icao ca : 0 <= icao < 2 ^ 24 ->
  length (df11 icao ca) = 7%nat /\ crc24 (df11 icao ca) = 0 /\ parse_df11 (df11 icao ca) = Some icao.
Proof.
  intros Hi. unfold df11. set (h := Z.lor _ _).
  assert (byte_ok h /\ Z.shiftr h 3 = 11) as [Hh Hs]
    by (split; [apply head_ok|apply head_df]; try apply land7; lia).
  split_and!; [done|apply crc24_append, bytes_ok_cons; split; [done|apply be24_bytes_ok]|].
  unfold parse_df11. set (f := seal _).
  assert (f !!! 0%nat = h /\ length f = 7%nat) as [-> ->] by (split; reflexivity).
  rewrite Hs. cbn [orb negb Nat.eqb Z.eqb Pos.eqb]. f_equal. exact (be24_bytes_u24 icao Hi).
Qed.

Lemma df4_head_add fs ac13 : 0 <= ac13 < 2 ^ 13 ->
  df4_head fs ac13 = 4 * 2 ^ 27 + Z.land fs 7 * 2 ^ 24 + ac13.
Proof.
  intros Ha. pose proof (land7 fs). unfold df4_head. rewrite !Z.shiftl_mul_pow2, !wrap_small by lia.
  rewrite (lor_add' 27 _ (Z.land fs 7 * 2 ^ 24)) by zlia. rewrite (lor_add' 24 _ ac13) by zlia. lia.
Qed.

Definition be32_bytes (z : Z) : list Z :=
  [u8 (Z.shiftr z 24); u8 (Z.shiftr z 16); u8 (Z.shiftr z 8); u8 z].
Lemma be32_bytes_ok z : bytes_ok (be32_bytes z).
Proof. repeat constructor; apply (wrap_range 8); done. Qed.
Lemma be_be32_bytes z : 0 <= z < 2 ^ 32 -> be (be32_bytes z) = z.
Proof.
  intros Hz. unfold be32_bytes.
  rewrite !be_cons_add by (repeat constructor; apply (wrap_range 8); done).
  simpl. change (be []) with 0. unfold wrap. rewrite !Z.shiftr_div_pow2 by done. simpl. zlia.
Qed.
Lemma be24_low_bytes p : 0 <= p < 2 ^ 32 ->
  u24_of (u8 (Z.shiftr p 16)) (u8 (Z.shiftr p 8)) (u8 p) = p mod 2 ^ 24.
Proof.
  intros Hp. rewrite u24_of_be by (apply (wrap_range 8); done).
  rewrite !be_cons_add by (repeat constructor; apply (wrap_range 8); done).
  simpl. change (be []) with 0. unfold wrap. rewrite !Z.shiftr_div_pow2 by done. simpl. zlia.
Qed.

(** A built DF4 reply is 7 bytes long and parses back to the address (recovered
    from the overlaid parity) and the altitude, for every address, flight status and
    altitude AC13 carries. *)
Theorem df4_roundtrip icao fs alt f :
  0 <= icao < 2 ^ 24 -> df4 icao fs alt = Some f ->
  length f = 7%nat /\ bytes_ok f /\
  parse_df4 f = Some (icao, Some (25 * Z.quot (i32 (alt + 1000)) 25 - 1000)).
Proof.
  intros Hi Hf. unfold df4 in Hf.
  destruct (ac13 alt) as [a|] eqn:Ha; [|done]. cbn [mbind option_bind] in Hf.
  destruct (ac13_inv _ _ Ha) as [Hab Hdec]. apply (inj Some) in Hf as <-.
  set (head := df4_head fs a). change [u8 _; u8 _; u8 _; u8 _] with (be32_bytes head).
  pose proof (df4_head_add fs a Hab) as Hhead. fold head in Hhead. pose proof (land7 fs).
  set (ap := Z.lxor _ icao).
  assert (0 <= ap < 2 ^ 24) as Hap by (apply lxor_bound; [lia|apply crc24_range|done]).
  split_and!; [done|apply bytes_ok_app; split; [apply be32_bytes_ok|apply be24_bytes_ok]|].
  unfold parse_df4. set (f := _ ++ _).
  assert (length f = 7%nat /\ take 4 f = be32_bytes head) as [-> ->] by (split; reflexivity).
  assert (f !!! 0%nat = u8 (Z.shiftr head 24)) as -> by reflexivity.
  assert (u24_of (f !!! 4%nat) (f !!! 5%nat) (f !!! 6%nat) = ap) as ->
    by exact (be24_bytes_u24 ap Hap).
  assert (Z.shiftr (u8 (Z.shiftr head 24)) 3 = 4) as ->.
  { unfold wrap. rewrite !Z.shiftr_div_pow2 by done. zlia. }
  cbn [orb negb Nat.eqb Z.eqb Pos.eqb].
  change 0xFFFFFF with (Z.ones 24). change 0x1FFF with (Z.ones 13).
  rewrite !land_mask, be_be32_bytes by lia. unfold ap.
  rewrite <- Z.lxor_assoc, Z.lxor_nilpotent, Z.lxor_0_l, Z.mod_small by done.
  replace (head mod 2 ^ 13) with a by zlia. by rewrite Hdec.
Qed.
End Replies.

(** ** What an accepted frame is *)
Section Accepted.
Lemma parse_df17_crc f d : parse_df17_airborne f = Some d -> length f = 14%nat /\ crc24 f = 0.
Proof.
  unfold parse_df17_airborne. destruct (Nat.eqb_spec (length f) 14); [|done].
  destruct (Z.eqb_spec (crc24 f) 0); [done|]. by rewrite !orb_true_r.
Qed.

(** The DF17 parser accepts only 14-byte frames with a zero CRC, and every value
    it returns is in the range of its field: a 24-bit address, two 17-bit position
    codes, and an altitude AC12 carries, whose code is the one in the frame. *)
Theorem parse_df17_sound f d : bytes_ok f ->
  parse_df17_airborne f = Some d ->
  length f = 14%nat /\ crc24 f = 0 /\ Z.shiftr (f !!! 0%nat) 3 = 17 /\
  0 <= icao d < 2 ^ 24 /\ 0 <= cpr_lat d < 2 ^ 17 /\ 0 <= cpr_lon d < 2 ^ 17 /\
  (forall a, alt_ft d = Some a ->
     ac12 a = Some (Z.land (Z.shiftr (be (take 7 (drop 4 f))) 36) 0xFFF)).
Proof.
  intros Hok. unfold parse_df17_airborne.
  destruct (Nat.eqb_spec (length f) 14) as [Hl|]; [|done].
  destruct (Z.eqb_spec (Z.shiftr (f !!! 0%nat) 3) 17); [|done].
  destruct (Z.eqb_spec (crc24 f) 0); [|done]. cbn [orb negb].
  destruct (negb _); [done|]. intros <-%(inj Some). cbn [icao cpr_lat cpr_lon alt_ft].
  assert (forall i, (i < 14)%nat -> byte_ok (f !!! i)) as Hb.
  { intros i Hi. apply (Forall_lookup_1 _ _ i _ Hok), list_lookup_lookup_total_lt. lia. }
  split_and!; try done.
  - rewrite u24_of_be by (apply Hb; lia). apply be_nonneg. repeat constructor; apply Hb; lia.
  - rewrite u24_of_be by (apply Hb; lia).
    apply (be_bound [_; _; _]). repeat constructor; apply Hb; lia.
  - apply (land_ones_bound _ 17). done.
  - apply (land_ones_bound _ 17). done.
  - apply (land_ones_bound _ 17). done.
  - apply (land_ones_bound _ 17). done.
  - intros a Ha. apply ac12_of_decode; [|done]. apply (land_ones_bound _ 12). done.
Qed.

(** C31: a frame the DF17 parser accepts, damaged inside one window of at most 24
    consecutive bits, is rejected. *)
Theorem parse_df17_burst f f' e k d :
  bytes_ok f -> bytes_ok f' -> 0 <= k -> 0 < e < 2 ^ 24 ->
  be f' = Z.lxor (be f) (Z.shiftl e k) ->
  parse_df17_airborne f = Some d -> parse_df17_airborne f' = None.
Proof.
  intros Hf Hf' Hk He Hx Hp. destruct (parse_df17_crc f d Hp) as [_ Hc].
  pose proof (crc24_burst f f' e k Hf Hf' Hk He Hx Hc) as Hn.
  unfold parse_df17_airborne. destruct (Z.eqb_spec (crc24 f') 0); [done|]. by rewrite !orb_true_r.
Qed.
End Accepted.

(** ** Concrete frames *)
Section Examples.
Definition frame_1090 : list Z :=
  [0x8D; 0x40; 0x62; 0x1D; 0x58; 0xC3; 0x82; 0xD6; 0x90; 0xC8; 0xAC; 0x28; 0x63; 0xA7].

Example frame_1090_parses :
  parse_df17_airborne frame_1090 = Some {|
    icao := 0x40621D; odd := false; cpr_lat := 93000; cpr_lon := 51372; alt_ft := Some 38000 |}.
Proof. vm_compute. reflexivity. Qed.

Lemma parse_df17_burst_witness :
  exists f', f' <> frame_1090 /\ parse_df17_airborne f' = None.
Proof.
  set (f' := <[5%nat := 0xD4]> frame_1090). exists f'. split; [vm_compute; discriminate|].
  apply (parse_df17_burst frame_1090 f' 0x17 64
           {| icao := 0x40621D; odd := false; cpr_lat := 93000; cpr_lon := 51372; alt_ft := Some 38000 |});
    [by apply (bool_decide_unpack _); vm_compute..|vm_compute; reflexivity|vm_compute; reflexivity].
Defined.

Lemma parse_df17_sound_witness :
  exists d, parse_df17_airborne frame_1090 = Some d /\ 0 <= icao d < 2 ^ 24.
Proof.
  eexists. split; [vm_compute; reflexivity|].
  apply (parse_df17_sound frame_1090); [|vm_compute; reflexivity].
  apply (bool_decide_unpack _). vm_compute. reflexivity.
Defined.

Lemma df17_roundtrip_witness :
  exists f, length f = 14%nat /\ (parse_df17_airborne f ≫= alt_ft) = Some 35000.
Proof.
  destruct (df17_airborne_position (H0 := elem_nan) 0x3C6444 5 11 35000 (lit 129 100) (lit 10385 100) true)
    as [f|] eqn:E; [|vm_compute in E; discriminate].
  exists f. destruct (df17_roundtrip (H0 := elem_nan) 0x3C6444 5 11 35000 _ _ _ f ltac:(done) ltac:(lia) E)
    as (Hl & _ & _ & Hp).
  split; [exact Hl|]. rewrite Hp. reflexivity.
Defined.

Lemma df4_roundtrip_witness :
  exists f, length f = 7%nat /\ parse_df4 f = Some (0x3944F1, Some 21000).
Proof.
  destruct (df4 0x3944F1 0 21000) as [f|] eqn:E; [|vm_compute in E; discriminate].
  exists f. destruct (df4_roundtrip 0x3944F1 0 21000 f ltac:(done) E) as (Hl & _ & Hp).
  split; [exact Hl|exact Hp].
Defined.
End Examples.
