(* ===== verification/Beast.v ===== *)
(** * Streaming decoder of the Mode-S Beast binary format (crates/mlatc/src/beast.rs)

    The decoder keeps the bytes it has not consumed; [feed] appends a chunk and
    parses as many messages as are complete.  The results do not depend on how
    the stream is cut into chunks, what is kept is bounded, and the encoder of
    the format is inverted. *)
From S2P Require Import Prelude Crc.
Local Open Scope Z_scope.

Record Reception := { counts_12mhz : Z; frame : list Z }.
Record BeastDecoder := { buf : list Z }.

Inductive Step :=
| Consumed (n : nat) (r : option Reception)
| NeedMore.

(** The payload loop of [parse_at], from index [i] with the bytes [b] left:
    the payload is complete, the input ends, or a bare escape ends the message. *)
Inductive Payload :=
| Complete (i : nat) (payload : list Z)
| Short
| Truncated (i : nat).

Fixpoint payload_loop (want : nat) (b : list Z) (i : nat) (payload : list Z) : Payload :=
  if (want <=? length payload)%nat then Complete i payload
  else
    match b with
    | [] => Short
    | c :: b' =>
        if c =? 0x1a then
          match b' with
          | [] => Short
          | d :: b'' =>
              if d =? 0x1a then payload_loop want b'' (i + 2) (payload ++ [0x1a])
              else Truncated i
          end
        else payload_loop want b' (i + 1) (payload ++ [c])
    end.

Definition frame_len_of (ty : Z) : option nat :=
  if ty =? 0x31 then Some 2%nat
  else if ty =? 0x32 then Some 7%nat
  else if ty =? 0x33 then Some 14%nat
  else None.

Definition parse_at (b : list Z) : Step :=
  if (length b <? 2)%nat then NeedMore
  else
    match frame_len_of (b !!! 1%nat) with
    | None => Consumed 1 None
    | Some frame_len =>
        let want := (6 + 1 + frame_len)%nat in
        match payload_loop want (drop 2 b) 2 [] with
        | Short => NeedMore
        | Truncated i => Consumed i None
        | Complete i payload =>
            if (frame_len =? 2)%nat then Consumed i None
            else
              let counts := be (0 :: 0 :: take 6 payload) in
              Consumed i (Some {| counts_12mhz := counts; frame := drop 7 payload |})
        end
    end.

(** The loop of [feed] on the bytes from [pos] on; each turn consumes a byte at least. *)
Fixpoint scan (fuel : nat) (b : list Z) (out : list Reception) : list Z * list Reception :=
  match fuel with
  | O => (b, out)
  | S fuel =>
      match b with
      | [] => (b, out)
      | c :: b' =>
          if negb (c =? 0x1a) then scan fuel b' out
          else
            match parse_at b with
            | Consumed n r => scan fuel (drop n b) (out ++ option_list r)
            | NeedMore => (b, out)
            end
      end
  end.

Definition feed (self : BeastDecoder) (bytes : list Z) : BeastDecoder * list Reception :=
  let buf := buf self ++ bytes in
  let '(rest, out) := scan (length buf) buf [] in
  ({| buf := rest |}, out).

(** A sequence of reads. *)
Fixpoint feed_all (self : BeastDecoder) (chunks : list (list Z)) : BeastDecoder * list Reception :=
  match chunks with
  | [] => (self, [])
  | c :: chunks =>
      let '(self, out) := feed self c in
      let '(self, out') := feed_all self chunks in
      (self, out ++ out')
  end.

(** The encoder of one reception: header, then the payload with escapes doubled. *)
Definition escape (payload : list Z) : list Z :=
  payload ≫= fun b => if b =? 0x1a then [b; 0x1a] else [b].
Definition be48_bytes (c : Z) : list Z := (fun i => u8 (Z.shiftr c (40 - 8 * i))) <$> seqZ 0 6.
Definition encode (counts_12mhz signal : Z) (frame : list Z) : list Z :=
  0x1a :: (if (length frame =? 7)%nat then 0x32 else 0x33)
  :: escape (be48_bytes counts_12mhz ++ [signal] ++ frame).

(** ** The payload loop *)
Section Payloads.

Lemma payload_loop_grow want b i p y :
  match payload_loop want b i p with
  | Complete j q => payload_loop want (b ++ y) i p = Complete j q /\
      (i <= j <= i + length b)%nat /\ length q = want \/ (want < length p)%nat
  | Truncated j => payload_loop want (b ++ y) i p = Truncated j /\ (i <= j < i + length b)%nat
  | Short => (length b < 2 * (want - length p))%nat
  end.
Proof.
  revert i p. induction b as [b IH] using (induction_ltof1 _ (@length Z)); unfold ltof in IH.
  intros i p.
  destruct b as [|c b]; simpl.
  - destruct (Nat.leb_spec want (length p)); [|lia].
    destruct (decide (want < length p)%nat); [by right|]. left. split; [|lia].
    destruct y; simpl; by rewrite (proj2 (Nat.leb_le _ _)) by lia.
  - destruct (Nat.leb_spec want (length p)) as [Hw|Hw].
    { destruct (decide (want < length p)%nat); [by right|]. left. split; [done|lia]. }
    destruct (c =? 0x1a).
    + destruct b as [|d b]; simpl; [lia|]. destruct (d =? 0x1a).
      * specialize (IH b ltac:(simpl; lia) (i + 2)%nat (p ++ [0x1a])). rewrite length_app in IH. simpl in IH.
        destruct (payload_loop _ _ _ _); [|lia|].
        -- destruct IH as [(-> & ? & ?)|]; [|lia]. left. split; [done|lia].
        -- destruct IH as [-> ?]. split; [done|lia].
      * split; [done|lia].
    + specialize (IH b ltac:(simpl; lia) (i + 1)%nat (p ++ [c])). rewrite length_app in IH. simpl in IH.
      destruct (payload_loop _ _ _ _); [|lia|].
      -- destruct IH as [(-> & ? & ?)|]; [|lia]. left. split; [done|lia].
      -- destruct IH as [-> ?]. split; [done|lia].
Qed.

(** An escaped payload is read back, whatever follows it. *)
Lemma payload_loop_escape q i p y want :
  want = (length p + length q)%nat ->
  payload_loop want (escape q ++ y) i p = Complete (i + length (escape q)) (p ++ q).
Proof.
  intros ->. revert i p. induction q as [|c q IH]; intros i p; simpl.
  - rewrite Nat.add_0_r, app_nil_r. destruct y; simpl; rewrite Nat.leb_refl; f_equal; lia.
  - destruct (Z.eqb_spec c 0x1a) as [->|Hc]; simpl.
    + rewrite (proj2 (Nat.leb_gt _ _)) by lia.
      replace (length p + S (length q))%nat with (length (p ++ [0x1a%Z]) + length q)%nat
        by (rewrite length_app; simpl; lia).
      rewrite IH, <- app_assoc. f_equal. unfold escape. simpl. lia.
    + rewrite (proj2 (Nat.leb_gt _ _)) by lia. rewrite (proj2 (Z.eqb_neq _ _)) by done.
      replace (length p + S (length q))%nat with (length (p ++ [c]) + length q)%nat
        by (rewrite length_app; simpl; lia).
      rewrite IH, <- app_assoc. f_equal. unfold escape. simpl. lia.
Qed.

Lemma payload_loop_ok want b i p j q :
  bytes_ok b -> bytes_ok p -> payload_loop want b i p = Complete j q -> bytes_ok q.
Proof.
  revert i p. induction b as [b IH] using (induction_ltof1 _ (@length Z)); unfold ltof in IH.
  intros i p Hb Hp. destruct b as [|c b]; simpl; [by destruct (_ <=? _)%nat; [intros [= <- <-]|]|].
  apply bytes_ok_cons in Hb as [Hc Hb].
  destruct (_ <=? _)%nat; [by intros [= <- <-]|]. destruct (c =? 0x1a).
  - destruct b as [|d b]; [done|]. apply bytes_ok_cons in Hb as [Hd Hb].
    destruct (d =? 0x1a); [|done]. apply IH; [simpl; lia|done|].
    apply bytes_ok_snoc. split; [done|]. unfold byte_ok. lia.
  - apply IH; [simpl; lia|done|]. by apply bytes_ok_snoc.
Qed.
End Payloads.

(** ** One step of the parser *)
Section Steps.

(** A decision is made on a prefix and does not change as more bytes arrive; it
    consumes at least one byte.  An undecided prefix is shorter than one fully
    escaped long message. *)
Lemma parse_at_grow b y :
  match parse_at b with
  | Consumed n r => parse_at (b ++ y) = Consumed n r /\ (1 <= n <= length b)%nat
  | NeedMore => (length b < 44)%nat
  end.
Proof.
  unfold parse_at. destruct (Nat.ltb_spec (length b) 2) as [|Hl]; [lia|].
  assert (b !!! 1%nat = (b ++ y) !!! 1%nat /\ drop 2 (b ++ y) = drop 2 b ++ y) as [-> ->].
  { destruct b as [|? [|? b]]; simpl in *; [lia..|done]. }
  rewrite (proj2 (Nat.ltb_ge (length (b ++ y)) 2)) by (rewrite length_app; lia).
  unfold frame_len_of.
  destruct ((b ++ y) !!! 1%nat =? 0x31);
    [|destruct ((b ++ y) !!! 1%nat =? 0x32);
    [|destruct ((b ++ y) !!! 1%nat =? 0x33); [|by split; [|lia]]]].
  all: match goal with |- context [payload_loop ?w ?b' 2 []] =>
    pose proof (payload_loop_grow w b' 2 [] y) as Hg; rewrite length_drop in Hg;
    destruct (payload_loop w b' 2 []) end;
    [destruct Hg as [(-> & ? & _)|Hg]; [simpl; split; [done|lia]|simpl in Hg; lia]
    |simpl in Hg; lia
    |destruct Hg as [-> ?]; split; [done|lia]].
Qed.

Lemma parse_at_some b n r : parse_at b = Consumed n (Some r) -> bytes_ok b ->
  (length (frame r) = 7%nat \/ length (frame r) = 14%nat) /\ bytes_ok (frame r) /\
  0 <= counts_12mhz r < 2 ^ 48.
Proof.
  unfold parse_at. destruct (length b <? 2)%nat; [done|].
  destruct (frame_len_of (b !!! 1%nat)) as [fl|] eqn:Ef; [|done].
  pose proof (payload_loop_grow (6 + 1 + fl) (drop 2 b) 2 [] []) as Hg.
  destruct (payload_loop _ _ _ _) as [i q| |] eqn:E; [|done|done].
  destruct (Nat.eqb_spec fl 2) as [|Hfl]; [done|]. intros [= <- <-] Hb. cbn [frame counts_12mhz].
  apply payload_loop_ok in E; [|by apply Forall_drop|by constructor].
  destruct Hg as [(_ & _ & Hq)|Hg]; [|simpl in Hg; lia].
  assert (bytes_ok (0 :: 0 :: take 6 q)) as Hc
    by (repeat (apply bytes_ok_cons; split; [unfold byte_ok; lia|]); by apply Forall_take).
  split_and!.
  - rewrite length_drop. unfold frame_len_of in Ef. repeat case_match; simplify_eq; lia.
  - by apply Forall_drop.
  - by apply be_nonneg.
  - change (be (0 :: 0 :: take 6 q)) with (be (take 6 q)).
    apply (Z.lt_le_trans _ (2 ^ (8 * Z.of_nat (length (take 6 q))))); [apply be_bound; by apply Forall_take|].
    apply Z.pow_le_mono_r; [lia|]. rewrite length_take. lia.
Qed.

Lemma parse_at_encode c s f y :
  0 <= c < 2 ^ 48 -> byte_ok s -> bytes_ok f -> length f = 7%nat \/ length f = 14%nat ->
  parse_at (encode c s f ++ y)
  = Consumed (length (encode c s f)) (Some {| counts_12mhz := c; frame := f |}).
Proof.
  intros Hc Hs Hf Hl. unfold encode. set (ty := if (_ =? 7)%nat then _ else _).
  set (q := be48_bytes c ++ [s] ++ f).
  assert (length q = (6 + 1 + length f)%nat) as Hq by (unfold q; rewrite !length_app; done).
  assert (frame_len_of ty = Some (length f)) as Hty
    by (unfold ty; destruct Hl as [->| ->]; reflexivity).
  unfold parse_at. cbn [app length Nat.ltb Nat.leb].
  change ((0x1a :: ty :: escape q ++ y) !!! 1%nat) with ty. rewrite Hty.
  change (drop 2 (0x1a :: ty :: escape q ++ y)) with (escape q ++ y).
  rewrite (payload_loop_escape q 2 [] y) by (simpl; lia).
  destruct (Nat.eqb_spec (length f) 2); [lia|]. cbn [app]. do 3 f_equal.
  - change (take 6 q) with (be48_bytes c). change (be (0 :: 0 :: be48_bytes c)) with (be (be48_bytes c)).
    unfold be48_bytes. change (seqZ 0 6) with [0; 1; 2; 3; 4; 5]. cbn [fmap list_fmap].
    rewrite !be_cons_add by (repeat constructor; apply (wrap_range 8); done).
    cbn [length]. change (be []) with 0. unfold wrap. rewrite !Z.shiftr_div_pow2 by done. simpl. zlia.
Qed.
End Steps.

(** ** The scanning loop *)
Section Scanning.

Lemma scan_fuel n m b out :
  (length b <= n)%nat -> (length b <= m)%nat -> scan n b out = scan m b out.
Proof.
  revert m b out. induction n as [|n IH]; intros m b out Hn Hm.
  - destruct b; [|simpl in Hn; lia]. by destruct m.
  - destruct m as [|m]; [destruct b; [done|simpl in Hm; lia]|].
    destruct b as [|c b]; [done|]. cbn [scan].
    destruct (negb (c =? 0x1a)); [apply IH; simpl in *; lia|].
    pose proof (parse_at_grow (c :: b) []) as Hp. destruct (parse_at _); [|done].
    apply IH; rewrite length_drop; simpl in *; lia.
Qed.

Lemma scan_out n b out :
  scan n b out = ((scan n b []).1, out ++ (scan n b []).2).
Proof.
  revert b out. induction n as [|n IH]; intros b out; [by rewrite app_nil_r|].
  destruct b as [|c b]; [by cbn; rewrite app_nil_r|]. cbn [scan].
  destruct (negb (c =? 0x1a)); [apply IH|].
  destruct (parse_at _) as [k r|]; [|by cbn; rewrite app_nil_r].
  rewrite IH, (IH _ ([] ++ option_list r)). cbn [fst snd]. by rewrite <- app_assoc.
Qed.

(** The loop with enough turns. *)
Definition scan_all (b : list Z) : list Z * list Reception := scan (length b) b [].

Lemma scan_all_cons c b :
  scan_all (c :: b) =
    if negb (c =? 0x1a) then scan_all b
    else match parse_at (c :: b) with
         | Consumed n r => ((scan_all (drop n (c :: b))).1, option_list r ++ (scan_all (drop n (c :: b))).2)
         | NeedMore => (c :: b, [])
         end.
Proof.
  unfold scan_all at 1. cbn [length scan]. destruct (negb (c =? 0x1a)); [done|].
  pose proof (parse_at_grow (c :: b) []) as Hp. destruct (parse_at _) as [n r|]; [|done].
  rewrite scan_out. unfold scan_all.
  rewrite (scan_fuel (length b) (length (drop n (c :: b)))) by (rewrite length_drop; simpl in *; lia).
  done.
Qed.

(** What is left over is rescanned with the bytes that follow. *)
Lemma scan_all_app b y :
  scan_all (b ++ y)
  = ((scan_all ((scan_all b).1 ++ y)).1, (scan_all b).2 ++ (scan_all ((scan_all b).1 ++ y)).2).
Proof.
  induction b as [b IH] using (induction_ltof1 _ (@length Z)); unfold ltof in IH.
  destruct b as [|c b]; [exact (surjective_pairing (scan_all y))|].
  cbn [app]. rewrite !scan_all_cons. destruct (negb (c =? 0x1a)) eqn:Ec.
  { rewrite IH by (simpl; lia). done. }
  pose proof (parse_at_grow (c :: b) y) as Hp.
  destruct (parse_at (c :: b)) as [n r|] eqn:E; cbn [fst snd].
  - destruct Hp as [Hp Hn]. cbn [app] in Hp. rewrite Hp.
    assert (drop n (c :: b ++ y) = drop n (c :: b) ++ y) as ->
      by (rewrite app_comm_cons, drop_app_le by lia; done).
    rewrite IH by (rewrite length_drop; simpl in *; lia). cbn [fst snd]. by rewrite <- app_assoc.
  - cbn [app]. rewrite (scan_all_cons c (b ++ y)), Ec. by destruct (parse_at (c :: b ++ y)).
Qed.

Lemma scan_all_rest b : scan_all (scan_all b).1 = ((scan_all b).1, []) /\ (length (scan_all b).1 < 44)%nat.
Proof.
  induction b as [b IH] using (induction_ltof1 _ (@length Z)); unfold ltof in IH.
  destruct b as [|c b]; [split; [done|simpl; lia]|].
  rewrite !scan_all_cons. destruct (negb (c =? 0x1a)) eqn:Ec; [apply IH; simpl; lia|].
  pose proof (parse_at_grow (c :: b) []) as Hp. destruct (parse_at (c :: b)) as [n r|] eqn:E; cbn [fst].
  - apply IH. rewrite length_drop. simpl in *. lia.
  - split; [|done]. by rewrite scan_all_cons, Ec, E.
Qed.

Lemma scan_all_ok b : bytes_ok b -> Forall (fun r =>
  (length (frame r) = 7%nat \/ length (frame r) = 14%nat) /\ bytes_ok (frame r) /\
  0 <= counts_12mhz r < 2 ^ 48) (scan_all b).2.
Proof.
  induction b as [b IH] using (induction_ltof1 _ (@length Z)); unfold ltof in IH. intros Hb.
  destruct b as [|c b]; [constructor|]. rewrite scan_all_cons.
  destruct (negb (c =? 0x1a)); [apply IH; [simpl; lia|by apply bytes_ok_cons in Hb as [_ Hb]]|].
  pose proof (parse_at_grow (c :: b) []) as Hp. destruct (parse_at (c :: b)) as [n r|] eqn:E; [|constructor].
  cbn [snd]. apply Forall_app. split.
  - destruct r as [r|]; [|constructor]. constructor; [|constructor]. exact (parse_at_some _ n r E Hb).
  - apply IH; [rewrite length_drop; simpl in *; lia|by apply Forall_drop].
Qed.

Lemma feed_scan d c : feed d c = ({| buf := (scan_all (buf d ++ c)).1 |}, (scan_all (buf d ++ c)).2).
Proof. unfold feed, scan_all. by destruct (scan _ _ _). Qed.

Lemma feed_all_scan d chunks : scan_all (buf d) = (buf d, []) ->
  feed_all d chunks = feed d (concat chunks).
Proof.
  revert d. induction chunks as [|c chunks IH]; intros d Hd.
  - rewrite feed_scan. cbn [concat]. rewrite app_nil_r, Hd. by destruct d.
  - cbn [feed_all]. rewrite (feed_scan d c).
    rewrite IH by apply scan_all_rest. rewrite !feed_scan. cbn [buf concat].
    by rewrite app_assoc, (scan_all_app (buf d ++ c)).
Qed.

(** Noise before a message, then the message. *)
Lemma scan_all_message noise c s f y :
  Forall (fun b => b <> 0x1a) noise ->
  0 <= c < 2 ^ 48 -> byte_ok s -> bytes_ok f -> length f = 7%nat \/ length f = 14%nat ->
  scan_all (noise ++ encode c s f ++ y)
  = ((scan_all y).1, {| counts_12mhz := c; frame := f |} :: (scan_all y).2).
Proof.
  intros Hn Hc Hs Hf Hl. induction Hn as [|b noise Hb _ IH]; cbn [app].
  - pose proof (parse_at_encode c s f y Hc Hs Hf Hl) as Hp.
    unfold encode in *. cbn [app] in *. rewrite scan_all_cons, Hp. cbn [negb Z.eqb Pos.eqb].
    by rewrite !app_comm_cons, drop_app_length.
  - rewrite scan_all_cons. by rewrite (proj2 (Z.eqb_neq b 0x1a)).
Qed.
End Scanning.

(** ** The decoder *)

(** A message on the stream: the noise before it, and what it carries. *)
Record Message := { noise : list Z; counts : Z; signal : Z; body : list Z }.
Definition message_ok (m : Message) : Prop :=
  Forall (fun b => b <> 0x1a) (noise m) /\ 0 <= counts m < 2 ^ 48 /\ byte_ok (signal m) /\
  bytes_ok (body m) /\ (length (body m) = 7%nat \/ length (body m) = 14%nat).
#[export] Instance message_ok_dec m : Decision (message_ok m).
Proof. unfold message_ok. apply _. Defined.
Definition wire (m : Message) : list Z := noise m ++ encode (counts m) (signal m) (body m).
Definition reception (m : Message) : Reception := {| counts_12mhz := counts m; frame := body m |}.

Lemma scan_all_wire ms : Forall message_ok ms -> scan_all (ms ≫= wire) = ([], reception <$> ms).
Proof.
  induction 1 as [|m ms (Hn & Hcnt & Hs & Hf & Hl) _ IH]; [done|].
  cbn [mbind list_bind fmap list_fmap]. unfold wire at 1. rewrite <- app_assoc.
  rewrite scan_all_message by done. change (list_bind _ _ wire ms) with (ms ≫= wire). by rewrite IH.
Qed.

(** The receptions do not depend on how the stream is cut: feeding the chunks one by
    one gives what feeding their concatenation gives, results and kept bytes alike, and
    fewer than 44 bytes are ever kept. *)
Theorem feed_chunks (chunks : list (list Z)) :
  feed_all {| buf := [] |} chunks = feed {| buf := [] |} (concat chunks) /\
  (length (buf (feed_all {| buf := [] |} chunks).1) < 44)%nat.
Proof.
  rewrite feed_all_scan by done. split; [done|]. rewrite feed_scan. apply scan_all_rest.
Qed.

(** The decoder inverts the encoder: messages with escapes doubled, separated by any
    noise free of the escape byte and cut at any place, come out in order and unchanged,
    and nothing is kept. *)
Theorem beast_roundtrip (ms : list Message) (chunks : list (list Z)) :
  Forall message_ok ms -> concat chunks = ms ≫= wire ->
  feed_all {| buf := [] |} chunks = ({| buf := [] |}, reception <$> ms).
Proof.
  intros Hms Hc. rewrite feed_all_scan, feed_scan, Hc by done. cbn [buf app]. by rewrite scan_all_wire.
Qed.

(** C19: on any byte stream, noise and truncated messages included, and however it is cut into
    reads: the receptions and the bytes kept are those of the whole stream read at once, fewer
    than 44 bytes are kept, and every reception is well formed, a frame of 7 or 14 bytes and
    a counter of 48 bits. *)
Theorem beast_receptions_ok (chunks : list (list Z)) :
  bytes_ok (concat chunks) ->
  let '(self, out) := feed_all {| buf := [] |} chunks in
  feed {| buf := [] |} (concat chunks) = (self, out) /\ (length (buf self) < 44)%nat /\
  Forall (fun r => (length (frame r) = 7%nat \/ length (frame r) = 14%nat) /\ bytes_ok (frame r) /\
    0 <= counts_12mhz r < 2 ^ 48) out.
Proof.
  intros Hb. destruct (feed_chunks chunks) as [E Hk]. destruct (feed_all _ chunks) as [self out]. split_and!; [done..|].
  rewrite feed_scan in E. change out with (self, out).2. rewrite E. by apply scan_all_ok.
Qed.

(** ** Concrete streams *)

Definition sample : list Message := [
  {| noise := [0; 7]; counts := 0x1a001a1a1a01; signal := 0x1a; body := [0x1a; 1; 2; 3; 4; 5; 0x1a] |};
  {| noise := []; counts := 5; signal := 200; body := repeat 0x1a 14 |} ].

Lemma beast_roundtrip_witness :
  feed_all {| buf := [] |} ((fun b => [b]) <$> (sample ≫= wire)) = ({| buf := [] |}, reception <$> sample).
Proof.
  apply (beast_roundtrip sample); [|vm_compute; reflexivity].
  apply (bool_decide_unpack _). vm_compute. reflexivity.
Defined.

Lemma beast_receptions_ok_witness :
  let chunks := [[0x1a; 0x32; 0]; [0; 0; 0; 0; 1; 2; 3; 4]; [5; 6; 7; 8; 9; 0x1a; 0x33]] in
  exists self out, feed {| buf := [] |} (concat chunks) = (self, out) /\ buf self = [0x1a; 0x33] /\
  out = [{| counts_12mhz := 1; frame := [3; 4; 5; 6; 7; 8; 9] |}].
Proof.
  cbv zeta. set (chunks := [[0x1a; 0x32; 0]; [0; 0; 0; 0; 1; 2; 3; 4]; [5; 6; 7; 8; 9; 0x1a; 0x33]]).
  assert (bytes_ok (concat chunks)) as Hb by (apply (bool_decide_unpack _); vm_compute; reflexivity).
  assert (feed_all {| buf := [] |} chunks = ({| buf := [0x1a; 0x33] |}, [{| counts_12mhz := 1; frame := [3; 4; 5; 6; 7; 8; 9] |}])) as Ef by (vm_compute; reflexivity).
  pose proof (beast_receptions_ok chunks Hb) as H. rewrite Ef in H. destruct H as (E & _ & _). eexists _, _. split_and!; [exact E|done|done].
Defined.
