(* ===== verification/Text.v ===== *)
(** * Text of the language's standard library: hexadecimal formatting and parsing

    [format!("{x:06x}")] and [u32::from_str_radix(s, 16)], on byte strings, and
    durations as [f64] seconds.  The [hex] crate is the parameter [hex_encode]. *)
From S2P Require Import Prelude F64.
From Stdlib Require Import Ascii.
From Stdlib Require String.
Local Open Scope Z_scope.
#[export] Set Warnings "-notation-incompatible-prefix".

(** Byte of an ASCII character. *)
Definition byte_of (c : ascii) : Z := Z.of_N (N_of_ascii c).
(** [s.as_bytes()]. *)
Definition bytes_of (s : string) : list Z := byte_of <$> String.list_ascii_of_string s.
Definition hex_digit (d : Z) : ascii :=
  ascii_of_N (Z.to_N (if d <? 10 then 48 + d else 87 + d)).

(** [n] lowercase hexadecimal digits of [z], most significant first. *)
Fixpoint hex_digits (n : nat) (z : Z) : string :=
  match n with
  | O => EmptyString
  | S n => String (hex_digit (z / 16 ^ Z.of_nat n mod 16)) (hex_digits n z)
  end.

(** [format!("{x:06x}")] of an unsigned 32-bit value: at least six digits. *)
Definition fmt_06x (x : Z) : string :=
  hex_digits (Nat.max 6 (if x <? 16 ^ 6 then 0 else if x <? 16 ^ 7 then 7 else 8)) x.

(** [Icao::to_hex]. *)
Definition to_hex (x : Z) : string := fmt_06x (Z.land x 0xFFFFFF).

Definition digit_val (c : ascii) : option Z :=
  let b := byte_of c in
  if (48 <=? b) && (b <=? 57) then Some (b - 48)
  else if (97 <=? b) && (b <=? 102) then Some (b - 87)
  else if (65 <=? b) && (b <=? 70) then Some (b - 55)
  else None.

Fixpoint parse_hex (s : string) (acc : Z) : option Z :=
  match s with
  | EmptyString => Some acc
  | String c s =>
      match digit_val c with
      | None => None
      | Some d => let v := acc * 16 + d in if v <=? 2 ^ 32 - 1 then parse_hex s v else None
      end
  end.

(** [u32::from_str_radix(s, 16).ok()]: an optional [+], then one or more digits, within [u32]. *)
Definition from_str_radix16 (s : string) : option Z :=
  match s with
  | EmptyString => None
  | String c s' =>
      if byte_of c =? 43 then match s' with EmptyString => None | _ => parse_hex s' 0 end
      else parse_hex s 0
  end.

(** The [hex] crate: hexadecimal form of a byte string, and back. *)
Class Hex := { hex_encode : list Z -> string; hex_decode : string -> option (list Z) }.

(** A [Duration] of [ns] nanoseconds as [f64] seconds ([as_secs_f64]), and the time
    elapsed between two [Instant]s ([duration_since], zero when reversed). *)
Definition as_secs_f64 (ns : Z) : f64 :=
  (of_Z (ns / 1000000000) + of_Z (ns mod 1000000000) / of_Z 1000000000)%f64.
Definition duration_since (later earlier : Z) : Z := Z.max 0 (later - earlier).

(** ** Formatting and parsing are inverse on 24-bit addresses *)
Lemma digit_val_hex d : 0 <= d < 16 -> digit_val (hex_digit d) = Some d.
Proof.
  intros Hd. pose proof (range_forallb
    (fun d => match digit_val (hex_digit d) with Some e => e =? d | None => false end)
    16 ltac:(vm_compute; reflexivity) d Hd) as H.
  cbv beta in H. destruct (digit_val _); [|done]. by apply Z.eqb_eq in H as ->.
Qed.
Lemma hex_digit_plus d : 0 <= d < 16 -> (byte_of (hex_digit d) =? 43) = false.
Proof.
  intros Hd. pose proof (range_forallb (fun d => negb (byte_of (hex_digit d) =? 43))
    16 ltac:(vm_compute; reflexivity) d Hd) as H. by apply negb_true_iff in H.
Qed.

Lemma parse_hex_digits n z acc : 0 <= acc -> acc * 16 ^ Z.of_nat n + 16 ^ Z.of_nat n <= 2 ^ 32 ->
  parse_hex (hex_digits n z) acc = Some (acc * 16 ^ Z.of_nat n + z mod 16 ^ Z.of_nat n).
Proof.
  revert acc. induction n as [|n IH]; intros acc Ha Hb.
  - simpl. by rewrite Z.mod_1_r, Z.add_0_r, Z.mul_1_r.
  - cbn [hex_digits parse_hex].
    pose proof (Z.mod_pos_bound (z / 16 ^ Z.of_nat n) 16 ltac:(lia)) as Hd.
    rewrite digit_val_hex by done. set (d := _ mod 16) in *.
    rewrite Nat2Z.inj_succ, Z.pow_succ_r in * by lia.
    assert (0 < 16 ^ Z.of_nat n) by lia. set (p := 16 ^ Z.of_nat n) in *.
    destruct (Z.leb_spec (acc * 16 + d) (2 ^ 32 - 1)); [|nia].
    rewrite IH by nia. f_equal.
    rewrite (Z.mul_comm 16 p), Z.rem_mul_r by lia. fold d. lia.
Qed.

(** An address printed with [{:06x}] is parsed back. *)
Lemma from_str_fmt x : 0 <= x < 2 ^ 24 -> from_str_radix16 (fmt_06x x) = Some x.
Proof.
  intros Hx. unfold fmt_06x. rewrite (proj2 (Z.ltb_lt x (16 ^ 6))) by lia.
  change (Nat.max 6 (Z.to_nat 0)) with 6%nat. unfold from_str_radix16. cbn [Nat.max hex_digits].
  rewrite hex_digit_plus by (apply Z.mod_pos_bound; lia).
  change (String (hex_digit (x / 16 ^ Z.of_nat 5 mod 16)) _) with (hex_digits 6 x).
  rewrite parse_hex_digits by (simpl; lia). f_equal. apply Z.mod_small. done.
Qed.

Lemma fmt_06x_inj x y : 0 <= x < 2 ^ 24 -> 0 <= y < 2 ^ 24 -> fmt_06x x = fmt_06x y -> x = y.
Proof.
  intros Hx Hy E. pose proof (from_str_fmt x Hx) as E1. rewrite E, from_str_fmt in E1 by done. congruence.
Qed.

Example fmt_06x_sample : fmt_06x 0x3c6444 = "3c6444"%string /\ from_str_radix16 "3C6444" = Some 0x3c6444
  /\ from_str_radix16 "+1" = Some 1 /\ from_str_radix16 "100000000" = None.
Proof. repeat split; vm_compute; reflexivity. Qed.
