(* ===== verification/Decimal.v ===== *)
(** * Decimal text of the language's standard library

    [format!] of integers and of floating-point numbers with a fixed number of
    decimals, [str::parse] of [f64] and unsigned integers, and the string
    operations the parsers use ([split], [trim], [to_lowercase], [lines]).
    The string operations are those of ASCII text: a byte above 127 is kept as
    it is and is never white space.  Parsing what was formatted gives back the
    rounded decimal. *)
From S2P Require Import Prelude F64 Text.
From Stdlib Require Import Ascii.
Local Open Scope Z_scope.

(** ** Characters and strings *)
Definition is_digit (c : ascii) : bool := (48 <=? byte_of c) && (byte_of c <=? 57).
Definition is_space (c : ascii) : bool := (byte_of c =? 32) || (9 <=? byte_of c) && (byte_of c <=? 13).
Definition lower (c : ascii) : ascii :=
  if (65 <=? byte_of c) && (byte_of c <=? 90) then ascii_of_N (Z.to_N (byte_of c + 32)) else c.
Definition upper (c : ascii) : ascii :=
  if (97 <=? byte_of c) && (byte_of c <=? 122) then ascii_of_N (Z.to_N (byte_of c - 32)) else c.
Fixpoint smap (f : ascii -> ascii) (s : string) : string :=
  match s with EmptyString => EmptyString | String c s => String (f c) (smap f s) end.
Definition to_lowercase : string -> string := smap lower.
Definition to_uppercase : string -> string := smap upper.

(** [s.split(c)]: always at least one piece. *)
Fixpoint split_on (c : ascii) (s : string) : list string :=
  match s with
  | EmptyString => [EmptyString]
  | String x s =>
      if Ascii.eqb x c then EmptyString :: split_on c s
      else match split_on c s with [] => [String x EmptyString] | p :: l => String x p :: l end
  end.
Definition COMMA : ascii := Ascii.ascii_of_nat 44.
Definition NEWLINE : ascii := Ascii.ascii_of_nat 10.
Definition CR : ascii := Ascii.ascii_of_nat 13.
Definition QUOTE : ascii := Ascii.ascii_of_nat 34.

Fixpoint trim_start (s : string) : string :=
  match s with
  | String c s' => if is_space c then trim_start s' else s
  | EmptyString => EmptyString
  end.
(** Without its trailing white space. *)
Fixpoint trim_end (s : string) : string :=
  match s with
  | EmptyString => EmptyString
  | String c s' =>
      match trim_end s' with
      | EmptyString => if is_space c then EmptyString else String c EmptyString
      | t => String c t
      end
  end.
Definition trim (s : string) : string := trim_end (trim_start s).

(** [s.lines()]: the pieces between line feeds, a carriage return before one dropped, and
    no empty piece after the last. *)
Fixpoint strip_cr (s : string) : string :=
  match s with
  | EmptyString => EmptyString
  | String c EmptyString => if Ascii.eqb c CR then EmptyString else s
  | String c s' => String c (strip_cr s')
  end.
Fixpoint drop_last_empty (l : list string) : list string :=
  match l with
  | [] => []
  | [p] => if (p =? EmptyString)%string then [] else [p]
  | p :: l => strip_cr p :: drop_last_empty l
  end.
Definition lines (s : string) : list string := drop_last_empty (split_on NEWLINE s).

(** ** Formatting *)
Fixpoint dec_fixed (n : nat) (z : Z) : string :=
  match n with
  | O => EmptyString
  | S n => String (hex_digit (z / 10 ^ Z.of_nat n mod 10)) (dec_fixed n z)
  end.
(** The number of decimal digits, at least one. *)
Fixpoint dec_len_loop (fuel : nat) (z : Z) : nat :=
  match fuel with
  | O => 1%nat
  | S fuel => if z <? 10 then 1%nat else S (dec_len_loop fuel (z / 10))
  end.
Definition dec_len (z : Z) : nat := dec_len_loop (Z.to_nat (Z.log2 z)) z.
(** [format!("{z}")], and [format!("{z:0n}")] of a nonnegative integer. *)
Definition fmt_nat (z : Z) : string := dec_fixed (dec_len z) z.
Definition fmt_int (z : Z) : string := if z <? 0 then String.append "-" (fmt_nat (- z)) else fmt_nat z.
Definition fmt_0n (n : nat) (z : Z) : string :=
  if z <? 0 then String.append "-" (dec_fixed (Nat.max (Nat.pred n) (dec_len (- z))) (- z))
  else dec_fixed (Nat.max n (dec_len z)) z.

(** Nearest integer to [m * 2^e] for [m >= 0], ties to even. *)
Definition round_even (m e : Z) : Z :=
  if 0 <=? e then Z.shiftl m e
  else
    let d := 2 ^ (- e) in
    let q := m / d in
    let r := 2 * (m mod d) in
    if (d <? r) || (r =? d) && Z.odd q then q + 1 else q.
Definition fixed_digits (n : nat) (q : Z) : string :=
  let p := 10 ^ Z.of_nat n in
  String.append (fmt_nat (q / p))
    (match n with O => EmptyString | _ => String.append "." (dec_fixed n (q mod p)) end).
Definition sign_text (s : bool) : string := if s then "-"%string else EmptyString.
(** [format!("{x:.n}")]. *)
Definition fmt_fixed (n : nat) (x : f64) : string :=
  match x with
  | S754_nan => "NaN"
  | S754_infinity s => String.append (sign_text s) "inf"
  | S754_zero s => String.append (sign_text s) (fixed_digits n 0)
  | S754_finite s m e => String.append (sign_text s) (fixed_digits n (round_even (Zpos m * 10 ^ Z.of_nat n) e))
  end.

(** ** Parsing *)
Fixpoint take_digits (s : string) : list Z * string :=
  match s with
  | String c s' =>
      if is_digit c then let '(l, r) := take_digits s' in (byte_of c - 48 :: l, r) else ([], s)
  | EmptyString => ([], EmptyString)
  end.
Definition num_of (l : list Z) : Z := fold_left (fun a d => 10 * a + d) l 0.
Definition take_sign (s : string) : bool * string :=
  match s with
  | String c s' => if byte_of c =? 45 then (true, s') else if byte_of c =? 43 then (false, s') else (false, s)
  | EmptyString => (false, s)
  end.

(** [m * 10^e], correctly rounded. *)
Definition dec_value (neg : bool) (m e : Z) : f64 :=
  match m with
  | Zpos p =>
      if 0 <=? e then binary_normalize 53 1024 (cond_Zopp neg (m * 10 ^ e)) 0 neg
      else fdiv (S754_finite neg p 0) (S754_finite false (Z.to_pos (10 ^ (- e))) 0)
  | _ => S754_zero neg
  end.
Definition parse_exponent (s : string) : option Z :=
  match s with
  | EmptyString => Some 0
  | String c s =>
      if (byte_of c =? 101) || (byte_of c =? 69) then
        let '(neg, s) := take_sign s in
        let '(l, rest) := take_digits s in
        match l, rest with
        | _ :: _, EmptyString => Some (if neg then - num_of l else num_of l)
        | _, _ => None
        end
      else None
  end.
(** [s.parse::<f64>().ok()]. *)
Definition parse_f64 (s : string) : option f64 :=
  let '(neg, s) := take_sign s in
  let w := to_lowercase s in
  if (w =? "inf")%string || (w =? "infinity")%string then Some (S754_infinity neg)
  else if (w =? "nan")%string then Some S754_nan
  else
    let '(ip, s) := take_digits s in
    let '(fp, s) := match s with
                    | String c s' => if byte_of c =? 46 then take_digits s' else ([], s)
                    | EmptyString => ([], s)
                    end in
    match ip ++ fp with
    | [] => None
    | l => e ← parse_exponent s; Some (dec_value neg (num_of l) (e - Z.of_nat (length fp)))
    end.

(** [s.parse::<T>().ok()] for an unsigned [T] of a given maximum. *)
Definition parse_unsigned (max : Z) (s : string) : option Z :=
  let s := match s with String c s' => if byte_of c =? 43 then s' else s | EmptyString => s end in
  match take_digits s with
  | ((_ :: _) as l, EmptyString) => if num_of l <=? max then Some (num_of l) else None
  | _ => None
  end.

(** ** Digits *)
Section Digits.

Lemma digit_facts d : 0 <= d < 10 ->
  byte_of (hex_digit d) = 48 + d /\ is_digit (hex_digit d) = true /\
  hex_digit d <> COMMA /\ hex_digit d <> NEWLINE /\ is_space (hex_digit d) = false /\ lower (hex_digit d) = hex_digit d.
Proof.
  intros Hd. pose proof (range_forallb (fun d => (byte_of (hex_digit d) =? 48 + d) && is_digit (hex_digit d)
    && negb (Ascii.eqb (hex_digit d) COMMA) && negb (Ascii.eqb (hex_digit d) NEWLINE)
    && negb (is_space (hex_digit d)) && Ascii.eqb (lower (hex_digit d)) (hex_digit d))
    10 ltac:(vm_compute; reflexivity) d Hd) as E. cbv beta in E.
  rewrite !andb_true_iff, !negb_true_iff, Z.eqb_eq, !Ascii.eqb_neq, Ascii.eqb_eq in E.
  destruct E as [[[[[? ?] ?] ?] ?] ?]. done.
Qed.
Lemma mod10 z : 0 <= z mod 10 < 10.
Proof. apply Z.mod_pos_bound. lia. Qed.

Lemma sapp_cons c s r : String.append (String c s) r = String c (String.append s r).
Proof. done. Qed.
Lemma sapp_nil r : String.append EmptyString r = r.
Proof. done. Qed.

Lemma sapp_nil_r s : String.append s EmptyString = s.
Proof. induction s as [|c s IH]; [done|]. by rewrite sapp_cons, IH. Qed.
Lemma sapp_assoc a b c : String.append (String.append a b) c = String.append a (String.append b c).
Proof. induction a as [|x a IH]; [done|]. by rewrite !sapp_cons, IH. Qed.

(** Whether a string starts with no digit. *)
Definition no_digit (s : string) : Prop := match s with String c _ => is_digit c = false | EmptyString => True end.
Lemma take_digits_none s : no_digit s -> take_digits s = ([], s).
Proof. destruct s as [|c s]; [done|]. cbn [no_digit take_digits]. by intros ->. Qed.

Lemma num_of_snoc l d : num_of (l ++ [d]) = 10 * num_of l + d.
Proof. unfold num_of. by rewrite fold_left_app. Qed.
Lemma num_of_acc l a : fold_left (fun a d => 10 * a + d) l a = a * 10 ^ Z.of_nat (length l) + num_of l.
Proof.
  unfold num_of. revert a. induction l as [|d l IH]; intros a; cbn [fold_left length]; [lia|].
  rewrite IH, (IH (10 * 0 + d)). rewrite Nat2Z.inj_succ, Z.pow_succ_r by lia. ring.
Qed.
Lemma num_of_app l k : num_of (l ++ k) = num_of l * 10 ^ Z.of_nat (length k) + num_of k.
Proof. unfold num_of at 1. rewrite fold_left_app, num_of_acc. done. Qed.

Lemma pow10_pos n : 0 < 10 ^ Z.of_nat n.
Proof. apply Z.pow_pos_nonneg; lia. Qed.

(** The digits of a fixed-width number, read back. *)
Lemma take_digits_fixed n z r : no_digit r ->
  exists l, take_digits (String.append (dec_fixed n z) r) = (l, r) /\ length l = n /\ num_of l = z mod 10 ^ Z.of_nat n.
Proof.
  intros Hr. revert z. induction n as [|n IH]; intros z.
  - exists []. cbn [dec_fixed]. rewrite sapp_nil, take_digits_none by done. by rewrite Z.mod_1_r.
  - cbn [dec_fixed]. rewrite sapp_cons. cbn [take_digits]. destruct (digit_facts _ (mod10 (z / 10 ^ Z.of_nat n))) as (Hb & -> & _).
    destruct (IH z) as (l & -> & Hl & Hn). exists (z / 10 ^ Z.of_nat n mod 10 :: l). rewrite Hb.
    split; [f_equal; f_equal; lia|]. split; [cbn; by rewrite Hl|].
    change (z / 10 ^ Z.of_nat n mod 10 :: l) with ([z / 10 ^ Z.of_nat n mod 10] ++ l). rewrite num_of_app, Hn, Hl.
    change (num_of [z / 10 ^ Z.of_nat n mod 10]) with (z / 10 ^ Z.of_nat n mod 10).
    rewrite Nat2Z.inj_succ, Z.pow_succ_r, (Z.mul_comm 10) by lia. pose proof (pow10_pos n).
    rewrite Z.rem_mul_r by lia. ring.
Qed.

Lemma dec_len_bound z : 0 <= z -> z < 10 ^ Z.of_nat (dec_len z).
Proof.
  intros Hz. unfold dec_len. assert (z < 2 ^ (Z.of_nat (Z.to_nat (Z.log2 z)) + 1)) as Hb.
  { destruct (decide (z = 0)) as [->|]; [done|]. rewrite Z2Nat.id by apply Z.log2_nonneg.
    apply Z.log2_spec. lia. }
  remember (Z.to_nat (Z.log2 z)) as n eqn:E. clear E. revert z Hz Hb. induction n as [|n IH]; intros z Hz Hb; cbn [dec_len_loop].
  - change (2 ^ (Z.of_nat 0 + 1)) with 2 in Hb. change (10 ^ Z.of_nat 1) with 10. lia.
  - destruct (Z.ltb_spec z 10) as [|Hge]; [by change (10 ^ Z.of_nat 1) with 10|].
    rewrite Nat2Z.inj_succ, Z.pow_succ_r by lia.
    assert (z / 10 < 10 ^ Z.of_nat (dec_len_loop n (z / 10))) as H; [|zlia].
    apply IH; [apply Z.div_pos; lia|]. rewrite Nat2Z.inj_succ in Hb.
    replace (Z.succ (Z.of_nat n) + 1) with (Z.succ (Z.of_nat n + 1)) in Hb by lia.
    rewrite Z.pow_succ_r in Hb by lia. zlia.
Qed.
Lemma dec_len_pos z : (1 <= dec_len z)%nat.
Proof. unfold dec_len. destruct (Z.to_nat (Z.log2 z)); cbn [dec_len_loop]; [lia|]. destruct (_ <? _); lia. Qed.

Lemma take_digits_nat z r : 0 <= z -> no_digit r ->
  exists l, take_digits (String.append (fmt_nat z) r) = (l, r) /\ l <> [] /\ num_of l = z.
Proof.
  intros Hz Hr. destruct (take_digits_fixed (dec_len z) z r Hr) as (l & E & Hl & Hn). exists l. unfold fmt_nat.
  split; [done|]. split.
  - intros ->. pose proof (dec_len_pos z). cbn in Hl. lia.
  - rewrite Hn. apply Z.mod_small. split; [done|by apply dec_len_bound].
Qed.
(** Zero-padded numbers differ when their values do. *)
Lemma fmt_0n_inj n x y : 0 <= x -> 0 <= y -> fmt_0n n x = fmt_0n n y -> x = y.
Proof.
  assert (forall z, 0 <= z -> exists l, (take_digits (fmt_0n n z)).1 = l /\ num_of l = z) as Hval.
  { intros z Hz. unfold fmt_0n. destruct (Z.ltb_spec z 0); [lia|]. set (k := Nat.max n (dec_len z)).
    destruct (take_digits_fixed k z EmptyString) as (l & E & _ & Hn); [done|]. rewrite sapp_nil_r in E.
    exists l. rewrite E. split; [done|]. rewrite Hn. apply Z.mod_small. split; [done|].
    pose proof (dec_len_bound z Hz). eapply Z.lt_le_trans; [done|]. apply Z.pow_le_mono_r; lia. }
  intros Hx Hy E. destruct (Hval x Hx) as (l & El & <-), (Hval y Hy) as (l' & El' & <-). congruence.
Qed.
End Digits.

(** ** Formatting and parsing *)
Section Roundtrip.

(** A text that starts like a number. *)
Definition starts_digit (s : string) : Prop := exists d r, 0 <= d < 10 /\ s = String (hex_digit d) r.
Lemma fmt_nat_starts z r : starts_digit (String.append (fmt_nat z) r).
Proof.
  unfold fmt_nat. pose proof (dec_len_pos z). destruct (dec_len z) as [|n]; [lia|]. cbn [dec_fixed]. rewrite sapp_cons.
  eexists _, _. split; [apply mod10|done].
Qed.
Lemma starts_digit_plain s : starts_digit s ->
  take_sign s = (false, s) /\ (to_lowercase s =? "inf")%string = false /\
  (to_lowercase s =? "infinity")%string = false /\ (to_lowercase s =? "nan")%string = false.
Proof.
  intros (d & r & Hd & ->). destruct (digit_facts d Hd) as (Hb & _ & _ & _ & _ & Hl). split.
  - cbn [take_sign]. rewrite Hb. by destruct (Z.eqb_spec (48 + d) 45), (Z.eqb_spec (48 + d) 43); try lia.
  - unfold to_lowercase. cbn [smap]. rewrite Hl, !String.eqb_neq.
    assert (forall c r', byte_of c <> 48 + d -> String (hex_digit d) (smap lower r) <> String c r') as Hne
      by (intros c r' Hc [= E _]; apply Hc; by rewrite <- E).
    split_and!; apply Hne;
      lazymatch goal with |- byte_of ?c <> _ => let b := eval vm_compute in (byte_of c) in change (byte_of c) with b end; lia.
Qed.

(** The parser after the sign and the words. *)
Definition parse_number (neg : bool) (s : string) : option f64 :=
  let '(ip, s) := take_digits s in
  let '(fp, s) := match s with
                  | String c s' => if byte_of c =? 46 then take_digits s' else ([], s)
                  | EmptyString => ([], s)
                  end in
  match ip ++ fp with
  | [] => None
  | l => e ← parse_exponent s; Some (dec_value neg (num_of l) (e - Z.of_nat (length fp)))
  end.
Lemma parse_f64_digit s : starts_digit s -> parse_f64 s = parse_number false s.
Proof. intros (E1 & E2 & E3 & E4)%starts_digit_plain. unfold parse_f64. by rewrite E1, E2, E3, E4. Qed.
Lemma parse_f64_minus s : starts_digit s -> parse_f64 (String (ascii_of_N 45) s) = parse_number true s.
Proof.
  intros (_ & E2 & E3 & E4)%starts_digit_plain. unfold parse_f64.
  assert (take_sign (String (ascii_of_N 45) s) = (true, s)) as -> by done. by rewrite E2, E3, E4.
Qed.

Lemma parse_number_fixed neg n q : 0 <= q ->
  parse_number neg (fixed_digits n q) = Some (dec_value neg q (- Z.of_nat n)).
Proof.
  intros Hq. unfold parse_number, fixed_digits. cbv zeta. pose proof (pow10_pos n).
  assert (0 <= q / 10 ^ Z.of_nat n) as Hq' by (apply Z.div_pos; lia).
  destruct n as [|n].
  - destruct (take_digits_nat (q / 10 ^ Z.of_nat 0) EmptyString Hq' I) as (l & -> & Hl & Hn).
    rewrite app_nil_r. destruct l as [|d l]; [done|]. cbn [parse_exponent mbind option_bind length].
    rewrite Hn. do 2 f_equal. by rewrite Z.div_1_r.
  - destruct (take_digits_nat (q / 10 ^ Z.of_nat (S n)) (String.append "." (dec_fixed (S n) (q mod 10 ^ Z.of_nat (S n)))) Hq')
      as (l & -> & Hl & Hn); [done|].
    rewrite sapp_cons, sapp_nil. change (byte_of "." =? 46) with true. cbv iota.
    destruct (take_digits_fixed (S n) (q mod 10 ^ Z.of_nat (S n)) EmptyString I) as (k & Ek & Hk & Hm).
    replace (String.append (dec_fixed (S n) (q mod 10 ^ Z.of_nat (S n))) EmptyString) with (dec_fixed (S n) (q mod 10 ^ Z.of_nat (S n))) in Ek
      by (by rewrite sapp_nil_r).
    rewrite Ek. destruct l as [|d l]; [done|]. cbn [app]. cbn [parse_exponent mbind option_bind].
    change (d :: l ++ k) with ((d :: l) ++ k). rewrite num_of_app, Hn, Hm, Hk, Zmod_mod. do 2 f_equal.
    + rewrite Z.mul_comm. symmetry. apply Z.div_mod. lia.
Qed.

Lemma round_even_nonneg m e : 0 <= m -> 0 <= round_even m e.
Proof.
  intros Hm. unfold round_even. destruct (Z.leb_spec 0 e); [by apply Z.shiftl_nonneg|]. cbv zeta.
  assert (0 <= m / 2 ^ (- e)) by (apply Z.div_pos; [done|apply Z.pow_pos_nonneg; lia]). destruct (_ || _); lia.
Qed.
(** The rounding is to nearest. *)
Lemma round_even_nearest m e : 0 <= m -> e < 0 ->
  Z.abs (2 * (round_even m e * 2 ^ (- e) - m)) <= 2 ^ (- e).
Proof.
  intros Hm He. unfold round_even. destruct (Z.leb_spec 0 e); [lia|]. cbv zeta.
  set (d := 2 ^ (- e)). assert (0 < d) as Hd by (apply Z.pow_pos_nonneg; lia).
  pose proof (Z.div_mod m d ltac:(lia)) as E. pose proof (Z.mod_pos_bound m d Hd) as Hr.
  set (q := m / d) in *. set (r := m mod d) in *.
  destruct (Z.ltb_spec d (2 * r)), (Z.eqb_spec (2 * r) d), (Z.odd q); cbn [orb andb]; nia.
Qed.

(** The decimal a formatted number stands for. *)
Definition rounded (n : nat) (x : f64) : f64 :=
  match x with
  | S754_finite s m e => dec_value s (round_even (Zpos m * 10 ^ Z.of_nat n) e) (- Z.of_nat n)
  | _ => x
  end.
Lemma parse_fmt_fixed n x : parse_f64 (fmt_fixed n x) = Some (rounded n x).
Proof.
  assert (forall s q, 0 <= q -> parse_f64 (String.append (sign_text s) (fixed_digits n q)) = Some (dec_value s q (- Z.of_nat n))) as Hs.
  { intros s q Hq. destruct s; cbn [sign_text].
    - rewrite sapp_cons, sapp_nil. rewrite parse_f64_minus by apply fmt_nat_starts. by apply parse_number_fixed.
    - rewrite sapp_nil, parse_f64_digit by apply fmt_nat_starts. by apply parse_number_fixed. }
  destruct x as [s|s| |s m e]; cbn [fmt_fixed rounded].
  - by rewrite Hs.
  - by destruct s.
  - done.
  - apply Hs, round_even_nonneg. pose proof (pow10_pos n). lia.
Qed.

Lemma parse_fmt_int z : parse_f64 (fmt_int z) = Some (dec_value (z <? 0) (Z.abs z) 0).
Proof.
  assert (forall neg q, 0 <= q -> parse_number neg (fmt_nat q) = Some (dec_value neg q 0)) as Hp.
  { intros neg q Hq. pose proof (parse_number_fixed neg 0 q Hq) as E. unfold fixed_digits in E. rewrite sapp_nil_r, Z.div_1_r in E. done. }
  assert (forall q, starts_digit (fmt_nat q)) as Hst
    by (intros q; rewrite <- (sapp_nil_r (fmt_nat q)); apply fmt_nat_starts).
  unfold fmt_int. destruct (Z.ltb_spec z 0).
  - rewrite sapp_cons, sapp_nil, parse_f64_minus by apply Hst. rewrite Hp by lia. by rewrite <- Z.abs_neq by lia.
  - rewrite parse_f64_digit, Hp by (done || apply Hst). by rewrite Z.abs_eq.
Qed.

Lemma parse_fmt_nat max z : 0 <= z <= max -> parse_unsigned max (fmt_nat z) = Some z.
Proof.
  intros Hz. destruct (take_digits_nat z EmptyString ltac:(lia) I) as (l & E & Hl & Hn).
  rewrite sapp_nil_r in E. destruct (fmt_nat_starts z EmptyString) as (d & r & Hd & Ed).
  rewrite sapp_nil_r in Ed. unfold parse_unsigned. rewrite Ed in *.
  destruct (digit_facts d Hd) as (Hb & _). rewrite Hb. destruct (Z.eqb_spec (48 + d) 43); [lia|].
  rewrite E. destruct l; [done|]. rewrite Hn. destruct (Z.leb_spec z max); [done|lia].
Qed.
End Roundtrip.
