(* ===== verification/Proto.v ===== *)
(** * The client wire protocol (crates/mb-proto/src/lib.rs)

    The messages of both directions and the classification of server lines.
    JSON values are those of [serde_json], an interface here: what the code
    calls of it are the operations of the class [Json]. *)
From S2P Require Import Prelude F64 Text.
Local Open Scope Z_scope.

(** [serde_json]: values, numbers and the accessors the code uses. *)
Class Json := {
  Value : Type;
  Number : Type;
  from_slice : list Z -> option Value;      (** [serde_json::from_slice(..).ok()] *)
  is_object : Value -> bool;                (** [v.as_object().is_some()] *)
  jget : Value -> string -> option Value;   (** [v.get(key)] *)
  as_str : Value -> option string;
  as_bool : Value -> option bool;
  as_f64 : Value -> option f64;
  as_u64 : Value -> option Z;
  as_i64 : Value -> option Z;
  as_array : Value -> option (list Value);
  object_keys : Value -> option (list string); (** [v.as_object().map(|o| o.keys())] *)
  num_of_u64 : Z -> Number;                 (** [Number::from] *)
  num_of_f64 : f64 -> option Number;        (** [Number::from_f64] *)
  vnum : Number -> Value;
  vstr : string -> Value;
  vbool : bool -> Value;
  vobject : list (string * Value) -> Value  (** [json!({..})] *)
}.

Inductive ClockType := RadarcapeGps | BeastClock | Radarcape12Mhz | SbsClock | Dump1090 | UnknownClock.

Definition freq_hz (c : ClockType) : f64 :=
  match c with
  | RadarcapeGps => of_Z 1000000000
  | BeastClock | Radarcape12Mhz => of_Z 12000000
  | SbsClock => of_Z 20000000
  | Dump1090 | UnknownClock => of_Z 12000000
  end.
Definition server_assumed_max_freq_error (c : ClockType) : f64 :=
  match c with
  | RadarcapeGps => lit 1 1000000
  | BeastClock | Radarcape12Mhz => lit 5 1000000
  | SbsClock => lit 100 1000000
  | Dump1090 | UnknownClock => lit 100 1000000
  end.
Definition server_assumed_jitter_s (c : ClockType) : f64 :=
  match c with
  | RadarcapeGps => lit 15 1000000000
  | BeastClock | Radarcape12Mhz => lit 83 1000000000
  | SbsClock => lit 500 1000000000
  | Dump1090 | UnknownClock => lit 500 1000000000
  end.

Inductive Compress := CNone | CZlib | CZlib2.
#[export] Instance Compress_eq_dec : EqDecision Compress.
Proof. solve_decision. Defined.

(** [HexMsg(pub String)]. *)
Definition HexMsg := string.

Section Messages.
Context `{Json, Hex}.

Record Handshake := {
  version : Z; user : string; uuid : option string; compress : list Compress;
  hs_lat : f64; hs_lon : f64; hs_alt : f64; clock_type : ClockType;
  return_results : option bool; return_result_format : option string;
  client_version : option string; selective_traffic : option bool;
  heartbeat : option bool; return_stats : option bool
}.

(** Client to server. *)
Inductive ClientMsg :=
| Sync (et ot : Number) (em om : HexMsg)
| Mlat (t : Number) (m : HexMsg)
| Seen (icaos : list string)
| Lost (icaos : list string)
| InputConnected (s : string)
| InputDisconnected (s : string)
| ClockReset (s : string)
| ClockJump (s : string)
| Heartbeat (v : Value)
| RateReport (rates : gmap string Value).

Definition hex_from_bytes (b : list Z) : HexMsg := hex_encode b.
Definition heartbeat_now : ClientMsg := Heartbeat (vobject []).
Definition seen (icaos : list Z) : ClientMsg := Seen (to_hex <$> icaos).
Definition lost (icaos : list Z) : ClientMsg := Lost (to_hex <$> icaos).

(** Server to client. *)
Inductive ServerMsg :=
| HandshakeAccept (compress : Compress) (motd : option string) (heartbeat return_results : bool) (raw : Value)
| Deny (v : Value)
| Result (v : Value)
| Stats (v : Value)
| StartSending (icaos : list string)
| StopSending (icaos : list string)
| ServerHeartbeat (server_time : option f64)
| UnknownMsg (v : Value).

Inductive ProtoError := JsonError | BadHandshakeReply (v : Value) | Framing (what : string).

Definition string_list (v : Value) : list string :=
  match as_array v with Some a => omap as_str a | None => [] end.

(** One line from the server; the keys are tried in the code's order. *)
Definition parse_line (line : list Z) : ServerMsg + ProtoError :=
  match from_slice line with
  | None => inr JsonError
  | Some v =>
      if negb (is_object v) then inl (UnknownMsg v)
      else
        match jget v "result" with
        | Some r => inl (Result r)
        | None =>
        match jget v "deny" with
        | Some d => inl (Deny d)
        | None =>
        match jget v "heartbeat" with
        | Some h => inl (ServerHeartbeat (jget h "server_time" ≫= as_f64))
        | None =>
        match jget v "stats" with
        | Some st => inl (Stats st)
        | None =>
        match jget v "start_sending" with
        | Some s => inl (StartSending (string_list s))
        | None =>
        match jget v "stop_sending" with
        | Some s => inl (StopSending (string_list s))
        | None => inl (UnknownMsg v)
        end end end end end end
  end.

Definition compress_of (s : string) : option Compress :=
  if (s =? "none")%string then Some CNone
  else if (s =? "zlib")%string then Some CZlib
  else if (s =? "zlib2")%string then Some CZlib2
  else None.

(** The first line after the handshake. *)
Definition parse_handshake_reply (line : list Z) : ServerMsg + ProtoError :=
  match from_slice line with
  | None => inr JsonError
  | Some v =>
      match jget v "deny" with
      | Some _ => inl (Deny v)
      | None =>
          match (jget v "compress" ≫= as_str) ≫= compress_of with
          | None => inr (BadHandshakeReply v)
          | Some compress =>
              inl (HandshakeAccept compress
                (jget v "motd" ≫= as_str)
                (default false (jget v "heartbeat" ≫= as_bool))
                (default false (jget v "return_results" ≫= as_bool))
                v)
          end
      end
  end.
End Messages.

(** ** A concrete instance, for examples: JSON trees, and lines of one message kind *)
Inductive Tree :=
| TNull | TBool (b : bool) | TNum (n : Z + f64) | TStr (s : string)
| TArr (l : list Tree) | TObj (l : list (string * Tree)).

Fixpoint assoc (k : string) (l : list (string * Tree)) : option Tree :=
  match l with
  | [] => None
  | (k', v) :: l => if (k =? k')%string then Some v else assoc k l
  end.

Definition json_with (parse : list Z -> option Tree) : Json := {|
  Value := Tree; Number := Z + f64;
  from_slice := parse;
  is_object v := match v with TObj _ => true | _ => false end;
  jget v k := match v with TObj l => assoc k l | _ => None end;
  as_str v := match v with TStr s => Some s | _ => None end;
  as_bool v := match v with TBool b => Some b | _ => None end;
  as_f64 v := match v with TNum (inl z) => Some (of_Z z) | TNum (inr x) => Some x | _ => None end;
  as_u64 v := match v with TNum (inl z) => if 0 <=? z then Some z else None | _ => None end;
  as_i64 v := match v with TNum (inl z) => Some z | _ => None end;
  as_array v := match v with TArr l => Some l | _ => None end;
  object_keys v := match v with TObj l => Some l.*1 | _ => None end;
  num_of_u64 z := inl z;
  num_of_f64 x := if is_finite x then Some (inr x) else None;
  vnum := TNum; vstr := TStr; vbool := TBool; vobject := TObj |}.
Definition json_tree : Json := json_with (fun l => match l with [] => None | _ => Some (TObj []) end).
Fixpoint unhex (s : string) : option (list Z) :=
  match s with
  | EmptyString => Some []
  | String c (String d s) =>
      match digit_val c, digit_val d, unhex s with
      | Some x, Some y, Some l => Some (16 * x + y :: l)
      | _, _, _ => None
      end
  | _ => None
  end.
Definition hex_tree : Hex := {|
  hex_encode l := String.concat EmptyString (hex_digits 2 <$> l); hex_decode := unhex |}.
