(* ===== verification/Engine.v ===== *)
(** * The traffic engine of the client (crates/mlatc/src/engine.rs)

    One aircraft table for [n_servers] servers: receptions go in, messages bound
    for one server each come out.  Instants are nanoseconds.  A [HashMap] is a
    [gmap] visited in the unspecified order of [HashIter].  [servers[s]] is
    updated at an index below [n_servers]; the invariant below makes every such
    index valid, so the panic of an index out of range is not a case. *)
From S2P Require Import Prelude F64 Text Crc Frames Beast Proto.
Local Open Scope Z_scope.

Definition FREQ_12MHZ : f64 := of_Z 12000000.
Definition MAX_PAIR_S : f64 := of_Z 4.
Definition SYNC_INTERVAL_S : f64 := of_Z 0.
Definition LOST_AFTER_S : f64 := of_Z 60.
Definition RATE_REPORT_S : f64 := of_Z 30.
Definition RESET_BACKWARD_S : f64 := of_Z 1.
Definition WRAP_MARGIN : Z := Z.shiftl 1 46.

(** One server's view of one aircraft. *)
Record PerServer := { requested : bool; announced : bool; last_sync : option Z }.
Definition PerServer_default : PerServer :=
  {| requested := false; announced := false; last_sync := None |}.

Record Aircraft := {
  last_seen : Z; msgs_in_window : Z;
  even_msg : option (Z * string); odd_msg : option (Z * string);
  servers : list PerServer
}.
Definition Aircraft_new (now : Z) (n_servers : nat) : Aircraft := {|
  last_seen := now; msgs_in_window := 0; even_msg := None; odd_msg := None;
  servers := replicate n_servers PerServer_default |}.

Definition set_servers (f : list PerServer -> list PerServer) (a : Aircraft) : Aircraft := {|
  last_seen := last_seen a; msgs_in_window := msgs_in_window a;
  even_msg := even_msg a; odd_msg := odd_msg a; servers := f (servers a) |}.
Definition set_pair (e o : option (Z * string)) (a : Aircraft) : Aircraft := {|
  last_seen := last_seen a; msgs_in_window := msgs_in_window a;
  even_msg := e; odd_msg := o; servers := servers a |}.
Definition set_seen (t n : Z) (a : Aircraft) : Aircraft := {|
  last_seen := t; msgs_in_window := n;
  even_msg := even_msg a; odd_msg := odd_msg a; servers := servers a |}.

Record Engine := {
  aircraft : gmap Z Aircraft; n_servers : nat;
  last_counter : option Z; last_rate_report : Z; eng_user : string
}.
Definition set_aircraft (m : gmap Z Aircraft) (e : Engine) : Engine := {|
  aircraft := m; n_servers := n_servers e; last_counter := last_counter e;
  last_rate_report := last_rate_report e; eng_user := eng_user e |}.

Definition Engine_new (user : string) (now : Z) (n_servers : nat) : Engine := {|
  aircraft := ∅; n_servers := n_servers; last_counter := None;
  last_rate_report := now; eng_user := user |}.

Definition set_requested (self : Engine) (server : nat) (hexes : list string) (v : bool) : Engine :=
  fold_left (fun self h =>
    match from_str_radix16 h with
    | None => self
    | Some addr =>
        set_aircraft (alter (set_servers (alter (fun ps =>
          {| requested := v; announced := announced ps; last_sync := last_sync ps |}) server))
          addr (aircraft self)) self
    end) hexes self.
Definition start_sending self server hexes := set_requested self server hexes true.
Definition stop_sending self server hexes := set_requested self server hexes false.

(** One server's connection restarted. *)
Definition server_reset (self : Engine) (server : nat) : Engine :=
  set_aircraft (set_servers (alter (fun _ => PerServer_default) server) <$> aircraft self) self.

(** The input reconnected or its clock restarted. *)
Definition input_reset (self : Engine) : Engine := {|
  aircraft := set_pair None None <$> aircraft self; n_servers := n_servers self;
  last_counter := None; last_rate_report := last_rate_report self; eng_user := eng_user self |}.

Definition touch (self : Engine) (addr now : Z) (validated : bool) : Engine :=
  match aircraft self !! addr with
  | Some a => set_aircraft (<[addr := set_seen now (u32 (msgs_in_window a + 1)) a]> (aircraft self)) self
  | None =>
      if validated
      then set_aircraft (<[addr := set_seen now 1 (Aircraft_new now (n_servers self))]> (aircraft self)) self
      else self
  end.

Section Traffic.
Context `{Json, Hex} `{!HashIter Z Aircraft}.

(** A message bound for one server. *)
Definition Outbound : Type := nat * ClientMsg.
(** The message for every server whose view satisfies [p], in index order. *)
Definition send_where (p : PerServer -> bool) (msg : ClientMsg) (l : list PerServer) : list Outbound :=
  mjoin (imap (fun s ps => if p ps then [(s, msg)] else []) l).

(** A counter that moves back by more than a second, and not by a wrap, is a clock reset. *)
Definition clock_restarted (last counts : Z) : bool :=
  let backward := saturating_sub last counts in
  ((of_Z backward / FREQ_12MHZ >? RESET_BACKWARD_S)%f64) && (backward <? WRAP_MARGIN).

Definition check_counter (self : Engine) (r : Reception) : Engine * list Outbound :=
  match last_counter self with
  | Some last =>
      if clock_restarted last (counts_12mhz r)
      then (input_reset self, (fun s => (s, ClockReset (eng_user self))) <$> seq 0 (n_servers self))
      else (self, [])
  | None => (self, [])
  end.

Definition set_last_counter (c : option Z) (e : Engine) : Engine := {|
  aircraft := aircraft e; n_servers := n_servers e; last_counter := c;
  last_rate_report := last_rate_report e; eng_user := eng_user e |}.

(** Whether a server that requested the aircraft may be sent a pair now. *)
Definition sync_due (now : Z) (ps : PerServer) : bool :=
  requested ps &&
  match last_sync ps with
  | Some t => negb (as_secs_f64 (duration_since now t) <? SYNC_INTERVAL_S)%f64
  | None => true
  end.

Definition pair_sync (self : Engine) (addr : Z) (odd : bool) (r : Reception) (now : Z)
    : Engine * list Outbound :=
  match aircraft self !! addr with
  | None => (self, [])
  | Some a =>
      let this := Some (counts_12mhz r, hex_encode (frame r)) in
      let a := if odd then set_pair (even_msg a) this a else set_pair this (odd_msg a) a in
      let put a := set_aircraft (<[addr := a]> (aircraft self)) self in
      match even_msg a, odd_msg a with
      | Some even, Some oddm =>
          let span := (of_Z (abs_diff even.1 oddm.1) / FREQ_12MHZ)%f64 in
          if (span >? MAX_PAIR_S)%f64 then (put a, [])
          else
            let msg := Sync (num_of_u64 even.1) (num_of_u64 oddm.1) even.2 oddm.2 in
            let stamp ps := if sync_due now ps
              then {| requested := requested ps; announced := announced ps; last_sync := Some now |}
              else ps in
            (put (set_servers (fmap stamp) a),
             send_where (sync_due now) msg (servers a))
      | _, _ => (put a, [])
      end
  end.

(** The aircraft a frame other than DF17 is sent for, with the table updated. *)
Definition mlat_address (self : Engine) (df : Z) (f : list Z) (now : Z) : option (Z * Engine) :=
  if df =? 11 then
    if 80 <=? crc24 f then None
    else
      let addr := u24_of (f !!! 1%nat) (f !!! 2%nat) (f !!! 3%nat) in
      Some (addr, touch self addr now true)
  else if bool_decide (df ∈ [0; 4; 5; 16; 20; 21]) then
    let n := length f in
    let tail := drop (n - 3) f in
    let addr := Z.land (Z.lxor (crc24 (take (n - 3) f))
      (u24_of (tail !!! 0%nat) (tail !!! 1%nat) (tail !!! 2%nat))) 0xFFFFFF in
    match aircraft self !! addr with
    | None => None
    | Some _ => Some (addr, touch self addr now false)
    end
  else None.

Definition on_reception (self : Engine) (r : Reception) (now : Z) : Engine * list Outbound :=
  let '(self, out) := check_counter self r in
  let self := set_last_counter (Some (counts_12mhz r)) self in
  let f := frame r in
  match df_of f with
  | None => (self, out)
  | Some df =>
      if df =? 17 then
        if negb (crc24 f =? 0) then (self, out)
        else
          let addr := u24_of (f !!! 1%nat) (f !!! 2%nat) (f !!! 3%nat) in
          let self := touch self addr now true in
          match parse_df17_airborne f with
          | Some d =>
              let '(self, out') := pair_sync self (icao d) (odd d) r now in (self, out ++ out')
          | None => (self, out)
          end
      else
        match mlat_address self df f now with
        | None => (self, out)
        | Some (addr, self) =>
            match aircraft self !! addr with
            | None => (self, out)
            | Some a =>
                (self, out ++ send_where requested
                  (Mlat (num_of_u64 (counts_12mhz r)) (hex_from_bytes f)) (servers a))
            end
        end
  end.
End Traffic.

Section Ticks.
Context `{Json, Hex} `{!HashIter Z Aircraft}.

(** Push an address on the lists of the servers that satisfy [p]. *)
Definition push_where (p : PerServer -> bool) (a : Aircraft) (h : string) (acc : list (list string))
    : list (list string) :=
  imap (fun s l => match servers a !! s with
                   | Some ps => if p ps then l ++ [h] else l
                   | None => l end) acc.

Definition expired (now : Z) (a : Aircraft) : bool :=
  (as_secs_f64 (duration_since now (last_seen a)) >? LOST_AFTER_S)%f64.
Definition announce (ps : PerServer) : PerServer :=
  {| requested := requested ps; announced := true; last_sync := last_sync ps |}.

Record Sweep := { kept : gmap Z Aircraft; sw_seen : list (list string); sw_lost : list (list string) }.

(** The closure of [retain], entry by entry. *)
Definition sweep_step (now : Z) (st : Sweep) (entry : Z * Aircraft) : Sweep :=
  let '(addr, a) := entry in
  if expired now a
  then {| kept := kept st; sw_seen := sw_seen st;
          sw_lost := push_where announced a (fmt_06x addr) (sw_lost st) |}
  else {| kept := <[addr := set_servers (fmap announce) a]> (kept st);
          sw_seen := push_where (fun ps => negb (announced ps)) a (fmt_06x addr) (sw_seen st);
          sw_lost := sw_lost st |}.
Definition sweep (now : Z) (n : nat) (entries : list (Z * Aircraft)) : Sweep :=
  fold_left (sweep_step now) entries
    {| kept := ∅; sw_seen := replicate n []; sw_lost := replicate n [] |}.

(** The messages of one server: what is new, then what is gone. *)
Definition told_lists (s : nat) (seen lost : list string) : list Outbound :=
  (match seen with [] => [] | sn => [(s, Seen sn)] end) ++
  (match lost with [] => [] | ls => [(s, Lost ls)] end).

Definition announcements (n : nat) (seen lost : list (list string)) : list Outbound :=
  seq 0 n ≫= fun s => told_lists s (seen !!! s) (lost !!! s).

Definition rate_entry (elapsed : f64) (rates : gmap string Value) (entry : Z * Aircraft)
    : gmap string Value :=
  let '(addr, a) := entry in
  let rate := (of_Z (msgs_in_window a) / elapsed)%f64 in
  match num_of_f64 (fround (rate * of_Z 100) / of_Z 100)%f64 with
  | Some num => <[fmt_06x addr := vnum num]> rates
  | None => rates
  end.

Definition tick (self : Engine) (now : Z) : Engine * list Outbound :=
  let n := n_servers self in
  let sw := sweep now n (hash_iter (aircraft self)) in
  let self := set_aircraft (kept sw) self in
  let out := announcements n (sw_seen sw) (sw_lost sw) in
  let elapsed := as_secs_f64 (duration_since now (last_rate_report self)) in
  if (elapsed >=? RATE_REPORT_S)%f64 then
    let rates := fold_left (rate_entry elapsed) (hash_iter (aircraft self)) ∅ in
    ({| aircraft := (fun a => set_seen (last_seen a) 0 a) <$> aircraft self; n_servers := n;
        last_counter := last_counter self; last_rate_report := now; eng_user := eng_user self |},
     if bool_decide (rates = ∅) then out
     else out ++ ((fun s => (s, RateReport rates)) <$> seq 0 n))
  else (self, out).
End Ticks.

(** * Properties *)
Section Inv.
Context `{Json, Hex} `{!HashIter Z Aircraft}.

Lemma elem_of_send_where p msg l s m :
  (s, m) ∈ send_where p msg l <-> m = msg /\ exists ps, l !! s = Some ps /\ p ps = true.
Proof.
  unfold send_where. rewrite list_elem_of_join. split.
  - intros (x & Hx & Hl). apply elem_of_lookup_imap in Hl as (i & ps & -> & Hi).
    destruct (p ps) eqn:E; [|by apply not_elem_of_nil in Hx].
    apply list_elem_of_singleton in Hx. simplify_eq. eauto.
  - intros (-> & ps & Hl & Hp). exists [(s, msg)]. split; [by left|].
    apply elem_of_lookup_imap. exists s, ps. by rewrite Hp.
Qed.

(** What a server has asked for and not withdrawn since, from the calls alone. *)
Definition ask (hexes : list string) (server : nat) : gset (nat * Z) :=
  list_to_set (omap (fun h => (server,.) <$> from_str_radix16 h) hexes).

(** The calls on the engine, and a run of them. *)
Inductive Op :=
| OpStart (server : nat) (hexes : list string)
| OpStop (server : nat) (hexes : list string)
| OpServerReset (server : nat)
| OpInputReset
| OpReception (r : Reception) (now : Z)
| OpTick (now : Z).

Definition apply_op (e : Engine) (op : Op) : Engine * list Outbound :=
  match op with
  | OpStart s hs => (start_sending e s hs, [])
  | OpStop s hs => (stop_sending e s hs, [])
  | OpServerReset s => (server_reset e s, [])
  | OpInputReset => (input_reset e, [])
  | OpReception r now => on_reception e r now
  | OpTick now => tick e now
  end.

(** The observer of one run: requests in force, and what each server has been told
    is on offer, both read off the calls and the messages. *)
Record Observer := { asked : gset (nat * Z); told : gset (nat * Z) }.
Definition hear (t : gset (nat * Z)) (o : Outbound) : gset (nat * Z) :=
  match o with
  | (s, Seen hs) => t ∪ ask hs s
  | (s, Lost hs) => t ∖ ask hs s
  | _ => t
  end.
Definition observe (ob : Observer) (op : Op) (out : list Outbound) : Observer := {|
  asked := match op with
           | OpStart s hs => asked ob ∪ ask hs s
           | OpStop s hs => asked ob ∖ ask hs s
           | OpServerReset s => filter (fun x => x.1 <> s) (asked ob)
           | _ => asked ob
           end;
  told := fold_left hear out
    match op with OpServerReset s => filter (fun x => x.1 <> s) (told ob) | _ => told ob end |}.

Definition op_ok (n : nat) (op : Op) : Prop :=
  match op with
  | OpStart s _ | OpStop s _ | OpServerReset s => (s < n)%nat
  | OpReception r _ => bytes_ok (frame r)
  | _ => True
  end.

Definition state : Type := Engine * Observer.
Inductive start (user : string) (now : Z) (n : nat) : state -> Prop :=
| start_new : start user now n (Engine_new user now n, {| asked := ∅; told := ∅ |}).
Inductive step (n : nat) : state -> state -> Prop :=
| step_op e ob op e' out :
    op_ok n op -> apply_op e op = (e', out) -> step n (e, ob) (e', observe ob op out).

(** A stored half of a pair: the hex form of an accepted frame of that aircraft and parity. *)
Definition half_ok (addr : Z) (odd : bool) (m : option (Z * string)) : Prop :=
  match m with
  | None => True
  | Some (_, h) => exists f d, h = hex_encode f /\ parse_df17_airborne f = Some d /\
                    icao d = addr /\ Frames.odd d = odd
  end.

Record aircraft_ok (n : nat) (addr : Z) (a : Aircraft) : Prop := {
  ok_addr : 0 <= addr < 2 ^ 24;
  ok_servers : length (servers a) = n;
  ok_even : half_ok addr false (even_msg a);
  ok_odd : half_ok addr true (odd_msg a)
}.
Definition engine_ok (n : nat) (e : Engine) : Prop :=
  n_servers e = n /\ map_Forall (aircraft_ok n) (aircraft e).

(** *** Well-formedness *)
Lemma u24_of_range a b c : byte_ok a -> byte_ok b -> byte_ok c -> 0 <= u24_of a b c < 2 ^ 24.
Proof.
  intros. assert (bytes_ok [a; b; c]) by (repeat (apply bytes_ok_cons; split; [done|]); constructor). rewrite u24_of_be by done.
  split; [by apply be_nonneg|]. by apply (be_bound [a; b; c]).
Qed.

Lemma byte_lookup f i : bytes_ok f -> byte_ok (f !!! i).
Proof.
  intros Hf. destruct (f !! i) as [b|] eqn:E.
  - rewrite (list_lookup_total_correct _ _ _ E). by apply (Forall_lookup_1 _ _ _ _ Hf E).
  - rewrite list_lookup_total_alt, E. unfold byte_ok. simpl. lia.
Qed.

Lemma frame_addr_range f : bytes_ok f -> 0 <= u24_of (f !!! 1%nat) (f !!! 2%nat) (f !!! 3%nat) < 2 ^ 24.
Proof. intros Hf. apply u24_of_range; by apply byte_lookup. Qed.

Lemma aircraft_ok_servers n addr a g :
  length (g (servers a)) = length (servers a) -> aircraft_ok n addr a -> aircraft_ok n addr (set_servers g a).
Proof. intros Hg []. split; try done. simpl. by rewrite Hg. Qed.

Lemma set_requested_ok n e s hs v : engine_ok n e -> engine_ok n (set_requested e s hs v).
Proof.
  intros He. unfold set_requested. apply fold_left_invariant; [done|].
  intros e' h [Hn Hm] _. destruct (from_str_radix16 h) as [addr|]; [|done].
  split; [done|]. intros i a Hi. simpl in Hi. destruct (decide (addr = i)) as [->|].
  - rewrite lookup_alter_eq in Hi. apply fmap_Some in Hi as (a' & Ha & ->).
    apply aircraft_ok_servers; [by rewrite length_alter|by apply Hm].
  - rewrite lookup_alter_ne in Hi by done. by apply Hm.
Qed.

Lemma server_reset_ok n e s : engine_ok n e -> engine_ok n (server_reset e s).
Proof.
  intros [Hn Hm]. split; [done|]. intros i a Hi. simpl in Hi.
  apply lookup_fmap_Some in Hi as (a' & <- & Ha).
  apply aircraft_ok_servers; [by rewrite length_alter|by apply Hm].
Qed.

Lemma input_reset_ok n e : engine_ok n e -> engine_ok n (input_reset e).
Proof.
  intros [Hn Hm]. split; [done|]. intros i a Hi. simpl in Hi.
  apply lookup_fmap_Some in Hi as (a' & <- & Ha). destruct (Hm _ _ Ha). by split.
Qed.

Lemma touch_ok n e addr now v : 0 <= addr < 2 ^ 24 -> engine_ok n e -> engine_ok n (touch e addr now v).
Proof.
  intros Hr [Hn Hm]. unfold touch. destruct (aircraft e !! addr) as [a|] eqn:Ha; [|destruct v; [|done]].
  - split; [done|]. apply map_Forall_insert_2; [|done]. destruct (Hm _ _ Ha). by split.
  - split; [done|]. apply map_Forall_insert_2; [|done]. split; try done.
    simpl. by rewrite length_replicate.
Qed.

Lemma check_counter_ok n e r : engine_ok n e -> engine_ok n (check_counter e r).1.
Proof.
  intros He. unfold check_counter. destruct (last_counter e); [|done].
  destruct (clock_restarted _ _); [by apply input_reset_ok|done].
Qed.

Lemma set_last_counter_ok n c e : engine_ok n e -> engine_ok n (set_last_counter c e).
Proof. by intros []. Qed.

(** The half a frame is stored in. *)
Definition paired (a : Aircraft) (odd : bool) (r : Reception) : Aircraft :=
  let this := Some (counts_12mhz r, hex_encode (frame r)) in
  if odd then set_pair (even_msg a) this a else set_pair this (odd_msg a) a.

Lemma paired_ok n addr a r d :
  parse_df17_airborne (frame r) = Some d -> icao d = addr ->
  aircraft_ok n addr a -> aircraft_ok n addr (paired a (Frames.odd d) r).
Proof.
  intros Hp Hi []. unfold paired. destruct (Frames.odd d) eqn:E; split; try done; by exists (frame r), d.
Qed.

(** [pair_sync] in one equation per outcome. *)
Lemma pair_sync_spec e addr odd r now a :
  aircraft e !! addr = Some a ->
  exists g out, pair_sync e addr odd r now
    = (set_aircraft (<[addr := set_servers (fmap g) (paired a odd r)]> (aircraft e)) e, out) /\
    (forall ps, requested (g ps) = requested ps /\ announced (g ps) = announced ps) /\
    (out = [] \/ exists ce he co ho,
       even_msg (paired a odd r) = Some (ce, he) /\ odd_msg (paired a odd r) = Some (co, ho) /\
       (of_Z (abs_diff ce co) / FREQ_12MHZ >? MAX_PAIR_S)%f64 = false /\
       out = send_where (sync_due now) (Sync (num_of_u64 ce) (num_of_u64 co) he ho) (servers a)).
Proof.
  intros Ha. unfold pair_sync. rewrite Ha. fold (paired a odd r). set (b := paired a odd r).
  assert (servers b = servers a) as Hs by (unfold b, paired; by destruct odd).
  assert (set_servers (fmap id) b = b) as Hid by (destruct b; unfold set_servers; simpl; by rewrite list_fmap_id).
  destruct (even_msg b) as [[ce he]|] eqn:Ee; [|exists id, []; rewrite Hid; split_and!; eauto].
  destruct (odd_msg b) as [[co ho]|] eqn:Eo; [|exists id, []; rewrite Hid; split_and!; eauto].
  cbn [fst snd]. destruct (_ >? MAX_PAIR_S)%f64 eqn:Ep.
  { exists id, []. rewrite Hid. split_and!; eauto. }
  eexists _, _. split; [rewrite Hs; reflexivity|]. split.
  - intros ps. by destruct (sync_due now ps).
  - right. eauto 10.
Qed.

Lemma pair_sync_ok n e r now d :
  parse_df17_airborne (frame r) = Some d -> engine_ok n e ->
  engine_ok n (pair_sync e (icao d) (Frames.odd d) r now).1.
Proof.
  intros Hp [Hn Hm]. destruct (aircraft e !! icao d) as [a|] eqn:Ha.
  - destruct (pair_sync_spec e (icao d) (Frames.odd d) r now a Ha) as (g & out & -> & _ & _).
    split; [done|]. apply map_Forall_insert_2; [|done].
    apply aircraft_ok_servers; [by rewrite length_fmap|]. apply paired_ok; [done..|]. by apply Hm.
  - unfold pair_sync. by rewrite Ha.
Qed.

Lemma land24_range x : 0 <= Z.land x 0xFFFFFF < 2 ^ 24.
Proof. apply (land_ones_bound x 24). done. Qed.

Lemma mlat_address_inv e df f now addr e' : mlat_address e df f now = Some (addr, e') ->
  (df = 11 /\ crc24 f < 80 /\ addr = u24_of (f !!! 1%nat) (f !!! 2%nat) (f !!! 3%nat) /\
   e' = touch e addr now true) \/ e' = touch e addr now false.
Proof.
  unfold mlat_address. destruct (Z.eqb_spec df 11).
  - destruct (Z.leb_spec 80 (crc24 f)); [done|]. intros [= <- <-]. by left.
  - destruct (bool_decide _); [|done]. set (a0 := Z.land _ _). destruct (aircraft e !! a0); [|done].
    intros [= <- <-]. by right.
Qed.

Lemma mlat_address_ok n e df f now addr e' :
  bytes_ok f -> engine_ok n e -> mlat_address e df f now = Some (addr, e') -> engine_ok n e'.
Proof.
  intros Hf He. unfold mlat_address. destruct (df =? 11).
  - destruct (80 <=? crc24 f); [done|]. intros [= <- <-]. apply touch_ok; [by apply frame_addr_range|done].
  - destruct (bool_decide _); [|done]. destruct (aircraft e !! _); [|done].
    intros [= <- <-]. apply touch_ok; [apply land24_range|done].
Qed.

Lemma on_reception_ok n e r now : bytes_ok (frame r) -> engine_ok n e -> engine_ok n (on_reception e r now).1.
Proof.
  intros Hf He. unfold on_reception. pose proof (check_counter_ok n e r He) as Hc.
  destruct (check_counter e r) as [e1 out]. apply (set_last_counter_ok _ (Some (counts_12mhz r))) in Hc.
  cbn [fst] in Hc. set (e2 := set_last_counter _ _) in *.
  destruct (df_of (frame r)) as [df|]; [|done]. destruct (df =? 17).
  - destruct (negb _); [done|].
    pose proof (touch_ok n e2 _ now true (frame_addr_range _ Hf) Hc) as Ht.
    destruct (parse_df17_airborne (frame r)) as [d|] eqn:Hp; [|done].
    pose proof (pair_sync_ok n _ r now d Hp Ht) as Hps. by destruct (pair_sync _ _ _ _ _).
  - destruct (mlat_address e2 df (frame r) now) as [[addr e3]|] eqn:Hm; [|done].
    apply mlat_address_ok with (n := n) in Hm; [|done..]. by destruct (aircraft e3 !! addr).
Qed.

(** *** Flags: what the table says of one aircraft and one server *)
Definition flag (p : PerServer -> bool) (e : Engine) (s : nat) (addr : Z) : bool :=
  match aircraft e !! addr with
  | Some a => match servers a !! s with Some ps => p ps | None => false end
  | None => false
  end.

Lemma flag_true p e s addr :
  flag p e s addr = true <->
  exists a ps, aircraft e !! addr = Some a /\ servers a !! s = Some ps /\ p ps = true.
Proof.
  unfold flag. split.
  - destruct (aircraft e !! addr) as [a|]; [|done]. destruct (servers a !! s) as [ps|] eqn:E; [|done]. eauto.
  - by intros (a & ps & -> & -> & ->).
Qed.

Lemma elem_of_ask hs s s' addr :
  (s', addr) ∈ ask hs s <-> s' = s /\ exists h, h ∈ hs /\ from_str_radix16 h = Some addr.
Proof.
  unfold ask. rewrite elem_of_list_to_set, list_elem_of_omap. split.
  - intros (h & Hh & E). destruct (from_str_radix16 h) eqn:E'; simplify_eq/=. eauto.
  - intros (-> & h & Hh & E). exists h. by rewrite E.
Qed.

Lemma elem_of_ask_cons h hs s s' addr :
  (s', addr) ∈ ask (h :: hs) s <-> (s' = s /\ from_str_radix16 h = Some addr) \/ (s', addr) ∈ ask hs s.
Proof.
  rewrite !elem_of_ask. split.
  - intros (-> & h' & Hh & E). apply elem_of_cons in Hh as [->|Hh]; [by left|right]. eauto.
  - intros [[-> E]|(-> & h' & Hh & E)]; (split; [done|]); [exists h|exists h']; (split; [|done]); [by left|by right].
Qed.

Lemma flag_set_requested p e s hs v s' addr :
  flag p (set_requested e s hs v) s' addr =
    if bool_decide ((s', addr) ∈ ask hs s)
    then flag (fun ps => p {| requested := v; announced := announced ps; last_sync := last_sync ps |}) e s' addr
    else flag p e s' addr.
Proof.
  revert e. induction hs as [|h hs IH]; intros e; [done|].
  unfold set_requested in *. cbn [fold_left]. rewrite IH. clear IH.
  destruct (from_str_radix16 h) as [a0|] eqn:Eh; cycle 1.
  { erewrite (bool_decide_ext (_ ∈ ask (h :: hs) s)); [done|]. rewrite elem_of_ask_cons, Eh.
    split; [intros [[_ ?]|?]; done|by right]. }
  assert (forall q, flag q (set_aircraft (alter (set_servers (alter (fun ps =>
      {| requested := v; announced := announced ps; last_sync := last_sync ps |}) s)) a0 (aircraft e)) e) s' addr
    = if decide (s' = s /\ addr = a0)
      then flag (fun ps => q {| requested := v; announced := announced ps; last_sync := last_sync ps |}) e s' addr
      else flag q e s' addr) as Hq.
  { intros q. unfold flag. cbn [aircraft set_aircraft]. destruct (decide (addr = a0)) as [->|].
    - rewrite lookup_alter_eq. destruct (aircraft e !! a0) as [a|]; [|by destruct (decide _)]. simpl.
      destruct (decide (s' = s)) as [->|].
      + rewrite list_lookup_alter_eq. rewrite decide_True by done. by destruct (servers a !! s).
      + rewrite list_lookup_alter_ne by done. rewrite decide_False by (intros []; congruence). done.
    - rewrite lookup_alter_ne by done. rewrite decide_False by (intros []; congruence). done. }
  rewrite !Hq. cbn. destruct (decide (s' = s /\ addr = a0)) as [[-> ->]|Hne].
  - rewrite (bool_decide_eq_true_2 ((s, a0) ∈ ask (h :: hs) s)).
    + by destruct (bool_decide _).
    + apply elem_of_ask. split; [done|]. exists h. split; [by left|done].
  - erewrite (bool_decide_ext (_ ∈ ask (h :: hs) s)); [done|]. rewrite elem_of_ask_cons, Eh.
    split; [intros [[-> ?]|?]; [exfalso; apply Hne; split; congruence|done]|by right].
Qed.

Lemma flag_server_reset p e s s' addr : p PerServer_default = false ->
  flag p (server_reset e s) s' addr = negb (bool_decide (s' = s)) && flag p e s' addr.
Proof.
  intros Hp. unfold flag, server_reset. cbn [aircraft set_aircraft]. rewrite lookup_fmap.
  destruct (aircraft e !! addr) as [a|]; [|by rewrite andb_false_r]. simpl.
  case_bool_decide as Hs; [subst s'|].
  - rewrite list_lookup_alter_eq. by destruct (servers a !! s).
  - by rewrite list_lookup_alter_ne.
Qed.

Lemma flag_input_reset p e s addr : flag p (input_reset e) s addr = flag p e s addr.
Proof. unfold flag, input_reset. cbn [aircraft]. rewrite lookup_fmap. by destruct (aircraft e !! addr). Qed.

Lemma flag_touch p e a0 now v s addr : p PerServer_default = false ->
  flag p (touch e a0 now v) s addr = flag p e s addr.
Proof.
  intros Hp. unfold touch, flag. destruct (aircraft e !! a0) as [a|] eqn:Ha.
  - cbn [aircraft set_aircraft]. destruct (decide (addr = a0)) as [->|].
    + by rewrite lookup_insert_eq, Ha.
    + by rewrite lookup_insert_ne.
  - destruct v; [|done]. cbn [aircraft set_aircraft]. destruct (decide (addr = a0)) as [->|].
    + rewrite lookup_insert_eq, Ha. cbn [servers set_seen Aircraft_new].
      destruct (replicate _ _ !! s) as [ps|] eqn:E; [|done]. by apply lookup_replicate_1 in E as [-> _].
    + by rewrite lookup_insert_ne.
Qed.

Lemma flag_check_counter p e r s addr : flag p (check_counter e r).1 s addr = flag p e s addr.
Proof.
  unfold check_counter. destruct (last_counter e); [|done].
  destruct (clock_restarted _ _); [apply flag_input_reset|done].
Qed.

(** Predicates that look at [requested] and [announced] only. *)
Definition stable (p : PerServer -> bool) : Prop :=
  p PerServer_default = false /\
  forall ps ps', requested ps = requested ps' -> announced ps = announced ps' -> p ps = p ps'.
Lemma stable_requested : stable requested.
Proof. by split. Qed.
Lemma stable_announced : stable announced.
Proof. by split. Qed.

Lemma flag_pair_sync p e a0 odd r now s addr : stable p ->
  flag p (pair_sync e a0 odd r now).1 s addr = flag p e s addr.
Proof.
  intros [_ Hp]. destruct (aircraft e !! a0) as [a|] eqn:Ha.
  - destruct (pair_sync_spec e a0 odd r now a Ha) as (g & out & -> & Hg & _).
    unfold flag. cbn [aircraft set_aircraft fst]. destruct (decide (addr = a0)) as [->|].
    + rewrite lookup_insert_eq, Ha. cbn [servers set_servers]. rewrite list_lookup_fmap.
      assert (servers (paired a odd r) = servers a) as -> by (unfold paired; by destruct odd).
      destruct (servers a !! s) as [ps|]; [|done]. simpl. by apply Hp; destruct (Hg ps).
    + by rewrite lookup_insert_ne.
  - unfold pair_sync. by rewrite Ha.
Qed.

Lemma flag_mlat_address p e df f now a0 e' s addr : stable p ->
  mlat_address e df f now = Some (a0, e') -> flag p e' s addr = flag p e s addr.
Proof.
  intros [Hp _]. unfold mlat_address. destruct (df =? 11).
  - destruct (80 <=? crc24 f); [done|]. intros [= <- <-]. by apply flag_touch.
  - destruct (bool_decide _); [|done]. destruct (aircraft e !! _); [|done].
    intros [= <- <-]. by apply flag_touch.
Qed.

Lemma flag_on_reception p e r now s addr : stable p ->
  flag p (on_reception e r now).1 s addr = flag p e s addr.
Proof.
  intros Hp. rewrite <- (flag_check_counter p e r). unfold on_reception.
  destruct (check_counter e r) as [e1 out]. cbn [fst].
  assert (flag p (set_last_counter (Some (counts_12mhz r)) e1) s addr = flag p e1 s addr) as <- by done.
  set (e2 := set_last_counter _ _).
  destruct (df_of (frame r)) as [df|]; [|done]. destruct (df =? 17).
  - destruct (negb _); [done|]. destruct (parse_df17_airborne (frame r)) as [d|].
    + rewrite <- (flag_touch p e2 (u24_of (frame r !!! 1%nat) (frame r !!! 2%nat) (frame r !!! 3%nat)) now true)
        by apply Hp.
      set (e3 := touch _ _ _ _). rewrite <- (flag_pair_sync p e3 (icao d) (Frames.odd d) r now s addr Hp).
      by destruct (pair_sync _ _ _ _ _).
    + apply flag_touch, Hp.
  - destruct (mlat_address e2 df (frame r) now) as [[a0 e3]|] eqn:Hm; [|done].
    rewrite <- (flag_mlat_address p e2 df (frame r) now a0 e3 s addr Hp Hm). by destruct (aircraft e3 !! a0).
Qed.

(** *** The periodic sweep *)
Lemma push_where_lookup p a h acc s :
  push_where p a h acc !!! s =
    match servers a !! s with
    | Some ps => if p ps && (s <? length acc)%nat then (acc !!! s) ++ [h] else acc !!! s
    | None => acc !!! s
    end.
Proof.
  unfold push_where. rewrite !list_lookup_total_alt, list_lookup_imap.
  destruct (acc !! s) as [l|] eqn:E.
  - apply lookup_lt_Some in E as E'. rewrite (proj2 (Nat.ltb_lt s (length acc)) E'). simpl.
    destruct (servers a !! s) as [ps|]; [|done]. rewrite andb_true_r. by destruct (p ps).
  - apply lookup_ge_None in E. rewrite (proj2 (Nat.ltb_ge s (length acc)) E). simpl.
    destruct (servers a !! s); [|done]. by rewrite andb_false_r.
Qed.
Lemma push_where_length p a h acc : length (push_where p a h acc) = length acc.
Proof. apply length_imap. Qed.

Lemma sweep_lengths now n l : length (sw_seen (sweep now n l)) = n /\ length (sw_lost (sweep now n l)) = n.
Proof.
  unfold sweep. apply (fold_left_invariant (fun st => length (sw_seen st) = n /\ length (sw_lost st) = n)).
  - simpl. by rewrite !length_replicate.
  - intros st [addr a] [H1 H2] _. simpl. destruct (expired now a); simpl; by rewrite ?push_where_length.
Qed.

Lemma sweep_snoc now n l addr a : sweep now n (l ++ [(addr, a)]) = sweep_step now (sweep now n l) (addr, a).
Proof. apply fold_left_snoc. Qed.

Lemma sweep_kept now n l addr : NoDup l.*1 ->
  forall a', kept (sweep now n l) !! addr = Some a' <->
  exists a, (addr, a) ∈ l /\ expired now a = false /\ a' = set_servers (fmap announce) a.
Proof.
  induction l as [|[a0 a] l IH] using rev_ind; intros Hnd a'.
  { split; [done|]. by intros (? & ?%not_elem_of_nil & _). }
  rewrite fmap_app, list.NoDup_app in Hnd. destruct Hnd as (Hnd & Hnot & _). specialize (IH Hnd).
  assert (forall x, (a0, x) ∉ l) as Hfresh.
  { intros x Hx. apply (Hnot a0); [|by left]. apply list_elem_of_fmap. by exists (a0, x). }
  rewrite sweep_snoc. setoid_rewrite elem_of_app. setoid_rewrite list_elem_of_singleton. simpl.
  destruct (expired now a) eqn:Ex; cbn [kept].
  - rewrite IH. split; [by intros (x & ? & ?); exists x; auto|].
    intros (x & [?|[= -> ->]] & Hx & ->); [by exists x|congruence].
  - destruct (decide (addr = a0)) as [->|Hne].
    + rewrite lookup_insert_eq. split.
      * intros [= <-]. exists a. auto.
      * intros (x & [Hx|[= ->]] & _ & ->); [by destruct (Hfresh x)|done].
    + rewrite lookup_insert_ne, IH by done. split; [by intros (x & ? & ?); exists x; auto|].
      intros (x & [?|[= -> ->]] & ?); [by exists x|done].
Qed.

Lemma sweep_seen now n l s h : (s < n)%nat ->
  h ∈ sw_seen (sweep now n l) !!! s <->
  exists addr a ps, (addr, a) ∈ l /\ expired now a = false /\ servers a !! s = Some ps /\
                    announced ps = false /\ h = fmt_06x addr.
Proof.
  intros Hs. induction l as [|[a0 a] l IH] using rev_ind.
  { simpl. rewrite list_lookup_total_alt, lookup_replicate_2 by done. simpl.
    split; [by intros ?%not_elem_of_nil|]. by intros (? & ? & ? & ?%not_elem_of_nil & _). }
  rewrite sweep_snoc. setoid_rewrite elem_of_app. setoid_rewrite list_elem_of_singleton. simpl.
  destruct (expired now a) eqn:Ex; cbn [sw_seen].
  { rewrite IH. split; [intros (x & y & z & ? & ?); exists x, y, z; auto|].
    intros (x & y & z & [?|[= -> ->]] & Hx & ?); [by exists x, y, z|congruence]. }
  rewrite push_where_lookup. destruct (sweep_lengths now n l) as [-> _].
  rewrite (proj2 (Nat.ltb_lt s n) Hs).
  destruct (servers a !! s) as [ps|] eqn:Eps; [rewrite andb_true_r; destruct (announced ps) eqn:Ea|]; simpl.
  2: rewrite elem_of_app, list_elem_of_singleton.
  all: rewrite IH; split.
  all: try (intros (x & y & z & [?|[= -> ->]] & ? & ? & ? & ->); [by exists x, y, z|congruence]).
  - intros (x & y & z & ? & ?). exists x, y, z. auto.
  - intros [(x & y & z & ? & ?)| ->]; [exists x, y, z; auto|]. exists a0, a, ps. auto.
  - intros (x & y & z & [?|[= -> ->]] & ? & ? & ? & ->); [left; by exists x, y, z|by right].
  - intros (x & y & z & ? & ?). exists x, y, z. auto.
Qed.

Lemma sweep_lost now n l s h : (s < n)%nat ->
  h ∈ sw_lost (sweep now n l) !!! s <->
  exists addr a ps, (addr, a) ∈ l /\ expired now a = true /\ servers a !! s = Some ps /\
                    announced ps = true /\ h = fmt_06x addr.
Proof.
  intros Hs. induction l as [|[a0 a] l IH] using rev_ind.
  { simpl. rewrite list_lookup_total_alt, lookup_replicate_2 by done. simpl.
    split; [by intros ?%not_elem_of_nil|]. by intros (? & ? & ? & ?%not_elem_of_nil & _). }
  rewrite sweep_snoc. setoid_rewrite elem_of_app. setoid_rewrite list_elem_of_singleton. simpl.
  destruct (expired now a) eqn:Ex; cbn [sw_lost]; cycle 1.
  { rewrite IH. split; [intros (x & y & z & ? & ?); exists x, y, z; auto|].
    intros (x & y & z & [?|[= -> ->]] & Hx & ?); [by exists x, y, z|congruence]. }
  rewrite push_where_lookup. destruct (sweep_lengths now n l) as [_ ->].
  rewrite (proj2 (Nat.ltb_lt s n) Hs).
  destruct (servers a !! s) as [ps|] eqn:Eps; [rewrite andb_true_r; destruct (announced ps) eqn:Ea|]; simpl.
  1: rewrite elem_of_app, list_elem_of_singleton.
  all: rewrite IH; split.
  all: try (intros (x & y & z & [?|[= -> ->]] & ? & ? & ? & ->); [by exists x, y, z|congruence]).
  - intros [(x & y & z & ? & ?)| ->]; [exists x, y, z; auto|]. exists a0, a, ps. auto.
  - intros (x & y & z & [?|[= -> ->]] & ? & ? & ? & ->); [left; by exists x, y, z|by right].
  - intros (x & y & z & ? & ?). exists x, y, z. auto.
  - intros (x & y & z & ? & ?). exists x, y, z. auto.
Qed.

(** *** One tick *)
Lemma tick_ok n e now : engine_ok n e -> engine_ok n (tick e now).1.
Proof.
  intros [Hn Hm]. unfold tick. set (sw := sweep _ _ _).
  assert (map_Forall (aircraft_ok n) (kept sw)) as Hk.
  { intros i a' Hi. apply sweep_kept in Hi as (a & Ha & _ & ->); [|apply NoDup_hash_iter].
    apply aircraft_ok_servers; [by rewrite length_fmap|]. by apply Hm, elem_of_hash_iter. }
  destruct (_ >=? _)%f64; [|by split]. split; [done|]. cbn [aircraft fst set_aircraft].
  intros i a Hi. apply lookup_fmap_Some in Hi as (a' & <- & Ha). destruct (Hk _ _ Ha). by split.
Qed.

Lemma flag_tick p e now s addr :
  flag p (tick e now).1 s addr = true <->
  exists a ps, aircraft e !! addr = Some a /\ expired now a = false /\ servers a !! s = Some ps /\
               p (announce ps) = true.
Proof.
  transitivity (flag p (set_aircraft (kept (sweep now (n_servers e) (hash_iter (aircraft e)))) e) s addr = true).
  { unfold tick. destruct (_ >=? _)%f64; [|done]. unfold flag. cbn [aircraft fst set_aircraft].
    rewrite lookup_fmap. by destruct (kept _ !! addr). }
  rewrite flag_true. cbn [aircraft set_aircraft]. split.
  - intros (a' & ps' & Hk & Hs & Hp). apply sweep_kept in Hk as (a & Ha & Hx & ->); [|apply NoDup_hash_iter].
    cbn [servers set_servers] in Hs. apply list_lookup_fmap_Some in Hs as (ps & -> & Hps).
    exists a, ps. by rewrite <- elem_of_hash_iter.
  - intros (a & ps & Ha & Hx & Hps & Hp).
    exists (set_servers (fmap announce) a), (announce ps). split_and!; [|by cbn [servers set_servers]; rewrite list_lookup_fmap, Hps|done].
    apply sweep_kept; [apply NoDup_hash_iter|]. exists a. by rewrite elem_of_hash_iter.
Qed.

Lemma hear_told_lists x sn ls t y :
  y ∈ fold_left hear (told_lists x sn ls) t <-> (y ∈ t \/ y ∈ ask sn x) /\ y ∉ ask ls x.
Proof.
  assert (forall z : nat * Z, z ∉ ask [] x) as Hnil by (intros z; apply not_elem_of_empty).
  unfold told_lists. specialize (Hnil y).
  destruct sn, ls; cbn [app fold_left hear]; rewrite ?elem_of_difference, ?elem_of_union; tauto.
Qed.

Lemma hear_announcements n seen lost t s addr :
  (s, addr) ∈ fold_left hear (announcements n seen lost) t <->
  ((s, addr) ∈ t \/ (s < n)%nat /\ (s, addr) ∈ ask (seen !!! s) s) /\
  ~ ((s < n)%nat /\ (s, addr) ∈ ask (lost !!! s) s).
Proof.
  induction n as [|n IH].
  { simpl. split; [intros ?; split; [by left|lia]|]. intros [[?|?] _]; [done|lia]. }
  unfold announcements in *. rewrite seq_S, bind_app, fold_left_app. cbn [mbind list_bind Nat.add].
  rewrite app_nil_r.
  rewrite hear_told_lists, IH. clear IH.
  assert (forall hs, (s, addr) ∈ ask hs n -> s = n) as Hask by (intros hs (-> & _)%elem_of_ask; done).
  destruct (decide (s = n)) as [->|Hne].
  - assert ((n < n)%nat <-> False) as -> by lia. assert ((n < S n)%nat <-> True) as -> by lia. tauto.
  - assert ((s < S n)%nat <-> (s < n)%nat) as -> by lia.
    pose proof (Hask (seen !!! n)). pose proof (Hask (lost !!! n)). tauto.
Qed.

(** What a tick tells the servers is what they have not been told. *)
Lemma ask_seen n e now s addr : engine_ok n e -> (s < n)%nat ->
  (s, addr) ∈ ask (sw_seen (sweep now n (hash_iter (aircraft e))) !!! s) s <->
  exists a ps, aircraft e !! addr = Some a /\ expired now a = false /\ servers a !! s = Some ps /\
               announced ps = false.
Proof.
  intros [_ Hm] Hs. rewrite elem_of_ask. split.
  - intros (_ & h & Hh & Ef). apply sweep_seen in Hh as (i & a & ps & Hi & Hx & Hps & Ha & ->); [|done].
    apply elem_of_hash_iter in Hi. destruct (Hm _ _ Hi) as [Hr _ _ _]. rewrite from_str_fmt in Ef by done.
    simplify_eq. eauto 10.
  - intros (a & ps & Hi & Hx & Hps & Ha). split; [done|]. exists (fmt_06x addr). split.
    + apply sweep_seen; [done|]. exists addr, a, ps. by rewrite elem_of_hash_iter.
    + apply from_str_fmt. by destruct (Hm _ _ Hi).
Qed.
Lemma ask_lost n e now s addr : engine_ok n e -> (s < n)%nat ->
  (s, addr) ∈ ask (sw_lost (sweep now n (hash_iter (aircraft e))) !!! s) s <->
  exists a ps, aircraft e !! addr = Some a /\ expired now a = true /\ servers a !! s = Some ps /\
               announced ps = true.
Proof.
  intros [_ Hm] Hs. rewrite elem_of_ask. split.
  - intros (_ & h & Hh & Ef). apply sweep_lost in Hh as (i & a & ps & Hi & Hx & Hps & Ha & ->); [|done].
    apply elem_of_hash_iter in Hi. destruct (Hm _ _ Hi) as [Hr _ _ _]. rewrite from_str_fmt in Ef by done.
    simplify_eq. eauto 10.
  - intros (a & ps & Hi & Hx & Hps & Ha). split; [done|]. exists (fmt_06x addr). split.
    + apply sweep_lost; [done|]. exists addr, a, ps. by rewrite elem_of_hash_iter.
    + apply from_str_fmt. by destruct (Hm _ _ Hi).
Qed.

Lemma flag_some n e s addr a : engine_ok n e -> aircraft e !! addr = Some a -> (s < n)%nat ->
  exists ps, servers a !! s = Some ps.
Proof.
  intros [_ Hm] Ha Hs. destruct (Hm _ _ Ha) as [_ Hl _ _]. apply lookup_lt_is_Some_2. lia.
Qed.
Lemma flag_index n e p s addr : engine_ok n e -> flag p e s addr = true -> (s < n)%nat.
Proof.
  intros [_ Hm] (a & ps & Ha & Hps & _)%flag_true. destruct (Hm _ _ Ha) as [_ Hl _ _].
  apply lookup_lt_Some in Hps. lia.
Qed.

(** The messages of a tick that the observer hears are its announcements. *)
Lemma hear_tick e now t :
  fold_left hear (tick e now).2 t
  = fold_left hear (announcements (n_servers e)
      (sw_seen (sweep now (n_servers e) (hash_iter (aircraft e))))
      (sw_lost (sweep now (n_servers e) (hash_iter (aircraft e))))) t.
Proof.
  unfold tick. set (out := announcements _ _ _).
  assert (forall l rates t, fold_left hear ((fun s => (s, RateReport rates)) <$> l : list Outbound) t = t) as Hr
    by (intros l rates; induction l; simpl; auto).
  destruct (_ >=? _)%f64; [|done]. simpl. case_bool_decide; [done|]. by rewrite fold_left_app, Hr.
Qed.

Lemma tick_told n e now t : engine_ok n e ->
  (forall s addr, (s, addr) ∈ t <-> flag announced e s addr = true) ->
  forall s addr, (s, addr) ∈ fold_left hear (tick e now).2 t <-> flag announced (tick e now).1 s addr = true.
Proof.
  intros He Ht s addr. rewrite hear_tick, hear_announcements, flag_tick. pose proof He as [-> _].
  rewrite Ht. split.
  - intros [Hin Hnl].
    assert (exists a ps, aircraft e !! addr = Some a /\ servers a !! s = Some ps /\
      (announced ps = true \/ expired now a = false) /\ (s < n)%nat) as (a & ps & Ha & Hps & Hor & Hs).
    { destruct Hin as [Hf|[Hs Hk]].
      - pose proof (flag_index n e _ s addr He Hf). apply flag_true in Hf as (a & ps & ? & ? & ?).
        exists a, ps. auto.
      - apply (ask_seen n) in Hk as (a & ps & ? & ? & ? & ?); [|done..]. exists a, ps. auto. }
    exists a, ps. split_and!; try done. destruct (expired now a) eqn:Hx; [|done].
    exfalso. apply Hnl. split; [done|]. apply (ask_lost n); [done..|]. exists a, ps. destruct Hor; [auto|congruence].
  - intros (a & ps & Ha & Hx & Hps & _).
    assert (s < n)%nat as Hs.
    { destruct He as [_ Hm]. destruct (Hm _ _ Ha) as [_ Hl _ _]. apply lookup_lt_Some in Hps. lia. }
    split.
    + destruct (announced ps) eqn:Hann.
      * left. apply flag_true. eauto.
      * right. split; [done|]. apply (ask_seen n); [done..|]. eauto 10.
    + intros [_ Hl]. apply (ask_lost n) in Hl as (a' & ps' & ? & ? & _); [|done..]. congruence.
Qed.

(** *** What a reception sends *)

(** The address a reply frame stands for: read from a DF11, recovered from the parity otherwise. *)
Definition frame_address (f : list Z) : Z :=
  if Z.shiftr (f !!! 0%nat) 3 =? 11 then u24_of (f !!! 1%nat) (f !!! 2%nat) (f !!! 3%nat)
  else
    let n := length f in
    let tail := drop (n - 3) f in
    Z.land (Z.lxor (crc24 (take (n - 3) f))
      (u24_of (tail !!! 0%nat) (tail !!! 1%nat) (tail !!! 2%nat))) 0xFFFFFF.

Lemma mlat_address_frame e df f now addr e' :
  df_of f = Some df -> mlat_address e df f now = Some (addr, e') -> addr = frame_address f.
Proof.
  unfold df_of, mlat_address, frame_address. destruct (_ || _)%nat; [|done]. intros [= <-].
  destruct (_ =? 11); [by destruct (80 <=? crc24 f); [|intros [= <- _]]|].
  destruct (bool_decide _); [|done]. by destruct (aircraft e !! _); [intros [= <- _]|].
Qed.

Definition traffic_ok (e : Engine) (r : Reception) (s : nat) (m : ClientMsg) : Prop :=
  match m with
  | Mlat t h => t = num_of_u64 (counts_12mhz r) /\ h = hex_encode (frame r) /\
      flag requested e s (frame_address (frame r)) = true
  | Sync et ot em om =>
      exists addr ce co fe fo de do,
        flag requested e s addr = true /\
        et = num_of_u64 ce /\ ot = num_of_u64 co /\
        (of_Z (abs_diff ce co) / FREQ_12MHZ >? MAX_PAIR_S)%f64 = false /\
        em = hex_encode fe /\ om = hex_encode fo /\
        parse_df17_airborne fe = Some de /\ icao de = addr /\ Frames.odd de = false /\
        parse_df17_airborne fo = Some do /\ icao do = addr /\ Frames.odd do = true
  | ClockReset u => u = eng_user e /\ (s < n_servers e)%nat
  | _ => False
  end.

Lemma check_counter_out e r s m : (s, m) ∈ (check_counter e r).2 ->
  m = ClockReset (eng_user e) /\ (s < n_servers e)%nat.
Proof.
  unfold check_counter. destruct (last_counter e); [|by intros ?%not_elem_of_nil].
  destruct (clock_restarted _ _); [|by intros ?%not_elem_of_nil]. cbn [snd].
  intros (i & [= -> ->] & Hi)%list_elem_of_fmap. apply elem_of_seq in Hi. split; [done|lia].
Qed.

Lemma pair_sync_out n e a0 r now d s m :
  engine_ok n e -> parse_df17_airborne (frame r) = Some d -> a0 = icao d ->
  (s, m) ∈ (pair_sync e a0 (Frames.odd d) r now).2 -> traffic_ok e r s m.
Proof.
  intros [_ Hm] Hp ->. destruct (aircraft e !! icao d) as [a|] eqn:Ha;
    [|unfold pair_sync; rewrite Ha; by intros ?%not_elem_of_nil].
  destruct (pair_sync_spec e (icao d) (Frames.odd d) r now a Ha) as (g & out & -> & _ & Ho).
  destruct (paired_ok n (icao d) a r d Hp eq_refl (Hm _ _ Ha)) as [_ _ He Hod].
  destruct Ho as [->|(ce & he & co & ho & Ee & Eo & Hspan & ->)]; [by intros ?%not_elem_of_nil|].
  intros [-> (ps & Hps & Hdue)]%elem_of_send_where. rewrite Ee in He. rewrite Eo in Hod.
  destruct He as (fe & de & -> & ? & ? & ?), Hod as (fo & do & -> & ? & ? & ?).
  exists (icao d), ce, co, fe, fo, de, do. split_and!; try done.
  apply flag_true. exists a, ps. split_and!; [done..|]. unfold sync_due in Hdue.
  by apply andb_true_iff in Hdue as [? _].
Qed.

Lemma pair_sync_no_reset e a0 odd r now s m :
  (s, m) ∈ (pair_sync e a0 odd r now).2 -> forall u, m <> ClockReset u.
Proof.
  destruct (aircraft e !! a0) as [a|] eqn:Ha;
    [|unfold pair_sync; rewrite Ha; by intros ?%not_elem_of_nil].
  destruct (pair_sync_spec e a0 odd r now a Ha) as (g & out & -> & _ & Ho). cbn [snd].
  destruct Ho as [->|(ce & he & co & ho & _ & _ & _ & ->)]; [by intros ?%not_elem_of_nil|].
  by intros [-> _]%elem_of_send_where.
Qed.

Lemma on_reception_out n e r now s m : engine_ok n e -> bytes_ok (frame r) ->
  (s, m) ∈ (on_reception e r now).2 -> traffic_ok e r s m.
Proof.
  intros He Hf. unfold on_reception.
  pose proof (check_counter_out e r s m) as Hc. pose proof (check_counter_ok n e r He) as Hok.
  pose proof (flag_check_counter requested e r s) as Hfl.
  destruct (check_counter e r) as [e1 out]. cbn [fst snd] in *.
  apply (set_last_counter_ok _ (Some (counts_12mhz r))) in Hok. set (e2 := set_last_counter _ _) in *.
  assert (forall addr, flag requested e2 s addr = flag requested e s addr) as Hfl2 by done. clear Hfl.
  assert ((s, m) ∈ out -> traffic_ok e r s m) as Hout by (intros [-> ?]%Hc; by split).
  assert (forall e3, (forall addr, flag requested e3 s addr = flag requested e2 s addr) ->
    traffic_ok e3 r s m -> (forall u, m <> ClockReset u) -> traffic_ok e r s m) as Hmove.
  { intros e3 H3 Ht Hno. destruct m; try done.
    - destruct Ht as (addr & ? & ? & ? & ? & ? & ? & Hr & ?). rewrite H3, Hfl2 in Hr. simpl. eauto 20.
    - destruct Ht as (? & ? & Hr). rewrite H3, Hfl2 in Hr. by split.
    - by destruct (Hno s0). }
  destruct (df_of (frame r)) as [df|] eqn:Hdf; [|done]. destruct (df =? 17).
  - destruct (negb _); [done|]. set (e3 := touch _ _ _ _).
    destruct (parse_df17_airborne (frame r)) as [d|] eqn:Hp; [|done].
    pose proof (pair_sync_out n e3 (icao d) r now d s m
      (touch_ok _ _ _ _ _ (frame_addr_range _ Hf) Hok) Hp eq_refl) as Hps.
    pose proof (pair_sync_no_reset e3 (icao d) (Frames.odd d) r now s m) as Hno.
    destruct (pair_sync e3 (icao d) (Frames.odd d) r now) as [e4 out']; cbn [snd] in *.
    intros [Hin|Hin]%elem_of_app; [by apply Hout|].
    apply (Hmove e3); [|by apply Hps|by apply Hno]. intros addr. by apply flag_touch.
  - destruct (mlat_address e2 df (frame r) now) as [[addr e3]|] eqn:Hm; [|done].
    destruct (aircraft e3 !! addr) as [a|] eqn:Ha; [|done]. cbn [snd].
    intros [?|[-> (ps & Hps & Hreq)]%elem_of_send_where]%elem_of_app; [by apply Hout|].
    split_and!; [done..|]. rewrite <- (mlat_address_frame e2 df (frame r) now addr e3 Hdf Hm), <- Hfl2.
    rewrite <- (flag_mlat_address requested e2 df (frame r) now addr e3 s addr stable_requested Hm).
    apply flag_true. eauto.
Qed.

Lemma hear_reception n e r now t : engine_ok n e -> bytes_ok (frame r) ->
  fold_left hear (on_reception e r now).2 t = t.
Proof.
  intros He Hf. apply (fold_left_invariant (fun t' => t' = t)); [done|].
  intros t' [s m] -> Hm. pose proof (on_reception_out n e r now s m He Hf Hm) as Ht.
  by destruct m; try (destruct Ht).
Qed.

(** The invariant of a run: the table is well formed, every request in the table was
    asked for, and the announcements are what the servers have been told. *)
Record run_ok (n : nat) (st : state) : Prop := {
  run_engine : engine_ok n st.1;
  run_asked s addr : flag requested st.1 s addr = true -> (s, addr) ∈ asked st.2;
  run_told s addr : (s, addr) ∈ told st.2 <-> flag announced st.1 s addr = true
}.

Lemma run_start user now n st : start user now n st -> run_ok n st.
Proof.
  intros []. split; [split; [done|apply map_Forall_empty]|..]; simpl; unfold flag; simpl; set_solver.
Qed.

Lemma run_step n st st' : run_ok n st -> step n st st' -> run_ok n st'.
Proof.
  intros [He Ha Ht] Hs. destruct Hs as [e ob op e' out Hop E]. cbn [fst snd] in *.
  destruct op as [s0 hs|s0 hs|s0| |r now|now]; cbn in E; simplify_eq.
  - split; [by apply set_requested_ok|..]; intros s addr; cbn [observe asked told fst snd fold_left].
    + unfold start_sending. rewrite flag_set_requested. case_bool_decide; [set_solver|].
      intros ?%Ha. set_solver.
    + unfold start_sending. rewrite flag_set_requested, Ht. by case_bool_decide.
  - split; [by apply set_requested_ok|..]; intros s addr; cbn [observe asked told fst snd fold_left].
    + unfold stop_sending. rewrite flag_set_requested. case_bool_decide.
      * intros (a & ps & _ & _ & Hf)%flag_true. done.
      * intros ?%Ha. set_solver.
    + unfold stop_sending. rewrite flag_set_requested, Ht. by case_bool_decide.
  - split; [by apply server_reset_ok|..]; intros s addr; cbn [observe asked told fst snd fold_left];
      rewrite flag_server_reset, elem_of_filter by done; simpl.
    + intros [Hn Hf]%andb_true_iff. case_bool_decide; [done|]. by split; [|apply Ha].
    + rewrite Ht, andb_true_iff, negb_true_iff, bool_decide_eq_false. done.
  - split; [by apply input_reset_ok|..]; intros s addr; cbn [observe asked told fst snd fold_left];
      rewrite flag_input_reset; [apply Ha|apply Ht].
  - assert (e' = (on_reception e r now).1 /\ out = (on_reception e r now).2) as [-> ->] by by rewrite E.
    split; [by apply on_reception_ok|..]; intros s addr; cbn [observe asked told fst snd].
    + rewrite flag_on_reception by apply stable_requested. apply Ha.
    + rewrite (hear_reception n), flag_on_reception by (done || apply stable_announced). apply Ht.
  - assert (e' = (tick e now).1 /\ out = (tick e now).2) as [-> ->] by by rewrite E.
    split; [by apply tick_ok|..]; cbn [observe asked told fst snd].
    + intros s addr (a & ps & Hi & _ & Hps & Hr)%flag_tick. apply Ha, flag_true. eauto.
    + by apply (tick_told n).
Qed.

Lemma run_reachable user now n st : reachable (start user now n) (step n) st -> run_ok n st.
Proof. apply invariant_reachable; [apply run_start|intros s s'; apply run_step]. Qed.

(** C1: in any run, a message about an aircraft goes to a server only while that server's
    request for it is in force: every [mlat] message carries the frame just received and
    is sent for its address, and every [sync] message carries an even and an odd DF17
    position frame of one aircraft, both accepted by the parser and not more than 4 s apart. *)
Theorem traffic_only_on_request user t0 n e ob r now s m :
  reachable (start user t0 n) (step n) (e, ob) -> bytes_ok (frame r) ->
  (s, m) ∈ (on_reception e r now).2 ->
  match m with
  | Mlat t h => t = num_of_u64 (counts_12mhz r) /\ h = hex_encode (frame r) /\
      (s, frame_address (frame r)) ∈ asked ob
  | Sync et ot em om =>
      exists addr ce co fe fo de do,
        (s, addr) ∈ asked ob /\ et = num_of_u64 ce /\ ot = num_of_u64 co /\
        (of_Z (abs_diff ce co) / FREQ_12MHZ >? MAX_PAIR_S)%f64 = false /\
        em = hex_encode fe /\ om = hex_encode fo /\
        parse_df17_airborne fe = Some de /\ icao de = addr /\ Frames.odd de = false /\
        parse_df17_airborne fo = Some do /\ icao do = addr /\ Frames.odd do = true
  | ClockReset u => (s < n)%nat
  | _ => False
  end.
Proof.
  intros [He Ha _]%run_reachable Hf Hm. cbn [fst snd] in *.
  pose proof (on_reception_out n e r now s m He Hf Hm) as Ht. destruct m; try done.
  - destruct Ht as (addr & ce & co & fe & fo & de & do & Hr & ? & ? & Hsp & ?).
    exists addr, ce, co, fe, fo, de, do. split; [by apply Ha|tauto].
  - destruct Ht as (? & ? & ?). split_and!; [done..|]. by apply Ha.
  - destruct Ht as [_ ?], He as [<- _]. done.
Qed.

(** C6: in any run, [seen] and [lost] alternate for each server and aircraft: a tick lists
    as seen exactly the live aircraft the server has not been told of since its last
    (re)connection, as lost exactly the expired ones it has been told of, and afterwards
    what the server has been told is the live part of the table. *)
Theorem announcements_alternate user t0 n e ob now s addr :
  reachable (start user t0 n) (step n) (e, ob) -> (s < n)%nat ->
  let sw := sweep now n (hash_iter (aircraft e)) in
  ((s, addr) ∈ ask (sw_seen sw !!! s) s <->
     ~ (s, addr) ∈ told ob /\ exists a, aircraft e !! addr = Some a /\ expired now a = false) /\
  ((s, addr) ∈ ask (sw_lost sw !!! s) s <->
     (s, addr) ∈ told ob /\ exists a, aircraft e !! addr = Some a /\ expired now a = true) /\
  ((s, addr) ∈ told (observe ob (OpTick now) (tick e now).2) <->
     exists a, aircraft e !! addr = Some a /\ expired now a = false).
Proof.
  intros [He _ Ht]%run_reachable Hs sw. cbn [fst snd] in *. unfold sw. split_and!.
  - rewrite (ask_seen n) by done. rewrite Ht. split.
    + intros (a & ps & Ha & Hx & Hps & Hf). split; [|by exists a].
      intros (a' & ps' & ? & ? & ?)%flag_true. congruence.
    + intros [Hn (a & Ha & Hx)]. destruct (flag_some n e s addr a He Ha Hs) as [ps Hps].
      exists a, ps. split_and!; [done..|]. destruct (announced ps) eqn:E; [|done].
      exfalso. apply Hn, flag_true. eauto.
  - rewrite (ask_lost n) by done. rewrite Ht, flag_true. split.
    + intros (a & ps & Ha & Hx & Hps & Hf). split; [by exists a, ps|by exists a].
    + intros [(a & ps & Ha & Hps & Hf) (a' & Ha' & Hx)]. rewrite Ha in Ha'. injection Ha' as <-. by exists a, ps.
  - cbn [observe told]. rewrite (tick_told n) by done. rewrite flag_tick. split.
    + intros (a & ps & Ha & Hx & _). by exists a.
    + intros (a & Ha & Hx). destruct (flag_some n e s addr a He Ha Hs) as [ps Hps]. by exists a, ps.
Qed.

(** An aircraft enters the table only through a frame whose parity validates it: a
    DF17 with a zero remainder, or a DF11 whose remainder is below 80; a frame whose
    address is recovered from its parity never adds one. *)
Theorem aircraft_validated e r now addr :
  aircraft e !! addr = None -> is_Some (aircraft (on_reception e r now).1 !! addr) ->
  addr = u24_of (frame r !!! 1%nat) (frame r !!! 2%nat) (frame r !!! 3%nat) /\
  (df_of (frame r) = Some 17 /\ crc24 (frame r) = 0 \/
   df_of (frame r) = Some 11 /\ crc24 (frame r) < 80).
Proof.
  intros Hnone. unfold on_reception.
  assert (aircraft (check_counter e r).1 !! addr = None) as Hc.
  { unfold check_counter. destruct (last_counter e); [|done]. destruct (clock_restarted _ _); [|done].
    simpl. by rewrite lookup_fmap, Hnone. }
  destruct (check_counter e r) as [e1 out]. cbn [fst] in Hc. set (e2 := set_last_counter _ _).
  assert (aircraft e2 !! addr = None) as H2 by done.
  assert (forall a0 v, is_Some (aircraft (touch e2 a0 now v) !! addr) -> addr = a0 /\ v = true) as Ht.
  { intros a0 v. unfold touch. destruct (aircraft e2 !! a0) eqn:Ha0; [|destruct v; [|by rewrite H2; intros []]].
    all: cbn [aircraft set_aircraft]; destruct (decide (a0 = addr)) as [->|]; [congruence || done|];
      rewrite lookup_insert_ne, H2 by done; by intros []. }
  destruct (df_of (frame r)) as [df|]; [|cbn [fst]; by rewrite H2; intros []].
  destruct (Z.eqb_spec df 17) as [->|Hne].
  - destruct (Z.eqb_spec (crc24 (frame r)) 0); [|cbn [negb fst]; by rewrite H2; intros []]. cbn [negb].
    set (e3 := touch _ _ _ _). intros Hs.
    assert (is_Some (aircraft e3 !! addr)) as H3.
    { revert Hs. destruct (parse_df17_airborne (frame r)) as [d|]; [|done]. intros Hs.
      destruct (aircraft e3 !! icao d) as [a|] eqn:Ha; [|unfold pair_sync in Hs; by rewrite Ha in Hs].
      destruct (decide (addr = icao d)) as [->|]; [by exists a|].
      destruct (pair_sync_spec e3 (icao d) (Frames.odd d) r now a Ha) as (g & o & E & _).
      rewrite E in Hs. cbn [aircraft set_aircraft fst] in Hs. by rewrite lookup_insert_ne in Hs. }
    apply Ht in H3 as [-> _]. auto.
  - destruct (mlat_address e2 df (frame r) now) as [[a0 e3]|] eqn:Hm; [|cbn [fst]; by rewrite H2; intros []].
    intros Hs. assert (is_Some (aircraft e3 !! addr)) as H3 by (revert Hs; by destruct (aircraft e3 !! a0)).
    apply mlat_address_inv in Hm as [(-> & Hcrc & -> & ->)| ->].
    + apply Ht in H3 as [-> _]. auto.
    + by apply Ht in H3 as [_ ?].
Qed.

Definition ic_remainder_large (i : Z) : bool := (i =? 0) || (80 <=? Nat.iter 24 lfsr_bit i).
Lemma ic_remainders : forallb ic_remainder_large (seqZ 0 80) = true.
Proof. vm_compute. reflexivity. Qed.

Lemma ic_large ic : 1 <= ic < 80 -> 80 <= Nat.iter 24 lfsr_bit ic.
Proof.
  intros Hi. apply Z.leb_le.
  pose proof (range_forallb ic_remainder_large 80 ic_remainders ic ltac:(lia)) as H80.
  apply orb_true_iff in H80 as [E%Z.eqb_eq|H80]; [exfalso; clear - Hi E; lia|exact H80].
Qed.

Lemma mlat_address_df11 e f now : 80 <= crc24 f -> mlat_address e 11 f now = None.
Proof. intros Hc%Z.leb_le. unfold mlat_address. by rewrite Hc. Qed.

(** A DF11 reply to an interrogator with code 1 to 79 (parity field = CRC xor code) is
    dropped: the engine takes the remainder of the whole frame, which is not the code, and
    none of these remainders is below 80. *)
Theorem df11_interrogator_rejected e now head icao ic :
  byte_ok head -> Z.shiftr head 3 = 11 -> 1 <= ic < 80 ->
  let data := head :: be24_bytes icao in
  mlat_address e 11 (data ++ be24_bytes (Z.lxor (crc24 data) ic)) now = None.
Proof.
  intros Hh _ Hi data. apply mlat_address_df11.
  rewrite crc24_overlay by (lia || (apply bytes_ok_cons; split; [done|apply be24_bytes_ok])).
  by apply ic_large.
Qed.

(** A counter that steps back by more than a second, and by less than the wrap margin,
    is a clock restart: every server gets one [clock_reset] before anything else, and no
    half of a pair from before the restart survives, so no later pair mixes the two clocks. *)
Theorem clock_restart_flushes n e r now last :
  engine_ok n e -> bytes_ok (frame r) ->
  last_counter e = Some last -> clock_restarted last (counts_12mhz r) = true ->
  (exists rest, (on_reception e r now).2
     = ((fun s => (s, ClockReset (eng_user e))) <$> seq 0 n) ++ rest) /\
  (forall s et ot em om, ~ (s, Sync et ot em om) ∈ (on_reception e r now).2) /\
  last_counter (on_reception e r now).1 = Some (counts_12mhz r).
Proof.
  intros [Hn Hm] Hf Hl Hc. unfold on_reception, check_counter. rewrite Hl, Hc, Hn.
  set (out := _ <$> seq 0 n). set (e2 := set_last_counter _ _).
  assert (forall s et ot em om, ~ (s, Sync et ot em om) ∈ out) as Hout.
  { intros s et ot em om (i & E & _)%list_elem_of_fmap. done. }
  assert (forall a0 v, last_counter (touch e2 a0 now v) = Some (counts_12mhz r)) as Ht.
  { intros a0 v. unfold touch. destruct (aircraft e2 !! a0); [done|by destruct v]. }
  assert (forall addr a, aircraft e2 !! addr = Some a -> even_msg a = None /\ odd_msg a = None) as Hnone.
  { intros addr a Ha. apply lookup_fmap_Some in Ha as (a' & <- & _). done. }
  destruct (df_of (frame r)) as [df|]; [|by split_and!; [exists []; rewrite app_nil_r|..]].
  destruct (df =? 17).
  - destruct (negb _); [by split_and!; [exists []; rewrite app_nil_r|..]|]. set (e3 := touch _ _ _ _).
    destruct (parse_df17_airborne (frame r)) as [d|]; [|by split_and!; [exists []; rewrite app_nil_r|..|apply Ht]].
    assert ((pair_sync e3 (icao d) (Frames.odd d) r now).2 = [] /\
            last_counter (pair_sync e3 (icao d) (Frames.odd d) r now).1 = Some (counts_12mhz r)) as [Hp Hlc].
    { destruct (aircraft e3 !! icao d) as [a|] eqn:Ha; [|unfold pair_sync; rewrite Ha; split; [done|apply Ht]].
      assert (even_msg a = None /\ odd_msg a = None) as [He Ho].
      { unfold e3, touch in Ha. set (a0 := u24_of _ _ _) in Ha.
        destruct (aircraft e2 !! a0) as [b|] eqn:Hb; cbn [aircraft set_aircraft] in Ha;
          (destruct (decide (a0 = icao d)) as [Ei|];
           [rewrite Ei, lookup_insert_eq in Ha|rewrite lookup_insert_ne in Ha by done]); simplify_eq; eauto.
        by apply Hnone in Hb. }
      destruct (pair_sync_spec e3 (icao d) (Frames.odd d) r now a Ha) as (g & o & -> & _ & Hor).
      split; [|apply Ht]. destruct Hor as [->|(ce & he & co & ho & E1 & E2 & _)]; [done|].
      unfold paired in E1, E2. destruct (Frames.odd d); cbn in E1, E2; congruence. }
    destruct (pair_sync _ _ _ _ _) as [e4 o]. cbn [fst snd] in *. subst o.
    rewrite app_nil_r. by split_and!; [exists []; rewrite app_nil_r|..].
  - destruct (mlat_address e2 df (frame r) now) as [[a0 e3]|] eqn:Hma;
      [|by split_and!; [exists []; rewrite app_nil_r|..]].
    assert (last_counter e3 = Some (counts_12mhz r)) as Hlc
      by (apply mlat_address_inv in Hma as [(_ & _ & _ & ->)| ->]; apply Ht).
    destruct (aircraft e3 !! a0) as [a|]; [|by split_and!; [exists []; rewrite app_nil_r|..]].
    split_and!; [by eexists| |done].
    intros s et ot em om [?%Hout|[? _]%elem_of_send_where]%elem_of_app; done.
Qed.
End Inv.

(** ** A concrete run: one server requests an aircraft that then sends a pair *)
Section Sample.
#[local] Existing Instance json_tree.
#[local] Existing Instance hex_tree.
#[local] Instance sample_order : HashIter Z Aircraft := hash_iter_list Z Aircraft.

Definition frame_even : list Z :=
  [0x8D; 0x40; 0x62; 0x1D; 0x58; 0xC3; 0x82; 0xD6; 0x90; 0xC8; 0xAC; 0x28; 0x63; 0xA7].
Definition frame_odd : list Z :=
  [0x8D; 0x40; 0x62; 0x1D; 0x58; 0xC3; 0x86; 0x43; 0x5C; 0xC4; 0x12; 0x69; 0x2A; 0xD6].

Definition sample_ops : list Op :=
  [OpReception {| counts_12mhz := 12000000; frame := frame_even |} 1000000000;
   OpTick 2000000000; OpStart 0 ["40621d"%string]].
Definition sample_state : state :=
  fold_left (fun st op => let '(e', out) := apply_op st.1 op in (e', observe st.2 op out))
    sample_ops (Engine_new "u" 0 1, {| asked := ∅; told := ∅ |}).

Lemma sample_reachable : reachable (start "u" 0 1) (step 1) sample_state.
Proof.
  assert (forall ops st, Forall (op_ok 1) ops -> reachable (start "u" 0 1) (step 1) st ->
    reachable (start "u" 0 1) (step 1)
      (fold_left (fun st op => let '(e', out) := apply_op st.1 op in (e', observe st.2 op out)) ops st)) as Hrun.
  { induction ops as [|op ops IH]; intros [e ob] Hops Hst; [done|].
    apply Forall_cons_iff in Hops as [Hop Hops]. cbn [fold_left]. apply IH; [done|]. cbn [fst snd].
    destruct (apply_op e op) as [e' out] eqn:E. eapply reach_step; [exact Hst|]. by apply (step_op 1 e ob op). }
  apply Hrun; [|apply reach_init, start_new].
  repeat constructor; cbn; lia.
Qed.

Definition sample_pair : Reception := {| counts_12mhz := 18000000; frame := frame_odd |}.

Definition sample_sync : ClientMsg :=
  Sync (num_of_u64 12000000) (num_of_u64 18000000) (hex_encode frame_even) (hex_encode frame_odd).
Lemma sample_sends : (on_reception sample_state.1 sample_pair 3000000000).2 = [(0%nat, sample_sync)].
Proof. vm_cast_no_check (eq_refl [(0%nat, sample_sync)]). Qed.

Lemma traffic_only_on_request_witness :
  (on_reception sample_state.1 sample_pair 3000000000).2 = [(0%nat, sample_sync)] /\
  exists addr, (0%nat, addr) ∈ asked sample_state.2.
Proof.
  split; [exact sample_sends|].
  assert (reachable (start "u" 0 1) (step 1) (sample_state.1, sample_state.2)) as Hr
    by (rewrite <- surjective_pairing; apply sample_reachable).
  assert ((0%nat, sample_sync) ∈ (on_reception sample_state.1 sample_pair 3000000000).2) as Hin
    by (rewrite sample_sends; by left).
  assert (bytes_ok (frame sample_pair)) as Hok by (apply (bool_decide_unpack _); vm_compute; reflexivity).
  destruct (traffic_only_on_request "u" 0 1 sample_state.1 sample_state.2 sample_pair 3000000000 0
    sample_sync Hr Hok Hin) as (addr & ce & co & fe & fo & de & do & Ha & _).
  exists addr. exact Ha.
Defined.

Lemma announcements_alternate_witness :
  exists addr : Z, (0%nat, addr) ∈ told sample_state.2 /\
    ((0%nat, addr) ∈ ask (sw_lost (sweep 100000000000 1 (hash_iter (aircraft sample_state.1))) !!! 0%nat) 0 <->
      (0%nat, addr) ∈ told sample_state.2 /\
      exists a, aircraft sample_state.1 !! addr = Some a /\ expired 100000000000 a = true).
Proof.
  exists 0x40621d. split; [apply (bool_decide_unpack _); vm_compute; reflexivity|].
  assert (reachable (start "u" 0 1) (step 1) (sample_state.1, sample_state.2)) as Hr
    by (rewrite <- surjective_pairing; apply sample_reachable).
  pose proof (announcements_alternate "u" 0 1 sample_state.1 sample_state.2 100000000000 0 0x40621d Hr
    ltac:(lia)) as Hall.
  cbv zeta in Hall. destruct Hall as (_ & Hl & _). exact Hl.
Defined.

Lemma aircraft_validated_witness :
  let r := {| counts_12mhz := 12000000; frame := frame_even |} in
  is_Some (aircraft (on_reception (Engine_new "u" 0 1) r 5).1 !! 0x40621d) /\
  crc24 (frame r) < 80.
Proof.
  cbv zeta. set (r := {| counts_12mhz := 12000000; frame := frame_even |}).
  assert (is_Some (aircraft (on_reception (Engine_new "u" 0 1) r 5).1 !! 0x40621d)) as Hs
    by (apply (bool_decide_unpack _); vm_compute; reflexivity).
  split; [exact Hs|].
  destruct (aircraft_validated (Engine_new "u" 0 1) r 5 0x40621d eq_refl Hs) as [_ [[_ H]|[_ H]]]; lia.
Defined.

Lemma df11_interrogator_rejected_witness :
  let data := 0x5d :: be24_bytes 0x40621d in
  mlat_address (Engine_new "u" 0 1) 11 (data ++ be24_bytes (Z.lxor (crc24 data) 7)) 0 = None.
Proof.
  apply (df11_interrogator_rejected (Engine_new "u" 0 1) 0 0x5d 0x40621d 7); [|reflexivity|lia].
  apply (bool_decide_unpack _). vm_compute. reflexivity.
Defined.

Lemma clock_restart_flushes_witness :
  let e := (on_reception (Engine_new "u" 0 2) {| counts_12mhz := 24000001; frame := frame_even |} 5).1 in
  let r := {| counts_12mhz := 0; frame := frame_odd |} in
  exists rest, (on_reception e r 6).2 = [(0%nat, ClockReset "u"); (1%nat, ClockReset "u")] ++ rest.
Proof.
  cbv zeta. set (e := (on_reception _ _ 5).1). set (r := {| counts_12mhz := 0; frame := frame_odd |}).
  assert (engine_ok 2 e) as He.
  { apply on_reception_ok; [|split; [done|apply map_Forall_empty]].
    apply (bool_decide_unpack _). vm_compute. reflexivity. }
  destruct (clock_restart_flushes 2 e r 6 24000001 He) as [[rest Hr] _].
  - apply (bool_decide_unpack _). vm_compute. reflexivity.
  - vm_compute. reflexivity.
  - vm_compute. reflexivity.
  - exists rest. exact Hr.
Defined.
End Sample.
