(* ===== verification/Geo.v ===== *)
(** * Positions on the WGS84 ellipsoid (crates/mb-core/src/lib.rs)

    Geodetic and earth-centred coordinates and the distances between positions,
    over any arithmetic. *)
From S2P Require Import Prelude F64 Num.
Local Open Scope Z_scope.

Record Geodetic (F : Type) := mkGeodetic { lat_deg : F; lon_deg : F; alt_m : F }.
Record Ecef (F : Type) := mkEcef { ex : F; ey : F; ez : F }.
Arguments mkGeodetic {F} _ _ _.
Arguments lat_deg {F} _.
Arguments lon_deg {F} _.
Arguments alt_m {F} _.
Arguments mkEcef {F} _ _ _.
Arguments ex {F} _.
Arguments ey {F} _.
Arguments ez {F} _.

(** [SimNanos(pub u64)]. *)
Definition from_secs_f64 (s : f64) : Z := as_u64 (fround (s * of_Z 1000000000)%f64).
Definition nanos_as_secs_f64 (t : Z) : f64 := (of_Z t / of_Z 1000000000)%f64.

Section Code.
Context `{Num F, Elem F}.
Local Open Scope num_scope.

(** [x.to_radians()] and [x.to_degrees()]. *)
Definition to_rad (x : F) : F := x * (npi / #180).
Definition to_deg (x : F) : F := x * (#180 / npi).

Definition C_MPS : F := #299792458.
Definition WGS84_A : F := #6378137.
Definition WGS84_F : F := #1 / nlit 298257223563 1000000000.
Definition WGS84_E2 : F := WGS84_F * (#2 - WGS84_F).

Definition to_ecef (g : Geodetic F) : Ecef F :=
  let lat := to_rad (lat_deg g) in
  let lon := to_rad (lon_deg g) in
  let '(sin_lat, cos_lat) := (esin lat, ecos lat) in
  let '(sin_lon, cos_lon) := (esin lon, ecos lon) in
  let n := WGS84_A / nsqrt (#1 - WGS84_E2 * sin_lat * sin_lat) in
  {| ex := (n + alt_m g) * cos_lat * cos_lon;
     ey := (n + alt_m g) * cos_lat * sin_lon;
     ez := (n * (#1 - WGS84_E2) + alt_m g) * sin_lat |}.

(** Euclidean distance, [dist] of the server and the body of [slant_range_m]. *)
Definition dist (a b : Ecef F) : F :=
  nsqrt (epowi (ex a - ex b) 2 + epowi (ey a - ey b) 2 + epowi (ez a - ez b) 2).

Definition slant_range_m (self other : Geodetic F) : F :=
  let a := to_ecef self in
  let b := to_ecef other in
  dist a b.

Definition haversine_m (self other : Geodetic F) : F :=
  let R := nlit 63710008 10 in
  let lat1 := to_rad (lat_deg self) in
  let lat2 := to_rad (lat_deg other) in
  let dlat := lat2 - lat1 in
  let dlon := to_rad (lon_deg other - lon_deg self) in
  let a := epowi (esin (dlat / #2)) 2 + ecos lat1 * ecos lat2 * epowi (esin (dlon / #2)) 2 in
  #2 * R * easin (nsqrt a).

Definition to_geodetic (e : Ecef F) : Geodetic F :=
  let b := WGS84_A * (#1 - WGS84_F) in
  let ep2 := (WGS84_A * WGS84_A - b * b) / (b * b) in
  let p := nsqrt (ex e * ex e + ey e * ey e) in
  let theta := eatan2 (ez e * WGS84_A) (p * b) in
  let '(sin_t, cos_t) := (esin theta, ecos theta) in
  let lat := eatan2 (ez e + ep2 * b * epowi sin_t 3) (p - WGS84_E2 * WGS84_A * epowi cos_t 3) in
  let lon := eatan2 (ey e) (ex e) in
  let sin_lat := esin lat in
  let n := WGS84_A / nsqrt (#1 - WGS84_E2 * sin_lat * sin_lat) in
  let alt := if nlit 1 1000000000000 <? nabs (ecos lat) then p / ecos lat - n else nabs (ez e) - b in
  {| lat_deg := to_deg lat; lon_deg := to_deg lon; alt_m := alt |}.
End Code.

(** ** Over the reals *)
Section Exact.
Local Open Scope R_scope.

Lemma wgs84_e2_range : 0 < (WGS84_E2 : R) < 1.
Proof. unfold WGS84_E2, WGS84_F. simpl. lra. Qed.

(** The semi-minor axis. *)
Definition minor : R := WGS84_A * (1 - WGS84_F).
Lemma minor_sq : minor * minor = WGS84_A * WGS84_A * (1 - WGS84_E2).
Proof. unfold minor, WGS84_E2. simpl. ring. Qed.

Lemma sin_cos_sq x : sin x * sin x + cos x * cos x = 1.
Proof. pose proof (sin2_cos2 x) as E. unfold Rsqr in E. lra. Qed.

(** Over the reals, [to_ecef] puts a position at height [h] at distance [h] along the
    normal from a point of the WGS84 ellipsoid: the foot satisfies the equation of the
    ellipsoid, and the offset is [h] times a unit vector parallel to the gradient there. *)
Theorem to_ecef_height lat lon h :
  exists foot normal : Ecef R,
    (ex foot * ex foot + ey foot * ey foot) / (WGS84_A * WGS84_A) + ez foot * ez foot / (minor * minor) = 1 /\
    ex normal * ex normal + ey normal * ey normal + ez normal * ez normal = 1 /\
    (exists k, ex normal = k * (ex foot / (WGS84_A * WGS84_A)) /\ ey normal = k * (ey foot / (WGS84_A * WGS84_A)) /\
       ez normal = k * (ez foot / (minor * minor))) /\
    to_ecef {| lat_deg := lat; lon_deg := lon; alt_m := h |}
    = {| ex := ex foot + h * ex normal; ey := ey foot + h * ey normal; ez := ez foot + h * ez normal |}.
Proof.
  set (A := (WGS84_A : R)). set (e := (WGS84_E2 : R)).
  set (sl := sin (to_rad lat)). set (cl := cos (to_rad lat)).
  set (so := sin (to_rad lon)). set (co := cos (to_rad lon)).
  pose proof (sin_cos_sq (to_rad lat)) as H1. pose proof (sin_cos_sq (to_rad lon)) as H2.
  fold sl cl in H1. fold so co in H2.
  pose proof wgs84_e2_range as He. fold e in He.
  assert (0 < 1 - e * sl * sl) as Hd by nra.
  set (q := sqrt (1 - e * sl * sl)).
  assert (0 < q /\ q * q = 1 - e * sl * sl) as [Hq Hqq]
    by (split; [by apply sqrt_lt_R0|by apply sqrt_sqrt, Rlt_le]).
  assert (0 < A) as HA by (unfold A, WGS84_A; simpl; lra).
  exists {| ex := A / q * cl * co; ey := A / q * cl * so; ez := A / q * (1 - e) * sl |}.
  exists {| ex := cl * co; ey := cl * so; ez := sl |}. cbn [ex ey ez].
  rewrite minor_sq. fold A e. split_and!.
  - assert (co * co = 1 - so * so) as Hco by lra. assert (cl * cl = 1 - sl * sl) as Hcl by lra.
    transitivity ((cl * cl * (co * co + so * so) + (1 - e) * (sl * sl)) / (q * q)); [field; lra|].
    rewrite Hco, Hcl, Hqq. field. lra.
  - transitivity (cl * cl * (so * so + co * co) + sl * sl); [ring|]. rewrite H2. lra.
  - exists (q * A). split_and!; field; lra.
  - unfold to_ecef. cbn [lat_deg lon_deg alt_m]. real_ops. fold q.
    f_equal; fold A e sl cl so co q; unfold A, sl, cl, so, co, e; field; exact (Rgt_not_eq _ _ Hq).
Qed.

(** The slant range is a distance: symmetric, and zero from a position to itself. *)
Lemma dist_sym (a b : Ecef R) : dist a b = dist b a.
Proof. unfold dist. simpl. f_equal. ring. Qed.
Lemma slant_range_sym (a b : Geodetic R) : slant_range_m a b = slant_range_m b a.
Proof. apply dist_sym. Qed.
Lemma dist_refl (a : Ecef R) : dist a a = 0.
Proof. unfold dist. simpl. rewrite !Rminus_diag. rewrite !Rmult_0_l, !Rplus_0_l. apply sqrt_0. Qed.
End Exact.
