(* ===== verification/ClockSync.v ===== *)
(** * Pairwise clock synchronization (crates/mlatd/src/clocksync.rs)

    One model per ordered pair of receivers: decayed centred moments of the
    observations accepted by an online gate.  Over the reals the model is the
    summary of the accepted history and its prediction is the weighted
    least-squares line. *)
From S2P Require Import Prelude F64 Num.
Local Open Scope Z_scope.

Section Code.
Context `{Num F, Elem F}.
Local Open Scope num_scope.

Definition LAMBDA : F := nlit 9967 10000.
Definition MIN_WEIGHT : F := #8.
Definition MIN_SPAN_S : F := #5.
Definition GATE_FLOOR_S : F := nlit 1 1000000.
Definition RESET_AFTER_REJECTS : Z := 8.
Definition MAX_PRED_SIGMA_S : F := nlit 2 1000000.

Record PairModel := {
  w : F; ma : F; mb : F; caa : F; cab : F; msq : F; rejects : Z; n_total : Z
}.
Definition PairModel_default : PairModel :=
  {| w := #0; ma := #0; mb := #0; caa := #0; cab := #0; msq := #0; rejects := 0; n_total := 0 |}.

Definition slope (m : PairModel) : F := if caa m >? #0 then cab m / caa m else #1.

Definition predict_unchecked (m : PairModel) (t_from : F) : F * F :=
  let beta := slope m in
  let pred := mb m + beta * (t_from - ma m) in
  let da := t_from - ma m in
  let infl := nsqrt (#1 + #1 / w m + da * da / nmax (caa m) (nlit 1 1000000000000)) in
  (pred, nsqrt (msq m) * infl).

Definition usable (m : PairModel) : bool :=
  (w m >=? MIN_WEIGHT) && (caa m / nmax (w m) (#1) >=? epowi (MIN_SPAN_S / #4) 2).

(** The update of the centred sums. *)
Definition ingest (m : PairModel) (t_from t_to : F) : PairModel :=
  let w' := w m * LAMBDA + #1 in
  let da := t_from - ma m in
  let db := t_to - mb m in
  let k := #1 / w' in
  let ma' := ma m + k * da in
  let mb' := mb m + k * db in
  {| w := w'; ma := ma'; mb := mb';
     caa := caa m * LAMBDA + da * (t_from - ma');
     cab := cab m * LAMBDA + da * (t_to - mb');
     msq := msq m; rejects := rejects m; n_total := u64 (n_total m + 1) |}.

Definition set_gate (m : PairModel) (msq' : F) (rejects' : Z) : PairModel := {|
  w := w m; ma := ma m; mb := mb m; caa := caa m; cab := cab m;
  msq := msq'; rejects := rejects'; n_total := n_total m |}.

Definition push (m : PairModel) (t_from t_to : F) : PairModel * bool :=
  if usable m then
    let '(pred, _) := predict_unchecked m t_from in
    let r := t_to - pred in
    let gate := nmax (#4 * nsqrt (msq m)) GATE_FLOOR_S in
    if nabs r >? gate then
      let m := set_gate m (msq m) (rejects m + 1) in
      (if (RESET_AFTER_REJECTS <=? rejects m)%Z then PairModel_default else m, false)
    else
      let m := set_gate m (msq m + (#1 - LAMBDA) * (r * r - msq m)) 0 in
      (ingest m t_from t_to, true)
  else (ingest m t_from t_to, true).

Definition convert (m : PairModel) (t_from : F) : option (F * F) :=
  if negb (usable m) then None
  else
    let '(pred, sigma) := predict_unchecked m t_from in
    if sigma >? MAX_PRED_SIGMA_S then None else Some (pred, sigma).

Definition status (m : PairModel) : Z * F :=
  let beta := slope m in
  (n_total m, (beta - #1) * #1000000).

(** A run of observations. *)
Definition push_all (m : PairModel) (obs : list (F * F)) : PairModel :=
  fold_left (fun m o => (push m o.1 o.2).1) obs m.

(** ** The gate, in any arithmetic *)

(** The rejection counter stays below the reset threshold, and only a usable model counts. *)
Definition gate_ok (m : PairModel) : Prop :=
  0 <= rejects m < RESET_AFTER_REJECTS /\ (rejects m = 0 \/ usable m = true).

Lemma push_gate_ok m a b : gate_ok m -> gate_ok (push m a b).1.
Proof.
  intros [Hr Hu]. unfold push. destruct (usable m) eqn:E.
  - destruct (predict_unchecked m a) as [pred s]. destruct (nabs _ >? _).
    + cbn [rejects set_gate fst]. destruct (Z.leb_spec RESET_AFTER_REJECTS (rejects m + 1)).
      * split; [done|by left].
      * split; [cbn [rejects set_gate]; lia|by right].
    + split; [done|by left].
  - destruct Hu as [Hu|]; [|done]. split; [done|by left].
Qed.

Lemma push_all_gate_ok m obs : gate_ok m -> gate_ok (push_all m obs).
Proof.
  intros Hm. unfold push_all. apply fold_left_invariant; [done|].
  intros m' o Hm' _. by apply push_gate_ok.
Qed.

(** A rejected observation moves no part of the fit: it is counted, or resets the model. *)
Lemma push_rejected m a b : (push m a b).2 = false ->
  usable m = true /\
  ((push m a b).1 = set_gate m (msq m) (rejects m + 1) /\ rejects m + 1 < RESET_AFTER_REJECTS \/
   (push m a b).1 = PairModel_default /\ RESET_AFTER_REJECTS <= rejects m + 1)%Z.
Proof.
  unfold push. destruct (usable m); [|done]. destruct (predict_unchecked m a) as [pred s].
  destruct (nabs _ >? _); [|done]. intros _. split; [done|]. cbn [rejects set_gate fst].
  destruct (Z.leb_spec RESET_AFTER_REJECTS (rejects m + 1)); [by right|by left].
Qed.
End Code.
Arguments PairModel F : clear implicits.

(** ** Over the reals: the model is the summary of the accepted history *)
Section Exact.
Local Open Scope R_scope.

(** An accepted history, newest observation first, and its decayed sums. *)
Definition history : Type := list (R * R).
Fixpoint wsum (f : R * R -> R) (l : history) : R :=
  match l with
  | [] => 0
  | o :: l => f o + LAMBDA * wsum f l
  end.

Lemma wsum_ext f g l : (forall o, f o = g o) -> wsum f l = wsum g l.
Proof. intros E. induction l; simpl; [done|]. by rewrite IHl, E. Qed.
Lemma wsum_add f g l : wsum (fun o => f o + g o) l = wsum f l + wsum g l.
Proof. induction l as [|o l IH]; simpl; [lra|]. rewrite IH. ring. Qed.
Lemma wsum_scale c f l : wsum (fun o => c * f o) l = c * wsum f l.
Proof. induction l as [|o l IH]; simpl; [lra|]. rewrite IH. ring. Qed.

Lemma lambda_range : 0 < (LAMBDA : R) < 1.
Proof. unfold LAMBDA. simpl. lra. Qed.

Lemma wsum_nonneg f l : (forall o, 0 <= f o) -> 0 <= wsum f l.
Proof.
  intros Hf. pose proof lambda_range. induction l as [|o l IH]; simpl; [lra|].
  specialize (Hf o). assert (0 <= LAMBDA * wsum f l) by (apply Rmult_le_pos; lra). lra.
Qed.

(** The model holds the decayed weight, means and central moments of its history. *)
Record fits (m : PairModel R) (l : history) : Prop := {
  fit_w : w m = wsum (fun _ => 1) l;
  fit_ma : w m * ma m = wsum fst l;
  fit_mb : w m * mb m = wsum snd l;
  fit_caa : caa m = wsum (fun o => (o.1 - ma m) * (o.1 - ma m)) l;
  fit_cab : cab m = wsum (fun o => (o.1 - ma m) * (o.2 - mb m)) l
}.

Lemma wsum_central (l : history) (c d : R) :
  wsum (fun o => (o.1 - c) * (o.2 - d)) l
  = wsum (fun o => o.1 * o.2) l - c * wsum snd l - d * wsum fst l + c * d * wsum (fun _ => 1) l.
Proof. induction l as [|o l IH]; simpl; [ring|]. rewrite IH. ring. Qed.
Lemma wsum_central_sq (l : history) (c : R) :
  wsum (fun o => (o.1 - c) * (o.1 - c)) l
  = wsum (fun o => o.1 * o.1) l - 2 * c * wsum fst l + c * c * wsum (fun _ => 1) l.
Proof. induction l as [|o l IH]; simpl; [ring|]. rewrite IH. ring. Qed.

Lemma wsum_weight_nonneg l : 0 <= wsum (fun _ => 1) l.
Proof. apply wsum_nonneg. intros _. lra. Qed.

(** One Welford update with decay adds the observation to the history. *)
Lemma ingest_fits m l a b : fits m l -> fits (ingest m a b) ((a, b) :: l).
Proof.
  intros [Hw Hma Hmb Hcaa Hcab]. pose proof (wsum_weight_nonneg l) as Hpos. rewrite <- Hw in Hpos.
  pose proof lambda_range as Hl.
  rewrite wsum_central_sq in Hcaa. rewrite wsum_central in Hcab.
  assert (0 < w m * LAMBDA + 1) as Hw' by nra.
  rewrite <- Hw, <- Hma in Hcaa. rewrite <- Hw, <- Hma, <- Hmb in Hcab.
  set (L := (LAMBDA : R)) in *.
  split; cbn [ingest w ma mb caa cab]; rewrite ?wsum_central_sq, ?wsum_central; cbn [wsum fst snd];
    rewrite <- ?Hw, <- ?Hma, <- ?Hmb; real_ops; fold L; try (field; lra).
  - replace (wsum (fun o => o.1 * o.1) l) with (caa m + w m * (ma m * ma m)) by (rewrite Hcaa; ring).
    field. lra.
  - replace (wsum (fun o => o.1 * o.2) l) with (cab m + w m * (ma m * mb m)) by (rewrite Hcab; ring).
    field. lra.
Qed.

Lemma fits_default : fits PairModel_default [].
Proof. split; simpl; ring. Qed.
Lemma fits_set_gate m l x y : fits m l -> fits (set_gate m x y) l.
Proof. by intros []. Qed.

(** *** The history an observation leaves, as the gate decides *)
Definition remember (m : PairModel R) (l : history) (o : R * R) : history :=
  if (push m o.1 o.2).2 then o :: l
  else if (RESET_AFTER_REJECTS <=? rejects m + 1)%Z then [] else l.
Fixpoint accepted (m : PairModel R) (l : history) (obs : list (R * R)) : history :=
  match obs with
  | [] => l
  | o :: obs => accepted (push m o.1 o.2).1 (remember m l o) obs
  end.

Lemma push_fits m l o : fits m l -> fits (push m o.1 o.2).1 (remember m l o).
Proof.
  intros Hf. unfold remember, push. destruct o as [a b]. cbn [fst snd].
  destruct (usable m); [|by apply ingest_fits].
  destruct (predict_unchecked m a) as [pred s]. destruct (_ <? _)%num; cbn [snd fst rejects set_gate].
  - destruct (_ <=? _)%Z; [apply fits_default|by apply fits_set_gate].
  - by apply ingest_fits, fits_set_gate.
Qed.

Lemma push_all_fits obs m l : fits m l -> fits (push_all m obs) (accepted m l obs).
Proof.
  revert m l. induction obs as [|o obs IH]; intros m l Hf; [done|].
  cbn [accepted]. unfold push_all. cbn [fold_left]. by apply IH, push_fits.
Qed.

(** Weighted squared error of the line [b = al + be * a] on a history. *)
Definition sq_error (al be : R) (l : history) : R :=
  wsum (fun o => (o.2 - (al + be * o.1)) * (o.2 - (al + be * o.1))) l.

Lemma sq_error_moments al be l :
  sq_error al be l = wsum (fun o => o.2 * o.2) l - 2 * al * wsum snd l
    - 2 * be * wsum (fun o => o.1 * o.2) l + al * al * wsum (fun _ => 1) l
    + 2 * al * be * wsum fst l + be * be * wsum (fun o => o.1 * o.1) l.
Proof. unfold sq_error. induction l as [|o l IH]; simpl; [ring|]. rewrite IH. ring. Qed.

(** The prediction is a line in the from-clock. *)
Definition intercept (m : PairModel R) : R := mb m - slope m * ma m.
Lemma predict_line m t : (predict_unchecked m t).1 = intercept m + slope m * t.
Proof. unfold predict_unchecked, intercept. cbn [fst]. real_ops. ring. Qed.

Lemma fits_least_squares m l al be : fits m l -> 0 < caa m ->
  sq_error (intercept m) (slope m) l <= sq_error al be l.
Proof.
  intros [Hw Hma Hmb Hcaa Hcab] Hpos.
  pose proof (wsum_weight_nonneg l) as Hw0. rewrite <- Hw in Hw0.
  rewrite wsum_central_sq in Hcaa. rewrite wsum_central in Hcab.
  rewrite <- Hw, <- Hma in Hcaa. rewrite <- Hw, <- Hma, <- Hmb in Hcab.
  rewrite !sq_error_moments, <- Hw, <- Hma, <- Hmb.
  assert (slope m = cab m / caa m) as Hs by (unfold slope; simpl; by rewrite (proj2 (Rltb_true _ _) Hpos)).
  unfold intercept. set (be0 := slope m) in *.
  assert (be0 * caa m = cab m) as Hbe by (rewrite Hs; field; lra).
  set (al0 := mb m - be0 * ma m).
  replace (wsum (fun o => o.1 * o.1) l) with (caa m + w m * (ma m * ma m)) by (rewrite Hcaa; ring).
  replace (wsum (fun o => o.1 * o.2) l) with (cab m + w m * (ma m * mb m)) by (rewrite Hcab; ring).
  rewrite <- Hbe.
  assert (0 <= w m * ((al + be * ma m - mb m) * (al + be * ma m - mb m))) as P1
    by (apply Rmult_le_pos; [done|apply Rle_0_sqr]).
  assert (0 <= caa m * ((be - be0) * (be - be0))) as P2
    by (apply Rmult_le_pos; [lra|apply Rle_0_sqr]).
  unfold al0. lra.
Qed.

(** C7: over the reals, after any run of observations from a fresh model, the fields are
    the decayed weight, means and central moments of the accepted history (everything the
    gate let in since the last reset), and once the accepted from-times spread, the
    prediction is the line of least decayed squared error on that history. *)
Theorem pair_model_least_squares (obs : list (R * R)) :
  let m := push_all PairModel_default obs in
  let l := accepted PairModel_default [] obs in
  fits m l /\
  (0 < caa m -> forall al be,
     sq_error (intercept m) (slope m) l <= sq_error al be l) /\
  (forall t, (predict_unchecked m t).1 = intercept m + slope m * t).
Proof.
  intros m l. assert (fits m l) as Hf by (apply push_all_fits, fits_default).
  split; [done|]. split; [|apply predict_line]. intros Hpos al be. by apply fits_least_squares.
Qed.
End Exact.

(** ** The program's arithmetic *)
Section Binary64.
Context `{Elem f64}.

(** In the program's arithmetic, for any sequence of observations, NaN and infinities
    included: the rejection counter stays below eight, a rejected observation leaves the
    fit as it is or (at the eighth in a row) replaces it by the fresh model, and a
    conversion is given only by a usable model whose predicted sigma is not above 2 us. *)
Theorem pair_model_gate (obs : list (f64 * f64)) (a b : f64) :
  let m := push_all PairModel_default obs in
  (0 <= rejects m < RESET_AFTER_REJECTS)%Z /\
  ((push m a b).2 = false ->
     usable m = true /\
     ((push m a b).1 = set_gate m (msq m) (rejects m + 1) \/
      (push m a b).1 = PairModel_default /\ rejects m = 7)) /\
  (forall p s, convert m a = Some (p, s) ->
     usable m = true /\ (p, s) = predict_unchecked m a /\ (s >? MAX_PRED_SIGMA_S)%num = false).
Proof.
  intros m. assert (gate_ok m) as [Hr Hu]
    by (apply push_all_gate_ok; split; [done|by left]).
  split; [done|]. split.
  - intros [? [[? _]|[? ?]]]%push_rejected; (split; [done|]); [by left|right].
    split; [done|]. unfold RESET_AFTER_REJECTS in *. lia.
  - intros p s. unfold convert. destruct (usable m); [|done]. cbn [negb].
    destruct (predict_unchecked m a) as [p' s']. destruct (s' >? MAX_PRED_SIGMA_S)%num eqn:E; [done|].
    intros [= <- <-]. by rewrite E.
Qed.
End Binary64.
