(* ===== verification/Track.v ===== *)
(** * Track smoothing (crates/mlatd/src/track.rs)

    The alpha-beta filter over accepted fixes, over any arithmetic. *)
From S2P Require Import Prelude F64 Num Geo.
Local Open Scope Z_scope.

Section Code.
Context `{Num F}.
Local Open Scope num_scope.

Record TrackFilter := {
  tf_lat : F; tf_lon : F; vlat : F; vlon : F; last_t : F; tf_n : Z
}.

Definition TrackFilter_new (first : Geodetic F) (t : F) : TrackFilter := {|
  tf_lat := lat_deg first; tf_lon := lon_deg first; vlat := #0; vlon := #0; last_t := t; tf_n := 1 |}.

(** The gain of an update. *)
Definition gain (n : Z) (err_est_m : F) : F :=
  let quality := nclamp (#40 / nmax err_est_m (#30)) (nlit 15 100) (nlit 8 10) in
  if (n <? 5)%Z then nmax quality (nlit 1 2) else quality.

Definition update (self : TrackFilter) (fix_ : Geodetic F) (t err_est_m : F) : TrackFilter * Geodetic F :=
  let dt := nclamp (t - last_t self) (#0) (#30) in
  let plat := tf_lat self + vlat self * dt in
  let plon := tf_lon self + vlon self * dt in
  let alpha := gain (tf_n self) err_est_m in
  let beta := alpha * alpha / (#2 - alpha) in
  let rlat := lat_deg fix_ - plat in
  let rlon := lon_deg fix_ - plon in
  let lat := plat + alpha * rlat in
  let lon := plon + alpha * rlon in
  let moving := dt >? nlit 5 100 in
  ({| tf_lat := lat; tf_lon := lon;
      vlat := if moving then vlat self + beta * rlat / dt else vlat self;
      vlon := if moving then vlon self + beta * rlon / dt else vlon self;
      last_t := t; tf_n := u32 (tf_n self + 1) |},
   {| lat_deg := lat; lon_deg := lon; alt_m := alt_m fix_ |}).

(** The predicted position of an update. *)
Definition predicted (self : TrackFilter) (t : F) : F * F :=
  let dt := nclamp (t - last_t self) (#0) (#30) in
  (tf_lat self + vlat self * dt, tf_lon self + vlon self * dt).
End Code.
Arguments TrackFilter F : clear implicits.

(** ** Over the reals *)
Section Exact.
Local Open Scope R_scope.

Lemma gain_range n (err : R) : 15 / 100 <= gain n err <= 8 / 10 /\ ((n < 5)%Z -> 1 / 2 <= gain n err).
Proof.
  unfold gain, nclamp. real_ops. change (nlit 15 100) with (15 / 100). change (nlit 8 10) with (8 / 10).
  change (nlit 1 2) with (1 / 2). set (q := 40 / Rmax err 30).
  set (c := if Rltb q (15 / 100) then 15 / 100 else if Rltb (8 / 10) q then 8 / 10 else q).
  assert (15 / 100 <= c <= 8 / 10) as Hc
    by (unfold c; destruct (Rltb_spec q (15 / 100)), (Rltb_spec (8 / 10) q); lra).
  destruct (Z.ltb_spec n 5).
  - unfold Rmax. destruct (Rle_dec c (1 / 2)); split; lra.
  - split; [done|lia].
Qed.

(** Over the reals an update moves the predicted position toward the fix by a fraction
    between 0.15 and 0.8 (at least one half while the track is younger than five fixes),
    so the smoothed position never leaves the segment from prediction to fix; the velocity
    changes only when more than 50 ms have passed. *)
Theorem track_update_contracts (f : TrackFilter R) (fix_ : Geodetic R) (t err : R) :
  let '(f', p) := update f fix_ t err in
  let '(plat, plon) := predicted f t in
  exists alpha,
    15 / 100 <= alpha <= 8 / 10 /\ ((tf_n f < 5)%Z -> 1 / 2 <= alpha) /\
    lat_deg p = (1 - alpha) * plat + alpha * lat_deg fix_ /\
    lon_deg p = (1 - alpha) * plon + alpha * lon_deg fix_ /\
    tf_lat f' = lat_deg p /\ tf_lon f' = lon_deg p /\ alt_m p = alt_m fix_ /\
    (t - last_t f <= 5 / 100 -> vlat f' = vlat f /\ vlon f' = vlon f).
Proof.
  unfold update, predicted. cbn [lat_deg lon_deg alt_m tf_lat tf_lon vlat vlon].
  exists (gain (tf_n f) err). pose proof (gain_range (tf_n f) err) as [[Hr1 Hr2] Hy].
  split_and!; try done; real_ops; [ring|ring|]. intros Hdt.
  assert (Rltb (nlit 5 100) (nclamp (t - last_t f) 0 30) = false) as ->; [|done].
  apply Rltb_false. unfold nclamp. real_ops. change (nlit 5 100) with (5 / 100).
  destruct (Rltb_spec (t - last_t f) 0); [lra|]. destruct (Rltb_spec 30 (t - last_t f)); lra.
Qed.
End Exact.
