(* ===== verification/Solve.v ===== *)
(** * The multilateration solve (crates/mlatd/src/solve.rs)

    Gauss-Newton on (latitude, longitude, transmit time) at a known altitude,
    with Cramer's rule, a covariance estimate and a leave-one-out retry, over
    any arithmetic. *)
From S2P Require Import Prelude F64 Num Geo.
Local Open Scope Z_scope.

Section Code.
Context `{Num F, Elem F}.
Local Open Scope num_scope.

Record Observation := { ob_rx : Ecef F; t_s : F; err_s : F }.
Record Solution := {
  sol_pos : Geodetic F; rms_s : F; err_est_m : F; iterations : nat; t_tx : F; residuals_s : list F
}.

Definition MAX_ITER : nat := 15.
Definition MAX_RMS_S : F := nlit 3 1000000.

(** [[f64; 3]] and [[[f64; 3]; 3]]. *)
Definition V3 : Type := F * F * F.
Definition M3 : Type := V3 * V3 * V3.
Definition v3 (k : nat) (v : V3) : F :=
  let '(x, y, z) := v in match k with O => x | S O => y | _ => z end.

Definition det3 (m : M3) : F :=
  let '((m00, m01, m02), (m10, m11, m12), (m20, m21, m22)) := m in
  m00 * (m11 * m22 - m12 * m21) - m01 * (m10 * m22 - m12 * m20) + m02 * (m10 * m21 - m11 * m20).

(** [m[row][k] = b[row]] for every row. *)
Definition set_col (m : M3) (k : nat) (b : V3) : M3 :=
  let set (r : V3) (x : F) := let '(r0, r1, r2) := r in
    match k with O => (x, r1, r2) | S O => (r0, x, r2) | _ => (r0, r1, x) end in
  let '(m0, m1, m2) := m in
  (set m0 (v3 0 b), set m1 (v3 1 b), set m2 (v3 2 b)).

(** Cramer's rule. *)
Definition solve3 (a : M3) (b : V3) : option V3 :=
  let det := det3 a in
  if nabs det <? nlit 1 1000000000000000000000000000000 then None
  else
    let out k := det3 (set_col a k b) / det in
    Some (out 0%nat, out 1%nat, out 2%nat).

Definition unit3 (k : nat) : V3 :=
  match k with O => (#1, #0, #0) | S O => (#0, #1, #0) | _ => (#0, #0, #1) end.

(** The columns of the inverse, stored by column index. *)
Definition invert3 (a : M3) : option M3 :=
  c0 ← solve3 a (unit3 0);
  c1 ← solve3 a (unit3 1);
  c2 ← solve3 a (unit3 2);
  let row r := (v3 r c0, v3 r c1, v3 r c2) in
  Some (row 0%nat, row 1%nat, row 2%nat).

Definition residuals (obs : list Observation) (lat lon alt_m t_tx : F) : list F :=
  let p := to_ecef {| lat_deg := lat; lon_deg := lon; alt_m := alt_m |} in
  (fun o =>
    let d := nsqrt (epowi (ex p - ex (ob_rx o)) 2 + epowi (ey p - ey (ob_rx o)) 2
                    + epowi (ez p - ez (ob_rx o)) 2) in
    (t_tx + d / C_MPS) - t_s o) <$> obs.

Definition residuals_w (obs : list Observation) (lat lon alt_m t_tx : F) : list F :=
  zip_with (fun r o => r / nmax (err_s o) (nlit 1 1000000000)) (residuals obs lat lon alt_m t_tx) obs.

Definition sum (l : list F) : F := fold_left nadd l (#0).
Definition sum_sq (l : list F) : F := sum ((fun x => x * x) <$> l).

(** Numeric Jacobian rows, [(jl[i] - r[i]) / dlat] and so on. *)
Definition dlat_step : F := nlit 1 100000.
Definition dlon_step (lat : F) : F := nlit 1 100000 / nmax (ecos (to_rad lat)) (nlit 2 10).
Definition dt_step : F := nlit 1 10000000.
Definition jacobian (obs : list Observation) (lat lon alt_m t_tx : F) : list V3 :=
  let r := residuals_w obs lat lon alt_m t_tx in
  let dlat := dlat_step in
  let dlon := dlon_step lat in
  let dt := dt_step in
  let jl := residuals_w obs (lat + dlat) lon alt_m t_tx in
  let jo := residuals_w obs lat (lon + dlon) alt_m t_tx in
  let jt := residuals_w obs lat lon alt_m (t_tx + dt) in
  zip_with (fun a '(b, c, r) => ((a - r) / dlat, (b - r) / dlon, (c - r) / dt))
    jl (zip (zip jo jt) r).

Definition zero3 : V3 := (#0, #0, #0).
(** [jtj[a][b] += ji[a] * ji[b]]. *)
Definition add_outer (m : M3) (j : V3) : M3 :=
  let '((m00, m01, m02), (m10, m11, m12), (m20, m21, m22)) := m in
  let '(a, b, c) := j in
  ((m00 + a * a, m01 + a * b, m02 + a * c),
   (m10 + b * a, m11 + b * b, m12 + b * c),
   (m20 + c * a, m21 + c * b, m22 + c * c)).
(** [jtr[a] -= ji[a] * r[i]]. *)
Definition sub_scaled (v : V3) (jr : V3 * F) : V3 :=
  let '(v0, v1, v2) := v in let '((a, b, c), r) := jr in
  (v0 - a * r, v1 - b * r, v2 - c * r).
Definition normal_of (js : list V3) : M3 := fold_left add_outer js (zero3, zero3, zero3).
Definition gradient_of (js : list V3) (r : list F) : V3 := fold_left sub_scaled (zip js r) zero3.

Definition normal_matrix (obs : list Observation) (lat lon alt_m t_tx : F) : M3 :=
  normal_of (jacobian obs lat lon alt_m t_tx).

(** The iteration: the state is (lat, lon, t_tx, rms, iterations done). *)
Record Iter := { it_lat : F; it_lon : F; it_t : F; it_rms : F; it_n : nat }.

Definition gn_step (obs : list Observation) (alt_m : F) (s : Iter) : option (Iter * bool) :=
  let '(lat, lon, t) := (it_lat s, it_lon s, it_t s) in
  let ru := residuals obs lat lon alt_m t in
  let rms := nsqrt (sum_sq ru / #(Z.of_nat (length ru))) in
  let r := residuals_w obs lat lon alt_m t in
  let js := jacobian obs lat lon alt_m t in
  step ← solve3 (normal_of js) (gradient_of js r);
  let sl := nclamp (v3 0 step) (- #1) (#1) in
  let so := nclamp (v3 1 step) (- #1) (#1) in
  let st := nclamp (v3 2 step) (- nlit 1 1000) (nlit 1 1000) in
  let done := (nabs sl <? nlit 1 1000000000) && (nabs so <? nlit 1 1000000000)
              && (nabs st <? nlit 1 1000000000000) in
  Some ({| it_lat := lat + sl; it_lon := lon + so; it_t := t + st; it_rms := rms; it_n := S (it_n s) |}, done).

Fixpoint gn_loop (fuel : nat) (obs : list Observation) (alt_m : F) (s : Iter) : option Iter :=
  match fuel with
  | O => Some s
  | S fuel =>
      '(s, done) ← gn_step obs alt_m s;
      if (done : bool) then Some s else gn_loop fuel obs alt_m s
  end.

(** [fold(f64::INFINITY, f64::min)]: the smallest arrival time. *)
Definition t_min_of (inf : F) (obs : list Observation) : F :=
  fold_left nmin (t_s <$> obs) inf.

Definition error_estimate (obs : list Observation) (s : Iter) (alt_m : F) : option F :=
  let '(lat, lon, t) := (it_lat s, it_lon s, it_t s) in
  let r := residuals_w obs lat lon alt_m t in
  let dof := nmax (#(Z.of_nat (length obs)) - #3) (#1) in
  let sigma2 := sum_sq r / dof in
  let jtj := normal_matrix obs lat lon alt_m t in
  cov ← invert3 jtj;
  let m_per_deg_lat := #111320 in
  let m_per_deg_lon := #111320 * nmax (ecos (to_rad lat)) (nlit 5 100) in
  let '((c00, _, _), (_, c11, _), _) := cov in
  let var_m2 := sigma2 * (c00 * m_per_deg_lat * m_per_deg_lat + c11 * m_per_deg_lon * m_per_deg_lon) in
  Some (nsqrt (nabs var_m2)).

(** [inf] is [f64::INFINITY], the start of the minimum and of [rms]. *)
Definition solve (inf : F) (obs : list Observation) (alt : F) (init : Geodetic F) : option Solution :=
  if (length obs <? 4)%nat then None
  else
    let t_min := t_min_of inf obs in
    let t0 := t_min - #200000 / C_MPS in
    s ← gn_loop MAX_ITER obs alt
      {| it_lat := lat_deg init; it_lon := lon_deg init; it_t := t0; it_rms := inf; it_n := 0 |};
    if negb (nisfinite (it_lat s)) || negb (nisfinite (it_lon s)) || (it_rms s >? MAX_RMS_S) then None
    else
      err ← error_estimate obs s alt;
      Some {| sol_pos := {| lat_deg := it_lat s; lon_deg := it_lon s; alt_m := alt |};
              rms_s := it_rms s; err_est_m := err; iterations := it_n s; t_tx := it_t s;
              residuals_s := residuals obs (it_lat s) (it_lon s) alt (it_t s) |}.

(** The leave-one-out retry, one subset after the other. *)
Definition drop_at (skip : nat) (obs : list Observation) : list Observation := delete skip obs.
Definition keep_best (best : option Solution) (s : option Solution) : option Solution :=
  match s with
  | None => best
  | Some s => match best with
              | None => Some s
              | Some b => if rms_s s <? rms_s b then Some s else best
              end
  end.
Definition solve_robust (inf : F) (obs : list Observation) (alt : F) (init : Geodetic F) : option Solution :=
  let full := solve inf obs alt init in
  let trigger := match full with Some s => rms_s s >? nlit 5 10000000 | None => true end in
  if negb trigger || (length obs <? 5)%nat then full
  else fold_left (fun best skip => keep_best best (solve inf (drop_at skip obs) alt init))
         (seq 0 (length obs)) full.
End Code.
Arguments Observation F : clear implicits.
Arguments Solution F : clear implicits.
Arguments Iter F : clear implicits.

(** ** Cramer's rule, over the reals *)
Section Exact.
Local Open Scope R_scope.

Definition mul3 (m : M3 (F := R)) (v : V3 (F := R)) : V3 :=
  let '((m00, m01, m02), (m10, m11, m12), (m20, m21, m22)) := m in
  let '(x, y, z) := v in
  (m00 * x + m01 * y + m02 * z, m10 * x + m11 * y + m12 * z, m20 * x + m21 * y + m22 * z).
Definition tiny : R := 1 / 1000000000000000000000000000000.

Lemma solve3_cases a b :
  (solve3 a b = None /\ Rabs (det3 a) < tiny) \/
  (tiny <= Rabs (det3 a) /\ det3 a <> 0 /\
   solve3 a b = Some (det3 (set_col a 0 b) / det3 a, det3 (set_col a 1 b) / det3 a,
                      det3 (set_col a 2 b) / det3 a)).
Proof.
  unfold solve3. real_ops. change (nlit 1 1000000000000000000000000000000) with tiny.
  destruct (Rltb_spec (Rabs (det3 a)) tiny) as [Hl|Hl]; [by left|right].
  split; [lra|]. split; [|done]. intros E. rewrite E, Rabs_R0 in Hl. unfold tiny in Hl. lra.
Qed.

(** Over the reals the 3x3 solve is exact: it fails exactly when the determinant is
    below 1e-30 in size, and otherwise returns the one solution of the system. *)
Theorem solve3_correct a b :
  (solve3 a b = None <-> Rabs (det3 a) < tiny) /\
  (forall x, solve3 a b = Some x -> forall y, mul3 a y = b <-> y = x).
Proof.
  destruct (solve3_cases a b) as [[-> Hd]|(Hd & Hn & ->)].
  - split; [done|]. done.
  - split; [split; [done|lra]|]. intros x Hx y. apply (inj Some) in Hx as <-.
    destruct a as [[[[a00 a01] a02] [[a10 a11] a12]] [[a20 a21] a22]], b as [[b0 b1] b2], y as [[y0 y1] y2].
    unfold mul3, set_col, det3, v3 in *. real_ops. split.
    + intros [= <- <- <-]. repeat f_equal; field; done.
    + intros [= -> -> ->]. repeat f_equal; field; done.
Qed.

Definition col3 (m : M3 (F := R)) (k : nat) : V3 (F := R) :=
  let '(r0, r1, r2) := m in (v3 k r0, v3 k r1, v3 k r2).

(** The inverse: each column of [a * inv] is a column of the identity. *)
Lemma invert3_correct a inv : invert3 a = Some inv ->
  forall k, (k < 3)%nat -> mul3 a (col3 inv k) = unit3 k.
Proof.
  unfold invert3. intros Hi.
  destruct (solve3 a (unit3 0)) as [c0|] eqn:E0; [|done]. cbn [mbind option_bind] in Hi.
  destruct (solve3 a (unit3 1)) as [c1|] eqn:E1; [|done]. cbn [mbind option_bind] in Hi.
  destruct (solve3 a (unit3 2)) as [c2|] eqn:E2; [|done]. cbn [mbind option_bind] in Hi.
  apply (inj Some) in Hi as <-.
  assert (forall c k, solve3 a (unit3 k) = Some c -> mul3 a c = unit3 k) as Hs.
  { intros c k E. destruct (solve3_cases a (unit3 k)) as [[E' _]|(_ & Hn & E')]; [congruence|].
    rewrite E' in E. apply (inj Some) in E as <-.
    destruct a as [[[[a00 a01] a02] [[a10 a11] a12]] [[a20 a21] a22]], (unit3 k) as [[b0 b1] b2].
    unfold mul3, set_col, det3, v3 in *. real_ops. repeat f_equal; field; done. }
  intros k Hk. destruct k as [|[|[|k]]]; [..|lia]; cbn [col3 v3].
  - rewrite <- (Hs c0 0%nat E0). by destruct c0 as [[? ?] ?].
  - rewrite <- (Hs c1 1%nat E1). by destruct c1 as [[? ?] ?].
  - rewrite <- (Hs c2 2%nat E2). by destruct c2 as [[? ?] ?].
Qed.

(** *** Exact data is a fixed point of the iteration *)
Definition exact_at (obs : list (Observation R)) (lat lon alt t : R) : Prop :=
  Forall (fun r => r = 0) (residuals obs lat lon alt t).

Lemma residuals_w_zero obs lat lon alt t :
  exact_at obs lat lon alt t -> Forall (fun r => r = 0) (residuals_w obs lat lon alt t).
Proof.
  unfold exact_at, residuals_w. generalize (residuals obs lat lon alt t). intros rs Hr. revert obs.
  induction Hr as [|r rs -> _ IH]; intros [|o obs]; simpl; constructor; [|apply IH].
  unfold Rdiv. apply Rmult_0_l.
Qed.
Lemma gradient_zero js r : Forall (fun x => x = 0) r -> gradient_of js r = (zero3 : V3 (F := R)).
Proof.
  intros Hr. unfold gradient_of. apply (fold_left_invariant (fun v => v = zero3)); [done|].
  intros v [[[a b] c] x] -> Hin. apply elem_of_zip_r in Hin. rewrite list.Forall_forall in Hr.
  rewrite (Hr x Hin). simpl. unfold zero3. real_ops. repeat f_equal; ring.
Qed.
Lemma sum_sq_zero (l : list R) : Forall (fun x => x = 0) l -> sum_sq l = 0.
Proof.
  intros Hl. unfold sum_sq, sum. apply (fold_left_invariant (fun v => v = 0)); [done|].
  intros v x -> (y & -> & Hy)%list_elem_of_fmap. rewrite list.Forall_forall in Hl. rewrite (Hl y Hy).
  simpl. lra.
Qed.

Lemma nclamp_zero c : 0 < c -> nclamp 0 (- c) c = 0.
Proof.
  intros Hc. unfold nclamp. real_ops. destruct (Rltb_spec 0 (- c)); [lra|]. destruct (Rltb_spec c 0); [lra|done].
Qed.

(** Over the reals, when the arrival times are exactly those of a transmission from
    the current iterate, the solve stays there: with a regular normal matrix the step is
    zero, the residual is zero and the loop stops; with a singular one it gives up. *)
Theorem gn_exact_fixpoint obs alt (s : Iter R) fuel :
  exact_at obs (it_lat s) (it_lon s) alt (it_t s) ->
  gn_loop (S fuel) obs alt s
    = if Rltb (Rabs (det3 (normal_of (jacobian obs (it_lat s) (it_lon s) alt (it_t s))))) tiny then None
      else Some {| it_lat := it_lat s; it_lon := it_lon s; it_t := it_t s; it_rms := 0; it_n := S (it_n s) |}.
Proof.
  intros Hex. cbn [gn_loop]. unfold gn_step.
  rewrite (gradient_zero _ _ (residuals_w_zero _ _ _ _ _ Hex)), (sum_sq_zero _ Hex).
  set (m := normal_of _) in *.
  destruct (solve3_cases m zero3) as [[-> Hlt]|(Hge & Hn & ->)];
    [by rewrite (proj2 (Rltb_true _ _) Hlt)|].
  rewrite (proj2 (Rltb_false _ _) Hge).
  assert ((det3 (set_col m 0 zero3) / det3 m, det3 (set_col m 1 zero3) / det3 m,
           det3 (set_col m 2 zero3) / det3 m) = (zero3 : V3 (F := R))) as ->.
  { destruct m as [[[[a00 a01] a02] [[a10 a11] a12]] [[a20 a21] a22]].
    unfold set_col, det3, v3, zero3 in *. real_ops. repeat f_equal; field; done. }
  cbn [mbind option_bind zero3 v3]. real_ops.
  change (nlit 1 1000) with (1 / 1000). change (nlit 1 1000000000) with (1 / 1000000000).
  change (nlit 1 1000000000000) with (1 / 1000000000000).
  rewrite !nclamp_zero by lra. rewrite Rabs_R0.
  assert (Rltb 0 (1 / 1000000000) = true) as -> by (apply Rltb_true; lra).
  assert (Rltb 0 (1 / 1000000000000) = true) as -> by (apply Rltb_true; lra).
  cbn [andb]. rewrite !Rplus_0_r. unfold Rdiv. by rewrite Rmult_0_l, sqrt_0.
Qed.
(** Observations of a transmission at a position and time. *)
Definition observed (rx : Ecef R) (lat lon alt t err : R) : Observation R :=
  {| ob_rx := rx;
     t_s := t + dist (to_ecef {| lat_deg := lat; lon_deg := lon; alt_m := alt |}) rx / C_MPS;
     err_s := err |}.
Lemma observed_exact rxs lat lon alt t err :
  exact_at ((fun rx => observed rx lat lon alt t err) <$> rxs) lat lon alt t.
Proof.
  unfold exact_at, residuals. rewrite <- list_fmap_compose. apply Forall_fmap, Forall_true. intros rx.
  unfold compose, observed. cbn [t_s ob_rx]. apply Rminus_diag.
Qed.

Lemma gn_exact_fixpoint_witness :
  let rx x y := {| ex := x; ey := y; ez := 0 |} in
  let obs := (fun rx => observed rx 47 3 9000 12 (1 / 1000000)) <$> [rx 1 2; rx 5 3; rx 8 1; rx 2 9] in
  let s := {| it_lat := 47; it_lon := 3; it_t := 12; it_rms := 1; it_n := 0 |} in
  gn_loop 15 obs 9000 s
    = if Rltb (Rabs (det3 (normal_of (jacobian obs 47 3 9000 12)))) tiny then None
      else Some {| it_lat := 47; it_lon := 3; it_t := 12; it_rms := 0; it_n := 1 |}.
Proof.
  intros rx obs s. apply (gn_exact_fixpoint obs 9000 s 14). apply observed_exact.
Defined.
End Exact.

(** ** What a solution is, in any arithmetic *)
Section Gates.
Context `{Num F, Elem F} (inf : F).

Lemma gn_step_n obs alt s s' d : gn_step obs alt s = Some (s', d) -> it_n s' = S (it_n s).
Proof.
  unfold gn_step. destruct (solve3 _ _) as [step|]; [|done]. cbn [mbind option_bind].
  by intros [= <- _].
Qed.
Lemma gn_loop_n fuel obs alt s s' : gn_loop fuel obs alt s = Some s' ->
  (it_n s + Nat.min 1 fuel <= it_n s' <= it_n s + fuel)%nat.
Proof.
  revert s. induction fuel as [|fuel IH]; intros s; cbn [gn_loop]; [intros [= <-]; lia|].
  destruct (gn_step obs alt s) as [[s1 d]|] eqn:E; [|done]. cbn [mbind option_bind].
  apply gn_step_n in E. destruct d; [intros [= <-]; lia|]. intros Hl%IH. lia.
Qed.

Lemma residuals_length obs lat lon alt t : length (residuals obs lat lon alt t) = length obs.
Proof. apply length_fmap. Qed.

(** A returned solution passed every gate. *)
Record solution_ok (obs : list (Observation F)) (alt : F) (s : Solution F) : Prop := {
  so_obs : (4 <= length obs)%nat;
  so_lat : nisfinite (lat_deg (sol_pos s)) = true;
  so_lon : nisfinite (lon_deg (sol_pos s)) = true;
  so_alt : alt_m (sol_pos s) = alt;
  so_rms : (rms_s s >? MAX_RMS_S)%num = false;
  so_iter : (1 <= iterations s <= MAX_ITER)%nat;
  so_resid : residuals_s s = residuals obs (lat_deg (sol_pos s)) (lon_deg (sol_pos s)) alt (t_tx s);
  so_regular : exists cov, invert3 (normal_matrix obs (lat_deg (sol_pos s)) (lon_deg (sol_pos s)) alt (t_tx s)) = Some cov
}.

Lemma solve_ok obs alt init s : solve inf obs alt init = Some s -> solution_ok obs alt s.
Proof.
  unfold solve. destruct (Nat.ltb_spec (length obs) 4); [done|].
  destruct (gn_loop _ _ _ _) as [it|] eqn:El; [|done]. cbn [mbind option_bind].
  apply gn_loop_n in El. cbn [it_n] in El.
  destruct (nisfinite (it_lat it)) eqn:E1; [|done]. destruct (nisfinite (it_lon it)) eqn:E2; [|done].
  destruct (_ <? it_rms it)%num eqn:E3; [done|]. cbn [negb orb].
  destruct (error_estimate obs it alt) as [err|] eqn:E4; [|done]. cbn [mbind option_bind].
  intros Hs. apply (inj Some) in Hs as <-. split; cbn [sol_pos lat_deg lon_deg alt_m rms_s iterations residuals_s t_tx];
    try done.
  unfold error_estimate in E4. destruct (invert3 _) as [cov|] eqn:Ei; [by exists cov|done].
Qed.

(** The solutions the retry chooses from. *)
Inductive candidate (obs : list (Observation F)) (alt : F) (init : Geodetic F) (s : Solution F) : Prop :=
| cand_full : solve inf obs alt init = Some s -> candidate obs alt init s
| cand_loo skip : (skip < length obs)%nat -> (5 <= length obs)%nat ->
    solve inf (drop_at skip obs) alt init = Some s -> candidate obs alt init s.

Lemma keep_best_some best s : is_Some best -> is_Some (keep_best best s).
Proof. intros [b ->]. unfold keep_best. destruct s; [destruct (_ <? _)%num|]; by eexists. Qed.

Lemma solve_robust_candidate obs alt init s :
  solve_robust inf obs alt init = Some s -> candidate obs alt init s.
Proof.
  unfold solve_robust. destruct (_ || _) eqn:E; [by apply cand_full|].
  apply orb_false_iff in E as [_ E%Nat.ltb_ge].
  revert s. apply (fold_left_invariant (fun best => forall s, best = Some s -> candidate obs alt init s)).
  - intros s. by apply cand_full.
  - intros best skip Hb Hin s. apply elem_of_seq in Hin. unfold keep_best.
    destruct (solve inf (drop_at skip obs) alt init) as [s1|] eqn:Es; [|apply Hb].
    assert (candidate obs alt init s1) as Hc by (apply (cand_loo _ _ _ _ skip); [lia|done|done]).
    destruct best as [b|]; [destruct (_ <? _)%num|]; try (intros [= <-]; done). apply Hb.
Qed.

Lemma candidate_ok obs alt init s : candidate obs alt init s ->
  exists obs', (obs' = obs \/ (5 <= length obs)%nat /\ exists skip, (skip < length obs)%nat /\ obs' = drop_at skip obs) /\
    solve inf obs' alt init = Some s /\ solution_ok obs' alt s.
Proof.
  intros [Hs|skip Hk Hl Hs]; pose proof (solve_ok _ _ _ _ Hs) as Hok.
  - exists obs. split_and!; [by left|done|done].
  - exists (drop_at skip obs). split_and!; [right; split; [done|by exists skip]|done|done].
Qed.

(** Whatever the arithmetic (NaN included), the robust solve returns either the full
    solve or a solve of all observations but one (then there were at least five); the
    returned fix passed every gate: four observations at least, finite coordinates, the
    requested altitude, an RMS not above 3 us, at most 15 iterations, a regular normal
    matrix, and residuals evaluated at the returned position; it is never lost when the
    full solve succeeds. *)
Theorem solve_robust_sound obs alt init :
  (is_Some (solve inf obs alt init) -> is_Some (solve_robust inf obs alt init)) /\
  (forall s, solve_robust inf obs alt init = Some s ->
     exists obs', (obs' = obs \/ (5 <= length obs)%nat /\ exists skip, (skip < length obs)%nat /\ obs' = drop_at skip obs) /\
       solve inf obs' alt init = Some s /\ solution_ok obs' alt s /\
       length (residuals_s s) = length obs').
Proof.
  split.
  - intros Hs. unfold solve_robust. destruct (_ || _); [done|].
    apply (fold_left_invariant (fun best => is_Some best)); [done|].
    intros best skip Hb _. by apply keep_best_some.
  - intros s (obs' & Hobs & Hs & Hok)%solve_robust_candidate%candidate_ok. exists obs'. split_and!; try done.
    destruct Hok as [_ _ _ _ _ _ -> _]. apply residuals_length.
Qed.
End Gates.
