(* ===== verification/ServerState.v ===== *)
(** * The state of one shard of the server, and its receiver slots (crates/mlatd/src/state.rs)

    The fields of [State] are grouped: the slot table, the clock data, the
    aircraft data and the constants of the process.  What [emit] offers to the
    (lossy) output channel is appended to [emitted].  A call reads the clock
    once, as its argument [now] (nanoseconds).  Indexing is by [!!!] and
    [alter]; the invariant [state_ok] keeps every index used inside its vector,
    so the panic of the code is not a case. *)
From S2P Require Import Prelude F64 Num Text Geo ClockSync Track.
Local Open Scope Z_scope.

Record ReceiverInfo := {
  ri_user : string; ri_geo : Geodetic f64; ri_ecef : Ecef f64;
  ri_freq_hz : f64; ri_gps : bool; ri_jitter_s : f64
}.
#[export] Instance ReceiverInfo_inhabited : Inhabited ReceiverInfo :=
  populate {| ri_user := EmptyString; ri_geo := mkGeodetic fzero fzero fzero;
              ri_ecef := mkEcef fzero fzero fzero; ri_freq_hz := fzero; ri_gps := false;
              ri_jitter_s := fzero |}.

(** A slot and the generation it was issued with. *)
Record RxRef := { rx_idx : nat; rx_gen : Z }.

Record AcTrack := {
  last_pos : option (Geodetic f64); last_time_scaled : f64;
  last_attempt_scaled : f64; speed_rejects : Z
}.
Definition AcTrack_default : AcTrack :=
  {| last_pos := None; last_time_scaled := fzero; last_attempt_scaled := fzero; speed_rejects := 0 |}.

(** (receiver idx, corrected even transmit time, corrected odd transmit time) *)
Record SyncPoint := { sp_created : Z; reporters : list (nat * f64 * f64) }.
(** (receiver idx, arrival time in its clock, output clock at insertion) *)
Record Group := { g_created : Z; g_icao : Z; g_df17 : bool; g_entries : list (nat * f64 * f64) }.

Record RxBias := { bias_s : f64; mad_s : f64; rb_n : Z }.
Definition RxBias_default : RxBias := {| bias_s := fzero; mad_s := fzero; rb_n := 0 |}.
#[export] Instance RxBias_inhabited : Inhabited RxBias := populate RxBias_default.
Definition QUARANTINE_MAD_S : f64 := lit 15 10000000.
Definition QUARANTINE_MIN_N : Z := 30.
Definition quarantined (b : RxBias) : bool :=
  (QUARANTINE_MIN_N <=? rb_n b) && (mad_s b >? QUARANTINE_MAD_S)%f64.

(** A result row, before formatting: the fields the three output lines print. *)
Record OutRow := {
  or_shard : nat; or_pos : Geodetic f64; or_icao : Z; or_stamp : f64;
  or_alt_ft : Z; or_err_m : f64; or_n : nat; or_users : list string;
  or_filtered : option (Geodetic f64)
}.
Inductive OutMsg :=
| Fix (row : OutRow)
| SelfTruth (stamp : f64) (icao : Z) (err err_est : f64) (n : nat).

(** The slot table: parallel vectors, the free list and the users' slots. *)
Record Slots := {
  receivers : list ReceiverInfo; rx_bias : list RxBias; rx_sync : list (f64 * f64);
  gens : list Z; alive : list bool; free_slots : list nat;
  by_user : gmap string nat; reference : option nat
}.
Record Config := {
  shard_id : nat; mlat_adsb : bool; emit_filtered : bool;
  t0_unix : f64; t0_real : Z; time_scale : f64
}.
Record State := {
  cfg : Config; has_out : bool; emitted : list OutMsg;
  slots : Slots;
  pairs : gmap (nat * nat) (PairModel f64);
  stamp_offset : gmap nat f64;
  syncpoints : gmap (string * string) SyncPoint;
  groups : gmap string Group;
  adsb_pos : gmap Z (Geodetic f64 * f64);
  alts_ft : gmap Z Z;
  tracks : gmap Z AcTrack;
  filters : gmap Z (TrackFilter f64);
  stats_solved : Z; stats_rejected : Z; stats_sync_obs : Z
}.

Definition Slots_empty : Slots := {|
  receivers := []; rx_bias := []; rx_sync := []; gens := []; alive := [];
  free_slots := []; by_user := ∅; reference := None |}.
Definition State_new (c : Config) : State := {|
  cfg := c; has_out := false; emitted := []; slots := Slots_empty; pairs := ∅;
  stamp_offset := ∅; syncpoints := ∅; groups := ∅; adsb_pos := ∅; alts_ft := ∅;
  tracks := ∅; filters := ∅; stats_solved := 0; stats_rejected := 0; stats_sync_obs := 0 |}.

(** ** Field updates *)
Definition set_slots (f : Slots -> Slots) (s : State) : State :=
  {| cfg := cfg s; has_out := has_out s; emitted := emitted s; slots := f (slots s);
     pairs := pairs s; stamp_offset := stamp_offset s; syncpoints := syncpoints s;
     groups := groups s; adsb_pos := adsb_pos s; alts_ft := alts_ft s; tracks := tracks s;
     filters := filters s; stats_solved := stats_solved s; stats_rejected := stats_rejected s;
     stats_sync_obs := stats_sync_obs s |}.
Definition set_clock (p : gmap (nat * nat) (PairModel f64)) (o : gmap nat f64) (s : State) : State :=
  {| cfg := cfg s; has_out := has_out s; emitted := emitted s; slots := slots s;
     pairs := p; stamp_offset := o; syncpoints := syncpoints s;
     groups := groups s; adsb_pos := adsb_pos s; alts_ft := alts_ft s; tracks := tracks s;
     filters := filters s; stats_solved := stats_solved s; stats_rejected := stats_rejected s;
     stats_sync_obs := stats_sync_obs s |}.
Definition set_pairs p s := set_clock p (stamp_offset s) s.
Definition set_offsets o s := set_clock (pairs s) o s.
Definition set_events (sp : gmap (string * string) SyncPoint) (g : gmap string Group) (s : State) : State :=
  {| cfg := cfg s; has_out := has_out s; emitted := emitted s; slots := slots s;
     pairs := pairs s; stamp_offset := stamp_offset s; syncpoints := sp;
     groups := g; adsb_pos := adsb_pos s; alts_ft := alts_ft s; tracks := tracks s;
     filters := filters s; stats_solved := stats_solved s; stats_rejected := stats_rejected s;
     stats_sync_obs := stats_sync_obs s |}.
Definition set_syncpoints sp s := set_events sp (groups s) s.
Definition set_groups g s := set_events (syncpoints s) g s.
Definition set_aircraft_data (p : gmap Z (Geodetic f64 * f64)) (al : gmap Z Z) (t : gmap Z AcTrack)
    (f : gmap Z (TrackFilter f64)) (s : State) : State :=
  {| cfg := cfg s; has_out := has_out s; emitted := emitted s; slots := slots s;
     pairs := pairs s; stamp_offset := stamp_offset s; syncpoints := syncpoints s;
     groups := groups s; adsb_pos := p; alts_ft := al; tracks := t;
     filters := f; stats_solved := stats_solved s; stats_rejected := stats_rejected s;
     stats_sync_obs := stats_sync_obs s |}.
Definition set_adsb p s := set_aircraft_data p (alts_ft s) (tracks s) (filters s) s.
Definition set_alts a s := set_aircraft_data (adsb_pos s) a (tracks s) (filters s) s.
Definition set_tracks t s := set_aircraft_data (adsb_pos s) (alts_ft s) t (filters s) s.
Definition set_filters f s := set_aircraft_data (adsb_pos s) (alts_ft s) (tracks s) f s.
Definition set_stats (solved rejected sync : Z) (s : State) : State :=
  {| cfg := cfg s; has_out := has_out s; emitted := emitted s; slots := slots s;
     pairs := pairs s; stamp_offset := stamp_offset s; syncpoints := syncpoints s;
     groups := groups s; adsb_pos := adsb_pos s; alts_ft := alts_ft s; tracks := tracks s;
     filters := filters s; stats_solved := solved; stats_rejected := rejected;
     stats_sync_obs := sync |}.
Definition reject s := set_stats (stats_solved s) (u64 (stats_rejected s + 1)) (stats_sync_obs s) s.
Definition set_output (s : State) : State :=
  {| cfg := cfg s; has_out := true; emitted := emitted s; slots := slots s;
     pairs := pairs s; stamp_offset := stamp_offset s; syncpoints := syncpoints s;
     groups := groups s; adsb_pos := adsb_pos s; alts_ft := alts_ft s; tracks := tracks s;
     filters := filters s; stats_solved := stats_solved s; stats_rejected := stats_rejected s;
     stats_sync_obs := stats_sync_obs s |}.
(** [try_send]: offered to the output channel, which may drop it. *)
Definition emit (msg : OutMsg) (s : State) : State :=
  {| cfg := cfg s; has_out := has_out s;
     emitted := if has_out s then emitted s ++ [msg] else emitted s; slots := slots s;
     pairs := pairs s; stamp_offset := stamp_offset s; syncpoints := syncpoints s;
     groups := groups s; adsb_pos := adsb_pos s; alts_ft := alts_ft s; tracks := tracks s;
     filters := filters s; stats_solved := stats_solved s; stats_rejected := stats_rejected s;
     stats_sync_obs := stats_sync_obs s |}.

(** The output clock. *)
Definition scaled_now (s : State) (now : Z) : f64 :=
  let c := cfg s in
  (t0_unix c + as_secs_f64 (duration_since now (t0_real c)) * time_scale c)%f64.

(** ** Slots *)
Definition live (s : State) (r : RxRef) : bool :=
  let t := slots s in
  (rx_idx r <? length (receivers t))%nat && (alive t !!! rx_idx r) && (gens t !!! rx_idx r =? rx_gen r).

(** [pairs.retain(|(a, b), _| a != rx && b != rx)]. *)
Definition purge (rx : nat) (p : gmap (nat * nat) (PairModel f64)) : gmap (nat * nat) (PairModel f64) :=
  filter (fun kv => kv.1.1 <> rx /\ kv.1.2 <> rx) p.

Definition kill_slot (rx : nat) (t : Slots) : Slots :=
  let u := ri_user (receivers t !!! rx) in {|
  receivers := receivers t; rx_bias := rx_bias t; rx_sync := rx_sync t; gens := gens t;
  alive := <[rx := false]> (alive t); free_slots := rx :: free_slots t;
  by_user := if bool_decide (by_user t !! u = Some rx) then delete u (by_user t) else by_user t;
  reference := reference t |}.

Definition remove_receiver (s : State) (r : RxRef) : State :=
  if negb (live s r) then s
  else
    let rx := rx_idx r in
    set_slots (kill_slot rx) (set_clock (purge rx (pairs s)) (delete rx (stamp_offset s)) s).

(** Slot allocation: the last freed slot, else a new one.  The free list is kept
    with its top first. *)
Definition alloc (info : ReceiverInfo) (t : Slots) : Slots * nat :=
  match free_slots t with
  | i :: free => ({|
      receivers := <[i := info]> (receivers t); rx_bias := <[i := RxBias_default]> (rx_bias t);
      rx_sync := <[i := (fzero, fzero)]> (rx_sync t);
      gens := alter (fun g => u32 (g + 1)) i (gens t); alive := <[i := true]> (alive t);
      free_slots := free; by_user := by_user t; reference := reference t |}, i)
  | [] => ({|
      receivers := receivers t ++ [info]; rx_bias := rx_bias t ++ [RxBias_default];
      rx_sync := rx_sync t ++ [(fzero, fzero)]; gens := gens t ++ [0]; alive := alive t ++ [true];
      free_slots := []; by_user := by_user t; reference := reference t |}, length (receivers t))
  end.

Definition register (user : string) (idx : nat) (gps : bool) (t : Slots) : Slots := {|
  receivers := receivers t; rx_bias := rx_bias t; rx_sync := rx_sync t; gens := gens t;
  alive := alive t; free_slots := free_slots t; by_user := <[user := idx]> (by_user t);
  reference := match reference t with
               | None => Some idx
               | Some r => if gps && negb (ri_gps (receivers t !!! r)) then Some idx else Some r
               end |}.

Definition add_receiver (s : State) (info : ReceiverInfo) : State * RxRef :=
  let s := match by_user (slots s) !! ri_user info with
           | Some old => remove_receiver s {| rx_idx := old; rx_gen := gens (slots s) !!! old |}
           | None => s
           end in
  let '(t, idx) := alloc info (slots s) in
  let t := register (ri_user info) idx (ri_gps info) t in
  (set_slots (fun _ => t) s, {| rx_idx := idx; rx_gen := gens t !!! idx |}).

Definition clock_reset (s : State) (r : RxRef) : State :=
  if negb (live s r) then s else set_pairs (purge (rx_idx r) (pairs s)) s.

Definition live_receivers (s : State) : nat := length (filter (fun a => a = true) (alive (slots s))).

(** The rolling counters decay as they are read. *)
Definition set_rx_sync (f : list (f64 * f64) -> list (f64 * f64)) (t : Slots) : Slots := {|
  receivers := receivers t; rx_bias := rx_bias t; rx_sync := f (rx_sync t); gens := gens t;
  alive := alive t; free_slots := free_slots t; by_user := by_user t; reference := reference t |}.
Definition set_rx_bias (f : list RxBias -> list RxBias) (t : Slots) : Slots := {|
  receivers := receivers t; rx_bias := f (rx_bias t); rx_sync := rx_sync t; gens := gens t;
  alive := alive t; free_slots := free_slots t; by_user := by_user t; reference := reference t |}.

#[export] Instance f64_inhabited : Inhabited f64 := populate fzero.

Definition receiver_stats (s : State) (r : RxRef) : State * option (nat * f64 * bool) :=
  if negb (live s r) then (s, None)
  else
    let rx := rx_idx r in
    let t := slots s in
    let peers := size (filter (fun k => k.1 = rx /\ alive t !!! k.2 = true) (dom (pairs s))) in
    let '(acc, rej) := rx_sync t !!! rx in
    let outlier_percent :=
      if (acc + rej >? of_Z 0)%f64 then (of_Z 100 * rej / (acc + rej))%f64 else of_Z 0 in
    let quarter := lit 1 4 in
    (set_slots (set_rx_sync (<[rx := (acc * quarter, rej * quarter)%f64]>)) s,
     Some (peers, outlier_percent, quarantined (rx_bias t !!! rx))).

(** ** The slot table *)
(** The vectors are parallel, the free list holds each dead slot once, and every user
    of a live slot owns exactly that slot. *)
Record slots_ok (t : Slots) : Prop := {
  so_bias : length (rx_bias t) = length (receivers t);
  so_sync : length (rx_sync t) = length (receivers t);
  so_gens : length (gens t) = length (receivers t);
  so_alive : length (alive t) = length (receivers t);
  so_nodup : NoDup (free_slots t);
  so_free i : i ∈ free_slots t <-> alive t !! i = Some false;
  so_user u i : by_user t !! u = Some i <-> alive t !! i = Some true /\ ri_user (receivers t !!! i) = u;
  so_ref r : reference t = Some r -> (r < length (receivers t))%nat;
  so_range i g : gens t !! i = Some g -> 0 <= g < 2 ^ 32
}.

Lemma alive_bool t i : alive t !! i = Some (alive t !!! i) \/ alive t !! i = None.
Proof. destruct (alive t !! i) eqn:E; [left|by right]. by rewrite (list_lookup_total_correct _ _ _ E). Qed.

Lemma live_spec s r : slots_ok (slots s) ->
  live s r = true <-> alive (slots s) !! rx_idx r = Some true /\ gens (slots s) !!! rx_idx r = rx_gen r.
Proof.
  intros Hok. unfold live. rewrite !andb_true_iff, Nat.ltb_lt, Z.eqb_eq. split.
  - intros [[Hl Ha] Hg]. split; [|done].
    destruct (alive_bool (slots s) (rx_idx r)) as [->|E]; [by rewrite Ha|].
    apply lookup_ge_None in E. rewrite (so_alive _ Hok) in E. lia.
  - intros [Ha Hg]. pose proof (lookup_lt_Some _ _ _ Ha). rewrite (so_alive _ Hok) in H.
    by rewrite (list_lookup_total_correct _ _ _ Ha).
Qed.

Lemma kill_slot_alive rx t i : (rx < length (alive t))%nat ->
  alive (kill_slot rx t) !! i = if decide (i = rx) then Some false else alive t !! i.
Proof.
  intros Hl. cbn [kill_slot alive]. case_decide as E; [subst; by apply list_lookup_insert_eq|].
  by rewrite list_lookup_insert_ne by done.
Qed.

Lemma kill_slot_ok rx t : slots_ok t -> alive t !! rx = Some true -> slots_ok (kill_slot rx t).
Proof.
  intros Hok Ha. pose proof (lookup_lt_Some _ _ _ Ha) as Hl.
  assert (rx ∉ free_slots t) as Hf by (intros H%(so_free _ Hok); congruence).
  assert (by_user t !! ri_user (receivers t !!! rx) = Some rx) as Hu by by apply (so_user _ Hok).
  split; try apply Hok.
  - cbn [kill_slot alive receivers]. rewrite length_insert. apply Hok.
  - cbn [kill_slot free_slots]. constructor; [done|apply Hok].
  - intros i. rewrite kill_slot_alive by done. cbn [kill_slot free_slots].
    rewrite elem_of_cons, (so_free _ Hok). case_decide; naive_solver.
  - intros u i. rewrite kill_slot_alive by done. cbn [kill_slot by_user receivers].
    rewrite bool_decide_true by done. case_decide as E.
    + subst i. split; [|by intros [? _]]. intros [Hne H]%lookup_delete_Some.
      apply (so_user _ Hok) in H as [_ H]. by destruct (Hne H).
    + rewrite lookup_delete_Some, (so_user _ Hok). split; [tauto|]. intros [H1 H2]. split; [|done].
      intros Hne. assert (by_user t !! u = Some i) as H3 by (by apply (so_user _ Hok)).
      rewrite <- Hne, Hu in H3. congruence.
Qed.

Lemma alloc_alive info t i : slots_ok t ->
  alive (alloc info t).1 !! i = if decide (i = (alloc info t).2) then Some true else alive t !! i.
Proof.
  intros Hok. unfold alloc. destruct (free_slots t) as [|f free] eqn:Ef; cbn [fst snd alive].
  - rewrite <- (so_alive _ Hok). case_decide as E; [by subst; rewrite list_lookup_middle|].
    destruct (decide (i < length (alive t))%nat); [by rewrite lookup_app_l|].
    rewrite !lookup_ge_None_2; [done|lia|]. rewrite length_app. simpl. lia.
  - assert (f ∈ free_slots t) as Hf%(so_free _ Hok) by (rewrite Ef; by left).
    pose proof (lookup_lt_Some _ _ _ Hf).
    case_decide as E; [subst; by apply list_lookup_insert_eq|by rewrite list_lookup_insert_ne].
Qed.

(** A new slot is past the end, a reused one is dead. *)
Lemma alloc_idx info t : slots_ok t ->
  let i := (alloc info t).2 in
  (i = length (receivers t) /\ free_slots t = [] \/ alive t !! i = Some false) /\ alive t !! i <> Some true.
Proof.
  intros Hok. unfold alloc. destruct (free_slots t) as [|f free] eqn:Ef; cbn [fst snd].
  - split; [by left|]. rewrite <- (so_alive _ Hok), lookup_ge_None_2; [done|lia].
  - assert (f ∈ free_slots t) as Hf%(so_free _ Hok) by (rewrite Ef; by left).
    split; [by right|]. by rewrite Hf.
Qed.

Lemma alloc_lengths info t : slots_ok t ->
  let t' := (alloc info t).1 in let n := length (receivers t') in
  (length (receivers t) <= n)%nat /\ ((alloc info t).2 < n)%nat /\
  length (rx_bias t') = n /\ length (rx_sync t') = n /\ length (gens t') = n /\ length (alive t') = n.
Proof.
  intros Hok. destruct (alloc_idx info t Hok) as [Hi _]. revert Hi. unfold alloc.
  destruct (free_slots t) as [|f free]; cbn [fst snd receivers rx_bias rx_sync gens alive]; intros Hi.
  - rewrite !length_app, (so_bias _ Hok), (so_sync _ Hok), (so_gens _ Hok), (so_alive _ Hok). simpl. lia.
  - rewrite !length_insert, length_alter, (so_bias _ Hok), (so_sync _ Hok), (so_gens _ Hok), (so_alive _ Hok).
    destruct Hi as [[_ ?]|Hi%lookup_lt_Some]; [done|]. rewrite (so_alive _ Hok) in Hi. lia.
Qed.

Lemma alloc_receivers info t i : slots_ok t ->
  receivers (alloc info t).1 !! i = if decide (i = (alloc info t).2) then Some info else receivers t !! i.
Proof.
  intros Hok. destruct (alloc_idx info t Hok) as [Hi _]. revert Hi.
  unfold alloc. destruct (free_slots t) as [|f free] eqn:Ef; cbn [fst snd receivers].
  - intros _. case_decide as E; [by subst; rewrite list_lookup_middle|].
    destruct (decide (i < length (receivers t))%nat); [by rewrite lookup_app_l|].
    rewrite !lookup_ge_None_2; [done|lia|]. rewrite length_app. simpl. lia.
  - intros [[_ ?]|Hf%lookup_lt_Some]; [done|]. rewrite (so_alive _ Hok) in Hf.
    case_decide as E; [subst; by apply list_lookup_insert_eq|by rewrite list_lookup_insert_ne].
Qed.

Lemma alloc_free info t i : slots_ok t ->
  NoDup (free_slots (alloc info t).1) /\
  (i ∈ free_slots (alloc info t).1 <-> i ∈ free_slots t /\ i <> (alloc info t).2).
Proof.
  intros Hok. pose proof (so_nodup _ Hok) as Hn. unfold alloc.
  destruct (free_slots t) as [|f free] eqn:Ef; cbn [fst snd free_slots].
  - split; [done|]. set_solver.
  - apply list.NoDup_cons in Hn as [Hnf Hn]. split; [done|]. set_solver.
Qed.

Lemma alloc_by_user info t : by_user (alloc info t).1 = by_user t /\ reference (alloc info t).1 = reference t.
Proof. unfold alloc. by destruct (free_slots t). Qed.

(** The generation of a slot after an allocation. *)
Lemma alloc_gens info t i : slots_ok t ->
  gens (alloc info t).1 !! i =
    if decide (i = (alloc info t).2) then Some (match gens t !! i with Some g => u32 (g + 1) | None => 0 end)
    else gens t !! i.
Proof.
  intros Hok. destruct (alloc_idx info t Hok) as [Hi _]. revert Hi.
  unfold alloc. destruct (free_slots t) as [|f free] eqn:Ef; cbn [fst snd gens].
  - intros _. rewrite <- (so_gens _ Hok). case_decide as E.
    + subst. rewrite list_lookup_middle by done. by rewrite lookup_ge_None_2.
    + destruct (decide (i < length (gens t))%nat); [by rewrite lookup_app_l|].
      rewrite !lookup_ge_None_2; [done|lia|]. rewrite length_app. simpl. lia.
  - intros [[_ ?]|Hf%lookup_lt_Some]; [done|]. rewrite (so_alive _ Hok), <- (so_gens _ Hok) in Hf.
    case_decide as E; [subst|by rewrite list_lookup_alter_ne].
    rewrite list_lookup_alter_eq. by destruct (lookup_lt_is_Some_2 _ _ Hf) as [g ->].
Qed.

Lemma alloc_register_ok info t : slots_ok t -> by_user t !! ri_user info = None ->
  let '(t', i) := alloc info t in slots_ok (register (ri_user info) i (ri_gps info) t').
Proof.
  intros Hok Hnew. pose proof (alloc_lengths info t Hok) as (Hn & Hi & Hb & Hs & Hg & Ha).
  pose proof (alloc_idx info t Hok) as [_ Hdead]. pose proof (alloc_by_user info t) as [Hbu Hrf].
  pose proof (fun j => alloc_free info t j Hok) as Hf. pose proof (fun j => alloc_alive info t j Hok) as Hal.
  pose proof (fun j => alloc_receivers info t j Hok) as Hrc. pose proof (fun j => alloc_gens info t j Hok) as Hge.
  destruct (alloc info t) as [t' i]. cbn [fst snd] in *. split; cbn [register rx_bias receivers rx_sync gens alive free_slots by_user reference]; try done.
  - apply (Hf 0%nat).
  - intros j. rewrite Hal, (proj2 (Hf j)), (so_free _ Hok). case_decide; naive_solver.
  - intros u j. rewrite Hal, Hbu, list_lookup_total_alt, Hrc. case_decide as E.
    + subst j. cbn [default from_option]. rewrite lookup_insert_Some, (so_user _ Hok). naive_solver.
    + rewrite <- list_lookup_total_alt, <- (so_user _ Hok), lookup_insert_Some.
      split; [naive_solver|]. intros Hj. right. split; [|done]. intros <-. congruence.
  - rewrite Hrf. intros r. destruct (reference t) as [r0|] eqn:E; [|by intros [= <-]].
    pose proof (so_ref _ Hok _ E). destruct (_ && _); intros [= <-]; lia.
  - intros j g. rewrite Hge. case_decide; [|apply (so_range _ Hok)].
    intros [= <-]. destruct (gens t !! j); [by apply wrap_range|done].
Qed.

(** What no message but a (de)registration changes of the slots. *)
Record same_slots (s s' : State) : Prop := {
  ss_alive : alive (slots s') = alive (slots s);
  ss_receivers : receivers (slots s') = receivers (slots s);
  ss_gens : gens (slots s') = gens (slots s)
}.
Lemma same_slots_refl s : same_slots s s.
Proof. done. Qed.
Lemma same_slots_trans s1 s2 s3 : same_slots s1 s2 -> same_slots s2 s3 -> same_slots s1 s3.
Proof. intros [] []. split; congruence. Qed.
Lemma same_slots_live s s' r : same_slots s s' -> live s' r = live s r.
Proof. intros [Ha Hr Hg]. unfold live. by rewrite Ha, Hr, Hg. Qed.

(** ** The state invariant *)
Section Invariant.
Context `{Elem f64}.

Definition is_alive (s : State) (i : nat) : Prop := alive (slots s) !! i = Some true.
#[export] Instance is_alive_dec s i : Decision (is_alive s i).
Proof. unfold is_alive. apply _. Defined.
Definition slot_count (s : State) : nat := length (receivers (slots s)).

(** Pair models join distinct live receivers, in both directions; clock offsets belong to
    live receivers; queued events name existing slots. *)
Record state_ok (s : State) : Prop := {
  st_slots : slots_ok (slots s);
  st_pairs a b m : pairs s !! (a, b) = Some m ->
    a <> b /\ is_alive s a /\ is_alive s b /\ is_Some (pairs s !! (b, a)) /\ gate_ok m;
  st_offset i : is_Some (stamp_offset s !! i) -> is_alive s i;
  st_sync k sp : syncpoints s !! k = Some sp ->
    (length (reporters sp) <= 15)%nat /\ Forall (fun e => e.1.1 < slot_count s)%nat (reporters sp);
  st_groups k g : groups s !! k = Some g -> Forall (fun e => e.1.1 < slot_count s)%nat (g_entries g);
  st_tracks a t : tracks s !! a = Some t -> 0 <= speed_rejects t < 5
}.

Lemma state_new_ok c : state_ok (State_new c).
Proof.
  split; try done.
  - split; try done.
    + constructor.
    + intros i. cbn. rewrite lookup_nil. set_solver.
    + intros u i. cbn. by rewrite lookup_nil, lookup_empty; split; [|intros []].
  - by intros i [? ?].
Qed.

Lemma set_alts_ok al s : state_ok s -> state_ok (set_alts al s).
Proof. by intros []. Qed.
Lemma set_output_ok s : state_ok s -> state_ok (set_output s).
Proof. by intros []. Qed.

Lemma is_alive_lt s i : state_ok s -> is_alive s i -> (i < slot_count s)%nat.
Proof. intros Hok Ha. unfold slot_count. rewrite <- (so_alive _ (st_slots _ Hok)). by eapply lookup_lt_Some. Qed.

Lemma live_alive s r : state_ok s -> live s r = true -> is_alive s (rx_idx r).
Proof. intros Hok Hl. by apply live_spec in Hl as [? _]; [|apply Hok]. Qed.

Lemma purge_lookup rx p a b m :
  purge rx p !! (a, b) = Some m <-> p !! (a, b) = Some m /\ a <> rx /\ b <> rx.
Proof. unfold purge. by rewrite map_lookup_filter_Some. Qed.

(** *** Removal: the slot dies and every clock datum of the receiver is gone *)
Lemma remove_receiver_alive s r i : state_ok s -> live s r = true ->
  is_alive (remove_receiver s r) i <-> is_alive s i /\ i <> rx_idx r.
Proof.
  intros Hok Hl. pose proof (live_alive _ _ Hok Hl) as Ha. unfold remove_receiver. rewrite Hl.
  unfold is_alive. cbn [negb set_slots slots set_clock].
  rewrite kill_slot_alive by by eapply lookup_lt_Some. case_decide; naive_solver.
Qed.

Lemma remove_receiver_ok s r : state_ok s -> state_ok (remove_receiver s r).
Proof.
  intros Hok. destruct (live s r) eqn:Hl; [|by unfold remove_receiver; rewrite Hl].
  pose proof (live_alive _ _ Hok Hl) as Ha. pose proof (fun i => remove_receiver_alive s r i Hok Hl) as Hal.
  revert Hal. unfold remove_receiver. rewrite Hl. cbn [negb]. intros Hal. split; cbn [pairs stamp_offset syncpoints groups tracks set_slots set_clock].
  - by apply kill_slot_ok; [apply Hok|].
  - intros a b m [Hm [? ?]]%purge_lookup. pose proof (st_pairs _ Hok _ _ _ Hm) as (? & ? & ? & [m' Hm'] & ?).
    split_and!; [done|by apply Hal|by apply Hal| |done]. exists m'. by apply purge_lookup.
  - intros i [o Ho]. apply lookup_delete_Some in Ho as [? Ho]. apply Hal. split; [|done].
    apply (st_offset _ Hok). by exists o.
  - apply (st_sync _ Hok).
  - apply (st_groups _ Hok).
  - apply (st_tracks _ Hok).
Qed.

Lemma clock_reset_ok s r : state_ok s -> state_ok (clock_reset s r).
Proof.
  intros Hok. unfold clock_reset. destruct (live s r); [|done]. cbn [negb]. split; try apply Hok.
  cbn [set_pairs pairs set_clock].
  intros a b m [Hm [? ?]]%purge_lookup. pose proof (st_pairs _ Hok _ _ _ Hm) as (? & ? & ? & [m' Hm'] & ?).
  split_and!; try done. exists m'. by apply purge_lookup.
Qed.

(** *** Updates of the per-slot statistics *)
Lemma set_rx_ok s (f : list (f64 * f64) -> list (f64 * f64)) (g : list RxBias -> list RxBias) :
  (forall l, length (f l) = length l) -> (forall l, length (g l) = length l) -> state_ok s ->
  state_ok (set_slots (set_rx_sync f) s) /\ state_ok (set_slots (set_rx_bias g) s).
Proof.
  intros Hf Hg [Hsl Hp Ho Hs Hgr Ht]. split.
  - split; try done. destruct Hsl as [? Hsy]. split; try done. cbn [slots set_slots set_rx_sync rx_sync receivers].
    by rewrite Hf.
  - split; try done. destruct Hsl as [Hb]. split; try done. cbn [slots set_slots set_rx_bias rx_bias receivers].
    by rewrite Hg.
Qed.

Lemma receiver_stats_ok s r : state_ok s -> state_ok (receiver_stats s r).1.
Proof.
  intros Hok. unfold receiver_stats. destruct (live s r); [|done]. cbn [negb].
  destruct (rx_sync _ !!! _) as [acc rej]. cbn [fst].
  refine (proj1 (set_rx_ok _ _ (fun l => l) _ (fun _ => eq_refl) Hok)). intros l. apply length_insert.
Qed.

(** *** A new receiver *)
Lemma more_slots_ok s t : slots_ok t -> (slot_count s <= length (receivers t))%nat ->
  (forall i, is_alive s i -> alive t !! i = Some true) -> state_ok s -> state_ok (set_slots (fun _ => t) s).
Proof.
  intros Ht Hn Ha Hok. split; cbn [set_slots pairs stamp_offset syncpoints groups tracks].
  - done.
  - intros a b m Hm. pose proof (st_pairs _ Hok _ _ _ Hm) as (? & ? & ? & ? & ?).
    split_and!; try done; by apply Ha.
  - intros i Hi. by apply Ha, (st_offset _ Hok).
  - intros k sp Hk. destruct (st_sync _ Hok _ _ Hk) as [? Hf]. split; [done|].
    eapply list.Forall_impl; [exact Hf|]. unfold slot_count. cbn [slots set_slots]. intros e He. cbv beta in *. unfold slot_count in *. lia.
  - intros k g Hk. eapply list.Forall_impl; [exact (st_groups _ Hok _ _ Hk)|].
    intros e He. cbv beta in *. unfold slot_count in *. cbn [slots set_slots]. lia.
  - apply (st_tracks _ Hok).
Qed.

(** The state with the user's old slot removed. *)
Definition without_user (s : State) (u : string) : State :=
  match by_user (slots s) !! u with
  | Some old => remove_receiver s {| rx_idx := old; rx_gen := gens (slots s) !!! old |}
  | None => s
  end.

Lemma user_ref_live s u old : state_ok s -> by_user (slots s) !! u = Some old ->
  live s {| rx_idx := old; rx_gen := gens (slots s) !!! old |} = true.
Proof.
  intros Hok Hu. apply (so_user _ (st_slots _ Hok)) in Hu as [Ha _].
  by apply live_spec; [apply Hok|].
Qed.

Lemma without_user_spec s u : state_ok s ->
  state_ok (without_user s u) /\ by_user (slots (without_user s u)) !! u = None /\
  gens (slots (without_user s u)) = gens (slots s) /\ receivers (slots (without_user s u)) = receivers (slots s) /\
  (forall i, is_alive (without_user s u) i <-> is_alive s i /\ by_user (slots s) !! u <> Some i).
Proof.
  intros Hok. unfold without_user. destruct (by_user (slots s) !! u) as [old|] eqn:Hu; [|naive_solver].
  pose proof (user_ref_live _ _ _ Hok Hu) as Hl. pose proof (fun i => remove_receiver_alive s _ i Hok Hl) as Hal.
  assert (state_ok (remove_receiver s {| rx_idx := old; rx_gen := gens (slots s) !!! old |})) as Hok'
    by by apply remove_receiver_ok.
  pose proof (proj1 (so_user _ (st_slots _ Hok) u old) Hu) as [_ Hru].
  revert Hal Hok'. unfold remove_receiver. rewrite Hl. cbn [negb]. intros Hal Hok'. split_and!; try done.
  - cbn [set_slots slots set_clock kill_slot by_user rx_idx receivers]. rewrite Hru, bool_decide_true by done.
    by apply lookup_delete_eq.
  - intros i. rewrite Hal. cbn [rx_idx]. naive_solver.
Qed.

Lemma add_receiver_unfold s info :
  add_receiver s info =
    (let s := without_user s (ri_user info) in
     let '(t, idx) := alloc info (slots s) in
     let t := register (ri_user info) idx (ri_gps info) t in
     (set_slots (fun _ => t) s, {| rx_idx := idx; rx_gen := gens t !!! idx |})).
Proof. done. Qed.

Lemma add_receiver_ok s info : state_ok s -> state_ok (add_receiver s info).1.
Proof.
  intros Hok. rewrite add_receiver_unfold.
  destruct (without_user_spec s (ri_user info) Hok) as (Hok1 & Hu & _). cbv zeta.
  set (s1 := without_user s (ri_user info)) in *.
  pose proof (alloc_register_ok info _ (st_slots _ Hok1) Hu) as Hreg.
  pose proof (alloc_lengths info _ (st_slots _ Hok1)) as [Hn _].
  pose proof (fun j => alloc_alive info _ j (st_slots _ Hok1)) as Hal.
  destruct (alloc info (slots s1)) as [t idx]. cbn [fst snd] in *.
  apply more_slots_ok; [done|done| |done]. intros i Hi. cbn [register alive]. rewrite Hal. by case_decide.
Qed.

Lemma u32_succ_ne g : u32 (g + 1) <> g.
Proof. unfold wrap. change (2 ^ 32) with 4294967296. zlia. Qed.

(** What a registration does to an existing slot: nothing, its death, or its reuse under the
    next generation. *)
Lemma add_receiver_slot s info i : state_ok s -> (i < slot_count s)%nat ->
  let s' := (add_receiver s info).1 in
  (slot_count s <= slot_count s')%nat /\
  (gens (slots s') !!! i = gens (slots s) !!! i /\ (is_alive s' i -> is_alive s i) \/
   gens (slots s') !!! i = u32 (gens (slots s) !!! i + 1)).
Proof.
  intros Hok Hi. rewrite add_receiver_unfold.
  destruct (without_user_spec s (ri_user info) Hok) as (Hok1 & Hu & Hg1 & Hr1 & Hal1). cbv zeta.
  set (s1 := without_user s (ri_user info)) in *. pose proof (st_slots _ Hok1) as Ht.
  pose proof (alloc_lengths info _ Ht) as (Hn & _).
  pose proof (alloc_alive info _ i Ht) as Hal. pose proof (alloc_gens info _ i Ht) as Hg.
  destruct (alloc info (slots s1)) as [t j]. cbn [fst snd] in *.
  unfold slot_count, is_alive in *. cbn [slots set_slots register receivers gens alive]. rewrite Hr1 in Hn. split; [done|].
  rewrite <- (so_gens _ (st_slots _ Hok)) in Hi. destruct (lookup_lt_is_Some_2 _ _ Hi) as [g E].
  rewrite !list_lookup_total_alt, Hg, Hal, Hg1, E. cbn. case_decide; [by right|left]. split; [done|]. apply Hal1.
Qed.

(** What a registration makes of the slots: [r] is live under its next generation with the
    new description, the user's other slot is dead, nothing else changes. *)
Record registered (s : State) (info : ReceiverInfo) (s' : State) (r : RxRef) : Prop := {
  rg_alive i : is_alive s' i <-> i = rx_idx r \/ is_alive s i /\ ri_user (receivers (slots s) !!! i) <> ri_user info;
  rg_gens i : gens (slots s') !! i = if decide (i = rx_idx r) then Some (rx_gen r) else gens (slots s) !! i;
  rg_receivers i : receivers (slots s') !! i = if decide (i = rx_idx r) then Some info else receivers (slots s) !! i;
  rg_gen : rx_gen r = match gens (slots s) !! rx_idx r with Some g => u32 (g + 1) | None => 0 end;
  rg_free : is_alive s (rx_idx r) -> ri_user (receivers (slots s) !!! rx_idx r) = ri_user info;
  rg_pairs a b : is_Some (pairs s' !! (a, b)) -> a <> rx_idx r /\ b <> rx_idx r;
  rg_offset : stamp_offset s' !! rx_idx r = None;
  rg_back old : by_user (slots s) !! ri_user info = Some old -> rx_idx r = old /\ slot_count s' = slot_count s;
  rg_count : (slot_count s <= slot_count s')%nat
}.
Lemma without_user_free s u old : state_ok s -> by_user (slots s) !! u = Some old ->
  exists free, free_slots (slots (without_user s u)) = old :: free.
Proof.
  intros Hok E. unfold without_user. rewrite E. unfold remove_receiver.
  rewrite (user_ref_live _ _ _ Hok E). by eexists.
Qed.
Lemma add_receiver_registered s info : state_ok s ->
  registered s info (add_receiver s info).1 (add_receiver s info).2.
Proof.
  intros Hok. rewrite add_receiver_unfold. pose proof (without_user_free s (ri_user info)) as Hold.
  destruct (without_user_spec s (ri_user info) Hok) as (Hok1 & Hu & Hg1 & Hr1 & Hal1). cbv zeta.
  set (s1 := without_user s (ri_user info)) in *. pose proof (st_slots _ Hok1) as Ht.
  pose proof (alloc_lengths info _ Ht) as (Hn & _). destruct (alloc_idx info _ Ht) as [_ Hdead].
  pose proof (fun j => alloc_alive info _ j Ht) as Hal. pose proof (fun j => alloc_gens info _ j Ht) as Hg.
  pose proof (fun j => alloc_receivers info _ j Ht) as Hrc.
  assert (forall old, by_user (slots s) !! ri_user info = Some old ->
    (alloc info (slots s1)).2 = old /\ length (receivers (alloc info (slots s1)).1) = slot_count s) as Hback.
  { intros old Hu0. destruct (Hold old Hok Hu0) as [free E]. unfold alloc. rewrite E. cbn [fst snd receivers].
    by rewrite length_insert, Hr1. }
  assert (forall i, is_alive s i -> by_user (slots s) !! ri_user info <> Some i <->
    ri_user (receivers (slots s) !!! i) <> ri_user info) as Huser.
  { intros i Hi. rewrite (so_user _ (st_slots _ Hok)). unfold is_alive in Hi. tauto. }
  destruct (alloc info (slots s1)) as [t i]. cbn [fst snd] in *. rewrite Hg1 in Hg. rewrite Hr1 in Hrc, Hn.
  assert (gens t !!! i = match gens (slots s) !! i with Some g => u32 (g + 1) | None => 0 end) as Hgi
    by (by rewrite list_lookup_total_alt, Hg, decide_True).
  split; cbn [slots set_slots register receivers gens alive rx_idx rx_gen pairs stamp_offset].
  - intros j. unfold is_alive at 1. cbn [slots set_slots register alive]. rewrite Hal. case_decide as E; [by split; [left|]|].
    change (alive (slots s1) !! j = Some true) with (is_alive s1 j). rewrite Hal1. naive_solver.
  - intros j. rewrite Hg. case_decide as E; [subst j|done]. by rewrite Hgi.
  - intros j. by rewrite Hrc.
  - done.
  - intros Ha. destruct (decide (ri_user (receivers (slots s) !!! i) = ri_user info)) as [|Hne]; [done|].
    destruct Hdead. apply (Hal1 i). split; [done|]. by apply Huser.
  - intros a b [m Hm]. pose proof (st_pairs _ Hok1 _ _ _ Hm) as (_ & Ha & Hb & _).
    split; intros ->; [by apply Hdead in Ha|by apply Hdead in Hb].
  - destruct (stamp_offset _ !! _) as [o|] eqn:E; [|done]. destruct Hdead. apply (st_offset _ Hok1). by exists o.
  - intros old Ho. by apply Hback.
  - exact Hn.
Qed.

Lemma lookup_total_gens s i : state_ok s -> is_alive s i -> gens (slots s) !! i = Some (gens (slots s) !!! i).
Proof.
  intros Hok Ha. apply list_lookup_lookup_total_lt. rewrite (so_gens _ (st_slots _ Hok)). by apply is_alive_lt.
Qed.
(** Liveness of a reference, by lookups. *)
Lemma live_lookup s r : state_ok s -> live s r = true <-> is_alive s (rx_idx r) /\ gens (slots s) !! rx_idx r = Some (rx_gen r).
Proof.
  intros Hok. rewrite live_spec by apply Hok. fold (is_alive s (rx_idx r)). split; intros [Ha Hg]; (split; [done|]).
  - rewrite lookup_total_gens by done. by f_equal.
  - by apply list_lookup_total_correct.
Qed.
(** Which references a registration leaves valid. *)
Lemma registered_live s info s' r : state_ok s -> state_ok s' -> registered s info s' r ->
  live s' r = true /\ live s r = false /\
  forall r', r' <> r -> live s' r' = true <->
     live s r' = true /\ ri_user (receivers (slots s) !!! rx_idx r') <> ri_user info.
Proof.
  intros Hok Hok' Hr. split_and!.
  - apply live_lookup; [done|]. rewrite (rg_gens _ _ _ _ Hr), decide_True by done. split; [|done]. apply (rg_alive _ _ _ _ Hr). by left.
  - destruct (live s r) eqn:E; [|done]. apply live_lookup in E as [_ E]; [|done].
    pose proof (rg_gen _ _ _ _ Hr) as Hg. rewrite E in Hg. by destruct (u32_succ_ne (rx_gen r)).
  - intros r' Hne. rewrite !live_lookup by done. rewrite (rg_alive _ _ _ _ Hr), (rg_gens _ _ _ _ Hr). case_decide as E.
    + split.
      * intros [_ [= Hg]]. destruct Hne. destruct r, r'. cbn [rx_idx rx_gen] in *. by subst.
      * intros [[Ha _] Hu]. rewrite E in Ha, Hu. destruct Hu. by apply (rg_free _ _ _ _ Hr).
    + naive_solver.
Qed.

(** C17: a new receiver gets a live slot that holds its description and no clock data; its
    reference was not valid before; the slot its user had is dead, so each user has one
    live slot; every other reference is as valid as it was, and a user that reconnects
    takes its slot back instead of a new one. *)
Theorem add_receiver_takes_slot s info : state_ok s ->
  let '(s', r) := add_receiver s info in
  live s' r = true /\ live s r = false /\ receivers (slots s') !!! rx_idx r = info /\
  (forall a b, is_Some (pairs s' !! (a, b)) -> a <> rx_idx r /\ b <> rx_idx r) /\
  stamp_offset s' !! rx_idx r = None /\
  (forall r', r' <> r -> live s' r' = true <->
     live s r' = true /\ ri_user (receivers (slots s) !!! rx_idx r') <> ri_user info) /\
  (forall old, by_user (slots s) !! ri_user info = Some old -> rx_idx r = old /\ slot_count s' = slot_count s).
Proof.
  intros Hok. pose proof (add_receiver_registered s info Hok) as Hr. pose proof (add_receiver_ok s info Hok) as Hok'.
  destruct (add_receiver s info) as [s' r]. cbn [fst snd] in *.
  destruct (registered_live _ _ _ _ Hok Hok' Hr) as (Hl & Hd & Hrest). split_and!; [done|done| | |apply Hr|done|apply Hr].
  - apply list_lookup_total_correct. by rewrite (rg_receivers _ _ _ _ Hr), decide_True.
  - apply (rg_pairs _ _ _ _ Hr).
Qed.
End Invariant.
