(* ===== verification/SyncMlat.v ===== *)
(** * Sync and mlat messages in a shard (crates/mlatd/src/state.rs)

    [on_sync] trains the pair clocks of the receivers that report the same
    even/odd DF17 pair; [on_mlat] groups identical frames.  The argument [now]
    is [Instant::now()] of the call, [at_scaled] the output clock at arrival.
    The [hex] crate and the platform functions are interfaces. *)
From S2P Require Import Prelude F64 Num Text Cpr Frames Proto Geo ClockSync Track ServerState.
Local Open Scope Z_scope.

Section Code.
Context `{Elem f64, Hex}.

(** The event of a sync message: the aircraft, its claimed altitude and (even)
    position, and the transmit times of the two frames in the receiver's clock. *)
Record SyncEvent := {
  se_icao : Z; se_alt : option Z; se_pos : Geodetic f64; se_te : f64; se_to : f64
}.

Definition METRES_PER_FOOT : f64 := lit 3048 10000.

(** Everything [on_sync] checks before it changes the state. *)
Definition sync_event (info : ReceiverInfo) (et ot : f64) (em_hex om_hex : string) : option SyncEvent :=
  em ← hex_decode em_hex;
  om ← hex_decode om_hex;
  de ← parse_df17_airborne em;
  do_ ← parse_df17_airborne om;
  if negb (icao de =? icao do_) || odd de || negb (odd do_) then None
  else
    let even := (cpr_lat de, cpr_lon de) in
    let odd := (cpr_lat do_, cpr_lon do_) in
    pe ← global_decode_airborne even odd false;
    po ← global_decode_airborne even odd true;
    let alt := (of_Z (default 0%Z (alt_ft de)) * METRES_PER_FOOT)%f64 in
    let at_pos (p : f64 * f64) := {| lat_deg := p.1; lon_deg := p.2; alt_m := alt |} in
    let pos_e := to_ecef (at_pos pe) in
    let pos_o := to_ecef (at_pos po) in
    let freq := ri_freq_hz info in
    let rxe := ri_ecef info in
    Some {| se_icao := icao de; se_alt := alt_ft de; se_pos := at_pos pe;
            se_te := (et / freq - dist rxe pos_e / C_MPS)%f64;
            se_to := (ot / freq - dist rxe pos_o / C_MPS)%f64 |}.

(** [self.pairs.entry(k).or_default()]. *)
Definition pair_of (s : State) (k : nat * nat) : PairModel f64 := default PairModel_default (pairs s !! k).

Definition count_sync (ok : bool) (c : f64 * f64) : f64 * f64 :=
  let '(acc, rej) := c in
  if ok then ((acc + of_Z 1)%f64, rej) else (acc, (rej + of_Z 1)%f64).

(** One shared event: both directions of the pair are trained. *)
Definition train_pair (s : State) (a b : nat) (ta tb : f64) : State :=
  let '(m, ok) := push (pair_of s (a, b)) ta tb in
  let s := set_pairs (<[(a, b) := m]> (pairs s)) s in
  let '(m', _) := push (pair_of s (b, a)) tb ta in
  let s := set_pairs (<[(b, a) := m']> (pairs s)) s in
  let s := set_slots (set_rx_sync (alter (count_sync ok) a)) s in
  set_stats (stats_solved s) (stats_rejected s) (u64 (stats_sync_obs s + 1)) s.

Definition train (rx : nat) (te to : f64) (s : State) (other : nat * f64 * f64) : State :=
  let '(rx2, te2, to2) := other in
  if (rx2 =? rx)%nat || negb (alive (slots s) !!! rx2) then s
  else
    let s := train_pair s rx rx2 te te2 in
    train_pair s rx rx2 to to2.

(** The content of an mlat frame: the aircraft and, in a DF4, its altitude. *)
Definition mlat_target (adsb : bool) (m : list Z) : option (Z * option Z) :=
  match df_of m with
  | Some 17 => if negb adsb then None else d ← parse_df17_airborne m; Some (icao d, None)
  | Some 4 => parse_df4 m
  | Some 11 => i ← parse_df11 m; Some (i, None)
  | _ => None
  end.
Definition is_df17 (m : list Z) : bool := match m with b :: _ => Z.shiftr b 3 =? 17 | [] => false end.

Definition set_alt (a : Z) (alt : option Z) (s : State) : State :=
  match alt with Some v => set_alts (<[a := v]> (alts_ft s)) s | None => s end.

Definition on_mlat (s : State) (r : RxRef) (t_counts : f64) (m_hex : string) (at_scaled : f64) (now : Z) : State :=
  if negb (live s r) then s
  else
    let rx := rx_idx r in
    match hex_decode m_hex with
    | None => s
    | Some m =>
        match mlat_target (mlat_adsb (cfg s)) m with
        | None => s
        | Some (a, alt) =>
            let s := set_alt a alt s in
            let t_s := (t_counts / ri_freq_hz (receivers (slots s) !!! rx))%f64 in
            let g := default {| g_created := now; g_icao := a; g_df17 := is_df17 m; g_entries := [] |}
                             (groups s !! m_hex) in
            let g := {| g_created := g_created g; g_icao := g_icao g; g_df17 := g_df17 g;
                        g_entries := g_entries g ++ [(rx, t_s, at_scaled)] |} in
            set_groups (<[m_hex := g]> (groups s)) s
        end
    end.

Definition MAX_REPORTERS : nat := 15.

Definition on_sync (s : State) (r : RxRef) (et ot : f64) (em_hex om_hex : string) (at_scaled : f64) (now : Z) : State :=
  if negb (live s r) then s
  else
    let rx := rx_idx r in
    match sync_event (receivers (slots s) !!! rx) et ot em_hex om_hex with
    | None => s
    | Some ev =>
        let s := set_alt (se_icao ev) (se_alt ev) s in
        let s := set_adsb (<[se_icao ev := (se_pos ev, at_scaled)]> (adsb_pos s)) s in
        let s := if mlat_adsb (cfg s) then on_mlat s r et em_hex at_scaled now else s in
        let key := (em_hex, om_hex) in
        let sp := default {| sp_created := now; reporters := [] |} (syncpoints s !! key) in
        if (MAX_REPORTERS <=? length (reporters sp))%nat
        then set_syncpoints (<[key := sp]> (syncpoints s)) s
        else
          let others := reporters sp in
          let sp := {| sp_created := sp_created sp; reporters := reporters sp ++ [(rx, se_te ev, se_to ev)] |} in
          let s := set_syncpoints (<[key := sp]> (syncpoints s)) s in
          fold_left (train rx (se_te ev) (se_to ev)) others s
    end.
End Code.

(** ** Training, one event and one list of co-reporters *)
Section Training.
Context `{Elem f64, Hex}.

Lemma train_pair_frame s a b ta tb :
  alive (slots (train_pair s a b ta tb)) = alive (slots s) /\
  receivers (slots (train_pair s a b ta tb)) = receivers (slots s) /\
  gens (slots (train_pair s a b ta tb)) = gens (slots s) /\
  syncpoints (train_pair s a b ta tb) = syncpoints s /\ groups (train_pair s a b ta tb) = groups s /\
  tracks (train_pair s a b ta tb) = tracks s /\ stamp_offset (train_pair s a b ta tb) = stamp_offset s.
Proof.
  unfold train_pair. destruct (push _ ta tb) as [m ok]. cbv zeta. by destruct (push _ tb ta) as [m' ok'].
Qed.

(** Both directions take the observation, each its own way round. *)
Lemma train_pair_pairs s a b ta tb k : a <> b ->
  pairs (train_pair s a b ta tb) !! k =
    if decide (k = (a, b)) then Some (push (pair_of s (a, b)) ta tb).1
    else if decide (k = (b, a)) then Some (push (pair_of s (b, a)) tb ta).1
    else pairs s !! k.
Proof.
  intros Hne. unfold train_pair. destruct (push (pair_of s (a, b)) ta tb) as [m ok] eqn:E1. cbv zeta.
  assert (forall p, pair_of (set_pairs (<[(a, b) := p]> (pairs s)) s) (b, a) = pair_of s (b, a)) as Hp.
  { intros p. unfold pair_of. cbn [set_pairs set_clock pairs]. rewrite lookup_insert_ne; [done|].
    intros [= <-]. by destruct Hne. }
  rewrite Hp. destruct (push (pair_of s (b, a)) tb ta) as [m' ok'] eqn:E2.
  cbn [set_stats set_slots set_pairs set_clock pairs fst].
  rewrite lookup_insert. case_decide as D1.
  - subst k. rewrite decide_False; [by rewrite decide_True|]. intros [= ->]. by destruct Hne.
  - rewrite lookup_insert. case_decide as D2; [by subst; rewrite decide_True|].
    by rewrite !decide_False.
Qed.

Lemma train_pair_ok s a b ta tb : a <> b -> is_alive s a -> is_alive s b ->
  state_ok s -> state_ok (train_pair s a b ta tb).
Proof.
  intros Hne Ha Hb Hok. pose proof (fun k => train_pair_pairs s a b ta tb k Hne) as Hp.
  pose proof (train_pair_frame s a b ta tb) as (Hal & Hrc & _ & Hsy & Hgr & Htr & Hof).
  assert (forall k, gate_ok (pair_of s k)) as Hgate.
  { intros [x y]. unfold pair_of. destruct (pairs s !! (x, y)) eqn:E; [by apply (st_pairs _ Hok _ _ _ E)|].
    split; [done|by left]. }
  split.
  - clear Hp. unfold train_pair. destruct (push _ ta tb) as [m ok]. cbv zeta. destruct (push _ tb ta) as [m' ok'].
    cbn [slots set_stats set_slots set_pairs set_clock].
    refine (st_slots (set_slots (set_rx_sync (alter (count_sync ok) a)) s) _).
    refine (proj1 (set_rx_ok _ _ (fun l => l) _ (fun _ => eq_refl) Hok)). intros l. apply length_alter.
  - intros x y m. rewrite !Hp. unfold is_alive. rewrite Hal.
    destruct (decide ((x, y) = (a, b))) as [[= -> ->]|D1].
    + intros [= <-]. split_and!; [done..| |apply push_gate_ok, Hgate].
      rewrite decide_False; [rewrite decide_True by done; by eexists|congruence].
    + destruct (decide ((x, y) = (b, a))) as [[= -> ->]|D2].
      * intros [= <-]. split_and!; [by apply not_eq_sym|done..| |apply push_gate_ok, Hgate].
        rewrite decide_True by done. by eexists.
      * intros Hm. destruct (st_pairs _ Hok _ _ _ Hm) as (? & ? & ? & Hs & ?).
        split_and!; try done. case_decide; [by eexists|]. case_decide; [by eexists|done].
  - intros i. rewrite Hof. unfold is_alive. rewrite Hal. apply (st_offset _ Hok).
  - rewrite Hsy. unfold slot_count. rewrite Hrc. apply (st_sync _ Hok).
  - rewrite Hgr. unfold slot_count. rewrite Hrc. apply (st_groups _ Hok).
  - rewrite Htr. apply (st_tracks _ Hok).
Qed.

Lemma train_pair_same s a b ta tb : same_slots s (train_pair s a b ta tb).
Proof. by destruct (train_pair_frame s a b ta tb) as (? & ? & ? & _). Qed.
Lemma train_same rx te to s o : same_slots s (train rx te to s o).
Proof.
  destruct o as [[rx2 te2] to2]. unfold train. destruct (_ || _); [done|].
  eapply same_slots_trans; apply train_pair_same.
Qed.
Lemma train_all_same rx te to l s : same_slots s (fold_left (train rx te to) l s).
Proof.
  apply fold_left_invariant; [done|]. intros s' o Hs _. eapply same_slots_trans; [done|apply train_same].
Qed.

Lemma train_skip s rx rx2 : (rx2 < slot_count s)%nat -> state_ok s ->
  (rx2 =? rx)%nat || negb (alive (slots s) !!! rx2) = false <-> rx2 <> rx /\ is_alive s rx2.
Proof.
  intros Hlt Hok. unfold slot_count in Hlt. rewrite <- (so_alive _ (st_slots _ Hok)) in Hlt.
  rewrite orb_false_iff, Nat.eqb_neq, negb_false_iff. unfold is_alive.
  destruct (lookup_lt_is_Some_2 _ _ Hlt) as [x E]. rewrite E, (list_lookup_total_correct _ _ _ E).
  split; intros [? ?]; (split; [done|congruence]).
Qed.

Lemma train_ok rx te to s o : is_alive s rx -> (o.1.1 < slot_count s)%nat ->
  state_ok s -> state_ok (train rx te to s o).
Proof.
  intros Ha Hlt Hok. destruct o as [[rx2 te2] to2]. cbn [fst] in Hlt. unfold train.
  destruct (_ || _) eqn:E; [done|]. apply train_skip in E as [Hne Ha2]; [|done..].
  pose proof (train_pair_same s rx rx2 te te2) as [Hs _ _].
  apply train_pair_ok; [done|by unfold is_alive; rewrite Hs..|by apply train_pair_ok].
Qed.

Lemma train_all_ok rx te to l s : is_alive s rx -> Forall (fun e => e.1.1 < slot_count s)%nat l ->
  state_ok s -> state_ok (fold_left (train rx te to) l s).
Proof.
  intros Ha Hl Hok. apply (fold_left_invariant (fun s' => state_ok s' /\ same_slots s s')); [done|].
  intros s' o [Hok' Hs] Ho. split; [|eapply same_slots_trans; [done|apply train_same]].
  rewrite list.Forall_forall in Hl. destruct Hs as [Hal Hrc _].
  apply train_ok; [by unfold is_alive; rewrite Hal| |done].
  unfold slot_count. rewrite Hrc. by apply Hl.
Qed.

(** The observations a report adds to the pair with [b]: the even and the odd times of
    each report of [b], oldest first. *)
Definition shared (b : nat) (te to : f64) (others : list (nat * f64 * f64)) : list (f64 * f64) :=
  mjoin ((fun '(rx2, te2, to2) => if decide (rx2 = b) then [(te, te2); (to, to2)] else []) <$> others).
Definition swap (o : f64 * f64) : f64 * f64 := (o.2, o.1).

Lemma pair_of_train_pair s a b ta tb k : a <> b ->
  pair_of (train_pair s a b ta tb) k =
    if decide (k = (a, b)) then (push (pair_of s (a, b)) ta tb).1
    else if decide (k = (b, a)) then (push (pair_of s (b, a)) tb ta).1
    else pair_of s k.
Proof. intros Hne. unfold pair_of at 1. rewrite train_pair_pairs by done. by repeat case_decide. Qed.

Lemma train_pairs rx te to s o k : is_alive s rx -> (o.1.1 < slot_count s)%nat -> state_ok s ->
  pair_of (train rx te to s o) k =
    if decide (k.1 = rx /\ k.2 <> rx /\ is_alive s k.2) then push_all (pair_of s k) (shared k.2 te to [o])
    else if decide (k.2 = rx /\ k.1 <> rx /\ is_alive s k.1)
         then push_all (pair_of s k) (swap <$> shared k.1 te to [o])
    else pair_of s k.
Proof.
  intros Ha Hlt Hok. destruct o as [[rx2 te2] to2], k as [x y]. cbn [fst snd] in *. unfold train, shared.
  cbn [fmap list_fmap mjoin list_join]. destruct (_ || _) eqn:E.
  - assert (~ (rx2 <> rx /\ is_alive s rx2)) as Hn by (rewrite <- train_skip by done; congruence).
    repeat case_decide; subst; try done; exfalso; tauto.
  - apply train_skip in E as [Hne Ha2]; [|done..]. rewrite !pair_of_train_pair by done.
    rewrite (decide_True (P := (rx, rx2) = (rx, rx2))) by done.
    rewrite (decide_False (P := (rx2, rx) = (rx, rx2))) by congruence.
    rewrite (decide_True (P := (rx2, rx) = (rx2, rx))) by done.
    destruct (decide ((x, y) = (rx, rx2))) as [[= -> ->]|D1].
    { rewrite decide_True by done. by rewrite decide_True by done. }
    destruct (decide ((x, y) = (rx2, rx))) as [[= -> ->]|D2].
    { rewrite decide_False by naive_solver. rewrite decide_True by done. by rewrite decide_True by done. }
    repeat case_decide; subst; try done; naive_solver.
Qed.

(** Training on a list of co-reporters feeds each live pair its shared events, in order. *)
Lemma train_all_pairs rx te to l s k : is_alive s rx -> Forall (fun e => e.1.1 < slot_count s)%nat l -> state_ok s ->
  pair_of (fold_left (train rx te to) l s) k =
    if decide (k.1 = rx /\ k.2 <> rx /\ is_alive s k.2) then push_all (pair_of s k) (shared k.2 te to l)
    else if decide (k.2 = rx /\ k.1 <> rx /\ is_alive s k.1)
         then push_all (pair_of s k) (swap <$> shared k.1 te to l)
    else pair_of s k.
Proof.
  revert s. induction l as [|o l IH]; intros s Ha Hl Hok.
  - cbn. by repeat case_decide.
  - apply Forall_cons_iff in Hl as [Ho Hl]. cbn [fold_left].
    pose proof (train_same rx te to s o) as [Hal Hrc _].
    rewrite IH; [|by unfold is_alive; rewrite Hal|by unfold slot_count; rewrite Hrc|by apply train_ok].
    rewrite train_pairs by done.
    assert (forall i, is_alive (train rx te to s o) i <-> is_alive s i) as Hiff
      by (intros i; unfold is_alive; by rewrite Hal).
    change (o :: l) with ([o] ++ l). unfold shared. rewrite !fmap_app, !join_app, !fmap_app.
    unfold push_all. rewrite !fold_left_app.
    pose proof (Hiff k.1). pose proof (Hiff k.2). repeat case_decide; done || tauto.
Qed.
End Training.

(** ** The two handlers *)
Section Handlers.
Context `{Elem f64, Hex}.

Lemma set_alt_same a alt s : same_slots s (set_alt a alt s).
Proof. by destruct alt. Qed.
Lemma set_alt_clock a alt s :
  pairs (set_alt a alt s) = pairs s /\ syncpoints (set_alt a alt s) = syncpoints s /\
  slots (set_alt a alt s) = slots s /\ cfg (set_alt a alt s) = cfg s.
Proof. by destruct alt. Qed.

Lemma set_alt_ok a alt s : state_ok s -> state_ok (set_alt a alt s).
Proof. intros []. by destruct alt. Qed.
Lemma set_adsb_ok p s : state_ok s -> state_ok (set_adsb p s).
Proof. by intros []. Qed.

Lemma set_syncpoint_ok k sp s : state_ok s -> (length (reporters sp) <= 15)%nat ->
  Forall (fun e => e.1.1 < slot_count s)%nat (reporters sp) ->
  state_ok (set_syncpoints (<[k := sp]> (syncpoints s)) s).
Proof.
  intros Hok Hl Hf. split; try apply Hok. cbn [set_syncpoints set_events syncpoints].
  intros k' sp' [[<- <-]|[? Hk]]%lookup_insert_Some; [done|]. by apply (st_sync _ Hok _ _ Hk).
Qed.

Lemma on_mlat_clock s r t m at_ now :
  let s' := on_mlat s r t m at_ now in
  slots s' = slots s /\ pairs s' = pairs s /\ syncpoints s' = syncpoints s /\ adsb_pos s' = adsb_pos s.
Proof.
  unfold on_mlat. destruct (live s r); [|done]. cbn [negb]. destruct (hex_decode m) as [b|]; [|done].
  destruct (mlat_target _ b) as [[a alt]|]; [|done]. cbv zeta. by destruct alt.
Qed.

Lemma on_mlat_ok s r t m at_ now : state_ok s -> state_ok (on_mlat s r t m at_ now).
Proof.
  intros Hok. unfold on_mlat. destruct (live s r) eqn:Hl; [|done]. cbn [negb].
  destruct (hex_decode m) as [b|]; [|done]. destruct (mlat_target _ b) as [[a alt]|]; [|done]. cbv zeta.
  pose proof (is_alive_lt _ _ Hok (live_alive _ _ Hok Hl)) as Hlt.
  destruct (set_alt_clock a alt s) as (_ & _ & Hsl & _).
  pose proof (set_alt_ok a alt _ Hok) as Hok'. set (s0 := set_alt a alt s) in *.
  split; try apply Hok'. cbn [set_groups set_events groups]. unfold slot_count. cbn [slots set_groups set_events].
  intros k g [[<- <-]|[_ Hk]]%lookup_insert_Some; [|by apply (st_groups _ Hok' _ _ Hk)]. cbn [g_entries].
  apply Forall_app. split; [|constructor; [by rewrite Hsl|constructor]].
  destruct (groups s0 !! m) as [g|] eqn:E; [by apply (st_groups _ Hok' _ _ E)|constructor].
Qed.

(** The part of [on_sync] before the syncpoint. *)
Definition before_training (s : State) (r : RxRef) (ev : SyncEvent) (et : f64) (em_hex : string) (at_ : f64) (now : Z) : State :=
  let s := set_alt (se_icao ev) (se_alt ev) s in
  let s := set_adsb (<[se_icao ev := (se_pos ev, at_)]> (adsb_pos s)) s in
  if mlat_adsb (cfg s) then on_mlat s r et em_hex at_ now else s.

Lemma before_training_spec s r ev et em at_ now : state_ok s ->
  let s0 := before_training s r ev et em at_ now in
  state_ok s0 /\ slots s0 = slots s /\ pairs s0 = pairs s /\ syncpoints s0 = syncpoints s /\
  adsb_pos s0 !! se_icao ev = Some (se_pos ev, at_).
Proof.
  intros Hok. unfold before_training. destruct (set_alt_clock (se_icao ev) (se_alt ev) s) as (Hp & Hsy & Hsl & _).
  set (s1 := set_alt _ _ s) in *. cbv zeta. set (s2 := set_adsb _ s1).
  assert (state_ok s2) as Hok2 by by apply set_adsb_ok, set_alt_ok.
  assert (adsb_pos s2 !! se_icao ev = Some (se_pos ev, at_)) as Ha by apply lookup_insert_eq.
  destruct (mlat_adsb (cfg s2)); [|by split_and!].
  destruct (on_mlat_clock s2 r et em at_ now) as (Hsl' & Hp' & Hsy' & Ha').
  split_and!; [by apply on_mlat_ok|by rewrite Hsl'|by rewrite Hp'|by rewrite Hsy'|by rewrite Ha'].
Qed.

Lemma on_sync_unfold s r et ot em om at_ now ev : live s r = true ->
  sync_event (receivers (slots s) !!! rx_idx r) et ot em om = Some ev ->
  on_sync s r et ot em om at_ now =
    (let rx := rx_idx r in
     let s := before_training s r ev et em at_ now in
     let sp := default {| sp_created := now; reporters := [] |} (syncpoints s !! (em, om)) in
     if (MAX_REPORTERS <=? length (reporters sp))%nat
     then set_syncpoints (<[(em, om) := sp]> (syncpoints s)) s
     else fold_left (train rx (se_te ev) (se_to ev)) (reporters sp)
            (set_syncpoints (<[(em, om) := {| sp_created := sp_created sp;
               reporters := reporters sp ++ [(rx, se_te ev, se_to ev)] |}]> (syncpoints s)) s)).
Proof. intros Hl He. unfold on_sync. rewrite Hl, He. reflexivity. Qed.

Definition reports (s : State) (k : string * string) : list (nat * f64 * f64) :=
  default [] (reporters <$> syncpoints s !! k).
Lemma reports_default s k now : reporters (default {| sp_created := now; reporters := [] |} (syncpoints s !! k)) = reports s k.
Proof. unfold reports. by destruct (syncpoints s !! k). Qed.
Lemma reports_ok s k : state_ok s ->
  (length (reports s k) <= 15)%nat /\ Forall (fun e => e.1.1 < slot_count s)%nat (reports s k).
Proof.
  intros Hok. unfold reports. destruct (syncpoints s !! k) as [sp|] eqn:E; [by apply (st_sync _ Hok _ _ E)|].
  simpl. split; [lia|constructor].
Qed.

Lemma on_sync_ok s r et ot em om at_ now : state_ok s -> state_ok (on_sync s r et ot em om at_ now).
Proof.
  intros Hok. destruct (live s r) eqn:Hl; [|by unfold on_sync; rewrite Hl].
  destruct (sync_event (receivers (slots s) !!! rx_idx r) et ot em om) as [ev|] eqn:He;
    [|by unfold on_sync; rewrite Hl, He].
  rewrite (on_sync_unfold _ _ _ _ _ _ _ _ ev) by done. cbv zeta.
  destruct (before_training_spec s r ev et em at_ now Hok) as (Hok0 & Hsl & _).
  set (s0 := before_training _ _ _ _ _ _ _) in *. rewrite !reports_default.
  pose proof (reports_ok s0 (em, om) Hok0) as [Hlen Hf].
  pose proof (live_alive _ _ Hok Hl) as Ha. pose proof (is_alive_lt _ _ Hok Ha) as Hlt.
  assert (is_alive s0 (rx_idx r)) as Ha0 by (unfold is_alive; by rewrite Hsl).
  assert (rx_idx r < slot_count s0)%nat as Hlt0 by (unfold slot_count; by rewrite Hsl).
  destruct (Nat.leb_spec MAX_REPORTERS (length (reports s0 (em, om)))) as [Hc|Hc]; unfold MAX_REPORTERS in Hc.
  - apply set_syncpoint_ok; by rewrite ?reports_default.
  - apply train_all_ok; [done|done|]. apply set_syncpoint_ok; cbn [reporters]; [done| |].
    + rewrite length_app. simpl. lia.
    + apply Forall_app. split; [done|]. by repeat constructor.
Qed.

Lemma train_syncpoints rx te to l s : syncpoints (fold_left (train rx te to) l s) = syncpoints s.
Proof.
  apply (fold_left_invariant (fun s' => syncpoints s' = syncpoints s)); [done|]. intros s' [[rx2 te2] to2] Hs _.
  unfold train. destruct (_ || _); [done|].
  destruct (train_pair_frame s' rx rx2 te te2) as (_ & _ & _ & E1 & _).
  destruct (train_pair_frame (train_pair s' rx rx2 te te2) rx rx2 to to2) as (_ & _ & _ & E2 & _). congruence.
Qed.

(** C16: a valid sync message of a live receiver is recorded with its syncpoint, and trains
    the pair with every other live receiver that reported the same two frames, in both
    directions and in the order of the reports, on the even times and on the odd times;
    no other pair changes, that of the receiver with itself and those with receivers that
    have left included.  A syncpoint that has fifteen reports takes no more and trains
    no pair. *)
Theorem on_sync_trains s r et ot em om at_ now ev : state_ok s -> live s r = true ->
  sync_event (receivers (slots s) !!! rx_idx r) et ot em om = Some ev ->
  let s' := on_sync s r et ot em om at_ now in
  let rx := rx_idx r in
  let others := reports s (em, om) in
  if (length others <? 15)%nat then
    reports s' (em, om) = others ++ [(rx, se_te ev, se_to ev)] /\
    (forall b, b <> rx -> is_alive s b ->
       pair_of s' (rx, b) = push_all (pair_of s (rx, b)) (shared b (se_te ev) (se_to ev) others) /\
       pair_of s' (b, rx) = push_all (pair_of s (b, rx)) (swap <$> shared b (se_te ev) (se_to ev) others)) /\
    (forall a b, ~ (a = rx /\ b <> rx /\ is_alive s b) -> ~ (b = rx /\ a <> rx /\ is_alive s a) ->
       pair_of s' (a, b) = pair_of s (a, b))
  else reports s' (em, om) = others /\ pairs s' = pairs s.
Proof.
  intros Hok Hl He. cbv zeta. rewrite (on_sync_unfold _ _ _ _ _ _ _ _ ev) by done. cbv zeta.
  destruct (before_training_spec s r ev et em at_ now Hok) as (Hok0 & Hsl & Hp & Hsy & _).
  set (s0 := before_training _ _ _ _ _ _ _) in *. rewrite !reports_default.
  replace (reports s0 (em, om)) with (reports s (em, om)) by (unfold reports; by rewrite Hsy).
  pose proof (reports_ok s (em, om) Hok) as [Hlen Hf].
  pose proof (live_alive _ _ Hok Hl) as Ha. pose proof (is_alive_lt _ _ Hok Ha) as Hlt.
  rewrite Nat.leb_antisym. change MAX_REPORTERS with 15%nat. destruct (Nat.ltb_spec (length (reports s (em, om))) 15) as [Hc|Hc]; cbn [negb].
  - set (s1 := set_syncpoints _ s0).
    assert (state_ok s1) as Hok1.
    { apply set_syncpoint_ok; cbn [reporters]; [done|rewrite length_app; simpl; lia|].
      apply Forall_app. unfold slot_count. rewrite Hsl. split; [done|]. by repeat constructor. }
    assert (is_alive s1 (rx_idx r)) as Ha1 by (unfold is_alive; cbn [s1 slots set_syncpoints set_events]; by rewrite Hsl).
    assert (Forall (fun e => e.1.1 < slot_count s1)%nat (reports s (em, om))) as Hf1
      by (unfold slot_count; cbn [s1 slots set_syncpoints set_events]; by rewrite Hsl).
    assert (forall k, pair_of s1 k = pair_of s k) as Hpo
      by (intros k; unfold pair_of; cbn [s1 pairs set_syncpoints set_events]; by rewrite Hp).
    assert (forall b, is_alive s b -> is_alive s1 b) as Hal
      by (intros b Hb; unfold is_alive; cbn [s1 slots set_syncpoints set_events]; by rewrite Hsl).
    assert (forall b, is_alive s1 b -> is_alive s b) as Hal'
      by (intros b; unfold is_alive; cbn [s1 slots set_syncpoints set_events]; by rewrite Hsl).
    split_and!.
    + unfold reports at 1. rewrite train_syncpoints. cbn [s1 syncpoints set_syncpoints set_events].
      by rewrite lookup_insert_eq.
    + intros b Hne Hb. rewrite !train_all_pairs by done. cbn [fst snd]. rewrite !Hpo. split.
      * rewrite decide_True; [done|]. split_and!; [done..|by apply Hal].
      * rewrite decide_False by tauto. rewrite decide_True; [done|]. split_and!; [done..|by apply Hal].
    + intros a b Hna Hnb. rewrite train_all_pairs by done. cbn [fst snd].
      by rewrite !decide_False, Hpo by (intros (? & ? & ?%Hal'); tauto).
  - split; [|done]. unfold reports at 1. cbn [syncpoints set_syncpoints set_events].
    rewrite lookup_insert_eq, Hsy. unfold reports in *. by destruct (syncpoints s !! (em, om)); simpl in *; [|lia].
Qed.
End Handlers.

(** Training and grouping leave the learned biases. *)
Section Biases.
Context `{Elem f64, Hex}.

Lemma train_all_bias rx te to l s : rx_bias (slots (fold_left (train rx te to) l s)) = rx_bias (slots s).
Proof.
  apply (fold_left_invariant (fun s' => rx_bias (slots s') = rx_bias (slots s))); [done|].
  intros s' [[rx2 te2] to2] Hs _. unfold train. destruct (_ || _); [done|].
  assert (forall s a b ta tb, rx_bias (slots (train_pair s a b ta tb)) = rx_bias (slots s)) as Htp.
  { intros s1 a b ta tb. unfold train_pair. destruct (push _ ta tb) as [m ok]. cbv zeta. by destruct (push _ tb ta). }
  by rewrite !Htp.
Qed.
Lemma on_sync_bias s r et ot em om at_ now : state_ok s ->
  rx_bias (slots (on_sync s r et ot em om at_ now)) = rx_bias (slots s).
Proof.
  intros Hok. destruct (live s r) eqn:Hl; [|by unfold on_sync; rewrite Hl].
  destruct (sync_event (receivers (slots s) !!! rx_idx r) et ot em om) as [ev|] eqn:He;
    [|by unfold on_sync; rewrite Hl, He].
  rewrite (on_sync_unfold _ _ _ _ _ _ _ _ ev) by done. cbv zeta.
  destruct (before_training_spec s r ev et em at_ now Hok) as (_ & Hsl & _).
  destruct (_ <=? _)%nat; rewrite ?train_all_bias; cbn [set_syncpoints set_events slots]; by rewrite Hsl.
Qed.
End Biases.

(** ** A concrete run: two receivers report the same pair of frames *)
Section Sample.
#[local] Instance sample_elem : Elem f64 := elem_taylor.
#[local] Instance sample_hex : Hex := Proto.hex_tree.

Definition sample_info (user : string) (x : Z) : ReceiverInfo := {|
  ri_user := user; ri_geo := mkGeodetic (of_Z 52) (of_Z 4) fzero; ri_ecef := mkEcef (of_Z x) fzero fzero;
  ri_freq_hz := of_Z 12000000; ri_gps := false; ri_jitter_s := lit 5 10000000 |}.
Definition sample_config : Config := {|
  shard_id := 0; mlat_adsb := true; emit_filtered := true; t0_unix := of_Z 1700000000; t0_real := 0; time_scale := of_Z 1 |}.
Definition sample_two : State :=
  (add_receiver (add_receiver (State_new sample_config) (sample_info "a" 6379000)).1 (sample_info "b" 6380000)).1.
Definition em_hex : string := "8d40621d58c382d690c8ac2863a7".
Definition om_hex : string := "8d40621d58c386435cc412692ad6".
Definition ref_a : RxRef := {| rx_idx := 0; rx_gen := 0 |}.
Definition ref_b : RxRef := {| rx_idx := 1; rx_gen := 0 |}.
Definition sample_reported : State :=
  on_sync sample_two ref_a (of_Z 12000000) (of_Z 18000000) em_hex om_hex (of_Z 1700000001) 1000000000.

Lemma sample_two_ok : state_ok sample_two.
Proof. do 2 apply add_receiver_ok. apply state_new_ok. Qed.
Lemma sample_reported_ok : state_ok sample_reported.
Proof. apply on_sync_ok, sample_two_ok. Qed.

Lemma on_sync_trains_witness : exists ev,
  sync_event (receivers (slots sample_reported) !!! 1%nat) (of_Z 24000000) (of_Z 30000000) em_hex om_hex = Some ev /\
  let s' := on_sync sample_reported ref_b (of_Z 24000000) (of_Z 30000000) em_hex om_hex (of_Z 1700000002) 1500000000 in
  length (reports sample_reported (em_hex, om_hex)) = 1%nat /\ length (reports s' (em_hex, om_hex)) = 2%nat /\
  pair_of s' (1%nat, 0%nat) = push_all (pair_of sample_reported (1%nat, 0%nat))
     (shared 0 (se_te ev) (se_to ev) (reports sample_reported (em_hex, om_hex))).
Proof.
  assert (live sample_reported ref_b = true) as Hl by (vm_compute; reflexivity).
  assert (length (reports sample_reported (em_hex, om_hex)) = 1%nat) as Hn by (vm_compute; reflexivity).
  assert (is_alive sample_reported 0) as Ha by (vm_compute; reflexivity).
  destruct (sync_event (receivers (slots sample_reported) !!! 1%nat) (of_Z 24000000) (of_Z 30000000) em_hex om_hex)
    as [ev|] eqn:E; [|vm_compute in E; discriminate E].
  exists ev. split; [reflexivity|].
  pose proof (on_sync_trains _ ref_b _ _ _ _ (of_Z 1700000002) 1500000000 _ sample_reported_ok Hl E) as H.
  cbv zeta in H |- *. rewrite Hn in H. cbn [Nat.ltb Nat.leb] in H. destruct H as (H1 & H2 & _).
  split; [exact Hn|]. split; [rewrite H1, length_app, Hn; reflexivity|].
  destruct (H2 0%nat ltac:(discriminate) Ha) as [H3 _]. exact H3.
Defined.

(** User "a" connects again: it takes slot 0 back under generation 1, and its first
    reference is dead while that of "b" is not. *)
Lemma add_receiver_takes_slot_witness :
  let '(s', r) := add_receiver sample_reported (sample_info "a" 6379500) in
  r = {| rx_idx := 0; rx_gen := 1 |} /\ live s' r = true /\ live s' ref_a = false /\ live s' ref_b = true.
Proof.
  pose proof (add_receiver_takes_slot sample_reported (sample_info "a" 6379500) sample_reported_ok) as H.
  assert ((add_receiver sample_reported (sample_info "a" 6379500)).2 = {| rx_idx := 0; rx_gen := 1 |}) as E
    by (vm_compute; reflexivity).
  destruct (add_receiver sample_reported (sample_info "a" 6379500)) as [s' r]. cbn [snd] in E. subst r.
  destruct H as (H1 & _ & _ & _ & _ & H2 & _).
  split; [reflexivity|]. split; [exact H1|]. split.
  - apply not_true_iff_false. intros Hl. apply H2 in Hl as [_ Hl]; [|discriminate]. apply Hl. vm_compute. reflexivity.
  - apply H2; [discriminate|]. split; [vm_compute; reflexivity|]. apply (bool_decide_unpack _). vm_compute. reflexivity.
Defined.

(** A report outlives its receiver: "a" reports and leaves, "c" takes its slot, and the
    report of "b" then trains the pair of "b" and "c" with the times of "a", though "c"
    reported nothing. *)
Definition sample_replaced : State :=
  (add_receiver (remove_receiver sample_reported ref_a) (sample_info "c" 6379500)).1.
Example stale_report_trains :
  let s' := on_sync sample_replaced ref_b (of_Z 24000000) (of_Z 30000000) em_hex om_hex (of_Z 1700000002) 1500000000 in
  ri_user (receivers (slots s') !!! 0%nat) = "c"%string /\
  pairs sample_replaced !! (1%nat, 0%nat) = None /\
  option_map n_total (pairs s' !! (1%nat, 0%nat)) = Some 2.
Proof. vm_compute. split_and!; reflexivity. Qed.
End Sample.
