(* ===== verification/SolveGroup.v ===== *)
(** * From a group of receptions to a published fix (crates/mlatd/src/state.rs)

    [solve_group] elects a reference receiver, converts every reception to its
    clock and cuts the sorted receptions into clusters; [solve_cluster] solves
    one cluster and applies the publication gates; [sweep] runs both on the
    groups past their window.  The argument [now] is the time of the call,
    read once.  A group whose clustering loop does not end has no result. *)
From S2P Require Import Prelude F64 Num Text Geo ClockSync Track Solve ServerState.
Local Open Scope Z_scope.

(** An observation of a cluster, with its receiver's slot and its arrival. *)
Record Pick := { pk_rx : nat; pk_obs : Observation f64; pk_at : f64 }.
#[export] Instance Pick_inhabited : Inhabited Pick :=
  populate {| pk_rx := 0%nat; pk_obs := {| ob_rx := mkEcef fzero fzero fzero; t_s := fzero; err_s := fzero |}; pk_at := fzero |}.

Section Code.
Context `{Elem f64}.

(** (receiver, time in the reference's clock, sigma, output clock at arrival) *)
Record Arrival := { rc_rx : nat; rc_t : f64; rc_sigma : f64; rc_at : f64 }.

(** ** The reference receiver and the conversion to its clock *)
Definition members_of (entries : list (nat * f64 * f64)) : list nat :=
  fold_left (fun ms e => if decide (e.1.1 ∈ ms) then ms else ms ++ [e.1.1]) entries [].

(** [max_by_key]: the last of the elements of the largest key. *)
Definition max_by_key {A} (key : A -> nat) (l : list A) : option A :=
  match l with
  | [] => None
  | x :: l => Some (fold_left (fun best y => if (key best <=? key y)%nat then y else best) l x)
  end.

Definition direct_usable (s : State) (cand other : nat) : bool :=
  negb (other =? cand)%nat && match pairs s !! (other, cand) with Some p => usable p | None => false end.
Definition direct_models (s : State) (members : list nat) (cand : nat) : nat :=
  length (filter (fun other => direct_usable s cand other = true) members).

Definition convert_by (s : State) (from to : nat) (t : f64) : option (f64 * f64) :=
  p ← pairs s !! (from, to); convert p t.

Definition two_hop (s : State) (members : list nat) (rx local_ref : nat) (t : f64) : option (f64 * f64) :=
  fold_left (fun best h =>
    if (h =? rx)%nat || (h =? local_ref)%nat then best
    else
      match convert_by s rx h t with
      | None => best
      | Some (t1, s1) =>
          match convert_by s h local_ref t1 with
          | None => best
          | Some (t2, s2) =>
              let sig := fsqrt (s1 * s1 + s2 * s2)%f64 in
              match best with
              | Some (_, bs) => if (sig <? bs)%f64 then Some (t2, sig) else best
              | None => Some (t2, sig)
              end
          end
      end) members None.

Definition jitter_of (s : State) (rx : nat) : f64 := ri_jitter_s (receivers (slots s) !!! rx).

Definition to_reference (s : State) (members : list nat) (local_ref rx : nat) (t : f64) : option (f64 * f64) :=
  if (rx =? local_ref)%nat then Some (t, jitter_of s rx)
  else
    match convert_by s rx local_ref t with
    | Some direct => Some direct
    | None => two_hop s members rx local_ref t
    end.

Definition reception_of (s : State) (members : list nat) (local_ref : nat) (e : nat * f64 * f64) : option Arrival :=
  let '(rx, t_s, at_scaled) := e in
  '(t, sigma) ← to_reference s members local_ref rx t_s;
  Some {| rc_rx := rx; rc_t := t; rc_sigma := fmax sigma (jitter_of s rx); rc_at := at_scaled |}.

(** ** Clusters of the sorted receptions *)
Definition CLUSTER_SPAN_S : f64 := lit 25 10000.

(** The longest prefix whose elements satisfy [p], and the rest. *)
Fixpoint span {A} (p : A -> bool) (l : list A) : list A * list A :=
  match l with
  | [] => ([], [])
  | x :: l' => if p x then let '(a, b) := span p l' in (x :: a, b) else ([], l)
  end.

Fixpoint clusters (fuel : nat) (conv : list Arrival) : option (list (list Arrival)) :=
  match conv with
  | [] => Some []
  | c :: _ =>
      match fuel with
      | O => None
      | S fuel =>
          let '(cluster, rest) := span (fun x => rc_t x - rc_t c <=? CLUSTER_SPAN_S)%f64 conv in
          cs ← clusters fuel rest; Some (cluster :: cs)
      end
  end.

(** ** One cluster *)
(** One observation per live, trusted receiver: its first. *)
Fixpoint collect (s : State) (seen : list nat) (cluster : list Arrival) : list Pick :=
  match cluster with
  | [] => []
  | c :: cluster =>
      let rx := rc_rx c in
      if decide (rx ∈ seen) then collect s seen cluster
      else
        let rest := collect s (rx :: seen) cluster in
        let b := rx_bias (slots s) !!! rx in
        if negb (alive (slots s) !!! rx) then rest
        else if quarantined b then rest
        else {| pk_rx := rx;
                pk_obs := {| ob_rx := ri_ecef (receivers (slots s) !!! rx);
                             t_s := (rc_t c + bias_s b)%f64; err_s := rc_sigma c |};
                pk_at := rc_at c |} :: rest
  end.

Definition next_offset (old : option f64) (delta : f64) : f64 :=
  match old with
  | None => delta
  | Some o => if (delta <? o)%f64 then delta else (o + lit 1 1000 * (delta - o))%f64
  end.

Definition MAX_GROUP : nat := 16.
(** The most precise observations, in their original order. *)
Definition cap (l : list Pick) : list Pick :=
  if (MAX_GROUP <? length l)%nat then
    let by_err a b := total_le (err_s (pk_obs (l !!! a))) (err_s (pk_obs (l !!! b))) in
    let idx := take MAX_GROUP (stable_sort by_err (seq 0 (length l))) in
    (fun i => l !!! i) <$> stable_sort Nat.leb idx
  else l.

Definition RESOLVE_BACKOFF_S : f64 := lit 4 10.
Definition MAX_ERR_M : f64 := of_Z 10000.
Definition THROTTLE_SCALE_M : f64 := of_Z 1500.

Definition users_of (s : State) (l : list Pick) : list string :=
  (fun p => ri_user (receivers (slots s) !!! pk_rx p)) <$> l.

(** The mean of a coordinate over the first receiver slot of each user. *)
Definition mean_of (s : State) (f : Geodetic f64 -> f64) (l : list Pick) : f64 :=
  let of_user u := snd <$> list_find (fun r => ri_user r = u) (receivers (slots s)) in
  (sum ((fun r => f (ri_geo r)) <$> omap of_user (users_of s l)) / of_Z (Z.of_nat (length l)))%f64.

Definition start_position (s : State) (l : list Pick) (track : AcTrack) (now_scaled alt : f64) : Geodetic f64 :=
  let centroid := {| lat_deg := mean_of s lat_deg l; lon_deg := mean_of s lon_deg l; alt_m := alt |} in
  match last_pos track with
  | Some p =>
      if (now_scaled - last_time_scaled track <? of_Z 60)%f64
      then {| lat_deg := lat_deg p; lon_deg := lon_deg p; alt_m := alt |} else centroid
  | None => centroid
  end.

(** *** Bias learning *)
Definition learn_one (with_mad : bool) (b : RxBias) (r : f64) : RxBias :=
  let k := if rb_n b <? 50 then lit 10 100 else lit 2 100 in
  let bias := (bias_s b + k * r)%f64 in
  {| bias_s := bias;
     mad_s := if with_mad then (mad_s b + k * (fabs (r - bias) - mad_s b))%f64 else mad_s b;
     rb_n := u32 (rb_n b + 1) |}.
Definition learn (with_mad : bool) (l : list Pick) (sol : Solution f64) (bs : list RxBias) : list RxBias :=
  if (length (residuals_s sol) =? length l)%nat && (5 <=? length l)%nat && (err_est_m sol <? of_Z 500)%f64
  then fold_left (fun bs (pr : Pick * f64) => alter (fun b => learn_one with_mad b pr.2) (pk_rx pr.1) bs)
         (zip l (residuals_s sol)) bs
  else bs.

(** *** The publication gates *)
Definition throttled (track : AcTrack) (elapsed : f64) (sol : Solution f64) : bool :=
  match last_pos track with
  | Some _ => (elapsed / of_Z 20 <? err_est_m sol / THROTTLE_SCALE_M)%f64
  | None => false
  end.
Definition too_fast (track : AcTrack) (elapsed : f64) (sol : Solution f64) : bool :=
  match last_pos track with
  | Some last => (elapsed <? of_Z 30)%f64 && (elapsed >? lit 5 100)%f64
                 && (haversine_m (sol_pos sol) last / elapsed >? of_Z 400)%f64
  | None => false
  end.
(** Five rejections in a row reset the track. *)
Definition speed_reject (t : AcTrack) : AcTrack :=
  let n := speed_rejects t + 1 in
  {| last_pos := if 5 <=? n then None else last_pos t; last_time_scaled := last_time_scaled t;
     last_attempt_scaled := last_attempt_scaled t; speed_rejects := if 5 <=? n then 0 else n |}.
Definition attempt_at (now_scaled : f64) (t : AcTrack) : AcTrack :=
  {| last_pos := last_pos t; last_time_scaled := last_time_scaled t;
     last_attempt_scaled := now_scaled; speed_rejects := speed_rejects t |}.
Definition accept_at (p : Geodetic f64) (now_scaled : f64) (t : AcTrack) : AcTrack :=
  {| last_pos := Some p; last_time_scaled := now_scaled;
     last_attempt_scaled := last_attempt_scaled t; speed_rejects := 0 |}.

(** A fix of an ADS-B aircraft is scored against its own position, and not published. *)
Definition self_truth (s : State) (a : Z) (l : list Pick) (now_scaled stamp : f64) (sol : Solution f64) : State :=
  if (err_est_m sol >? MAX_ERR_M)%f64 then s
  else
    let s := set_slots (set_rx_bias (learn false l sol)) s in
    match adsb_pos s !! a with
    | Some (claimed, at_) =>
        if (fabs (now_scaled - at_) <? of_Z 5)%f64
        then emit (SelfTruth stamp a (haversine_m (sol_pos sol) claimed) (err_est_m sol) (length l)) s
        else s
    | None => s
    end.

Definition smooth (s : State) (a : Z) (stamp : f64) (sol : Solution f64) : State * option (Geodetic f64) :=
  if emit_filtered (cfg s) then
    match filters s !! a with
    | Some f =>
        let '(f, sm) := update f (sol_pos sol) stamp (err_est_m sol) in
        (set_filters (<[a := f]> (filters s)) s, Some sm)
    | None => (set_filters (<[a := TrackFilter_new (sol_pos sol) stamp]> (filters s)) s, Some (sol_pos sol))
    end
  else (s, None).

Definition publish (s : State) (a : Z) (l : list Pick) (alt_ft : Z) (now_scaled stamp : f64) (sol : Solution f64) : State :=
  let s := set_stats (u64 (stats_solved s + 1)) (stats_rejected s) (stats_sync_obs s) s in
  let s := set_slots (set_rx_bias (learn true l sol)) s in
  let s := set_tracks (alter (accept_at (sol_pos sol) now_scaled) a (tracks s)) s in
  let '(s, filtered) := smooth s a stamp sol in
  emit (Fix {| or_shard := shard_id (cfg s); or_pos := sol_pos sol; or_icao := a; or_stamp := stamp;
               or_alt_ft := alt_ft; or_err_m := err_est_m sol; or_n := length l;
               or_users := users_of s l; or_filtered := filtered |}) s.

Definition on_solution (s : State) (a : Z) (df17 : bool) (l : list Pick) (track : AcTrack) (alt_ft : Z)
    (now_scaled stamp : f64) (sol : Solution f64) : State :=
  if (err_est_m sol >? MAX_ERR_M)%f64 then reject s
  else
    let elapsed := (now_scaled - last_time_scaled track)%f64 in
    if throttled track elapsed sol then reject s
    else if too_fast track elapsed sol then reject (set_tracks (alter speed_reject a (tracks s)) s)
    else if df17 then self_truth s a l now_scaled stamp sol
    else publish s a l alt_ft now_scaled stamp sol.

Definition solve_cluster (s : State) (a : Z) (df17 : bool) (local_ref : nat) (cluster : list Arrival) (now : Z) : State :=
  let l := collect s [] cluster in
  if (length l <? 4)%nat then s
  else
    let first_at := fold_left fmin (pk_at <$> l) finf in
    let t_ref_min := t_min_of finf (pk_obs <$> l) in
    let off := next_offset (stamp_offset s !! local_ref) (first_at - t_ref_min)%f64 in
    let s := set_offsets (<[local_ref := off]> (stamp_offset s)) s in
    let stamp := (t_ref_min + off)%f64 in
    let l := cap l in
    let now_scaled := scaled_now s now in
    let track := default AcTrack_default (tracks s !! a) in
    let s := set_tracks (<[a := track]> (tracks s)) s in
    if (now_scaled - last_attempt_scaled track <? RESOLVE_BACKOFF_S)%f64 then s
    else if (length l =? 4)%nat && (now_scaled - last_time_scaled track <? of_Z 30)%f64 then reject s
    else
      match alts_ft s !! a with
      | None => s
      | Some alt_ft =>
          let alt := (of_Z alt_ft * lit 3048 10000)%f64 in
          let s := set_tracks (alter (attempt_at now_scaled) a (tracks s)) s in
          let init := start_position s l track now_scaled alt in
          match solve_robust finf (pk_obs <$> l) alt init with
          | Some sol => on_solution s a df17 l track alt_ft now_scaled stamp sol
          | None => reject s
          end
      end.

(** ** Groups and the sweep *)
Definition group_clusters (s : State) (g : Group) : option (nat * list (list Arrival)) :=
  let members := members_of (g_entries g) in
  if (length members <? 4)%nat then Some (0%nat, [])
  else
    match max_by_key (direct_models s members) members with
    | None => Some (0%nat, [])
    | Some local_ref =>
        let conv := omap (reception_of s members local_ref) (g_entries g) in
        if (length conv <? 4)%nat then Some (0%nat, [])
        else
          let conv := stable_sort (fun a b => total_le (rc_t a) (rc_t b)) conv in
          cs ← clusters (length conv) conv; Some (local_ref, cs)
    end.

Definition solve_group (s : State) (g : Group) (now : Z) : option State :=
  '(local_ref, cs) ← group_clusters s g;
  Some (fold_left (fun s c => solve_cluster s (g_icao g) (g_df17 g) local_ref c now) cs s).

Definition SYNCPOINT_LIFE_S : f64 := of_Z 4.
Context `{!HashIter string Group}.

(** [window] in nanoseconds. *)
Definition sweep (s : State) (window now : Z) : option State :=
  let fresh (kv : (string * string) * SyncPoint) :=
    (as_secs_f64 (duration_since now (sp_created kv.2)) <? SYNCPOINT_LIFE_S)%f64 = true in
  let s := set_syncpoints (filter fresh (syncpoints s)) s in
  let ready := fst <$> filter (fun kv => window <= duration_since now (g_created kv.2)) (hash_iter (groups s)) in
  foldl (fun (os : option State) key =>
    s ← os;
    match groups s !! key with
    | Some g => solve_group (set_groups (delete key (groups s)) s) g now
    | None => None
    end) (Some s) ready.
End Code.

(** ** The clustering loop *)
Section Clusters.

Lemma span_app {A} (p : A -> bool) l : (span p l).1 ++ (span p l).2 = l.
Proof. induction l as [|x l IH]; [done|]. simpl. destruct (p x); [|done]. destruct (span p l). simpl in *. by rewrite IH. Qed.
Lemma span_true {A} (p : A -> bool) l : Forall (fun x => p x = true) (span p l).1.
Proof.
  induction l as [|x l IH]; [constructor|]. simpl. destruct (p x) eqn:E; [|constructor].
  destruct (span p l). by constructor.
Qed.
Lemma span_false {A} (p : A -> bool) l : match (span p l).2 with x :: _ => p x = false | [] => True end.
Proof.
  induction l as [|x l IH]; [done|]. simpl. destruct (p x) eqn:E; [|done]. by destruct (span p l).
Qed.

(** [start] and [x] fit in one cluster. *)
Definition in_span (start x : Arrival) : bool := (rc_t x - rc_t start <=? CLUSTER_SPAN_S)%f64.
Definition all_finite (l : list Arrival) : Prop := Forall (fun c => is_finite (rc_t c) = true) l.
#[export] Instance all_finite_dec l : Decision (all_finite l).
Proof. unfold all_finite. apply _. Defined.
Definition time_le (a b : Arrival) : bool := total_le (rc_t a) (rc_t b).
Definition by_time (l : list Arrival) : Prop := StronglySorted (fun a b => time_le a b = true) l.

(** The clusters as a partition: each starts the next stretch of the list, holds what is
    within the span of its first reception, and ends at the first reception beyond it. *)
Fixpoint cut (cs : list (list Arrival)) (l : list Arrival) : Prop :=
  match cs with
  | [] => l = []
  | cl :: cs =>
      match cl with
      | [] => False
      | c :: _ =>
          Forall (fun x => in_span c x = true) cl /\
          match cs with (x :: _) :: _ => in_span c x = false | _ => True end /\
          exists rest, l = cl ++ rest /\ cut cs rest
      end
  end.

Lemma in_span_self c : is_finite (rc_t c) = true -> in_span c c = true.
Proof. intros Hf. unfold in_span. destruct (fsub_self _ Hf) as [[] ->]; vm_compute; reflexivity. Qed.

Lemma by_time_drop k l : by_time l -> by_time (drop k l).
Proof.
  intros Hs. revert k. induction Hs as [|x l Hs IH Hx]; intros [|k]; [by constructor..|apply IH].
Qed.

Lemma span_split {A} (p : A -> bool) l a b : span p l = (a, b) ->
  l = a ++ b /\ Forall (fun x => p x = true) a /\ match b with x :: _ => p x = false | [] => True end.
Proof.
  intros E. pose proof (span_app p l). pose proof (span_true p l). pose proof (span_false p l).
  rewrite E in *. done.
Qed.

Lemma clusters_cut n l : (length l <= n)%nat -> all_finite l ->
  exists cs, clusters n l = Some cs /\ cut cs l.
Proof.
  revert l. induction n as [|n IH]; intros [|c l] Hn Hf; try (simpl in Hn; lia); try by exists [].
  apply Forall_cons_iff in Hf as Hc. destruct Hc as [Hc _]. cbn [clusters].
  destruct (span (fun x => (rc_t x - rc_t c <=? CLUSTER_SPAN_S)%f64) (c :: l)) as [cl rest] eqn:E.
  pose proof (span_split _ _ _ _ E) as (El & Ht & Hr).
  assert (exists cl', cl = c :: cl') as [cl' ->].
  { destruct cl as [|c' cl']; simpl in El.
    - subst rest. change (in_span c c = false) in Hr. by rewrite in_span_self in Hr.
    - injection El as -> _. by eexists. }
  rewrite El in Hf. apply Forall_app in Hf as [_ Hf].
  assert (length rest <= n)%nat as Hn' by (rewrite El, length_app in Hn; simpl in Hn; lia).
  destruct (IH rest Hn' Hf) as (cs & Ecs & Hcut). rewrite Ecs. exists ((c :: cl') :: cs).
  split; [done|]. cbn [cut]. split; [done|]. split.
  - destruct cs as [|[|x cl2] cs]; [done|done|]. cbn [cut] in Hcut.
    destruct Hcut as (_ & _ & rest2 & -> & _). done.
  - by exists rest.
Qed.

(** A reception whose time is not finite starts a cluster it does not enter. *)
Lemma clusters_stuck n l : by_time l -> ~ all_finite l -> clusters n l = None.
Proof.
  revert l. induction n as [|n IH]; intros [|c l] Hs Hf; try done; try by destruct Hf; constructor.
  cbn [clusters].
  destruct (span (fun x => (rc_t x - rc_t c <=? CLUSTER_SPAN_S)%f64) (c :: l)) as [cl rest] eqn:E.
  pose proof (span_split _ _ _ _ E) as (El & Ht & _).
  assert (by_time rest) as Hs'.
  { replace rest with (drop (length cl) (c :: l)); [by apply by_time_drop|]. rewrite El. by rewrite drop_app_length. }
  rewrite IH; [done..|]. intros Hf'. destruct Hf. rewrite El. apply Forall_app. split; [|done].
  rewrite list.Forall_forall in Ht. apply list.Forall_forall. intros x Hx. specialize (Ht x Hx).
  destruct (is_finite (rc_t x)) eqn:Ex; [done|]. exfalso.
  rewrite (fsub_infinite_le (rc_t x) (rc_t c) CLUSTER_SPAN_S) in Ht; [done|done| |vm_compute; reflexivity].
  destruct (decide (rc_t x = S754_infinity true)) as [Ei|]; [right|by left].
  assert (x ∈ c :: l) as Hin by (rewrite El; apply elem_of_app; by left).
  apply elem_of_cons in Hin as [->|Hin]; [done|]. inversion_clear Hs as [|? ? _ Hle].
  rewrite list.Forall_forall in Hle. specialize (Hle x Hin). unfold time_le in Hle. rewrite Ei in Hle |- *.
  by apply total_le_neg_inf in Hle.
Qed.

(** C18: on the receptions as the code sorts them, the clustering loop ends exactly when
    every converted time is finite, and then within as many rounds as there are
    receptions; the clusters are consecutive stretches that cover the list, each holding
    all that arrived within 2.5 ms of its first reception.  One infinite or NaN time makes
    the loop run forever. *)
Theorem clusters_end_iff_finite (conv : list Arrival) :
  let l := stable_sort time_le conv in
  (all_finite conv -> exists cs, clusters (length l) l = Some cs /\ cut cs l) /\
  (~ all_finite conv -> forall fuel, clusters fuel l = None).
Proof.
  set (l := stable_sort time_le conv).
  assert (l ≡ₚ conv) as Hp by apply stable_sort_perm.
  assert (all_finite l <-> all_finite conv) as Hf by (unfold all_finite; by rewrite Hp).
  assert (by_time l) as Hs.
  { apply stable_sort_sorted; unfold time_le; intros *; [apply total_le_total|apply total_le_trans]. }
  split.
  - intros Hc. apply clusters_cut; [done|by apply Hf].
  - intros Hc fuel. apply clusters_stuck; [done|]. by rewrite Hf.
Qed.
End Clusters.

(** ** The invariant through a solve *)
Section Invariant.
Context `{Elem f64}.

Lemma set_offset_ok i o s : is_alive s i -> state_ok s -> state_ok (set_offsets (<[i := o]> (stamp_offset s)) s).
Proof.
  intros Ha Hok. split; try apply Hok. cbn [set_offsets set_clock stamp_offset].
  intros j [x [[<- _]|[_ Hj]]%lookup_insert_Some]; [done|]. apply (st_offset _ Hok). by exists x.
Qed.

(** Updates of one aircraft's track. *)
Lemma set_track_ok a t s : 0 <= speed_rejects t < 5 -> state_ok s -> state_ok (set_tracks (<[a := t]> (tracks s)) s).
Proof.
  intros Ht Hok. split; try apply Hok. cbn [set_tracks set_aircraft_data tracks].
  intros a' t' [[<- <-]|[_ Hl]]%lookup_insert_Some; [done|]. by apply (st_tracks _ Hok a').
Qed.
Lemma alter_track_ok f a s : (forall t, 0 <= speed_rejects t < 5 -> 0 <= speed_rejects (f t) < 5) ->
  state_ok s -> state_ok (set_tracks (alter f a (tracks s)) s).
Proof.
  intros Hf Hok. split; try apply Hok. cbn [set_tracks set_aircraft_data tracks].
  intros a' t' [[<- (t & Hl & ->)]|[_ Hl]]%lookup_alter_Some; [|by apply (st_tracks _ Hok a')].
  by apply Hf, (st_tracks _ Hok a).
Qed.
Lemma speed_reject_bound t : 0 <= speed_rejects t < 5 -> 0 <= speed_rejects (speed_reject t) < 5.
Proof. intros Ht. cbn [speed_reject speed_rejects]. destruct (Z.leb_spec 5 (speed_rejects t + 1)); lia. Qed.

Lemma reject_ok s : state_ok s -> state_ok (reject s).
Proof. by intros []. Qed.
Lemma set_stats_ok x y z s : state_ok s -> state_ok (set_stats x y z s).
Proof. by intros []. Qed.
Lemma emit_ok m s : state_ok s -> state_ok (emit m s).
Proof. by intros []. Qed.
Lemma set_filters_ok f s : state_ok s -> state_ok (set_filters f s).
Proof. by intros []. Qed.

Lemma learn_length w l sol bs : length (learn w l sol bs) = length bs.
Proof.
  unfold learn. destruct (_ && _); [|done]. apply fold_left_invariant; [done|].
  intros bs' x Hb _. by rewrite length_alter.
Qed.
Lemma learn_ok w l sol s : state_ok s -> state_ok (set_slots (set_rx_bias (learn w l sol)) s).
Proof. intros Hok. apply (proj2 (set_rx_ok s (fun l => l) _ (fun _ => eq_refl) (learn_length _ _ _) Hok)). Qed.
#[local] Hint Resolve reject_ok set_stats_ok emit_ok set_filters_ok learn_ok : mlat.

Lemma smooth_ok s a stamp sol : state_ok s -> state_ok (smooth s a stamp sol).1.
Proof.
  intros Hok. unfold smooth. destruct (emit_filtered _); [|done]. destruct (filters s !! a) as [f|]; [|by apply set_filters_ok].
  destruct (update f _ stamp _) as [f' sm]. by apply set_filters_ok.
Qed.

Lemma on_solution_ok s a df17 l track alt now stamp sol :
  state_ok s -> state_ok (on_solution s a df17 l track alt now stamp sol).
Proof.
  intros Hok. unfold on_solution. destruct (_ >? _)%f64; [by auto with mlat|]. cbv zeta.
  destruct (throttled _ _ _); [by auto with mlat|].
  destruct (too_fast _ _ _); [apply reject_ok, alter_track_ok; [apply speed_reject_bound|done]|]. destruct df17.
  - unfold self_truth. destruct (_ >? _)%f64; [done|]. cbv zeta.
    destruct (adsb_pos _ !! a) as [[claimed at_]|]; [|by auto with mlat].
    destruct (_ <? _)%f64; by auto with mlat.
  - unfold publish. cbv zeta. set (s2 := set_tracks _ _).
    assert (state_ok s2) as H2 by (apply alter_track_ok; [simpl; lia|by auto with mlat]).
    pose proof (smooth_ok s2 a stamp sol H2) as H3. destruct (smooth s2 a stamp sol) as [s3 filtered]. by apply emit_ok.
Qed.

(** *** What [collect] keeps: receptions of live, trusted receivers not seen before *)
Definition picked_from (s : State) (seen : list nat) (cluster : list Arrival) (p : Pick) : Prop :=
  pk_rx p ∉ seen /\ is_alive s (pk_rx p) /\ quarantined (rx_bias (slots s) !!! pk_rx p) = false /\
  exists c, c ∈ cluster /\ rc_rx c = pk_rx p /\ pk_at p = rc_at c /\
    pk_obs p = {| ob_rx := ri_ecef (receivers (slots s) !!! pk_rx p);
                  t_s := (rc_t c + bias_s (rx_bias (slots s) !!! pk_rx p))%f64; err_s := rc_sigma c |}.

Lemma picked_from_weaken s seen seen' c cluster p :
  seen ⊆ seen' -> picked_from s seen' cluster p -> picked_from s seen (c :: cluster) p.
Proof.
  intros Hs (? & ? & ? & c0 & ? & ?). split_and!; [set_solver|done..|]. exists c0. split; [by right|done].
Qed.

Lemma collect_spec s seen cluster : state_ok s -> Forall (fun c => rc_rx c < slot_count s)%nat cluster ->
  NoDup (pk_rx <$> collect s seen cluster) /\ Forall (picked_from s seen cluster) (collect s seen cluster).
Proof.
  intros Hok. revert seen. induction cluster as [|c cluster IH]; intros seen Hlt; [by split; constructor|].
  apply Forall_cons_iff in Hlt as [Hc Hlt]. cbn [collect]. cbv zeta.
  assert (forall seen', seen ⊆ seen' -> NoDup (pk_rx <$> collect s seen' cluster) /\
    Forall (picked_from s seen (c :: cluster)) (collect s seen' cluster)) as Hrest.
  { intros seen' Hs. destruct (IH seen' Hlt) as [Hn Hf]. split; [done|].
    eapply list.Forall_impl; [exact Hf|]. intros p. by apply picked_from_weaken. }
  destruct (decide (rc_rx c ∈ seen)) as [|Hns]; [by apply Hrest|].
  destruct (Hrest (rc_rx c :: seen) ltac:(set_solver)) as [Hn Hf'].
  destruct (alive (slots s) !!! rc_rx c) eqn:Ea; [|by split]. cbn [negb].
  destruct (quarantined _) eqn:Eq; [by split|]. split.
  - cbn [fmap list_fmap pk_rx]. constructor; [|done]. intros (p & Ep & Hp)%list_elem_of_fmap.
    destruct (IH (rc_rx c :: seen) Hlt) as [_ Hf]. rewrite list.Forall_forall in Hf.
    destruct (Hf p Hp) as [Hnp _]. apply Hnp. rewrite <- Ep. by left.
  - constructor; [|done]. split; [done|]. cbn [pk_rx pk_at pk_obs]. split_and!; [|done|].
    + unfold is_alive. unfold slot_count in Hc. rewrite <- (so_alive _ (st_slots _ Hok)) in Hc.
      destruct (lookup_lt_is_Some_2 _ _ Hc) as [b Hb]. by rewrite Hb, <- Ea, (list_lookup_total_correct _ _ _ Hb).
    + exists c. split; [by left|done].
Qed.

(** Four picked receivers include one that is not the reference; its time came through a
    pair model, so the reference is live. *)
Definition converted (s : State) (local_ref : nat) (cluster : list Arrival) : Prop :=
  Forall (fun c => rc_rx c < slot_count s /\ (rc_rx c <> local_ref -> is_alive s local_ref))%nat cluster.

Lemma picked_reference_alive s local_ref cluster : state_ok s -> converted s local_ref cluster ->
  (4 <= length (collect s [] cluster))%nat -> is_alive s local_ref.
Proof.
  intros Hok Hc Hn. assert (Forall (fun c => rc_rx c < slot_count s)%nat cluster) as Hlt
    by (eapply list.Forall_impl; [exact Hc|]; by intros c []).
  destruct (collect_spec s [] cluster Hok Hlt) as [Hd Hf].
  destruct (collect s [] cluster) as [|p [|q l]] eqn:E; [simpl in Hn; lia..|].
  unfold converted in Hc. rewrite list.Forall_forall in Hc. rewrite list.Forall_forall in Hf.
  assert (pk_rx p <> pk_rx q) as Hne by (cbn [fmap list_fmap] in Hd; apply list.NoDup_cons in Hd as [Hd _]; set_solver).
  destruct (Hf p ltac:(set_solver)) as (_ & Hp & _ & c1 & Hc1 & E1 & _).
  destruct (Hf q ltac:(set_solver)) as (_ & Hq & _ & c2 & Hc2 & E2 & _).
  destruct (decide (pk_rx p = local_ref)) as [<-|]; [done|]. apply (Hc c1 Hc1). congruence.
Qed.

Lemma solve_cluster_ok s a df17 local_ref cluster now : state_ok s -> converted s local_ref cluster ->
  state_ok (solve_cluster s a df17 local_ref cluster now).
Proof.
  intros Hok Hc. unfold solve_cluster. cbv zeta. destruct (Nat.ltb_spec (length (collect s [] cluster)) 4) as [|Hn]; [done|].
  set (s1 := set_offsets _ s).
  assert (state_ok s1) as H1 by (apply set_offset_ok; [by eapply picked_reference_alive|done]).
  set (s2 := set_tracks _ s1).
  assert (state_ok s2) as H2.
  { apply set_track_ok; [|done]. destruct (tracks s1 !! a) as [t|] eqn:E; [by apply (st_tracks _ H1 a)|simpl; lia]. }
  destruct (_ <? RESOLVE_BACKOFF_S)%f64; [done|]. destruct (_ && _); [by apply reject_ok|].
  destruct (alts_ft s2 !! a) as [alt|]; [|done].
  set (s3 := set_tracks _ s2). assert (state_ok s3) as H3 by by apply alter_track_ok.
  destruct (solve_robust _ _ _ _); [by apply on_solution_ok|by apply reject_ok].
Qed.
End Invariant.

(** ** The invariant through a sweep *)
Section Sweep.
Context `{Elem f64, !HashIter string Group}.

Lemma on_solution_same s a df17 l track alt now stamp sol :
  same_slots s (on_solution s a df17 l track alt now stamp sol).
Proof.
  unfold on_solution. destruct (_ >? _)%f64; [done|]. cbv zeta. destruct (throttled _ _ _); [done|].
  destruct (too_fast _ _ _); [done|]. destruct df17.
  - unfold self_truth. destruct (_ >? _)%f64; [done|]. cbv zeta.
    destruct (adsb_pos _ !! a) as [[claimed at_]|]; [|done]. by destruct (_ <? _)%f64.
  - unfold publish, smooth. cbv zeta. destruct (emit_filtered _); [|done].
    destruct (filters _ !! a) as [f|]; [|done]. by destruct (update f _ _ _).
Qed.
Lemma solve_cluster_same s a df17 local_ref cluster now :
  same_slots s (solve_cluster s a df17 local_ref cluster now).
Proof.
  unfold solve_cluster. cbv zeta. destruct (_ <? 4)%nat; [done|]. set (s1 := set_tracks _ _).
  assert (same_slots s s1) as H1 by done.
  destruct (_ <? RESOLVE_BACKOFF_S)%f64; [done|]. destruct (_ && _); [done|].
  destruct (alts_ft s1 !! a) as [alt|]; [|done]. destruct (solve_robust _ _ _ _); [|done].
  eapply same_slots_trans; [|apply on_solution_same]. done.
Qed.

Lemma two_hop_models s members rx local_ref t : two_hop s members rx local_ref t <> None ->
  exists h m, pairs s !! (h, local_ref) = Some m.
Proof.
  unfold two_hop.
  apply (fold_left_invariant (fun best => best <> None -> exists h m, pairs s !! (h, local_ref) = Some m)); [done|].
  intros best h IH _. destruct (_ || _); [done|]. destruct (convert_by s rx h t) as [[t1 s1]|]; [|done].
  unfold convert_by at 1. destruct (pairs s !! (h, local_ref)) as [m|] eqn:E; [|done].
  intros _. by exists h, m.
Qed.
Lemma reception_of_spec s members local_ref e c : reception_of s members local_ref e = Some c ->
  rc_rx c = e.1.1 /\ rc_at c = e.2 /\
  (rc_rx c <> local_ref -> exists h m, pairs s !! (h, local_ref) = Some m).
Proof.
  destruct e as [[rx t] at_]. unfold reception_of. cbn [fst snd].
  destruct (to_reference s members local_ref rx t) as [[t' sigma]|] eqn:E; [|done]. intros [= <-].
  cbn [rc_rx rc_at]. split_and!; [done..|]. intros Hne. unfold to_reference in E.
  rewrite (proj2 (Nat.eqb_neq _ _) Hne) in E. unfold convert_by in E.
  destruct (pairs s !! (rx, local_ref)) as [m|] eqn:Em; [by exists rx, m|].
  eapply two_hop_models. cbn in E. by rewrite E.
Qed.

Lemma clusters_elem n l cs cl c : clusters n l = Some cs -> cl ∈ cs -> c ∈ cl -> c ∈ l.
Proof.
  revert l cs. induction n as [|n IH]; intros [|x l] cs; cbn [clusters]; try done; try (intros [= <-]; set_solver).
  destruct (span _ (x :: l)) as [a rest] eqn:E. apply span_split in E as (-> & _ & _).
  destruct (clusters n rest) as [cs'|] eqn:Ec; [|done]. intros [= <-] [->|Hcl]%elem_of_cons Hc; apply elem_of_app; [by left|right].
  by eapply IH.
Qed.

Lemma max_by_key_elem {A} (key : A -> nat) l x : max_by_key key l = Some x ->
  x ∈ l /\ forall y, y ∈ l -> (key y <= key x)%nat.
Proof.
  destruct l as [|a l]; [done|]. cbn [max_by_key]. intros [= <-].
  apply (fold_best (fun best y => key best <=? key y)%nat (fun y m => key y <= key m)%nat).
  - by intros y.
  - intros u v z. apply Nat.le_trans.
  - intros b y. destruct (Nat.leb_spec (key b) (key y)); lia.
Qed.

(** The elected reference, and where the clustered receptions come from. *)
Lemma group_clusters_spec s g local_ref cs : group_clusters s g = Some (local_ref, cs) -> cs <> [] ->
  local_ref ∈ members_of (g_entries g) /\
  (forall m, m ∈ members_of (g_entries g) ->
     direct_models s (members_of (g_entries g)) m <= direct_models s (members_of (g_entries g)) local_ref)%nat /\
  (forall cl c, cl ∈ cs -> c ∈ cl -> exists e, e ∈ g_entries g /\ reception_of s (members_of (g_entries g)) local_ref e = Some c).
Proof.
  unfold group_clusters. cbv zeta. destruct (_ <? 4)%nat; [by intros [= <- <-]|].
  destruct (max_by_key _ _) as [r|] eqn:Em; [|by intros [= <- <-]].
  destruct (_ <? 4)%nat; [by intros [= <- <-]|]. destruct (clusters _ _) as [cs'|] eqn:Ec; [|done].
  intros [= <- <-] _. apply max_by_key_elem in Em as [Hin Hmax]. split_and!; [done..|].
  intros cl c Hcl Hc. eapply clusters_elem in Hc; [|done..]. rewrite stable_sort_perm in Hc.
  apply list_elem_of_omap in Hc as (e & He & Hr). by exists e.
Qed.

Lemma members_of_entries es : forall m, m ∈ members_of es <-> exists e, e ∈ es /\ e.1.1 = m.
Proof.
  intros m. unfold members_of. induction es as [|e es IH] using rev_ind; [set_solver|].
  rewrite fold_left_app. cbn [fold_left]. case_decide; set_solver.
Qed.

Lemma group_converted s g local_ref cs : state_ok s ->
  Forall (fun e => e.1.1 < slot_count s)%nat (g_entries g) ->
  group_clusters s g = Some (local_ref, cs) -> Forall (converted s local_ref) cs.
Proof.
  intros Hok Hg E. destruct (decide (cs = [])) as [->|Hne]; [constructor|].
  destruct (group_clusters_spec _ _ _ _ E Hne) as (_ & _ & Hfrom).
  apply list.Forall_forall. intros cl Hcl. apply list.Forall_forall. intros c Hc.
  destruct (Hfrom cl c Hcl Hc) as (e & He & Hr). apply reception_of_spec in Hr as (Erx & _ & Hpair).
  rewrite list.Forall_forall in Hg. rewrite Erx at 1. split; [by apply Hg|].
  intros (h & m & Hm)%Hpair. by apply (st_pairs _ Hok) in Hm as (_ & _ & ? & _).
Qed.

Lemma solve_all_ok s0 a df17 local_ref cs now : state_ok s0 -> Forall (converted s0 local_ref) cs ->
  let s' := fold_left (fun s c => solve_cluster s a df17 local_ref c now) cs s0 in
  state_ok s' /\ same_slots s0 s'.
Proof.
  intros Hok Hc. apply (fold_left_invariant (fun s => state_ok s /\ same_slots s0 s)); [done|].
  intros s cl [Hs Hss] Hcl. split; [|eapply same_slots_trans; [done|apply solve_cluster_same]].
  apply solve_cluster_ok; [done|]. rewrite list.Forall_forall in Hc. specialize (Hc cl Hcl).
  destruct Hss as [Hal Hrc _]. unfold converted, slot_count, is_alive in *. by rewrite Hal, Hrc.
Qed.

Lemma solve_group_ok s g now s' : state_ok s -> Forall (fun e => e.1.1 < slot_count s)%nat (g_entries g) ->
  solve_group s g now = Some s' -> state_ok s' /\ same_slots s s'.
Proof.
  intros Hok Hg. unfold solve_group. destruct (group_clusters s g) as [[local_ref cs]|] eqn:E; [|done].
  intros [= <-]. apply solve_all_ok; [done|by eapply group_converted].
Qed.

Lemma delete_group_ok k s : state_ok s -> state_ok (set_groups (delete k (groups s)) s).
Proof.
  intros Hok. split; try apply Hok. cbn [set_groups set_events groups].
  intros k' g [_ Hk]%lookup_delete_Some. by apply (st_groups _ Hok _ _ Hk).
Qed.

Definition expire_syncpoints (s : State) (now : Z) : State :=
  set_syncpoints (filter (fun kv => (as_secs_f64 (duration_since now (sp_created kv.2)) <? SYNCPOINT_LIFE_S)%f64 = true)
    (syncpoints s)) s.
(** A property of the expired state that every solved group keeps holds after the sweep. *)
Lemma sweep_invariant (P : State -> Prop) s window now s' : P (expire_syncpoints s now) ->
  (forall s1 key g s2, P s1 -> groups s1 !! key = Some g ->
     solve_group (set_groups (delete key (groups s1)) s1) g now = Some s2 -> P s2) ->
  sweep s window now = Some s' -> P s'.
Proof.
  intros H0 Hstep. unfold sweep. cbv zeta. fold (expire_syncpoints s now).
  set (ready := _ <$> _). clearbody ready. set (s0 := expire_syncpoints s now) in *. clearbody s0.
  revert s'. induction ready as [|key ready IH] using rev_ind; intros s'; [by intros [= <-]|].
  rewrite foldl_app. cbn [foldl]. destruct (foldl _ (Some s0) ready) as [s1|]; [|done].
  specialize (IH s1 eq_refl). cbn. destruct (groups s1 !! key) as [g|] eqn:Eg; [|done]. by eapply Hstep.
Qed.

Lemma expire_ok s now : state_ok s -> state_ok (expire_syncpoints s now).
Proof.
  intros Hok. split; try apply Hok. cbn [expire_syncpoints set_syncpoints set_events syncpoints].
  intros k sp [Hk _]%map_lookup_filter_Some. by apply (st_sync _ Hok _ _ Hk).
Qed.

Lemma sweep_ok s window now s' : state_ok s -> sweep s window now = Some s' -> state_ok s' /\ same_slots s s'.
Proof.
  intros Hok. apply (sweep_invariant (fun s' => state_ok s' /\ same_slots s s')); [split; [by apply expire_ok|done]|].
  intros s1 key g s2 [H1 Hs1] Eg [H2 Hs2]%solve_group_ok; [|by apply delete_group_ok|by apply (st_groups _ H1 _ _ Eg)].
  split; [done|]. eapply same_slots_trans; [exact Hs1|]. eapply same_slots_trans; [|exact Hs2]. done.
Qed.
End Sweep.

(** ** What leaves a solve *)
Section Output.
Context `{Elem f64}.

Lemma cap_index l : exists idx, cap l = (fun i => l !!! i) <$> idx /\ NoDup idx /\
  Forall (fun i => i < length l)%nat idx /\ length idx = Nat.min 16 (length l).
Proof.
  unfold cap. change MAX_GROUP with 16%nat. destruct (Nat.ltb_spec 16 (length l)) as [Hl|Hl].
  - eexists. split; [done|]. set (sorted := stable_sort _ (seq 0 (length l))).
    assert (sorted ≡ₚ seq 0 (length l)) as Hp by apply stable_sort_perm.
    assert (length sorted = length l) as Hlen by (by rewrite Hp, length_seq).
    assert (NoDup sorted) as Hn by (rewrite Hp; apply NoDup_seq).
    split_and!.
    + rewrite stable_sort_perm. eapply sublist_NoDup; [exact Hn|apply sublist_take].
    + rewrite stable_sort_perm. apply Forall_take. rewrite Hp. apply list.Forall_forall.
      intros i Hi%elem_of_seq. lia.
    + rewrite stable_sort_length, length_take, Hlen. lia.
  - exists (seq 0 (length l)). split_and!.
    + apply list_eq_same_length with (length l); [by rewrite length_fmap, length_seq|done|].
      intros i x y Hi Hx Hy. rewrite list_lookup_fmap, lookup_seq_lt in Hy by done. simpl in Hy.
      apply (inj Some) in Hy as <-. symmetry. by apply list_lookup_total_correct.
    + apply NoDup_seq.
    + apply list.Forall_forall. intros i Hi%elem_of_seq. lia.
    + rewrite length_seq. lia.
Qed.

Lemma cap_spec l (P : Pick -> Prop) : NoDup (pk_rx <$> l) -> Forall P l ->
  NoDup (pk_rx <$> cap l) /\ Forall P (cap l) /\ length (cap l) = Nat.min 16 (length l).
Proof.
  intros Hn Hf. destruct (cap_index l) as (idx & -> & Hidx & Hlt & Hlen). rewrite length_fmap.
  rewrite list.Forall_forall in Hlt. split_and!; [| |done].
  - rewrite <- list_fmap_compose. apply NoDup_fmap_2_strong; [|done].
    intros i j Hi Hj E. cbn in E.
    destruct (lookup_lt_is_Some_2 l i (Hlt i Hi)) as [p Ep], (lookup_lt_is_Some_2 l j (Hlt j Hj)) as [q Eq].
    rewrite (list_lookup_total_correct _ _ _ Ep), (list_lookup_total_correct _ _ _ Eq) in E.
    eapply NoDup_lookup; [exact Hn| |]; rewrite list_lookup_fmap; [by rewrite Ep|rewrite Eq; simpl; by rewrite E].
  - apply Forall_fmap, list.Forall_forall. intros i Hi. cbn.
    destruct (lookup_lt_is_Some_2 l i (Hlt i Hi)) as [p Ep]. rewrite (list_lookup_total_correct _ _ _ Ep).
    rewrite list.Forall_forall in Hf. eapply Hf, list_elem_of_lookup_2, Ep.
Qed.

Definition track_of (s : State) (a : Z) : AcTrack := default AcTrack_default (tracks s !! a).
Definition elapsed_of (s : State) (a : Z) (now : Z) : f64 := (scaled_now s now - last_time_scaled (track_of s a))%f64.

(** What a fix that leaves the server has passed: observations of at least four distinct
    live receivers out of quarantine, a known altitude, the solver's gates, the backoff, the
    zero-redundancy rule, the error ceiling, the throttle and the speed gate. *)
Record gates_passed (s : State) (a : Z) (cluster : list Arrival) (now : Z)
    (l : list Pick) (alt : Z) (sol : Solution f64) : Prop := {
  gp_distinct : NoDup (pk_rx <$> l);
  gp_picked : Forall (picked_from s [] cluster) l;
  gp_size : (4 <= length l <= 16)%nat;
  gp_alt : alts_ft s !! a = Some alt /\ alt_m (sol_pos sol) = (of_Z alt * lit 3048 10000)%f64;
  gp_finite : is_finite (lat_deg (sol_pos sol)) = true /\ is_finite (lon_deg (sol_pos sol)) = true;
  gp_rms : (rms_s sol >? MAX_RMS_S)%num = false;
  gp_backoff : (scaled_now s now - last_attempt_scaled (track_of s a) <? RESOLVE_BACKOFF_S)%f64 = false;
  gp_dof : length l = 4%nat -> (elapsed_of s a now <? of_Z 30)%f64 = false;
  gp_err : (err_est_m sol >? MAX_ERR_M)%f64 = false;
  gp_throttle last : last_pos (track_of s a) = Some last ->
    (elapsed_of s a now / of_Z 20 <? err_est_m sol / THROTTLE_SCALE_M)%f64 = false;
  gp_speed last : last_pos (track_of s a) = Some last ->
    (elapsed_of s a now <? of_Z 30)%f64 = true -> (elapsed_of s a now >? lit 5 100)%f64 = true ->
    (haversine_m (sol_pos sol) last / elapsed_of s a now >? of_Z 400)%f64 = false
}.

(** The message of a fix, and the track it leaves. *)
Definition fix_message (s : State) (a : Z) (l : list Pick) (alt : Z) (stamp : f64) (sol : Solution f64)
    (filtered : option (Geodetic f64)) : OutMsg :=
  Fix {| or_shard := shard_id (cfg s); or_pos := sol_pos sol; or_icao := a; or_stamp := stamp;
         or_alt_ft := alt; or_err_m := err_est_m sol; or_n := length l;
         or_users := users_of s l; or_filtered := filtered |}.
Definition fix_track (s : State) (now : Z) (sol : Solution f64) : AcTrack :=
  {| last_pos := Some (sol_pos sol); last_time_scaled := scaled_now s now;
     last_attempt_scaled := scaled_now s now; speed_rejects := 0 |}.

Lemma publish_emits s a l alt now_scaled stamp sol t : has_out s = true -> tracks s !! a = Some t ->
  exists filtered, emitted (publish s a l alt now_scaled stamp sol)
      = emitted s ++ [fix_message s a l alt stamp sol filtered] /\
    tracks (publish s a l alt now_scaled stamp sol) !! a = Some (accept_at (sol_pos sol) now_scaled t).
Proof.
  intros Ho Ht. unfold publish, smooth, emit. cbv zeta.
  destruct (emit_filtered _); [|eexists; cbn; rewrite Ho; split; [done|by rewrite lookup_alter_eq, Ht]].
  destruct (filters _ !! a) as [f|];
    [destruct (update f _ _ _) as [f' sm]|]; eexists; cbn; rewrite Ho; (split; [done|by rewrite lookup_alter_eq, Ht]).
Qed.

Lemma self_truth_emits s a l now_scaled stamp sol : has_out s = true ->
  emitted (self_truth s a l now_scaled stamp sol) = emitted s \/
  exists claimed at_, adsb_pos s !! a = Some (claimed, at_) /\
    (fabs (now_scaled - at_) <? of_Z 5)%f64 = true /\
    emitted (self_truth s a l now_scaled stamp sol)
    = emitted s ++ [SelfTruth stamp a (haversine_m (sol_pos sol) claimed) (err_est_m sol) (length l)].
Proof.
  intros Ho. unfold self_truth, emit. destruct (_ >? _)%f64; [by left|]. cbv zeta. cbn [adsb_pos set_slots].
  destruct (adsb_pos s !! a) as [[claimed at_]|]; [|by left].
  destruct (_ <? _)%f64 eqn:E; [right|by left]. exists claimed, at_. cbn. by rewrite Ho.
Qed.

(** A state that differs from [s] only in its clock offsets and tracks. *)
Record only_tracks (s s' : State) : Prop := {
  ot_slots : slots s' = slots s; ot_cfg : cfg s' = cfg s; ot_out : has_out s' = has_out s;
  ot_emitted : emitted s' = emitted s; ot_alts : alts_ft s' = alts_ft s; ot_adsb : adsb_pos s' = adsb_pos s
}.

Lemma on_solution_output s s3 a df17 l alt now stamp sol cluster : only_tracks s s3 -> has_out s = true ->
  tracks s3 !! a = Some (attempt_at (scaled_now s now) (track_of s a)) ->
  ((err_est_m sol >? MAX_ERR_M)%f64 = false -> throttled (track_of s a) (elapsed_of s a now) sol = false ->
     too_fast (track_of s a) (elapsed_of s a now) sol = false -> gates_passed s a cluster now l alt sol) ->
  let s' := on_solution s3 a df17 l (track_of s a) alt (scaled_now s now) stamp sol in
  emitted s' = emitted s \/
  gates_passed s a cluster now l alt sol /\
  if df17 then exists claimed at_, adsb_pos s !! a = Some (claimed, at_) /\
      emitted s' = emitted s ++ [SelfTruth stamp a (haversine_m (sol_pos sol) claimed) (err_est_m sol) (length l)]
  else (exists filtered, emitted s' = emitted s ++ [fix_message s a l alt stamp sol filtered]) /\
       tracks s' !! a = Some (fix_track s now sol).
Proof.
  intros [Hsl Hcf Hou Hem Hal Had] Ho Ht Hg. rewrite <- Hem, <- Had. rewrite <- Hou in Ho.
  unfold on_solution. cbv zeta. fold (elapsed_of s a now).
  destruct (_ >? _)%f64 eqn:E1; [by left|]. destruct (throttled _ _ _) eqn:E2; [by left|].
  destruct (too_fast _ _ _) eqn:E3; [by left|]. specialize (Hg eq_refl eq_refl eq_refl). destruct df17.
  - destruct (self_truth_emits s3 a l (scaled_now s now) stamp sol Ho) as [|(claimed & at_ & ? & _ & ?)]; [by left|right].
    split; [done|]. by exists claimed, at_.
  - right. split; [done|].
    destruct (publish_emits s3 a l alt (scaled_now s now) stamp sol _ Ho Ht) as (filtered & -> & ->).
    split; [|done]. exists filtered. unfold fix_message, users_of. by rewrite Hcf, Hsl.
Qed.

(** C11: a cluster adds at most one message to the output, and one that does has passed
    every gate: at least four (and at most sixteen) distinct live receivers outside
    quarantine, each with its first reception in the cluster; a known altitude; finite
    coordinates and a residual not above 3 us; 0.4 s since the last attempt; 30 s since
    the last fix when only four receivers contribute; an error estimate within the ceiling
    and the throttle; and no speed above 400 m/s from a fix of the last 30 s.  A DF17
    cluster yields only a self-truth score, any other only a fix, which becomes the
    aircraft's track. *)
Theorem solve_cluster_output s a df17 local_ref cluster now : state_ok s -> has_out s = true ->
  Forall (fun c => rc_rx c < slot_count s)%nat cluster ->
  let s' := solve_cluster s a df17 local_ref cluster now in
  emitted s' = emitted s \/
  exists l alt stamp sol, gates_passed s a cluster now l alt sol /\
  if df17 then exists claimed at_, adsb_pos s !! a = Some (claimed, at_) /\
      emitted s' = emitted s ++ [SelfTruth stamp a (haversine_m (sol_pos sol) claimed) (err_est_m sol) (length l)]
  else (exists filtered, emitted s' = emitted s ++ [fix_message s a l alt stamp sol filtered]) /\
       tracks s' !! a = Some (fix_track s now sol).
Proof.
  intros Hok Ho Hlt. destruct (collect_spec s [] cluster Hok Hlt) as [Hd Hf].
  destruct (cap_spec _ _ Hd Hf) as (Hd' & Hf' & Hlen). unfold solve_cluster. cbv zeta.
  destruct (Nat.ltb_spec (length (collect s [] cluster)) 4) as [|Hn]; [by left|].
  set (l := cap (collect s [] cluster)) in *.
  set (s1 := set_offsets _ s). change (default AcTrack_default (tracks s1 !! a)) with (track_of s a).
  change (scaled_now s1 now) with (scaled_now s now). set (s2 := set_tracks _ s1).
  destruct (_ <? RESOLVE_BACKOFF_S)%f64 eqn:Eb; [by left|].
  fold (elapsed_of s a now). destruct (_ && _) eqn:Edof; [by left|].
  change (alts_ft s2) with (alts_ft s). destruct (alts_ft s !! a) as [alt|] eqn:Ea; [|by left].
  set (s3 := set_tracks _ s2). destruct (solve_robust _ _ _ _) as [sol|] eqn:Es; [|by left].
  assert (only_tracks s s3) as Hs3 by done.
  assert (tracks s3 !! a = Some (attempt_at (scaled_now s now) (track_of s a))) as Ht3.
  { cbn [s3 s2 set_tracks set_aircraft_data tracks]. by rewrite lookup_alter_eq, lookup_insert_eq. }
  apply solve_robust_candidate, candidate_ok in Es as (obs' & _ & _ & Hsol).
  assert ((err_est_m sol >? MAX_ERR_M)%f64 = false -> throttled (track_of s a) (elapsed_of s a now) sol = false ->
    too_fast (track_of s a) (elapsed_of s a now) sol = false -> gates_passed s a cluster now l alt sol) as Hg.
  { intros E1 E2 E3. split; try done.
    - lia.
    - split; [done|]. apply Hsol.
    - split; apply Hsol.
    - apply Hsol.
    - intros E4. rewrite E4 in Edof. done.
    - intros last El. unfold throttled in E2. by rewrite El in E2.
    - intros last El H1 H2. unfold too_fast in E3. by rewrite El, H1, H2 in E3. }
  pose proof (fun stamp => on_solution_output s s3 a df17 l alt now stamp sol cluster Hs3 Ho Ht3 Hg) as Hq.
  edestruct Hq as [E|E]; [left; exact E|]. right. do 4 eexists. exact E.
Qed.
End Output.

(** ** Quarantine *)
Section Quarantine.
Context `{Elem f64, !HashIter string Group}.

Definition bias_of (s : State) (i : nat) : RxBias := rx_bias (slots s) !!! i.

Lemma learn_other w l sol bs i : i ∉ pk_rx <$> l -> learn w l sol bs !! i = bs !! i.
Proof.
  intros Hi. unfold learn. destruct (_ && _); [|done].
  apply (fold_left_invariant (fun bs' => bs' !! i = bs !! i)); [done|].
  intros bs' [p r] E Hin. cbn [fst]. rewrite list_lookup_alter_ne; [done|]. intros <-. apply Hi.
  apply elem_of_zip_l in Hin. apply list_elem_of_fmap. by exists p.
Qed.

Lemma on_solution_bias s a df17 l track alt now stamp sol i : i ∉ pk_rx <$> l ->
  bias_of (on_solution s a df17 l track alt now stamp sol) i = bias_of s i.
Proof.
  intros Hi. pose proof (fun w => learn_other w l sol (rx_bias (slots s)) i Hi) as Hl. unfold bias_of.
  unfold on_solution. destruct (_ >? _)%f64; [done|]. cbv zeta. destruct (throttled _ _ _); [done|].
  destruct (too_fast _ _ _); [done|]. rewrite !list_lookup_total_alt. destruct df17.
  - unfold self_truth. destruct (_ >? _)%f64; [done|]. cbv zeta.
    destruct (adsb_pos _ !! a) as [[claimed at_]|]; [destruct (_ <? _)%f64|]; cbn; by rewrite Hl.
  - unfold publish, smooth. cbv zeta. destruct (emit_filtered _); [|cbn; by rewrite Hl].
    destruct (filters _ !! a) as [f|]; [destruct (update f _ _ _)|]; cbn; by rewrite Hl.
Qed.

Lemma solve_cluster_quarantined s a df17 local_ref cluster now i : state_ok s ->
  Forall (fun c => rc_rx c < slot_count s)%nat cluster -> quarantined (bias_of s i) = true ->
  bias_of (solve_cluster s a df17 local_ref cluster now) i = bias_of s i.
Proof.
  intros Hok Hlt Hq. destruct (collect_spec s [] cluster Hok Hlt) as [Hd Hf].
  destruct (cap_spec _ _ Hd Hf) as (_ & Hf' & _).
  assert (i ∉ pk_rx <$> cap (collect s [] cluster)) as Hi.
  { intros (p & -> & Hp)%list_elem_of_fmap. rewrite list.Forall_forall in Hf'.
    destruct (Hf' p Hp) as (_ & _ & Hnq & _). unfold bias_of in Hq. congruence. }
  unfold solve_cluster. cbv zeta. destruct (_ <? 4)%nat; [done|]. destruct (_ <? RESOLVE_BACKOFF_S)%f64; [done|].
  destruct (_ && _); [done|]. destruct (alts_ft _ !! a) as [alt|]; [|done].
  destruct (solve_robust _ _ _ _); [|done]. by rewrite on_solution_bias.
Qed.

Lemma solve_group_quarantined s g now s' i : state_ok s -> Forall (fun e => e.1.1 < slot_count s)%nat (g_entries g) ->
  solve_group s g now = Some s' -> quarantined (bias_of s i) = true -> bias_of s' i = bias_of s i.
Proof.
  intros Hok Hg. unfold solve_group. destruct (group_clusters s g) as [[local_ref cs]|] eqn:E; [|done].
  intros [= <-] Hq. pose proof (group_converted s g local_ref cs Hok Hg E) as Hc.
  apply (fold_left_invariant (fun s1 => (state_ok s1 /\ same_slots s s1) /\ bias_of s1 i = bias_of s i)); [done|].
  intros s1 cl [[Hs Hss] Hb] Hcl. rewrite list.Forall_forall in Hc. specialize (Hc cl Hcl).
  assert (converted s1 local_ref cl) as Hc1.
  { destruct Hss as [Hal Hrc _]. unfold converted, slot_count, is_alive in *. by rewrite Hal, Hrc. }
  split; [split; [by apply solve_cluster_ok|eapply same_slots_trans; [exact Hss|apply solve_cluster_same]]|].
  rewrite <- Hb. apply solve_cluster_quarantined; [done| |by rewrite Hb].
  eapply list.Forall_impl; [exact Hc1|]. by intros c [].
Qed.

Lemma sweep_quarantined s window now s' i : state_ok s -> sweep s window now = Some s' ->
  quarantined (bias_of s i) = true -> bias_of s' i = bias_of s i.
Proof.
  intros Hok Es Hq. cut (state_ok s' /\ bias_of s' i = bias_of s i); [by intros []|]. revert Es.
  apply (sweep_invariant (fun s' => state_ok s' /\ bias_of s' i = bias_of s i)); [split; [by apply expire_ok|done]|].
  intros s1 key g s2 [H1 Hb] Eg E. pose proof (st_groups _ H1 _ _ Eg) as Hg.
  pose proof (delete_group_ok key _ H1) as H1'. split; [by eapply solve_group_ok|].
  rewrite <- Hb. change (bias_of s1 i) with (bias_of (set_groups (delete key (groups s1)) s1) i).
  eapply solve_group_quarantined; [done| |exact E|]; [done|]. cbn. by rewrite <- Hb in Hq.
Qed.
End Quarantine.

(** ** A concrete run: five receivers hear one aircraft *)
Section Sample.
#[local] Instance sample_elem : Elem f64 := elem_taylor.

Definition degrees (hundredths : Z) : f64 := (of_Z hundredths / of_Z 100)%f64.
Definition sample_station (u : string) (lat lon : Z) : ReceiverInfo :=
  let g := {| lat_deg := degrees lat; lon_deg := degrees lon; alt_m := fzero |} in {|
  ri_user := u; ri_geo := g; ri_ecef := to_ecef g; ri_freq_hz := of_Z 12000000; ri_gps := false;
  ri_jitter_s := lit 5 10000000 |}.
Definition sample_stations : list ReceiverInfo :=
  [sample_station "a" 30 20; sample_station "b" (-20) 30; sample_station "c" 25 (-30);
   sample_station "d" (-30) (-25); sample_station "e" 10 40].
Definition sample_aircraft : Z := 0x40621D.
Definition sample_config : Config := {|
  shard_id := 0; mlat_adsb := false; emit_filtered := true; t0_unix := of_Z 1700000000; t0_real := 0; time_scale := of_Z 1 |}.
Definition with_stations (s : State) : State := fold_left (fun s info => (add_receiver s info).1) sample_stations s.
Definition sample_five : State :=
  set_alts {[sample_aircraft := 30000]} (set_output (with_stations (State_new sample_config))).
Definition sample_truth : Geodetic f64 := {| lat_deg := degrees 2; lon_deg := degrees 5; alt_m := of_Z 9144 |}.
Definition sample_cluster : list Arrival :=
  imap (fun i info => {| rc_rx := i;
    rc_t := (of_Z 100 + dist (ri_ecef info) (to_ecef sample_truth) / C_MPS)%f64;
    rc_sigma := lit 5 10000000; rc_at := of_Z 1700000001 |}) sample_stations.

Lemma sample_five_ok : state_ok sample_five.
Proof.
  assert (forall l s, state_ok s -> state_ok (fold_left (fun s info => (add_receiver s info).1) l s)) as Hadd.
  { intros l. induction l as [|i l IH]; intros s Hs; [exact Hs|]. apply IH, add_receiver_ok, Hs. }
  unfold sample_five, with_stations. apply set_alts_ok, set_output_ok, Hadd, state_new_ok.
Qed.

Lemma sample_emits : length (emitted (solve_cluster sample_five sample_aircraft false 0 sample_cluster 2000000000)) = 1%nat.
Proof. vm_compute. reflexivity. Qed.

Lemma solve_cluster_output_witness :
  let s' := solve_cluster sample_five sample_aircraft false 0 sample_cluster 2000000000 in
  length (emitted s') = 1%nat /\
  exists l alt stamp sol, gates_passed sample_five sample_aircraft sample_cluster 2000000000 l alt sol /\
    (exists filtered, emitted s' = emitted sample_five ++ [fix_message sample_five sample_aircraft l alt stamp sol filtered]) /\
    tracks s' !! sample_aircraft = Some (fix_track sample_five 2000000000 sol).
Proof.
  cbv zeta. split; [exact sample_emits|].
  destruct (solve_cluster_output sample_five sample_aircraft false 0 sample_cluster 2000000000 sample_five_ok) as [E|E].
  - vm_compute. reflexivity.
  - apply (bool_decide_unpack _). vm_compute. reflexivity.
  - exfalso. pose proof sample_emits as Hn. rewrite E in Hn. vm_compute in Hn. discriminate Hn.
  - exact E.
Defined.

(** Receptions at 1 s, 1.001 s, 1.1 s; and with one at infinity. *)
Definition at_ms (t : Z) : Arrival :=
  {| rc_rx := 0; rc_t := (of_Z t / of_Z 1000)%f64; rc_sigma := fzero; rc_at := fzero |}.
Definition at_infinity : Arrival := {| rc_rx := 0; rc_t := finf; rc_sigma := fzero; rc_at := fzero |}.

Lemma clusters_end_iff_finite_witness :
  (exists cs, clusters 3 (stable_sort time_le [at_ms 1100; at_ms 1000; at_ms 1001]) = Some cs /\
     cut cs (stable_sort time_le [at_ms 1100; at_ms 1000; at_ms 1001]) /\ length cs = 2%nat) /\
  forall fuel, clusters fuel (stable_sort time_le [at_ms 1000; at_infinity]) = None.
Proof.
  split.
  - destruct (proj1 (clusters_end_iff_finite [at_ms 1100; at_ms 1000; at_ms 1001])) as (cs & E & Hcut).
    + apply (bool_decide_unpack _). vm_compute. reflexivity.
    + exists cs. split; [exact E|]. split; [exact Hcut|].
      assert (option_map length (clusters 3 (stable_sort time_le [at_ms 1100; at_ms 1000; at_ms 1001])) = Some 2%nat) as Hl
        by (vm_compute; reflexivity).
      change (length (stable_sort time_le [at_ms 1100; at_ms 1000; at_ms 1001])) with 3%nat in E. rewrite E in Hl.
      injection Hl as Hl. exact Hl.
  - apply (proj2 (clusters_end_iff_finite [at_ms 1000; at_infinity])).
    intros Hf. apply Forall_cons_iff in Hf as [_ Hf]. apply Forall_cons_iff in Hf as [Hf _]. discriminate Hf.
Defined.

(** Such a time can come out of the pair models: after nine observations whose to-times
    grow fast, a finite from-time converts to the infinity. *)
Definition steep : PairModel f64 :=
  push_all PairModel_default ((fun k => (of_Z k, (of_Z k * of_Z (10 ^ 300))%f64)) <$> seqZ 0 9).
Example convert_infinite : exists sigma, convert steep (of_Z (10 ^ 10)) = Some (finf, sigma).
Proof. eexists. vm_compute. reflexivity. Qed.
End Sample.
