(* ===== verification/Shard.v ===== *)
(** * A shard's event loop (crates/mlatd/src/shard.rs)

    [run_shard] owns one [State] and takes its events one at a time: messages
    of the connections and the ticks of the sweep.  The interleaving the
    runtime chooses is the list of events.  Replies are results. *)
From S2P Require Import Prelude F64 Num Text Frames Geo ClockSync Proto ServerState SyncMlat SolveGroup.
Local Open Scope Z_scope.

Section Code.
Context `{Elem f64, Hex, !HashIter string Group, !HashIter (nat * nat) (PairModel f64)}.

Inductive ShardMsg :=
| AddReceiver (info : ReceiverInfo)
| RemoveReceiver (r : RxRef)
| SyncMsg (rx : RxRef) (et ot : f64) (em om : string) (at_scaled : f64)
| MlatMsg (rx : RxRef) (t : f64) (m : string) (at_scaled : f64)
| ClockReset (r : RxRef)
| ReceiverStats (r : RxRef)
| Stats
| SyncJson.

Inductive Reply :=
| NoReply
| Issued (r : RxRef)
| StatsOf (st : option (nat * f64 * bool))
| Totals (receivers : nat) (sync_obs solved rejected : Z)
| Peers (json : gmap string (gmap string (Z * f64))).

(** sync.json: per live receiver, its peers with the observation count and the clock
    difference; the constant columns are left out. *)
Definition sync_json (s : State) : gmap string (gmap string (Z * f64)) :=
  let t := slots s in
  let peers i :=
    fold_left (fun (m : gmap string (Z * f64)) (kp : (nat * nat) * PairModel f64) =>
      if (kp.1.1 =? i)%nat then insert (ri_user (receivers t !!! kp.1.2)) (status kp.2) m else m)
      (hash_iter (pairs s)) (∅ : gmap string (Z * f64)) in
  fold_left (fun (m : gmap string (gmap string (Z * f64))) (i : nat) =>
      if (alive t !!! i : bool) then <[ri_user (receivers t !!! i) := peers i]> m else m)
    (seq 0 (length (receivers t))) ∅.

Inductive Event := Tick | Msg (m : ShardMsg).

(** One round of the loop at time [now]; no result when the sweep does not return. *)
Definition handle (window : Z) (s : State) (ev : Event) (now : Z) : option (State * Reply) :=
  match ev with
  | Tick => s ← sweep s window now; Some (s, NoReply)
  | Msg (AddReceiver info) => let '(s, r) := add_receiver s info in Some (s, Issued r)
  | Msg (RemoveReceiver r) => Some (remove_receiver s r, NoReply)
  | Msg (SyncMsg rx et ot em om at_scaled) => Some (on_sync s rx et ot em om at_scaled now, NoReply)
  | Msg (MlatMsg rx t m at_scaled) => Some (on_mlat s rx t m at_scaled now, NoReply)
  | Msg (ClockReset r) => Some (clock_reset s r, NoReply)
  | Msg (ReceiverStats r) => let '(s, st) := receiver_stats s r in Some (s, StatsOf st)
  | Msg Stats => Some (s, Totals (live_receivers s) (stats_sync_obs s) (stats_solved s) (stats_rejected s))
  | Msg SyncJson => Some (s, Peers (sync_json s))
  end.

Fixpoint run_events (window : Z) (s : State) (evs : list (Event * Z)) : option State :=
  match evs with
  | [] => Some s
  | (ev, now) :: evs => '(s, _) ← handle window s ev now; run_events window s evs
  end.
Definition run_shard (window : Z) (s : State) (evs : list (Event * Z)) : option State :=
  run_events window (set_output s) evs.

(** ** Every event keeps the invariant *)
Lemma handle_ok window s ev now s' rep : state_ok s -> handle window s ev now = Some (s', rep) -> state_ok s'.
Proof.
  intros Hok. destruct ev as [|[info|r|rx et ot em om at_|rx t m at_|r|r| |]]; cbn [handle].
  - destruct (sweep s window now) as [s1|] eqn:E; [|done]. intros [= <- _]. by apply sweep_ok in E as [? _].
  - pose proof (add_receiver_ok s info Hok) as Ha. destruct (add_receiver s info) as [s1 r]. by intros [= <- _].
  - intros [= <- _]. by apply remove_receiver_ok.
  - intros [= <- _]. by apply on_sync_ok.
  - intros [= <- _]. by apply on_mlat_ok.
  - intros [= <- _]. by apply clock_reset_ok.
  - pose proof (receiver_stats_ok s r Hok) as Hr. destruct (receiver_stats s r) as [s1 st]. by intros [= <- _].
  - by intros [= <- _].
  - by intros [= <- _].
Qed.

Lemma run_events_ok window evs s s' : state_ok s -> run_events window s evs = Some s' -> state_ok s'.
Proof.
  revert s. induction evs as [|[ev now] evs IH]; intros s Hok; cbn [run_events]; [by intros [= <-]|].
  destruct (handle window s ev now) as [[s1 rep]|] eqn:E; [|done]. cbn. apply IH. by eapply handle_ok.
Qed.

(** C10: in every state a shard can reach, whatever it is sent and however the messages and
    sweeps interleave: the slot vectors are parallel, the free list holds each dead slot
    once, each user owns at most one live slot; pair models join two distinct live
    receivers and exist in both directions, each with its rejection counter below eight;
    clock offsets belong to live receivers; no syncpoint has more than fifteen reports;
    every queued report and reception names an existing slot; speed rejections stay below
    five. *)
Theorem shard_invariant window c evs s :
  run_shard window (State_new c) evs = Some s -> state_ok s.
Proof. apply run_events_ok, set_output_ok, state_new_ok. Qed.

(** ** Stale references *)
(** A reference whose slot was reused at most [k] times since it was good. *)
Definition stale (k : Z) (r : RxRef) (s : State) : Prop :=
  (rx_idx r < slot_count s)%nat /\ 0 <= rx_gen r < 2 ^ 32 /\
  exists j, 0 <= j <= k /\ gens (slots s) !!! rx_idx r = u32 (rx_gen r + j) /\ (j = 0 -> ~ is_alive s (rx_idx r)).
Definition is_add (ev : Event) : Z := match ev with Msg (AddReceiver _) => 1 | _ => 0 end.
Definition additions (evs : list (Event * Z)) : Z := foldr (fun e n => is_add e.1 + n) 0 evs.

Lemma additions_nonneg evs : 0 <= additions evs.
Proof.
  unfold additions. induction evs as [|[ev t] evs IH]; [done|]. cbn [foldr fst].
  destruct ev as [|[]]; cbn [is_add]; lia.
Qed.

Lemma stale_not_live k r s : state_ok s -> k < 2 ^ 32 -> stale k r s -> live s r = false.
Proof.
  intros Hok Hk (_ & Hg & j & Hj & Ej & Hj0). destruct (live s r) eqn:E; [|done].
  apply live_spec in E as [Ha E]; [|apply Hok]. rewrite Ej in E. unfold wrap in E.
  destruct (decide (j = 0)) as [->|]; [by destruct (Hj0 eq_refl)|].
  change (2 ^ 32) with 4294967296 in *. exfalso. zlia.
Qed.

(** An event that neither registers nor removes a receiver leaves the slots as they are. *)
Definition quiet (ev : Event) : bool := match ev with Msg (AddReceiver _) | Msg (RemoveReceiver _) => false | _ => true end.
Lemma handle_same window s ev now s' rep : state_ok s -> quiet ev = true -> handle window s ev now = Some (s', rep) ->
  same_slots s s'.
Proof.
  intros Hok Hq. destruct ev as [|[info|r|rx et ot em om at_|rx t m at_|r|r| |]]; cbn [handle]; try done.
  - destruct (sweep s window now) as [s1|] eqn:E; [|done]. intros [= <- _]. by apply sweep_ok in E as [_ ?].
  - intros [= <- _]. destruct (live s rx) eqn:El; [|by unfold on_sync; rewrite El].
    destruct (sync_event (receivers (slots s) !!! rx_idx rx) et ot em om) as [e|] eqn:Ee; [|by unfold on_sync; rewrite El, Ee].
    rewrite (on_sync_unfold _ _ _ _ _ _ _ _ e) by done. cbv zeta.
    destruct (before_training_spec s rx e et em at_ now Hok) as (_ & Hsl & _). set (s0 := before_training _ _ _ _ _ _ _) in *.
    assert (forall m, same_slots s (set_syncpoints m s0)) as Hs0
      by (intros x; split; cbn [set_syncpoints set_events slots]; by rewrite Hsl).
    destruct (_ <=? _)%nat; [apply Hs0|]. eapply same_slots_trans; [apply Hs0|apply train_all_same].
  - intros [= <- _]. destruct (on_mlat_clock s rx t m at_ now) as (E & _). by split; rewrite E.
  - intros [= <- _]. unfold clock_reset. by destruct (live s r).
  - unfold receiver_stats. destruct (live s r); cbn [negb]; [|by intros [= <- _]].
    destruct (rx_sync _ !!! _) as [acc rej]. by intros [= <- _].
  - by intros [= <- _].
  - by intros [= <- _].
Qed.

(** An event that is not a registration leaves the generations, and revives no slot. *)
Lemma handle_other window s ev now s' rep : state_ok s -> is_add ev = 0 -> handle window s ev now = Some (s', rep) ->
  gens (slots s') = gens (slots s) /\ slot_count s' = slot_count s /\ (forall i, is_alive s' i -> is_alive s i).
Proof.
  intros Hok Hadd E. destruct (quiet ev) eqn:Hq.
  - destruct (handle_same _ _ _ _ _ _ Hok Hq E) as [Ha Hr Hg]. split_and!; [done|by unfold slot_count; rewrite Hr|].
    intros i. unfold is_alive. by rewrite Ha.
  - destruct ev as [|[info|r|rx et ot em om at_|rx t m at_|r|r| |]]; try done. injection E as <- _.
    destruct (live s r) eqn:El; [|by unfold remove_receiver; rewrite El].
    split_and!; try (unfold remove_receiver; by rewrite El). intros i. by intros [? _]%remove_receiver_alive.
Qed.

Lemma handle_stale window s ev now s' rep k r : state_ok s -> stale k r s -> handle window s ev now = Some (s', rep) ->
  stale (k + is_add ev) r s'.
Proof.
  intros Hok (Hi & Hg & j & Hj & Ej & Hj0) E. destruct (decide (is_add ev = 0)) as [Hz|Hz].
  - destruct (handle_other _ _ _ _ _ _ Hok Hz E) as (Eg & Ec & Ha). split_and!; [by rewrite Ec|lia..|].
    exists j. rewrite Eg. split_and!; [lia..|done|]. intros Hz' Hal. by apply (Hj0 Hz'), Ha.
  - destruct ev as [|[info| | | | | | |]]; try done. cbn [handle is_add] in *.
    destruct (add_receiver_slot s info (rx_idx r) Hok Hi) as [Hc Hs].
    destruct (add_receiver s info) as [s1 r1]. injection E as <- _. cbn [fst] in *.
    split_and!; [lia..|]. destruct Hs as [[Hge Ha]|Hge].
    + exists j. rewrite Hge. split_and!; [lia..|done|]. intros Hz' Hal. by apply (Hj0 Hz'), Ha.
    + exists (j + 1). rewrite Hge, Ej. split_and!; [lia..| |lia].
      unfold wrap. rewrite Zplus_mod_idemp_l. by rewrite Z.add_assoc.
Qed.

Lemma run_stale window evs s s' k r : state_ok s -> stale k r s -> run_events window s evs = Some s' ->
  stale (k + additions evs) r s'.
Proof.
  revert s k. induction evs as [|[ev now] evs IH]; intros s k Hok Hs; cbn [run_events additions foldr fst].
  - intros [= <-]. by rewrite Z.add_0_r.
  - destruct (handle window s ev now) as [[s1 rep]|] eqn:E; [|done]. cbn. intros Hr.
    rewrite Z.add_assoc. eapply IH; [by eapply handle_ok|by eapply handle_stale|done].
Qed.

(** The reference a message carries. *)
Definition sender (m : ShardMsg) : option RxRef :=
  match m with
  | RemoveReceiver r | ClockReset r | ReceiverStats r => Some r
  | SyncMsg r _ _ _ _ _ | MlatMsg r _ _ _ => Some r
  | _ => None
  end.

Lemma not_live_inert window s m now r : live s r = false -> sender m = Some r ->
  exists rep, handle window s (Msg m) now = Some (s, rep).
Proof.
  intros Hl Hs. destruct m; try done; injection Hs as ->; cbn [handle].
  - eexists. unfold remove_receiver. by rewrite Hl.
  - eexists. unfold on_sync. by rewrite Hl.
  - eexists. unfold on_mlat. by rewrite Hl.
  - eexists. unfold clock_reset. by rewrite Hl.
  - unfold receiver_stats. rewrite Hl. by eexists.
Qed.

Lemma live_gen s r : state_ok s -> live s r = true ->
  is_alive s (rx_idx r) /\ (rx_idx r < slot_count s)%nat /\ gens (slots s) !!! rx_idx r = rx_gen r /\ 0 <= rx_gen r < 2 ^ 32.
Proof.
  intros Hok Hl. pose proof (live_alive _ _ Hok Hl) as Ha. pose proof (is_alive_lt _ _ Hok Ha) as Hi.
  apply live_spec in Hl as [_ Hg]; [|apply Hok]. do 3 (split; [done|]). rewrite <- Hg.
  unfold slot_count in Hi. rewrite <- (so_gens _ (st_slots _ Hok)) in Hi.
  destruct (lookup_lt_is_Some_2 _ _ Hi) as [g Eg]. rewrite (list_lookup_total_correct _ _ _ Eg).
  by apply (so_range _ (st_slots _ Hok) (rx_idx r)).
Qed.

(** The event that takes a slot from its reference leaves the reference stale. *)
Lemma lost_stale window s r ev now s1 rep : state_ok s -> live s r = true ->
  handle window s ev now = Some (s1, rep) -> live s1 r = false -> stale 1 r s1.
Proof.
  intros Hok Hl E Hl1. destruct (live_gen _ _ Hok Hl) as (Ha & Hi & Hg & Hrange).
  pose proof (handle_ok _ _ _ _ _ _ Hok E) as Hok1.
  assert (u32 (rx_gen r + 0) = rx_gen r) as E0 by (rewrite Z.add_0_r; by apply wrap_small).
  assert (gens (slots s1) !!! rx_idx r = rx_gen r -> ~ is_alive s1 (rx_idx r)) as Hdead.
  { intros Hg1 Hi1. assert (live s1 r = true) as H1 by (apply live_spec; [apply Hok1|done]). congruence. }
  destruct (decide (is_add ev = 0)) as [Hz|Hz].
  - destruct (handle_other _ _ _ _ _ _ Hok Hz E) as (Eg & Ec & _). split_and!; [by rewrite Ec|lia..|].
    exists 0. rewrite Eg, E0. split_and!; [lia..|done|]. intros _. apply Hdead. by rewrite Eg.
  - destruct ev as [|[info| | | | | | |]]; try done. cbn [handle] in E.
    destruct (add_receiver_slot s info (rx_idx r) Hok Hi) as [Hc Hs].
    destruct (add_receiver s info) as [s' r']. injection E as -> _. cbn [fst] in *.
    split_and!; [lia..|]. destruct Hs as [[Hge _]|Hge].
    + exists 0. rewrite Hge, E0. split_and!; [lia..|done|]. intros _. apply Hdead. by rewrite Hge.
    + exists 1. rewrite Hge, Hg. split_and!; [lia..|done|lia].
Qed.

(** C12: once a connection's reference has lost its slot, by its removal or because its
    user connected again, it stays dead: through any later events, as long as fewer than
    2^32 - 1 receivers register, it never names a live slot, and every message that
    carries it leaves the whole state as it is. *)
Theorem lost_slot_is_lost window s r ev now s1 rep evs s2 :
  state_ok s -> live s r = true -> handle window s ev now = Some (s1, rep) -> live s1 r = false ->
  run_events window s1 evs = Some s2 -> additions evs < 2 ^ 32 - 1 ->
  live s2 r = false /\
  forall m now', sender m = Some r -> exists rep', handle window s2 (Msg m) now' = Some (s2, rep').
Proof.
  intros Hok Hl E Hl1 Er Hn.
  pose proof (handle_ok _ _ _ _ _ _ Hok E) as Hok1. pose proof (run_events_ok _ _ _ _ Hok1 Er) as Hok2.
  assert (live s2 r = false) as Hl2.
  { apply (stale_not_live (1 + additions evs)); [done|lia|].
    eapply run_stale; [exact Hok1| |exact Er]. by apply (lost_stale window s r ev now s1 rep). }
  split; [done|]. intros m now' Hm. by eapply not_live_inert.
Qed.

(** ** Quarantine *)
Lemma handle_quarantined window s ev now s' rep i : state_ok s -> is_add ev = 0 ->
  handle window s ev now = Some (s', rep) -> quarantined (bias_of s i) = true -> bias_of s' i = bias_of s i.
Proof.
  intros Hok Hadd E Hq. unfold bias_of in *.
  destruct ev as [|[info|r|rx et ot em om at_|rx t m at_|r|r| |]]; cbn [handle] in E; try done.
  - destruct (sweep s window now) as [s1|] eqn:Es; [|done]. injection E as <- _.
    by apply (sweep_quarantined s window now s1 i).
  - injection E as <- _. unfold remove_receiver. by destruct (live s r).
  - injection E as <- _. by rewrite on_sync_bias.
  - injection E as <- _. by rewrite (proj1 (on_mlat_clock s rx t m at_ now)).
  - injection E as <- _. unfold clock_reset. by destruct (live s r).
  - unfold receiver_stats in E. destruct (live s r); cbn [negb] in E; [|by injection E as <- _].
    destruct (rx_sync _ !!! _) as [acc rej]. by injection E as <- _.
  - by injection E as <- _.
  - by injection E as <- _.
Qed.

(** A quarantined receiver stays quarantined: as long as no receiver registers, no
    event changes what the solver learned about it, so it is never used again before its
    slot is reused. *)
Theorem quarantine_is_final window s evs s' i : state_ok s -> quarantined (bias_of s i) = true ->
  additions evs = 0 -> run_events window s evs = Some s' ->
  bias_of s' i = bias_of s i /\ quarantined (bias_of s' i) = true.
Proof.
  intros Hok Hq Hadd E. assert (bias_of s' i = bias_of s i) as Hb; [|by rewrite Hb].
  revert s Hok Hq Hadd E. induction evs as [|[ev now] evs IH]; intros s Hok Hq Hadd; cbn [run_events]; [by intros [= <-]|].
  destruct (handle window s ev now) as [[s1 rep]|] eqn:E; [|done]. cbn. intros Er.
  pose proof (additions_nonneg evs).
  cbn [additions foldr fst] in Hadd. fold (additions evs) in Hadd.
  assert (0 <= is_add ev) by (clear; destruct ev as [|[]]; cbn; lia).
  pose proof (handle_quarantined window s ev now s1 rep i Hok ltac:(lia) E Hq) as Hb1. rewrite <- Hb1.
  apply IH; [by eapply handle_ok|by rewrite Hb1|lia|done].
Qed.

(** ** The sync export *)
Definition peers_of (s : State) (i : nat) : gmap string (Z * f64) :=
  fold_left (fun (m : gmap string (Z * f64)) (kp : (nat * nat) * PairModel f64) =>
    if (kp.1.1 =? i)%nat then insert (ri_user (receivers (slots s) !!! kp.1.2)) (status kp.2) m else m)
    (hash_iter (pairs s)) ∅.

Lemma user_slot s i j : state_ok s -> is_alive s i -> is_alive s j ->
  ri_user (receivers (slots s) !!! i) = ri_user (receivers (slots s) !!! j) -> i = j.
Proof.
  intros Hok Hi Hj E. pose proof (proj2 (so_user _ (st_slots _ Hok) _ i) (conj Hi eq_refl)) as Ei.
  pose proof (proj2 (so_user _ (st_slots _ Hok) _ j) (conj Hj eq_refl)) as Ej. congruence.
Qed.

Lemma peers_of_spec s i v x : state_ok s ->
  peers_of s i !! v = Some x <->
  exists j m, by_user (slots s) !! v = Some j /\ pairs s !! (i, j) = Some m /\ x = status m.
Proof.
  intros Hok. unfold peers_of.
  pose proof (fold_insert_lookup (fun kp : (nat * nat) * PairModel f64 => (kp.1.1 =? i)%nat)
    (fun kp => ri_user (receivers (slots s) !!! kp.1.2)) (fun kp => status kp.2) (hash_iter (pairs s)) v x) as E.
  cbv beta in E. rewrite E; clear E.
  - split.
    + intros ([[a b] m] & Hin%elem_of_hash_iter & Ea%Nat.eqb_eq & <- & <-). cbn [fst snd] in *. subst a.
      exists b, m. split; [|done]. apply (so_user _ (st_slots _ Hok)). split; [|done]. by apply (st_pairs _ Hok _ _ _ Hin).
    + intros (j & m & Hv & Hm & ->). exists ((i, j), m). cbn [fst snd]. rewrite elem_of_hash_iter, Nat.eqb_refl.
      split_and!; try done. by apply (so_user _ (st_slots _ Hok)) in Hv as [_ ?].
  - intros [[a b] m] [[a' b'] m'] Hin%elem_of_hash_iter Hin'%elem_of_hash_iter. cbn [fst snd].
    intros Ea%Nat.eqb_eq Ea'%Nat.eqb_eq Eu. subst a a'.
    assert (b = b') as -> by (apply (user_slot s); [done|by apply (st_pairs _ Hok _ _ _ Hin)|by apply (st_pairs _ Hok _ _ _ Hin')|done]).
    congruence.
Qed.

(** Whatever the iteration order of the pair table, sync.json lists exactly the users
    of live slots, and under each exactly the users it has a pair model with, with that
    model's observation count and clock difference. *)
Theorem sync_json_lists_live_pairs s u : state_ok s ->
  match by_user (slots s) !! u with
  | None => sync_json s !! u = None
  | Some i => exists peers, sync_json s !! u = Some peers /\
      forall v x, peers !! v = Some x <->
        exists j m, by_user (slots s) !! v = Some j /\ pairs s !! (i, j) = Some m /\ x = status m
  end.
Proof.
  intros Hok. assert (forall peers, sync_json s !! u = Some peers <->
    exists i, by_user (slots s) !! u = Some i /\ peers_of s i = peers) as Hj.
  { intros peers. unfold sync_json. cbv zeta.
    pose proof (fold_insert_lookup (fun i => alive (slots s) !!! i) (fun i => ri_user (receivers (slots s) !!! i))
      (peers_of s) (seq 0 (length (receivers (slots s)))) u peers) as E.
    cbv beta in E. unfold peers_of in E at 1. rewrite E; clear E.
    - split.
      + intros (i & Hi%elem_of_seq & Ha & <- & <-). exists i. split; [|done]. apply (so_user _ (st_slots _ Hok)).
        split; [|done]. destruct (alive_bool (slots s) i) as [->|E%lookup_ge_None]; [by rewrite Ha|].
        rewrite (so_alive _ (st_slots _ Hok)) in E. lia.
      + intros (i & Hi & <-). apply (so_user _ (st_slots _ Hok)) in Hi as [Ha Hu]. exists i. rewrite elem_of_seq.
        pose proof (is_alive_lt _ _ Hok Ha). unfold slot_count in *. split_and!; [lia..| |done|done].
        by apply list_lookup_total_correct.
    - intros i j Hi%elem_of_seq Hj%elem_of_seq Ha Hb. apply user_slot; [done|..]; unfold is_alive.
      + destruct (alive_bool (slots s) i) as [->|E%lookup_ge_None]; [by rewrite Ha|].
        rewrite (so_alive _ (st_slots _ Hok)) in E. lia.
      + destruct (alive_bool (slots s) j) as [->|E%lookup_ge_None]; [by rewrite Hb|].
        rewrite (so_alive _ (st_slots _ Hok)) in E. lia. }
  destruct (by_user (slots s) !! u) as [i|].
  - exists (peers_of s i). split; [apply Hj; by exists i|]. intros v x. by apply peers_of_spec.
  - destruct (sync_json s !! u) as [p|]; [|done]. by destruct (proj1 (Hj p) eq_refl) as (i & ? & _).
Qed.
End Code.

(** ** A concrete run: two receivers, a shared pair of frames, sweeps, a reconnection *)
Section Sample.
#[local] Instance shard_elem : Elem f64 := elem_taylor.
#[local] Instance shard_hex : Hex := hex_tree.
#[local] Instance shard_groups : HashIter string Group := hash_iter_list string Group.
#[local] Instance shard_pairs : HashIter (nat * nat) (PairModel f64) := hash_iter_list (nat * nat) (PairModel f64).

Definition ms : Z := 1000000.
Definition shard_events : list (Event * Z) := [
  (Msg (AddReceiver (sample_info "a" 6379000)), 1 * ms);
  (Msg (AddReceiver (sample_info "b" 6380000)), 2 * ms);
  (Msg (SyncMsg ref_a (of_Z 12000000) (of_Z 18000000) em_hex om_hex (of_Z 1700000001)), 3 * ms);
  (Tick, 10 * ms);
  (Msg (SyncMsg ref_b (of_Z 24000000) (of_Z 30000000) em_hex om_hex (of_Z 1700000001)), 12 * ms);
  (Msg (ReceiverStats ref_a), 15 * ms); (Tick, 2000 * ms)].
Definition window : Z := 900 * ms.

Lemma shard_invariant_witness : exists s,
  run_shard window (State_new sample_config) shard_events = Some s /\ state_ok s /\
  size (pairs s) = 2%nat /\ size (groups s) = 0%nat.
Proof.
  assert (option_map (fun s => (size (pairs s), size (groups s))) (run_shard window (State_new sample_config) shard_events)
    = Some (2%nat, 0%nat)) as Hn by (vm_compute; reflexivity).
  destruct (run_shard window (State_new sample_config) shard_events) as [s|] eqn:E; [|discriminate Hn].
  injection Hn as Hp Hg. exists s. split; [reflexivity|]. split; [|split; assumption].
  exact (shard_invariant window sample_config shard_events s E).
Defined.

(** User "a" connects again; its first reference stays dead through later events. *)
Lemma lost_slot_is_lost_witness : exists s2,
  run_events window (add_receiver sample_reported (sample_info "a" 6379500)).1 shard_events = Some s2 /\
  live s2 ref_a = false /\
  exists rep, handle window s2 (Msg (SyncMsg ref_a fzero fzero em_hex om_hex fzero)) 0 = Some (s2, rep).
Proof.
  assert (is_Some (run_events window (add_receiver sample_reported (sample_info "a" 6379500)).1 shard_events)) as Hs.
  { apply (bool_decide_unpack _). vm_compute. reflexivity. }
  destruct (run_events window (add_receiver sample_reported (sample_info "a" 6379500)).1 shard_events) as [s2|] eqn:E;
    [|destruct Hs as [x Hx]; discriminate Hx].
  exists s2. split; [reflexivity|].
  destruct (add_receiver sample_reported (sample_info "a" 6379500)) as [s1 r1] eqn:Ea. cbn [fst] in E.
  destruct (lost_slot_is_lost window sample_reported ref_a (Msg (AddReceiver (sample_info "a" 6379500))) 0 s1 (Issued r1)
    shard_events s2 sample_reported_ok) as [Hl Hm].
  - vm_compute. reflexivity.
  - cbn [handle]. rewrite Ea. reflexivity.
  - replace s1 with (add_receiver sample_reported (sample_info "a" 6379500)).1 by (rewrite Ea; reflexivity).
    vm_compute. reflexivity.
  - exact E.
  - reflexivity.
  - split; [exact Hl|]. apply Hm. reflexivity.
Defined.

Lemma sync_json_lists_live_pairs_witness :
  exists peers, sync_json sample_reported !! "a"%string = Some peers /\
    forall v x, peers !! v = Some x <->
      exists j m, by_user (slots sample_reported) !! v = Some j /\ pairs sample_reported !! (0%nat, j) = Some m /\ x = status m.
Proof.
  pose proof (sync_json_lists_live_pairs sample_reported "a" sample_reported_ok) as H.
  assert (by_user (slots sample_reported) !! "a"%string = Some 0%nat) as E by (vm_compute; reflexivity).
  rewrite E in H. exact H.
Defined.

(** A receiver whose learned scatter is 2 us, after thirty solves. *)
Definition sample_suspect : State :=
  set_slots (set_rx_bias (alter (fun _ => {| bias_s := fzero; mad_s := lit 2 1000000; rb_n := 30 |}) 1%nat)) sample_reported.
Lemma quarantine_is_final_witness : exists s',
  run_events window sample_suspect (drop 2 shard_events) = Some s' /\ quarantined (bias_of s' 1) = true.
Proof.
  assert (state_ok sample_suspect) as Hok.
  { apply (set_rx_ok sample_reported (fun l => l) _ (fun l => eq_refl) (fun l => length_alter _ l 1%nat) sample_reported_ok). }
  assert (is_Some (run_events window sample_suspect (drop 2 shard_events))) as Hs.
  { apply (bool_decide_unpack _). vm_compute. reflexivity. }
  destruct (run_events window sample_suspect (drop 2 shard_events)) as [s'|] eqn:E;
    [|destruct Hs as [x Hx]; discriminate Hx].
  exists s'. split; [reflexivity|].
  apply (quarantine_is_final window sample_suspect (drop 2 shard_events) s' 1 Hok).
  - vm_compute. reflexivity.
  - reflexivity.
  - exact E.
Defined.
End Sample.
