(* ===== verification/Router.v ===== *)
(** * Assigning receivers to shards (crates/mlatd/src/shard.rs)

    The router keeps, per geographic cell, the owning shard and the receivers
    that came through it, and splits crowded cells.  The shards' counters are
    atomics that other tasks also write; the mutex makes a call of [shard_for]
    one step, and the writes of the other tasks are steps of their own. *)
From S2P Require Import Prelude F64.
Local Open Scope Z_scope.

(** The counters of a [ShardHandle]. *)
Record Load := { l_receivers : Z; l_rate : Z }.
#[export] Instance Load_inhabited : Inhabited Load := populate {| l_receivers := 0; l_rate := 0 |}.

(** (level, lat index, lon index): a level is an integer of 8 bits, the indices of 16. *)
Definition CellKey : Type := Z * Z * Z.
Definition MIN_CELL_DEG : f64 := of_Z 2.
Definition SPLIT_AT : Z := 64.
Definition CAP_RATE_PER_WINDOW : Z := 50000.

Record CellMap := { owner : gmap CellKey nat; rx_count : gmap CellKey Z; split : gset CellKey }.
Definition CellMap_default : CellMap := {| owner := ∅; rx_count := ∅; split := ∅ |}.

Record Router := { shards : list Load; base_deg : f64; rt_cap : Z; cells : CellMap }.
Definition Router_new (n : nat) (base : f64) (cap : Z) : Router :=
  {| shards := replicate n {| l_receivers := 0; l_rate := 0 |}; base_deg := base; rt_cap := cap;
     cells := CellMap_default |}.

Section Code.
Context `{!HashIter nat nat, !HashIter CellKey nat}.
Implicit Types r : Router.

(** [1u32 << level]: the shift is by the level modulo the width of the integer. *)
Definition cell_size r (level : Z) : f64 := (base_deg r / of_Z (Z.shiftl 1 (level mod 32)))%f64.
Definition cell_at r (level : Z) (lat lon : f64) : CellKey :=
  let size := cell_size r level in
  (level, as_i16 (ffloor (lat / size)%f64), as_i16 (ffloor (lon / size)%f64)).
Definition splittable r (level : Z) : bool := (cell_size r (u8 (level + 1)) >=? MIN_CELL_DEG)%f64.

(** The deepest unsplit cell on the way down from a level; [None]: the descent goes round the
    256 levels for ever. *)
Fixpoint leaf_loop (fuel : nat) r (lat lon : f64) (level : Z) : option CellKey :=
  let key := cell_at r level lat lon in
  if negb (bool_decide (key ∈ split (cells r))) then Some key
  else match fuel with O => None | S fuel => leaf_loop fuel r lat lon (u8 (level + 1)) end.
Definition leaf_at r (lat lon : f64) : option CellKey := leaf_loop (size (split (cells r))) r lat lon 0.

(** The levels of the leaf, deepest first. *)
Definition owner_at r (lat lon : f64) : option nat :=
  leaf ← leaf_at r lat lon;
  head (omap (fun level => owner (cells r) !! cell_at r level lat lon) (reverse (seqZ 0 (leaf.1.1 + 1)))).

Definition has_capacity r (shard : nat) : bool :=
  let h := shards r !!! shard in (l_receivers h <? rt_cap r) && (l_rate h <? CAP_RATE_PER_WINDOW).
Definition load_of r (shard : nat) : Z * Z := let h := shards r !!! shard in (l_rate h, l_receivers h).

(** [max_by_key] on (votes, u64::MAX - rate, usize::MAX - rx): the last of the largest. *)
Definition vote_key r (v : nat * nat) : Z * Z * Z :=
  let '(rate, rx) := load_of r v.1 in (Z.of_nat v.2, u64_max - rate, usize_max - rx).
Definition key_le (a b : Z * Z * Z) : bool :=
  let '(a1, a2, a3) := a in let '(b1, b2, b3) := b in
  (a1 <? b1) || (a1 =? b1) && ((a2 <? b2) || (a2 =? b2) && (a3 <=? b3)).
Definition best_vote r (votes : gmap nat nat) : option nat :=
  match hash_iter votes with
  | [] => None
  | v :: l => Some (fold_left (fun best y => if key_le (vote_key r best) (vote_key r y) then y else best) l v).1
  end.

(** [min_by_key] on the load: the first of the smallest. *)
Definition load_lt (a b : Z * Z) : bool := (a.1 <? b.1) || (a.1 =? b.1) && (a.2 <? b.2).
Definition lightest r : nat :=
  match seq 0 (length (shards r)) with
  | [] => 0%nat
  | s :: l => fold_left (fun best y => if load_lt (load_of r y) (load_of r best) then y else best) l s
  end.

(** The votes of the eight neighbours of a cell. *)
Definition neighbours r (key : CellKey) : list (f64 * f64) :=
  let '(level, y, x) := key in
  let size := cell_size r level in
  let clat := ((of_Z y + lit 1 2) * size)%f64 in
  let clon := ((of_Z x + lit 1 2) * size)%f64 in
  dy ← [-1; 0; 1]; dx ← [-1; 0; 1];
  if (dx =? 0) && (dy =? 0) then [] else [((clat + of_Z dy * size)%f64, (clon + of_Z dx * size)%f64)].
Definition add_vote r (votes : gmap nat nat) (p : f64 * f64) : gmap nat nat :=
  match owner_at r p.1 p.2 with
  | Some n => if has_capacity r n then <[n := S (default 0%nat (votes !! n))]> votes else votes
  | None => votes
  end.
Definition votes_for r (key : CellKey) : gmap nat nat := fold_left (add_vote r) (neighbours r key) ∅.

(** The shard a cell without an owner goes to. *)
Definition claim r (key : CellKey) (lat lon : f64) : nat :=
  match best_vote r (votes_for r key) with
  | Some i => i
  | None => default (lightest r) (owner_at r lat lon)
  end.

Definition set_cells r (m : CellMap) : Router :=
  {| shards := shards r; base_deg := base_deg r; rt_cap := rt_cap r; cells := m |}.
Definition set_shards r (l : list Load) : Router :=
  {| shards := l; base_deg := base_deg r; rt_cap := rt_cap r; cells := cells r |}.

(** The cell gained a receiver; a crowded cell splits. *)
Definition count_receiver r (key : CellKey) (idx : nat) : CellMap :=
  let m := cells r in
  let count := default 0 (rx_count m !! key) + 1 in
  {| owner := <[key := idx]> (owner m);
     rx_count := <[key := count]> (rx_count m);
     split := if (SPLIT_AT <? count) && splittable r key.1.1 then {[key]} ∪ split m else split m |}.

Definition shard_for r (lat lon : f64) : option (Router * nat) :=
  key ← leaf_at r lat lon;
  let idx := match owner (cells r) !! key with Some i => i | None => claim r key lat lon end in
  let r := set_cells r (count_receiver r key idx) in
  let bump h := {| l_receivers := u64 (l_receivers h + 1); l_rate := l_rate h |} in
  Some (set_shards r (alter bump idx (shards r)), idx).

Definition owner_of_point r (lat lon : f64) : option nat := owner_at r lat lon.

(** The other tasks: a connection's teardown, and the stats task. *)
Definition release r (idx : nat) : Router :=
  set_shards r (alter (fun h => {| l_receivers := u64 (l_receivers h - 1); l_rate := l_rate h |}) idx (shards r)).
Definition store_rate r (idx : nat) (rate : Z) : Router :=
  set_shards r (alter (fun h => {| l_receivers := l_receivers h; l_rate := rate |}) idx (shards r)).

(** The rows of the partition dump, sorted as tuples. *)
Definition row_le (a b : CellKey * nat * Z) : bool :=
  let '(ka, sa, na) := a in let '(kb, sb, nb) := b in
  if decide (ka = kb) then (sa <? sb)%nat || (sa =? sb)%nat && (na <=? nb) else key_le ka kb.
Definition partition_dump r : list (CellKey * nat * Z) :=
  stable_sort row_le
    ((fun kv => (kv.1, kv.2, default 0 (rx_count (cells r) !! kv.1))) <$> hash_iter (owner (cells r))).
End Code.

(** ** Cells *)
Section Cells.
Implicit Types r : Router.

Lemma cell_at_level r level lat lon : (cell_at r level lat lon).1.1 = level.
Proof. done. Qed.

(** No cell of level 30 or deeper is split: the sizes of deeper cells are below the minimum. *)
Definition shallow r : Prop := forall k, k ∈ split (cells r) -> k.1.1 < 30.

(** The cells on the way down are distinct, so the descent ends below the split cells. *)
Lemma leaf_loop_stuck fuel r lat lon level : 0 <= level -> leaf_loop fuel r lat lon level = None ->
  forall i, level <= i <= level + Z.of_nat fuel -> i <= 255 -> cell_at r i lat lon ∈ split (cells r).
Proof.
  revert level. induction fuel as [|fuel IH]; intros level Hl; cbn [leaf_loop];
    case_bool_decide as E; cbn [negb]; try done; intros Hs i Hi Hm.
  - by replace i with level by lia.
  - destruct (decide (i = level)) as [->|]; [done|]. rewrite wrap_small in Hs by lia. apply (IH (level + 1)); [lia|done|lia|done].
Qed.

Lemma leaf_loop_some fuel r lat lon level leaf : shallow r -> 0 <= level <= 30 -> leaf_loop fuel r lat lon level = Some leaf ->
  leaf ∉ split (cells r) /\ level <= leaf.1.1 <= 30 /\ leaf = cell_at r leaf.1.1 lat lon.
Proof.
  intros Hsh. revert level. induction fuel as [|fuel IH]; intros level Hl; cbn [leaf_loop];
    case_bool_decide as E; cbn [negb]; try done.
  - intros [= <-]. rewrite cell_at_level. split_and!; [done|lia|lia|done].
  - pose proof (Hsh _ E) as Hlt. rewrite cell_at_level in Hlt. rewrite wrap_small by lia.
    intros (H1 & H2 & H3)%IH; [|lia]. split_and!; [done|lia|lia|done].
  - intros [= <-]. rewrite cell_at_level. split_and!; [done|lia|lia|done].
Qed.

Lemma leaf_at_total r lat lon : shallow r -> exists leaf, leaf_at r lat lon = Some leaf.
Proof.
  intros Hsh. unfold leaf_at. destruct (leaf_loop _ r lat lon 0) as [leaf|] eqn:E; [by exists leaf|]. exfalso.
  set (n := size (split (cells r))) in *. pose proof (leaf_loop_stuck _ _ _ _ 0 ltac:(lia) E) as Hin.
  assert (Z.of_nat n < 30) as Hn30.
  { destruct (Z.lt_ge_cases (Z.of_nat n) 30) as [|Hge]; [done|]. assert (cell_at r 30 lat lon ∈ split (cells r)) as Hk by (apply Hin; lia).
    apply Hsh in Hk. rewrite cell_at_level in Hk. lia. }
  set (path := list_to_set ((fun i => cell_at r i lat lon) <$> seqZ 0 (Z.of_nat n + 1)) : gset CellKey).
  assert (size path = S n) as Hs.
  { unfold path. rewrite size_list_to_set; [rewrite length_fmap, length_seqZ; lia|].
    apply NoDup_fmap_2_strong; [|apply NoDup_seqZ]. intros i j _ _ E'. by apply (f_equal (fun k => k.1.1)) in E'. }
  assert (path ⊆ split (cells r)) as Hsub.
  { intros k Hk. apply elem_of_list_to_set, list_elem_of_fmap in Hk as (i & -> & Hi%elem_of_seqZ). apply Hin; lia. }
  apply subseteq_size in Hsub. fold n in Hsub. lia.
Qed.
Lemma leaf_at_spec r lat lon leaf : shallow r -> leaf_at r lat lon = Some leaf ->
  leaf ∉ split (cells r) /\ 0 <= leaf.1.1 <= 30 /\ leaf = cell_at r leaf.1.1 lat lon.
Proof. intros Hsh. by apply leaf_loop_some. Qed.

(** The owner of a point owns one of the cells around it. *)
Lemma owner_at_some r lat lon i : owner_at r lat lon = Some i ->
  exists level, owner (cells r) !! cell_at r level lat lon = Some i.
Proof.
  unfold owner_at. destruct (leaf_at r lat lon) as [leaf|]; [|done]. cbn [mbind option_bind].
  intros Hh. apply head_Some_elem_of, list_elem_of_omap in Hh as (level & Hl & Ho).
  by exists level.
Qed.
Lemma owner_at_leaf r lat lon leaf i : shallow r -> leaf_at r lat lon = Some leaf -> owner (cells r) !! leaf = Some i ->
  owner_at r lat lon = Some i.
Proof.
  intros Hsh Hl Ho. pose proof (leaf_at_spec _ _ _ _ Hsh Hl) as (_ & Hlev & Hc). unfold owner_at. rewrite Hl.
  cbn [mbind option_bind].
  assert (seqZ 0 (leaf.1.1 + 1) = seqZ 0 leaf.1.1 ++ [leaf.1.1]) as ->
    by (by rewrite (seqZ_app 0 leaf.1.1 1), (seqZ_cons _ 1) by lia).
  rewrite reverse_app. cbn. rewrite <- Hc, Ho. done.
Qed.
End Cells.

(** ** The choice of a shard for a new cell *)
Section Choice.
Context `{!HashIter nat nat}.
Implicit Types r : Router.

(** The neighbours of a cell that an eligible shard owns. *)
Definition eligible r (i : nat) (p : f64 * f64) : Prop := owner_at r p.1 p.2 = Some i /\ has_capacity r i = true.
#[export] Instance eligible_dec r i p : Decision (eligible r i p).
Proof. unfold eligible. apply _. Defined.
Definition support r (key : CellKey) (i : nat) : nat := length (filter (eligible r i) (neighbours r key)).

Lemma votes_spec r key i : votes_for r key !! i = if decide (support r key i = 0%nat) then None else Some (support r key i).
Proof.
  unfold votes_for, support. induction (neighbours r key) as [|p l IH] using rev_ind; [done|].
  rewrite fold_left_snoc, list.filter_app, length_app. set (v := fold_left _ l ∅) in *. unfold add_vote.
  destruct (owner_at r p.1 p.2) as [n|] eqn:Eo.
  - destruct (has_capacity r n) eqn:Ec.
    + destruct (decide (i = n)) as [->|Hne].
      * rewrite lookup_insert_eq, filter_cons_True, filter_nil by done. simpl.
        rewrite IH. case_decide as D1; case_decide as D2; simpl; try lia; f_equal; lia.
      * rewrite lookup_insert_ne by (by apply not_eq_sym). rewrite filter_cons_False, filter_nil; [simpl; by rewrite Nat.add_0_r|].
        intros [[= ->]%(eq_trans (eq_sym Eo)) _]. by destruct Hne.
    + rewrite filter_cons_False, filter_nil; [simpl; by rewrite Nat.add_0_r|]. intros [Ho Hc]. congruence.
  - rewrite filter_cons_False, filter_nil; [simpl; by rewrite Nat.add_0_r|]. intros [Ho Hc]. congruence.
Qed.

Lemma support_pos r key i : support r key i <> 0%nat <-> exists p, p ∈ neighbours r key /\ eligible r i p.
Proof.
  unfold support. split.
  - intros Hn. destruct (filter (eligible r i) (neighbours r key)) as [|p l] eqn:E; [done|].
    assert (p ∈ filter (eligible r i) (neighbours r key)) as Hf by (rewrite E; by left).
    apply list_elem_of_filter in Hf as [? ?]. by exists p.
  - intros (p & Hp & He) E%length_zero_iff_nil. assert (p ∈ filter (eligible r i) (neighbours r key)) as Hf
      by by apply list_elem_of_filter. rewrite E in Hf. by apply elem_of_nil in Hf.
Qed.

Lemma key_le_total a b : if key_le a b then key_le a b = true else key_le b a = true.
Proof. destruct (key_le a b) eqn:E; [done|]. destruct a as [[? ?] ?], b as [[? ?] ?]. unfold key_le in *. lia. Qed.
Lemma key_le_refl a : key_le a a = true.
Proof. destruct a as [[? ?] ?]. unfold key_le. lia. Qed.
Lemma key_le_trans a b c : key_le a b = true -> key_le b c = true -> key_le a c = true.
Proof. destruct a as [[? ?] ?], b as [[? ?] ?], c as [[? ?] ?]. unfold key_le. lia. Qed.

(** [i] is at least as well supported as [j], or as well and no more loaded. *)
Definition preferred r key (i j : nat) : Prop :=
  (support r key j < support r key i)%nat \/
  support r key j = support r key i /\ load_lt (load_of r j) (load_of r i) = false.

Lemma best_vote_some r key i : best_vote r (votes_for r key) = Some i ->
  support r key i <> 0%nat /\ forall j, support r key j <> 0%nat -> preferred r key i j.
Proof.
  unfold best_vote. destruct (hash_iter (votes_for r key)) as [|v l] eqn:E; [done|]. intros [= <-].
  destruct (fold_best (fun best y => key_le (vote_key r best) (vote_key r y))
    (fun a b => key_le (vote_key r a) (vote_key r b) = true)
    (fun x => key_le_refl _) (fun x y z => key_le_trans _ _ _) (fun b y => key_le_total _ _) l v) as [Hin Hbest].
  set (m := fold_left _ l v) in *.
  assert (forall j n, (j, n) ∈ v :: l <-> support r key j <> 0%nat /\ n = support r key j) as Hel.
  { intros j n. rewrite <- E, elem_of_hash_iter, votes_spec. case_decide; naive_solver. }
  destruct m as [mi mn]. apply Hel in Hin as [Hm ->]. split; [done|]. intros j Hj.
  specialize (Hbest (j, support r key j) ltac:(by apply Hel)). unfold vote_key, preferred, load_lt in *.
  cbn [fst snd] in *. destruct (load_of r j) as [rj xj], (load_of r mi) as [ri xi]. unfold key_le in Hbest. cbn [fst snd]. lia.
Qed.
Lemma best_vote_none r key : best_vote r (votes_for r key) = None -> forall j, support r key j = 0%nat.
Proof.
  unfold best_vote. destruct (hash_iter (votes_for r key)) as [|v l] eqn:E; [|done]. intros _ j.
  destruct (decide (support r key j = 0%nat)) as [|Hj]; [done|].
  assert ((j, support r key j) ∈ hash_iter (votes_for r key)) as Hin
    by (apply elem_of_hash_iter; rewrite votes_spec; by case_decide).
  rewrite E in Hin. by apply elem_of_nil in Hin.
Qed.

Lemma lightest_spec r : (0 < length (shards r))%nat ->
  (lightest r < length (shards r))%nat /\
  forall j, (j < length (shards r))%nat -> load_lt (load_of r j) (load_of r (lightest r)) = false.
Proof.
  intros Hn. unfold lightest. destruct (seq 0 (length (shards r))) as [|s l] eqn:E.
  - apply (f_equal length) in E. rewrite length_seq in E. simpl in E. lia.
  - destruct (fold_best (fun best y => load_lt (load_of r y) (load_of r best))
      (fun a b => load_lt (load_of r a) (load_of r b) = false)) with (l := l) (x := s) as [Hin Hle].
    + intros x. unfold load_lt. lia.
    + intros x y z. unfold load_lt. lia.
    + intros b y. destruct (load_lt (load_of r y) (load_of r b)) eqn:El; [|done]. unfold load_lt in *. lia.
    + rewrite <- E in Hin, Hle. apply elem_of_seq in Hin. split; [lia|].
      intros j Hj. apply Hle, elem_of_seq. lia.
Qed.

(** A cell without an owner goes to the eligible shard (below its receiver cap and its
    rate limit) that owns most of its eight neighbours, the less loaded one on a tie; when
    no neighbour has an eligible owner, to the owner of an enclosing cell, full or not; and
    when there is none either, to the least loaded shard. *)
Theorem claim_choice r key lat lon : (0 < length (shards r))%nat ->
  let i := claim r key lat lon in
  ((exists p, p ∈ neighbours r key /\ eligible r i p) /\
     forall j, (exists p, p ∈ neighbours r key /\ eligible r j p) -> preferred r key i j) \/
  (forall j p, p ∈ neighbours r key -> ~ eligible r j p) /\
  (owner_at r lat lon = Some i \/
   owner_at r lat lon = None /\ (i < length (shards r))%nat /\
     forall j, (j < length (shards r))%nat -> load_lt (load_of r j) (load_of r i) = false).
Proof.
  intros Hn. unfold claim. destruct (best_vote r (votes_for r key)) as [i|] eqn:E.
  - apply best_vote_some in E as [Hi Hj]. left. split; [by apply support_pos|].
    intros j Hp%support_pos. by apply Hj.
  - pose proof (best_vote_none _ _ E) as Hz. right. split.
    + intros j p Hp He. assert (support r key j <> 0%nat) as Hs by (apply support_pos; by exists p). by rewrite Hz in Hs.
    + destruct (owner_at r lat lon) as [i|]; [by left|right]. split; [done|]. by apply lightest_spec.
Qed.
End Choice.

(** ** Runs of the router *)
Section Runs.
Context `{!HashIter nat nat}.
Implicit Types r : Router.

Record router_ok r : Prop := {
  rk_shards : (0 < length (shards r))%nat;
  rk_owner k i : owner (cells r) !! k = Some i -> (i < length (shards r))%nat;
  rk_split k : k ∈ split (cells r) -> is_Some (owner (cells r) !! k)
}.

Lemma router_new_ok n base cap : (0 < n)%nat -> router_ok (Router_new n base cap).
Proof. intros Hn. split; cbn; [by rewrite length_replicate|done|set_solver]. Qed.

Lemma owner_at_lt r lat lon i : router_ok r -> owner_at r lat lon = Some i -> (i < length (shards r))%nat.
Proof. intros Hok (level & Ho)%owner_at_some. by eapply rk_owner. Qed.

Lemma claim_lt r key lat lon : router_ok r -> (claim r key lat lon < length (shards r))%nat.
Proof.
  intros Hok. unfold claim. destruct (best_vote r (votes_for r key)) as [i|] eqn:E.
  - apply best_vote_some in E as [Hi _]. apply support_pos in Hi as (p & _ & Ho & _). by eapply owner_at_lt.
  - destruct (owner_at r lat lon) as [i|] eqn:Eo; cbn; [by eapply owner_at_lt|by apply lightest_spec, Hok].
Qed.

(** One call: the receiver's leaf cell has an owner afterwards, which no call changes. *)
Lemma shard_for_spec r lat lon r' i : router_ok r -> shard_for r lat lon = Some (r', i) ->
  exists leaf, leaf_at r lat lon = Some leaf /\ (i < length (shards r))%nat /\ router_ok r' /\ length (shards r') = length (shards r) /\
    owner (cells r') = <[leaf := i]> (owner (cells r)) /\
    (forall j, owner (cells r) !! leaf = Some j -> i = j).
Proof.
  intros Hok. unfold shard_for. destruct (leaf_at r lat lon) as [leaf|] eqn:Hl; [|done]. cbn [mbind option_bind]. intros [= <- <-].
  set (i := match owner (cells r) !! leaf with Some i => i | None => claim r leaf lat lon end).
  assert (i < length (shards r))%nat as Hi.
  { unfold i. destruct (owner (cells r) !! leaf) eqn:E; [by eapply rk_owner|by apply claim_lt]. }
  exists leaf. split; [done|]. split; [done|]. split.
  - split; cbn [shards set_shards set_cells cells count_receiver owner split]; rewrite ?length_alter; [apply Hok| |].
    + intros k j [[<- <-]|[_ Hj]]%lookup_insert_Some; [done|by eapply rk_owner].
    + intros k Hk. destruct (decide (k = leaf)) as [->|Hne]; [rewrite lookup_insert_eq; by eexists|].
      rewrite lookup_insert_ne by done. apply (rk_split _ Hok). destruct (_ && _); set_solver.
  - split; [apply length_alter|]. split; [done|]. intros j Hj. unfold i. by rewrite Hj.
Qed.

(** The receivers a shard is counted to have. *)
Definition receivers_of r (i : nat) : Z := l_receivers (shards r !!! i).
Lemma shard_for_counts r lat lon r' i : shard_for r lat lon = Some (r', i) -> (i < length (shards r))%nat ->
  forall j, receivers_of r' j = if decide (j = i) then u64 (receivers_of r i + 1) else receivers_of r j.
Proof.
  unfold shard_for. destruct (leaf_at r lat lon) as [key|]; [|done]. cbn [mbind option_bind]. intros [= <- Ei] Hi j.
  rewrite Ei in *. unfold receivers_of. cbn [set_shards set_cells shards].
  case_decide as E; [subst j; by rewrite list_lookup_total_alter, decide_True|by rewrite list_lookup_total_alter_ne].
Qed.
Lemma release_counts r i : (i < length (shards r))%nat ->
  forall j, receivers_of (release r i) j = if decide (j = i) then u64 (receivers_of r i - 1) else receivers_of r j.
Proof.
  intros Hi j. unfold receivers_of, release. cbn [set_shards shards].
  case_decide as E; [subst j; by rewrite list_lookup_total_alter, decide_True|by rewrite list_lookup_total_alter_ne].
Qed.
Lemma store_rate_counts r i rate j : receivers_of (store_rate r i rate) j = receivers_of r j.
Proof.
  unfold receivers_of, store_rate. cbn [set_shards shards]. destruct (decide (j = i)) as [->|]; [|by rewrite list_lookup_total_alter_ne].
  destruct (decide (i < length (shards r))%nat) as [Hi|Hi].
  - by rewrite list_lookup_total_alter, decide_True.
  - by rewrite !list_lookup_total_alt, list_lookup_alter_eq, (lookup_ge_None_2 _ _ (proj1 (Nat.nlt_ge _ _) Hi)).
Qed.

(** The calls of connections, teardowns and the stats task, in any order. *)
Inductive router_step r : Router -> Prop :=
| step_claim lat lon r' i : shard_for r lat lon = Some (r', i) -> router_step r r'
| step_release i : router_step r (release r i)
| step_rate i rate : router_step r (store_rate r i rate).

Lemma router_step_ok r r' : router_ok r -> router_step r r' ->
  router_ok r' /\ length (shards r') = length (shards r) /\
  forall k i, owner (cells r) !! k = Some i -> owner (cells r') !! k = Some i.
Proof.
  intros Hok [lat lon r1 i E|i|i rate].
  - destruct (shard_for_spec r lat lon _ _ Hok E) as (leaf & _ & _ & Hok' & Hn & How & Hk). split_and!; [done|done|]. intros k m Hm. rewrite How.
    destruct (decide (k = leaf)) as [->|]; [rewrite lookup_insert_eq; f_equal; by apply Hk|by rewrite lookup_insert_ne].
  - split_and!; [|by apply length_alter|done]. split; cbn [shards release store_rate set_shards cells]; rewrite ?length_alter; apply Hok.
  - split_and!; [|by apply length_alter|done]. split; cbn [shards release store_rate set_shards cells]; rewrite ?length_alter; apply Hok.
Qed.
Lemma router_run_ok r r' : router_ok r -> rtc router_step r r' ->
  router_ok r' /\ length (shards r') = length (shards r) /\
  forall k i, owner (cells r) !! k = Some i -> owner (cells r') !! k = Some i.
Proof.
  intros Hok Hr. induction Hr as [|r1 r2 r3 Hs Hr IH]; [done|].
  destruct (router_step_ok _ _ Hok Hs) as (Hok2 & Hn & Hk). destruct (IH Hok2) as (? & ? & Hk'). split_and!; [done|congruence|].
  intros k i Hi. by apply Hk', Hk.
Qed.

Lemma shallow_new n base cap : shallow (Router_new n base cap).
Proof. intros k. cbn. set_solver. Qed.

(** The levels: a base of less than 2^32 degrees is below the minimum after thirty-one halvings. *)
Definition base_ok (base : f64) : Prop := (base / of_Z (2 ^ 31) >=? MIN_CELL_DEG)%f64 = false.
#[export] Instance base_ok_dec base : Decision (base_ok base).
Proof. unfold base_ok. apply _. Defined.
Lemma shard_for_total r lat lon : shallow r -> is_Some (shard_for r lat lon).
Proof. intros Hsh. destruct (leaf_at_total r lat lon Hsh) as [leaf Hl]. unfold shard_for. rewrite Hl. cbn [mbind option_bind]. by eexists. Qed.
Lemma shard_for_shallow r lat lon r' i : base_ok (base_deg r) -> shallow r -> shard_for r lat lon = Some (r', i) ->
  base_ok (base_deg r') /\ shallow r'.
Proof.
  intros Hb Hsh. unfold shard_for. destruct (leaf_at r lat lon) as [leaf|] eqn:Hl; [|done]. cbn [mbind option_bind]. intros [= <- _].
  split; [done|]. destruct (leaf_at_spec _ _ _ _ Hsh Hl) as (_ & Hlev & _). intros k. cbn [set_shards set_cells cells count_receiver split].
  destruct (_ && _) eqn:Es; [|apply Hsh]. intros [->%elem_of_singleton|?]%elem_of_union; [|by apply Hsh].
  apply andb_prop in Es as [_ Es]. destruct (decide (leaf.1.1 = 30)) as [E30|]; [|lia]. exfalso.
  rewrite E30 in Es. unfold splittable, cell_size in Es. change (of_Z (Z.shiftl 1 (u8 (30 + 1) mod 32))) with (of_Z (2 ^ 31)) in Es.
  unfold base_ok in Hb. congruence.
Qed.
Lemma router_run_shallow r r' : base_ok (base_deg r) -> shallow r -> rtc router_step r r' -> shallow r'.
Proof.
  intros Hb Hsh Hr. induction Hr as [|r1 r2 r3 Hs Hr IH]; [done|]. apply IH; [|].
  - destruct Hs as [lat lon r2 i E|i|i rate]; [by eapply shard_for_shallow|done|done].
  - destruct Hs as [lat lon r2 i E|i|i rate]; [by eapply shard_for_shallow|done|done].
Qed.
Lemma base_kept r r' : rtc router_step r r' -> base_deg r' = base_deg r.
Proof.
  induction 1 as [|r1 r2 r3 Hs _ IH]; [done|]. rewrite IH. destruct Hs as [lat lon r2 i E|i|i rate]; [|done|done].
  revert E. unfold shard_for. destruct (leaf_at r1 lat lon); [|done]. cbn [mbind option_bind]. by intros [= <- _].
Qed.

(** C33: with cells of less than 2^32 degrees, the router always answers, with an existing
    shard and without a shift past the width of its integers, whatever connections, teardowns
    and load reports came before; and it is sticky: in any later state every receiver
    whose leaf cell has been claimed is sent to the shard that claimed it. *)
Theorem router_sticky n base cap r lat lon : (0 < n)%nat -> base_ok base -> rtc router_step (Router_new n base cap) r ->
  exists r' i leaf, shard_for r lat lon = Some (r', i) /\ leaf_at r lat lon = Some leaf /\ (i < n)%nat /\ 0 <= leaf.1.1 <= 30 /\
    forall r2 lat2 lon2, rtc router_step r' r2 -> leaf_at r2 lat2 lon2 = Some leaf ->
      owner_of_point r2 lat2 lon2 = Some i /\
      exists r3, shard_for r2 lat2 lon2 = Some (r3, i).
Proof.
  intros Hn Hb Hr. destruct (router_run_ok _ _ (router_new_ok n base cap Hn) Hr) as (Hok & Hlen & _).
  assert (shallow r) as Hsh by (by apply (router_run_shallow (Router_new n base cap)); [|apply shallow_new|]).
  destruct (shard_for_total r lat lon Hsh) as [[r' i] E].
  destruct (shard_for_spec r lat lon r' i Hok E) as (leaf & Hl & Hi & Hok' & Hn' & How & _).
  assert (base_ok (base_deg r)) as Hbr by (by rewrite (base_kept _ _ Hr)).
  destruct (shard_for_shallow _ _ _ _ _ Hbr Hsh E) as [Hb' Hsh'].
  rewrite Hlen in Hi. cbn in Hi. rewrite length_replicate in Hi.
  pose proof (leaf_at_spec _ _ _ _ Hsh Hl) as (_ & [Hlo Hhi] & _).
  exists r', i, leaf. split_and!; [done..|]. intros r2 lat2 lon2 Hr2 Hl2.
  destruct (router_run_ok _ _ Hok' Hr2) as (Hok2 & _ & Hk). pose proof (router_run_shallow _ _ Hb' Hsh' Hr2) as Hsh2.
  assert (owner (cells r2) !! leaf = Some i) as Ho by (apply Hk; rewrite How; apply lookup_insert_eq).
  split; [by eapply owner_at_leaf|]. destruct (shard_for_total r2 lat2 lon2 Hsh2) as [[r3 j] E3].
  destruct (shard_for_spec r2 lat2 lon2 r3 j Hok2 E3) as (leaf' & Hl3 & _ & _ & _ & _ & Hj).
  assert (leaf' = leaf) as -> by congruence. exists r3. rewrite E3. do 2 f_equal. by apply Hj.
Qed.
End Runs.

(** ** Concrete runs *)
Section Sample.
#[local] Instance votes_order : HashIter nat nat := hash_iter_list nat nat.

(** A sequence of calls, with the shards chosen. *)
Fixpoint claims (r : Router) (l : list (Z * Z)) : option (Router * list nat) :=
  match l with
  | [] => Some (r, [])
  | (lat, lon) :: l =>
      '(r, i) ← shard_for r (of_Z lat / of_Z 10)%f64 (of_Z lon / of_Z 10)%f64;
      '(r, js) ← claims r l; Some (r, i :: js)
  end.
Definition sample_router : Router := Router_new 4 (of_Z 8) 1000.

(** A cell joins its neighbour's shard; a crowded cell splits and its child inherits. *)
Example neighbours_join : snd <$> claims sample_router [(470, -10); (475, 75)] = Some [0; 0]%nat.
Proof. vm_compute. reflexivity. Qed.
Example crowded_cell_splits :
  (fun x => (length (nodup Nat.eq_dec x.2), leaf_at x.1 (of_Z 1) (of_Z 100) )) <$>
    claims sample_router (replicate 65 (13, 1038) ++ [(69, 1001)])
  = Some (1%nat, Some (1, 0, 25)).
Proof. vm_compute. reflexivity. Qed.

(** The children of a split cell need not go home: with the parent's shard at its rate
    limit, the child next to another shard's cell is claimed by that shard. *)
Example split_child_moves :
  ('(r, i) ← shard_for sample_router (of_Z 4) (of_Z 4);
   let r := store_rate r i CAP_RATE_PER_WINDOW in
   '(r, j) ← shard_for r (of_Z 4) (of_Z 12);
   '(r, _) ← claims r (replicate 64 (40, 40));
   '(_, k) ← shard_for r (of_Z 4) (of_Z 7);
   Some (i, j, k, owner_at r (of_Z 4) (of_Z 7))) = Some (0, 1, 1, Some 0)%nat.
Proof. vm_compute. reflexivity. Qed.

(** With cells of an infinite size every level can split; once all of them have, a receiver is
    never answered. *)
Example descent_never_ends : let all := list_to_set ((fun level => (level, 0, 0)) <$> seqZ 0 256) : gset CellKey in
  leaf_at (set_cells (Router_new 1 (S754_infinity false) 64) {| owner := ∅; rx_count := ∅; split := all |}) (of_Z 47) (of_Z (-1)) = None /\
  splittable (Router_new 1 (S754_infinity false) 64) 255 = true /\ ~ base_ok (S754_infinity false) /\ base_ok (of_Z 5).
Proof. cbv zeta. split; [vm_compute; reflexivity|]. split; [vm_compute; reflexivity|]. split; [vm_compute; discriminate|vm_compute; reflexivity]. Qed.

Lemma router_sticky_witness :
  exists r', shard_for sample_router (of_Z 47) (of_Z (-1)) = Some (r', 0%nat) /\
    exists r3, shard_for r' (of_Z 47) (of_Z (-1)) = Some (r3, 0%nat).
Proof.
  destruct (router_sticky 4 (of_Z 8) 1000 sample_router (of_Z 47) (of_Z (-1)) ltac:(lia) ltac:(vm_compute; reflexivity) (rtc_refl _ _))
    as (r' & i & leaf & E & Hl & _ & _ & H).
  assert (snd <$> shard_for sample_router (of_Z 47) (of_Z (-1)) = Some 0%nat) as Hi by (vm_compute; reflexivity).
  rewrite E in Hi. injection Hi as ->. exists r'. split; [exact E|].
  apply (H r' (of_Z 47) (of_Z (-1)) (rtc_refl _ _)).
  assert (forall r1, fst <$> shard_for sample_router (of_Z 47) (of_Z (-1)) = Some r1 -> leaf_at r1 (of_Z 47) (of_Z (-1))
    = leaf_at sample_router (of_Z 47) (of_Z (-1))) as Hsame.
  { intros r1 Er1. vm_compute in Er1. injection Er1 as <-. vm_compute. reflexivity. }
  rewrite <- Hl. apply Hsame. rewrite E. reflexivity.
Defined.

Lemma claim_choice_witness : (0 < length (shards sample_router))%nat /\
  claim sample_router (0, 5, -1) (of_Z 47) (of_Z (-1)) = 0%nat /\
  owner_at sample_router (of_Z 47) (of_Z (-1)) = None.
Proof.
  destruct (claim_choice sample_router (0, 5, -1) (of_Z 47) (of_Z (-1)) ltac:(vm_compute; lia)) as [[(p & _ & Ho & _) _]|[_ _]].
  - exfalso. destruct (owner_at_some _ _ _ _ Ho) as (level & Hc). vm_compute in Hc. discriminate Hc.
  - split; [vm_compute; lia|]. split; vm_compute; reflexivity.
Defined.
End Sample.
