(* ===== verification/Calendar.v ===== *)
(** * The date of an SBS row (crates/mlatd/src/state.rs, sbs_datetime)

    The code walks year by year and month by month.  Its result is proved to be
    the one proleptic Gregorian date whose day number, by the closed formula
    [days_from_civil], is the day it was given. *)
From S2P Require Import Prelude F64 Text Decimal.
Local Open Scope Z_scope.

(** The test for leap years, with the remainders of the language. *)
Definition leap_year (y : Z) : bool :=
  (Z.rem y 4 =? 0) && negb (Z.rem y 100 =? 0) || (Z.rem y 400 =? 0).
Definition year_len (y : Z) : Z := if leap_year y then 366 else 365.

(** The year loop: a year costs 365 days or more. *)
Fixpoint year_loop (fuel : nat) (y rem : Z) : option (Z * Z) :=
  let len := year_len y in
  if rem <? len then Some (y, rem)
  else match fuel with O => None | S fuel => year_loop fuel (y + 1) (rem - len) end.

Definition month_lens (leap : bool) : list Z :=
  [31; if leap then 29 else 28; 31; 30; 31; 30; 31; 31; 30; 31; 30; 31].
(** The month loop; past the table the index is out of range. *)
Fixpoint month_loop (ml : list Z) (m : nat) (rem : Z) : option (nat * Z) :=
  match ml with
  | [] => None
  | len :: ml => if len <=? rem then month_loop ml (S m) (rem - len) else Some (m, rem)
  end.

Definition civil_of_days (days : Z) : option (Z * Z * Z) :=
  '(y, rem) ← year_loop (Z.to_nat (days / 365)) 1970 days;
  '(m, rem) ← month_loop (month_lens (leap_year y)) 0 rem;
  Some (y, Z.of_nat m + 1, rem + 1).

Definition sbs_date (days : Z) : option string :=
  '(y, m, d) ← civil_of_days days;
  Some (String.append (fmt_0n 4 y) (String.append "/" (String.append (fmt_0n 2 m) (String.append "/" (fmt_0n 2 d))))).
Definition sbs_time (unix : f64) (secs : Z) : string :=
  let tod := secs mod 86400 in
  let frac := as_i64 ((unix - of_Z secs) * of_Z 1000)%f64 in
  String.append (fmt_0n 2 (tod / 3600)) (String.append ":" (String.append (fmt_0n 2 (tod / 60 mod 60))
    (String.append ":" (String.append (fmt_0n 2 (tod mod 60)) (String.append "." (fmt_0n 3 frac)))))).
Definition sbs_datetime (unix : f64) : option (string * string) :=
  let secs := as_i64 unix in
  d ← sbs_date (Z.quot secs 86400); Some (d, sbs_time unix secs).

(** ** The reference: the day number of a date, 1970-01-01 being day 0 *)
Definition leaps_before (y : Z) : Z := (y - 1) / 4 - (y - 1) / 100 + (y - 1) / 400.
Definition year_start (y : Z) : Z := 365 * (y - 1970) + leaps_before y - leaps_before 1970.
Definition month_len (y m : Z) : Z := nth (Z.to_nat (m - 1)) (month_lens (leap_year y)) 0.
Definition month_start (y m : Z) : Z := foldr Z.add 0 (take (Z.to_nat (m - 1)) (month_lens (leap_year y))).
Definition days_from_civil (y m d : Z) : Z := year_start y + month_start y m + d - 1.
Definition valid_date (y m d : Z) : Prop := 1 <= m <= 12 /\ 1 <= d <= month_len y m.

Section Facts.

Lemma leap_year_spec y : 0 <= y ->
  year_len y = 365 + leaps_before (y + 1) - leaps_before y.
Proof.
  intros Hy. unfold year_len, leap_year, leaps_before. rewrite !Z.rem_mod_nonneg by lia.
  replace (y + 1 - 1) with y by lia.
  destruct (Z.eqb_spec (y mod 4) 0), (Z.eqb_spec (y mod 100) 0), (Z.eqb_spec (y mod 400) 0); cbn [andb orb negb]; zlia.
Qed.
Lemma year_start_succ y : 0 <= y -> year_start (y + 1) = year_start y + year_len y.
Proof. intros Hy. rewrite leap_year_spec by done. unfold year_start. lia. Qed.
Lemma year_len_range y : 365 <= year_len y <= 366.
Proof. unfold year_len. destruct (leap_year y); lia. Qed.
Lemma year_start_mono y z : 0 <= y <= z -> year_start y + (z - y) * 365 <= year_start z.
Proof.
  intros [Hy Hz]. replace z with (y + Z.of_nat (Z.to_nat (z - y))) by lia.
  induction (Z.to_nat (z - y)) as [|n IH]; [rewrite Z.add_0_r; lia|].
  replace (y + Z.of_nat (S n)) with (y + Z.of_nat n + 1) by lia. rewrite year_start_succ by lia.
  pose proof (year_len_range (y + Z.of_nat n)). lia.
Qed.

(** The loop ends within its fuel, in the year the day belongs to. *)
Lemma year_loop_spec fuel y rem : 0 <= y -> 0 <= rem < 365 * (Z.of_nat fuel + 1) ->
  exists y' rem', year_loop fuel y rem = Some (y', rem') /\ y <= y' /\ 0 <= rem' < year_len y' /\
    year_start y' + rem' = year_start y + rem.
Proof.
  revert y rem. induction fuel as [|fuel IH]; intros y rem Hy Hr; cbn [year_loop]; pose proof (year_len_range y).
  - destruct (Z.ltb_spec rem (year_len y)); [|lia]. exists y, rem. split_and!; lia || done.
  - destruct (Z.ltb_spec rem (year_len y)); [exists y, rem; split_and!; lia || done|].
    destruct (IH (y + 1) (rem - year_len y)) as (y' & rem' & E & H1 & H2 & H3); [lia..|].
    exists y', rem'. rewrite year_start_succ in H3 by done. split_and!; lia || done.
Qed.

Lemma month_loop_spec ml m rem : 0 <= rem < foldr Z.add 0 ml ->
  exists k r, month_loop ml m rem = Some ((m + k)%nat, r) /\ (k < length ml)%nat /\
    0 <= r < nth k ml 0 /\ foldr Z.add 0 (take k ml) + r = rem.
Proof.
  revert m rem. induction ml as [|len ml IH]; intros m rem Hr; cbn [foldr month_loop] in *; [lia|].
  destruct (Z.leb_spec len rem).
  - destruct (IH (S m) (rem - len)) as (k & r & E & Hk & Hr' & Hs); [lia|].
    exists (S k), r. rewrite Nat.add_succ_r. cbn. split_and!; [done|lia|lia|lia|cbn in *; lia].
  - exists 0%nat, rem. rewrite Nat.add_0_r. cbn. split_and!; [done|lia..].
Qed.
Lemma month_lens_sum y : foldr Z.add 0 (month_lens (leap_year y)) = year_len y.
Proof. unfold year_len. by destruct (leap_year y). Qed.

Lemma civil_of_days_spec days : 0 <= days ->
  exists y m d, civil_of_days days = Some (y, m, d) /\ 1970 <= y /\ valid_date y m d /\ days_from_civil y m d = days.
Proof.
  intros Hd. unfold civil_of_days.
  destruct (year_loop_spec (Z.to_nat (days / 365)) 1970 days) as (y & rem & -> & Hy & Hr & Hs); [lia|zlia|].
  destruct (month_loop_spec (month_lens (leap_year y)) 0 rem) as (k & r & E & Hk & Hr' & Hm); [by rewrite month_lens_sum|].
  cbn [mbind option_bind]. rewrite E. cbn [mbind option_bind]. change (length _) with 12%nat in Hk.
  exists y, (Z.of_nat k + 1), (r + 1). unfold valid_date, days_from_civil, month_len, month_start.
  replace (Z.to_nat (Z.of_nat k + 1 - 1)) with k by lia. change (year_start 1970) with 0 in Hs.
  split_and!; lia || done.
Qed.

(** Valid dates are ordered as their day numbers, so a day has one date. *)
Lemma month_start_bound y m d : valid_date y m d -> 0 <= month_start y m + d - 1 < year_len y.
Proof.
  intros [Hm Hd]. unfold month_len, month_start, year_len in *.
  assert (exists k, (k < 12)%nat /\ m = Z.of_nat k + 1) as (k & Hk & ->) by (exists (Z.to_nat (m - 1)); lia).
  replace (Z.to_nat (Z.of_nat k + 1 - 1)) with k in * by lia.
  destruct (leap_year y); do 12 (destruct k as [|k]; [cbn in *; lia|]); lia.
Qed.
Lemma month_unique y m d m' d' : valid_date y m d -> valid_date y m' d' ->
  month_start y m + d = month_start y m' + d' -> m = m' /\ d = d'.
Proof.
  intros [Hm Hd] [Hm' Hd']. unfold month_len, month_start in *.
  assert (exists k, (k < 12)%nat /\ m = Z.of_nat k + 1) as (k & Hk & ->) by (exists (Z.to_nat (m - 1)); lia).
  assert (exists k, (k < 12)%nat /\ m' = Z.of_nat k + 1) as (k' & Hk' & ->) by (exists (Z.to_nat (m' - 1)); lia).
  replace (Z.to_nat (Z.of_nat k + 1 - 1)) with k in * by lia.
  replace (Z.to_nat (Z.of_nat k' + 1 - 1)) with k' in * by lia. clear Hm Hm'.
  destruct (leap_year y);
    do 12 (destruct k as [|k]; [do 12 (destruct k' as [|k']; [cbn in *; lia|]); lia|]); lia.
Qed.
Lemma civil_unique y m d y' m' d' : 1970 <= y -> 1970 <= y' -> valid_date y m d -> valid_date y' m' d' ->
  days_from_civil y m d = days_from_civil y' m' d' -> (y, m, d) = (y', m', d').
Proof.
  intros Hy Hy' Hv Hv' E. unfold days_from_civil in E.
  pose proof (month_start_bound _ _ _ Hv). pose proof (month_start_bound _ _ _ Hv').
  assert (y = y') as <-.
  { destruct (Z.lt_trichotomy y y') as [Hlt|[|Hlt]]; [|done|].
    - pose proof (year_start_mono (y + 1) y' ltac:(lia)). rewrite year_start_succ in * by lia. lia.
    - pose proof (year_start_mono (y' + 1) y ltac:(lia)). rewrite year_start_succ in * by lia. lia. }
  destruct (month_unique y m d m' d' Hv Hv' ltac:(lia)) as [-> ->]. done.
Qed.

(** C36: for every day from 1970 on, the loops end within their fuel without indexing past
    the table of months, and give (y, m, d) exactly when it is the Gregorian date whose
    day number by the closed formula is that day. *)
Theorem civil_of_days_iff days y m d : 0 <= days ->
  civil_of_days days = Some (y, m, d) <-> 1970 <= y /\ valid_date y m d /\ days_from_civil y m d = days.
Proof.
  intros Hd. destruct (civil_of_days_spec days Hd) as (y' & m' & d' & E & Hy & Hv & Hdays). rewrite E. split.
  - intros [= <- <- <-]. done.
  - intros (H1 & H2 & H3). f_equal. apply civil_unique; congruence.
Qed.

(** The time of day: its fields are in range and make up the seconds. *)
Lemma tod_fields secs : let tod := secs mod 86400 in
  0 <= tod / 3600 < 24 /\ 0 <= tod / 60 mod 60 < 60 /\ 0 <= tod mod 60 < 60 /\
  tod = 3600 * (tod / 3600) + 60 * (tod / 60 mod 60) + tod mod 60.
Proof. cbv zeta. zlia. Qed.

Lemma civil_of_days_total days : is_Some (civil_of_days days).
Proof.
  destruct (decide (0 <= days)) as [Hd|Hd].
  - destruct (civil_of_days_spec days Hd) as (? & ? & ? & -> & _). by eexists.
  - unfold civil_of_days. replace (Z.to_nat (days / 365)) with 0%nat by zlia. cbn [year_loop].
    pose proof (year_len_range 1970). destruct (Z.ltb_spec days (year_len 1970)); [|lia].
    cbn [mbind option_bind]. change (leap_year 1970) with false. cbn [month_lens month_loop].
    destruct (Z.leb_spec 31 days); [lia|]. by eexists.
Qed.
Lemma sbs_datetime_total unix : is_Some (sbs_datetime unix).
Proof.
  unfold sbs_datetime, sbs_date. destruct (civil_of_days_total (Z.quot (as_i64 unix) 86400)) as [[[y m] d] ->]. by eexists.
Qed.
End Facts.

Example sbs_datetime_samples :
  sbs_datetime (lit 1788177600500 1000) = Some ("2026/08/31", "12:00:00.500")%string /\
  sbs_datetime (of_Z 951782400) = Some ("2000/02/29", "00:00:00.000")%string.
Proof. split; vm_compute; reflexivity. Qed.
(** Before 1970 the day of the month is not one. *)
Example sbs_datetime_negative : sbs_datetime (of_Z (-86400)) = Some ("1970/01/00", "00:00:00.000")%string.
Proof. vm_compute. reflexivity. Qed.

Lemma civil_of_days_iff_witness : civil_of_days 11016 = Some (2000, 2, 29).
Proof. apply (civil_of_days_iff 11016 2000 2 29); [lia|]. vm_compute. repeat split; discriminate. Defined.
