(* ===== verification/Results.v ===== *)
(** * The text of results and their parsers

    The rows an accepted fix is written as (crates/mlatd/src/state.rs): the CSV row and its
    smoothed twin, the SBS line, the result message, and the self-truth row; and the parsers
    that read them for scoring (crates/mb-metrics/src/lib.rs, crates/mb-proto/src/sbs.rs). *)
From S2P Require Import Prelude F64 Text Decimal Num Geo ServerState Calendar.
From Stdlib Require Import Ascii.
Local Open Scope Z_scope.

Fixpoint sconcat (l : list string) : string :=
  match l with [] => EmptyString | s :: l => String.append s (sconcat l) end.
Definition char_text (c : ascii) : string := String c EmptyString.

(** ** Writing *)
Definition row_text (stamp : f64) (icao : Z) (pos : Geodetic f64) (alt_ft : Z) (err_m : f64) (n : nat)
    (users : list string) : string :=
  sconcat [fmt_fixed 3 stamp; ","; to_hex icao; ",,,"; fmt_fixed 5 (lat_deg pos); ","; fmt_fixed 5 (lon_deg pos); ",";
    fmt_int alt_ft; ","; fmt_fixed 1 err_m; ","; fmt_nat (Z.of_nat n); ","; fmt_nat (Z.of_nat n); ",";
    char_text QUOTE; String.concat "," users; char_text QUOTE; ",";
    fmt_nat (saturating_sub (Z.of_nat n) 4); ","; char_text NEWLINE]%string.
Definition csv_line (r : OutRow) : string :=
  row_text (or_stamp r) (or_icao r) (or_pos r) (or_alt_ft r) (or_err_m r) (or_n r) (or_users r).
Definition filtered_line (r : OutRow) : option string :=
  (fun sm => row_text (or_stamp r) (or_icao r) sm (or_alt_ft r) (or_err_m r) (or_n r) (or_users r)) <$> or_filtered r.

Definition sbs_line (r : OutRow) : option string :=
  '(d, tm) ← sbs_datetime (or_stamp r);
  Some (sconcat ["MSG,3,1,1,"; to_uppercase (to_hex (or_icao r)); ",1,"; d; ","; tm; ","; d; ","; tm; ",,";
    fmt_int (or_alt_ft r); ",,,"; fmt_fixed 5 (lat_deg (or_pos r)); ","; fmt_fixed 5 (lon_deg (or_pos r));
    ",,,,,,0"; char_text CR; char_text NEWLINE]%string).

(** A member of the result message, its name between quotes. *)
Definition jkey (k : string) : string := sconcat [char_text QUOTE; k; char_text QUOTE; ":"]%string.
Definition result_line (r : OutRow) : string :=
  sconcat ["{"; jkey "result"; "{"; jkey "@"; fmt_fixed 3 (or_stamp r); ",";
    jkey "addr"; char_text QUOTE; to_hex (or_icao r); char_text QUOTE; ",";
    jkey "lat"; fmt_fixed 5 (lat_deg (or_pos r)); ","; jkey "lon"; fmt_fixed 5 (lon_deg (or_pos r)); ",";
    jkey "alt"; fmt_int (or_alt_ft r); ","; jkey "callsign"; "null,"; jkey "squawk"; "null,";
    jkey "hdop"; "0.0,"; jkey "vdop"; "0.0,"; jkey "tdop"; "0.0,"; jkey "gdop"; "0.0,";
    jkey "nstations"; fmt_nat (Z.of_nat (or_n r)); "}}"; char_text NEWLINE]%string.
Definition self_truth_line (stamp : f64) (icao : Z) (err err_est : f64) (n : nat) : string :=
  sconcat [fmt_fixed 3 stamp; ","; to_hex icao; ","; fmt_fixed 1 err; ","; fmt_fixed 1 err_est; ",";
    fmt_nat (Z.of_nat n); char_text NEWLINE]%string.

(** ** Reading *)
(** [Icao::from_hex]. *)
Definition from_hex (s : string) : option Z :=
  v ← from_str_radix16 (trim s); if v <=? 0xFFFFFF then Some v else None.

Record CsvRow := {
  t_wall : f64; cr_icao : Z; cr_lat : f64; cr_lon : f64; cr_alt_ft : option f64; cr_err_est_m : option f64;
  n_receivers : option Z; distinct_receivers : option Z
}.
(** One line; [None] where the loop continues. *)
Definition parse_csv_line (line : string) : option CsvRow :=
  let f := split_on COMMA line in
  if (length f <? 10)%nat then None
  else
    t ← parse_f64 (f !!! 0%nat); icao ← from_hex (f !!! 1%nat);
    lat ← parse_f64 (f !!! 4%nat); lon ← parse_f64 (f !!! 5%nat);
    Some {| t_wall := t; cr_icao := icao; cr_lat := lat; cr_lon := lon;
            cr_alt_ft := parse_f64 (trim (f !!! 6%nat)); cr_err_est_m := parse_f64 (trim (f !!! 7%nat));
            n_receivers := parse_unsigned (2 ^ 32 - 1) (trim (f !!! 8%nat));
            distinct_receivers := parse_unsigned (2 ^ 32 - 1) (trim (f !!! 9%nat)) |}.
Definition parse_results_csv (text : string) : list CsvRow := omap parse_csv_line (lines text).

Record SbsPosition := { sp_icao_hex : string; sp_alt_ft : option f64; sp_lat : option f64; sp_lon : option f64 }.
Definition sbs_parse_line (line : string) : option SbsPosition :=
  let f := split_on COMMA (trim_end line) in
  if negb (bool_decide (f !! 0%nat = Some "MSG"%string)) || (length f <? 5)%nat then None
  else
    icao ← f !! 4%nat;
    let icao_hex := to_lowercase (trim icao) in
    if (icao_hex =? EmptyString)%string then None
    else
      let num i := s ← f !! i; parse_f64 (trim s) in
      Some {| sp_icao_hex := icao_hex; sp_alt_ft := num 11%nat; sp_lat := num 14%nat; sp_lon := num 15%nat |}.

(** ** Texts of given characters *)
Section Chars.
Fixpoint sall (P : ascii -> bool) (s : string) : bool :=
  match s with EmptyString => true | String c s => P c && sall P s end.
(** Neither a separator nor white space. *)
Definition plain (c : ascii) : bool :=
  negb (Ascii.eqb c COMMA) && negb (Ascii.eqb c NEWLINE) && negb (is_space c).
Definition not_char (x c : ascii) : bool := negb (Ascii.eqb c x).

Lemma sall_app P s t : sall P (String.append s t) = sall P s && sall P t.
Proof. induction s as [|c s IH]; [done|]. rewrite sapp_cons. cbn [sall]. by rewrite IH, andb_assoc. Qed.
Lemma sall_impl (P Q : ascii -> bool) s : (forall c, P c = true -> Q c = true) -> sall P s = true -> sall Q s = true.
Proof.
  intros HPQ. induction s as [|c s IH]; [done|]. cbn [sall]. rewrite !andb_true_iff. intros [H1 H2]. auto.
Qed.
Lemma plain_comma c : plain c = true -> not_char COMMA c = true.
Proof. unfold plain, not_char. by destruct (Ascii.eqb c COMMA). Qed.
Lemma plain_newline c : plain c = true -> not_char NEWLINE c = true.
Proof. unfold plain, not_char. by destruct (Ascii.eqb c COMMA), (Ascii.eqb c NEWLINE). Qed.
Lemma plain_space c : plain c = true -> is_space c = false.
Proof. unfold plain. by destruct (Ascii.eqb c COMMA), (Ascii.eqb c NEWLINE), (is_space c). Qed.

Lemma plain_digit d : 0 <= d < 16 -> plain (hex_digit d) = true.
Proof. apply (range_forallb (fun d => plain (hex_digit d))). vm_compute. reflexivity. Qed.
Lemma plain_dec_fixed n z : sall plain (dec_fixed n z) = true.
Proof.
  induction n as [|n IH]; [done|]. cbn [dec_fixed sall]. rewrite IH, plain_digit; [done|].
  pose proof (mod10 (z / 10 ^ Z.of_nat n)). lia.
Qed.
Lemma plain_fmt_nat z : sall plain (fmt_nat z) = true.
Proof. apply plain_dec_fixed. Qed.
Lemma plain_fmt_int z : sall plain (fmt_int z) = true.
Proof. unfold fmt_int. destruct (z <? 0); [rewrite sall_app|]; by rewrite plain_fmt_nat. Qed.
Lemma plain_fmt_0n n z : sall plain (fmt_0n n z) = true.
Proof. unfold fmt_0n. destruct (z <? 0); [rewrite sall_app|]; by rewrite plain_dec_fixed. Qed.
Lemma plain_fixed_digits n q : sall plain (fixed_digits n q) = true.
Proof.
  unfold fixed_digits. cbv zeta. rewrite sall_app, plain_fmt_nat. destruct n; [done|].
  by rewrite sall_app, plain_dec_fixed.
Qed.
Lemma plain_fmt_fixed n x : sall plain (fmt_fixed n x) = true.
Proof.
  destruct x as [s|s| |s m e]; unfold fmt_fixed; [| |done|]; rewrite sall_app, ?plain_fixed_digits; by destruct s.
Qed.
Lemma plain_hex_digits n z : sall plain (hex_digits n z) = true.
Proof.
  induction n as [|n IH]; [done|]. cbn [hex_digits sall]. rewrite IH, plain_digit; [done|].
  apply Z.mod_pos_bound. lia.
Qed.
Lemma plain_to_hex x : sall plain (to_hex x) = true.
Proof. apply plain_hex_digits. Qed.

(** Trimming leaves a text without white space as it is. *)
Lemma trim_end_plain s : sall plain s = true -> trim_end s = s.
Proof.
  induction s as [|c s IH]; [done|]. cbn [sall trim_end]. rewrite andb_true_iff. intros [Hc Hs]. rewrite (IH Hs).
  destruct s; [|done]. by rewrite plain_space.
Qed.
Lemma trim_plain s : sall plain s = true -> trim s = s.
Proof.
  intros Hs. unfold trim. assert (trim_start s = s) as ->; [|by apply trim_end_plain].
  destruct s as [|c s]; [done|]. cbn [sall trim_start] in *. rewrite andb_true_iff in Hs. destruct Hs as [Hc _]. by rewrite plain_space.
Qed.
Lemma trim_end_app s t : sall plain s = true -> s <> EmptyString -> sall is_space t = true ->
  trim_end (String.append s t) = s.
Proof.
  intros Hs Hne Ht. assert (trim_end t = EmptyString) as Et.
  { clear -Ht. induction t as [|c t IH]; [done|]. cbn [sall trim_end] in *. rewrite andb_true_iff in Ht. destruct Ht as [Hc Ht].
    by rewrite (IH Ht), Hc. }
  induction s as [|c s IH]; [done|]. cbn [sall] in Hs. rewrite andb_true_iff in Hs. destruct Hs as [Hc Hs]. rewrite sapp_cons. cbn [trim_end].
  destruct s as [|c' s].
  - by rewrite sapp_nil, Et, plain_space.
  - rewrite IH by done. done.
Qed.
(** Only the end of a text matters to its trailing white space. *)
Lemma trim_end_prefix s t : trim_end t <> EmptyString -> trim_end (String.append s t) = String.append s (trim_end t).
Proof.
  intros Ht. induction s as [|c s IH]; [done|]. rewrite !sapp_cons. cbn [trim_end]. rewrite IH.
  destruct (String.append s (trim_end t)) eqn:E; [|done]. by destruct s.
Qed.

(** Splitting at a separator the first piece does not contain. *)
Lemma split_on_app c s t : sall (not_char c) s = true ->
  split_on c (String.append s (String c t)) = s :: split_on c t.
Proof.
  induction s as [|x s IH]; intros Hs.
  - rewrite sapp_nil. cbn [split_on]. by rewrite Ascii.eqb_refl.
  - cbn [sall] in Hs. rewrite andb_true_iff in Hs. destruct Hs as [Hx Hs]. rewrite sapp_cons. cbn [split_on].
    rewrite IH by done. unfold not_char in Hx. by destruct (Ascii.eqb x c).
Qed.
Lemma split_on_none c s : sall (not_char c) s = true -> split_on c s = [s].
Proof.
  induction s as [|x s IH]; [done|]. cbn [sall split_on]. rewrite andb_true_iff. intros [Hx Hs]. rewrite (IH Hs).
  unfold not_char in Hx. by destruct (Ascii.eqb x c).
Qed.
Lemma split_on_nonempty c s : split_on c s <> [].
Proof. destruct s as [|x s]; [done|]. cbn [split_on]. destruct (Ascii.eqb x c); [done|]. by destruct (split_on c s). Qed.
Lemma split_comma s t : sall plain s = true -> split_on COMMA (String.append s (String COMMA t)) = s :: split_on COMMA t.
Proof. intros Hs. apply split_on_app. eapply sall_impl; [apply plain_comma|done]. Qed.
Lemma split_comma_nil t : split_on COMMA (String COMMA t) = EmptyString :: split_on COMMA t.
Proof. exact (split_comma EmptyString t eq_refl). Qed.
Lemma split_comma_one c t : plain c = true -> split_on COMMA (String c (String COMMA t)) = String c EmptyString :: split_on COMMA t.
Proof. intros Hc. apply (split_comma (String c EmptyString) t). cbn [sall]. by rewrite Hc. Qed.
(** One line of a text. *)
Lemma lines_cons s t : sall (not_char NEWLINE) s = true ->
  lines (String.append s (String NEWLINE t)) = strip_cr s :: lines t.
Proof.
  intros Hs. unfold lines. rewrite split_on_app by done. pose proof (split_on_nonempty NEWLINE t).
  by destruct (split_on NEWLINE t).
Qed.
Lemma strip_cr_plain s c : c <> CR -> strip_cr (String.append s (String c EmptyString)) = String.append s (String c EmptyString).
Proof.
  intros Hc. induction s as [|x s IH].
  - rewrite sapp_nil. cbn [strip_cr]. by rewrite (proj2 (Ascii.eqb_neq c CR)).
  - rewrite sapp_cons. destruct s; [|cbn in IH |- *; by rewrite IH].
    rewrite sapp_nil in *. cbn [strip_cr]. by rewrite (proj2 (Ascii.eqb_neq c CR)).
Qed.
End Chars.

(** ** Reading back what was written *)
Section Roundtrip.

Lemma upper_lower_hex d : 0 <= d < 16 -> lower (upper (hex_digit d)) = hex_digit d.
Proof.
  intros Hd. apply Ascii.eqb_eq.
  exact (range_forallb (fun d => Ascii.eqb (lower (upper (hex_digit d))) (hex_digit d)) 16 ltac:(vm_compute; reflexivity) d Hd).
Qed.
Lemma lower_upper_digits n z : to_lowercase (to_uppercase (hex_digits n z)) = hex_digits n z.
Proof.
  induction n as [|n IH]; [done|]. unfold to_lowercase, to_uppercase in *. cbn [hex_digits smap]. rewrite IH, upper_lower_hex; [done|].
  apply Z.mod_pos_bound. lia.
Qed.
Lemma plain_upper s : sall plain s = true -> sall plain (to_uppercase s) = true.
Proof.
  assert (forall c, plain c = true -> plain (upper c) = true) as Hc.
  { intros c. assert (byte_of c < 256) as Hb by (unfold byte_of; pose proof (N_ascii_bounded c); lia).
    assert (0 <= byte_of c) as H0 by (unfold byte_of; lia).
    pose proof (range_forallb (fun b => negb (plain (ascii_of_N (Z.to_N b))) || plain (upper (ascii_of_N (Z.to_N b))))
      256 ltac:(vm_compute; reflexivity) (byte_of c) (conj H0 Hb)) as E. cbv beta in E.
    replace (ascii_of_N (Z.to_N (byte_of c))) with c in E by (unfold byte_of; by rewrite N2Z.id, ascii_N_embedding).
    by destruct (plain c). }
  induction s as [|c s IH]; [done|]. unfold to_uppercase in *. cbn [sall smap]. rewrite !andb_true_iff. intros [H1 H2]. auto.
Qed.

Lemma from_hex_to_hex x : 0 <= x < 2 ^ 24 -> from_hex (to_hex x) = Some x.
Proof.
  intros Hx. unfold from_hex. rewrite trim_plain by apply plain_to_hex. unfold to_hex.
  replace (Z.land x 0xFFFFFF) with x by (change 0xFFFFFF with (Z.ones 24); rewrite Z.land_ones, Z.mod_small by lia; lia).
  rewrite from_str_fmt by done. cbn [mbind option_bind]. by destruct (Z.leb_spec x 0xFFFFFF); [|lia].
Qed.
Lemma dec_value_Z z : dec_value (z <? 0) (Z.abs z) 0 = of_Z z.
Proof.
  unfold dec_value, of_Z. destruct z as [|p|p]; [done|..]; cbn [Z.abs Z.ltb Z.compare Z.leb cond_Zopp];
    rewrite Z.mul_1_r; done.
Qed.

(** What the scorer reads from a row. *)
Definition csv_row_of (r : OutRow) (pos : Geodetic f64) : CsvRow :=
  {| t_wall := rounded 3 (or_stamp r); cr_icao := or_icao r;
     cr_lat := rounded 5 (lat_deg pos); cr_lon := rounded 5 (lon_deg pos);
     cr_alt_ft := Some (of_Z (or_alt_ft r)); cr_err_est_m := Some (rounded 1 (or_err_m r));
     n_receivers := Some (Z.of_nat (or_n r)); distinct_receivers := Some (Z.of_nat (or_n r)) |}.
(** A row of a 24-bit address, whose users' names are each on one line. *)
Record row_ok (r : OutRow) : Prop := {
  ro_icao : 0 <= or_icao r < 2 ^ 24;
  ro_n : Z.of_nat (or_n r) < 2 ^ 32;
  ro_users : Forall (fun u => sall (not_char NEWLINE) u = true) (or_users r)
}.
#[export] Instance row_ok_dec r : Decision (row_ok r).
Proof.
  refine (cast_if (decide (0 <= or_icao r < 2 ^ 24 /\ Z.of_nat (or_n r) < 2 ^ 32 /\
    Forall (fun u => sall (not_char NEWLINE) u = true) (or_users r)))).
  - abstract (by split; apply a).
  - abstract (intros [? ? ?]; apply n; done).
Defined.

Lemma sconcat_app l k : sconcat (l ++ k) = String.append (sconcat l) (sconcat k).
Proof. induction l as [|s l IH]; [done|]. cbn [app sconcat]. by rewrite IH, sapp_assoc. Qed.
Lemma sall_concat P sep l : sall P sep = true -> Forall (fun u => sall P u = true) l -> sall P (String.concat sep l) = true.
Proof.
  intros Hsep. induction l as [|u l IH]; [done|]. rewrite list.Forall_cons. intros [Hu Hl]. specialize (IH Hl).
  cbn [String.concat]. destruct l as [|u' l]; [done|]. by rewrite !sall_app, Hu, Hsep, IH.
Qed.

#[local] Hint Rewrite sapp_cons sapp_nil sapp_assoc : text.
#[local] Hint Resolve plain_fmt_fixed plain_fmt_int plain_fmt_nat plain_to_hex plain_fmt_0n plain_upper : text.

(** The rest of a row's text after its tenth field. *)
Definition row_tail (r : OutRow) : string :=
  sconcat [char_text QUOTE; String.concat "," (or_users r); char_text QUOTE; ",";
    fmt_nat (saturating_sub (Z.of_nat (or_n r)) 4); ","]%string.
Definition row_body (r : OutRow) (pos : Geodetic f64) : string :=
  sconcat [fmt_fixed 3 (or_stamp r); ","; to_hex (or_icao r); ",,,"; fmt_fixed 5 (lat_deg pos); ","; fmt_fixed 5 (lon_deg pos); ",";
    fmt_int (or_alt_ft r); ","; fmt_fixed 1 (or_err_m r); ","; fmt_nat (Z.of_nat (or_n r)); ",";
    fmt_nat (Z.of_nat (or_n r)); ","; row_tail r]%string.
Lemma row_text_body r pos :
  row_text (or_stamp r) (or_icao r) pos (or_alt_ft r) (or_err_m r) (or_n r) (or_users r)
  = String.append (row_body r pos) (String NEWLINE EmptyString).
Proof. unfold row_text, row_body, row_tail, char_text. cbn [sconcat]. autorewrite with text. by rewrite ?sapp_nil_r. Qed.

Lemma split_row_body r pos : exists l, split_on COMMA (row_body r pos) =
  [fmt_fixed 3 (or_stamp r); to_hex (or_icao r); EmptyString; EmptyString; fmt_fixed 5 (lat_deg pos); fmt_fixed 5 (lon_deg pos);
   fmt_int (or_alt_ft r); fmt_fixed 1 (or_err_m r); fmt_nat (Z.of_nat (or_n r)); fmt_nat (Z.of_nat (or_n r))] ++ l.
Proof.
  exists (split_on COMMA (row_tail r)). unfold row_body. cbn [sconcat]. autorewrite with text.
  change (Ascii.Ascii false false true true false true false false) with COMMA.
  rewrite sapp_nil_r. repeat first [rewrite split_comma by auto with text | rewrite split_comma_nil]. done.
Qed.
Lemma sall_newline s : sall plain s = true -> sall (not_char NEWLINE) s = true.
Proof. apply sall_impl, plain_newline. Qed.
#[local] Hint Resolve sall_newline : text.
Lemma row_body_line r pos : row_ok r -> sall (not_char NEWLINE) (row_body r pos) = true.
Proof.
  intros Hr. unfold row_body, row_tail, char_text. cbn [sconcat]. rewrite !sall_app, !andb_true_iff.
  split_and!; try done; try (apply sall_newline; solve [auto with text]).
  apply sall_concat; [done|apply Hr].
Qed.
Lemma parse_row_body r pos : row_ok r -> parse_csv_line (row_body r pos) = Some (csv_row_of r pos).
Proof.
  intros Hr. unfold parse_csv_line. destruct (split_row_body r pos) as [l ->]. cbn [length app Nat.ltb Nat.leb lookup_total list_lookup_total].
  rewrite parse_fmt_fixed. cbn [mbind option_bind]. rewrite from_hex_to_hex by apply Hr. cbn [mbind option_bind].
  rewrite !parse_fmt_fixed. cbn [mbind option_bind]. rewrite !trim_plain by auto with text.
  rewrite parse_fmt_fixed, parse_fmt_int, dec_value_Z. pose proof (ro_n r Hr). by rewrite parse_fmt_nat by lia.
Qed.
Lemma strip_cr_row r pos : strip_cr (row_body r pos) = row_body r pos.
Proof.
  assert (exists x, row_body r pos = String.append x (String COMMA EmptyString)) as [x ->]; [|by apply strip_cr_plain].
  unfold row_body, row_tail. cbn [sconcat]. rewrite ?sapp_nil_r, <- ?sapp_assoc. by eexists.
Qed.
Lemma parse_rows f rows rest : Forall row_ok rows ->
  parse_results_csv (String.append (sconcat ((fun r => String.append (row_body r (f r)) (String NEWLINE EmptyString)) <$> rows)) rest)
  = ((fun r => csv_row_of r (f r)) <$> rows) ++ parse_results_csv rest.
Proof.
  intros Hrows. induction Hrows as [|r rows Hr Hrows IH]; [done|]. cbn [fmap list_fmap sconcat app].
  unfold parse_results_csv in *. autorewrite with text in *. rewrite lines_cons by by apply row_body_line.
  cbn [omap list_omap]. by rewrite strip_cr_row, parse_row_body, IH.
Qed.

(** C24: the scorer reads a results file back row by row: for rows of 24-bit addresses whose
    users' names contain no line feed (commas and quotes do no harm), parsing the
    concatenated CSV rows gives exactly one record per row, with the time, position and
    error rounded to the printed decimals and the altitude and counts exact. *)
Theorem csv_roundtrip rows : Forall row_ok rows ->
  parse_results_csv (sconcat (csv_line <$> rows)) = (fun r => csv_row_of r (or_pos r)) <$> rows.
Proof.
  intros Hrows. pose proof (parse_rows or_pos rows EmptyString Hrows) as E. rewrite sapp_nil_r, app_nil_r in E. rewrite <- E.
  do 2 f_equal. apply list_fmap_ext. intros i r _. unfold csv_line. by rewrite row_text_body.
Qed.
(** The same of the smoothed twins, at the smoothed positions. *)
Lemma filtered_roundtrip r sm rest : row_ok r -> or_filtered r = Some sm ->
  exists t, filtered_line r = Some t /\ parse_results_csv (String.append t rest) = csv_row_of r sm :: parse_results_csv rest.
Proof.
  intros Hr Hf. unfold filtered_line. rewrite Hf. cbn [fmap option_fmap option_map]. eexists. split; [done|].
  pose proof (parse_rows (fun _ => sm) [r] rest ltac:(by constructor)) as E. cbn [fmap list_fmap sconcat app] in E.
  by rewrite row_text_body, <- E, sapp_nil_r.
Qed.

(** ** SBS *)
Lemma plain_date days : exists d, sbs_date days = Some d /\ sall plain d = true.
Proof.
  unfold sbs_date. destruct (civil_of_days_total days) as [[[y m] d] ->]. cbn [mbind option_bind]. eexists. split; [done|].
  by rewrite !sall_app, !plain_fmt_0n.
Qed.
Lemma plain_time unix secs : sall plain (sbs_time unix secs) = true.
Proof. unfold sbs_time. cbv zeta. by rewrite !sall_app, !plain_fmt_0n. Qed.
#[local] Hint Resolve plain_time : text.

Lemma lower_upper_hex x : to_lowercase (to_uppercase (to_hex x)) = to_hex x.
Proof. apply lower_upper_digits. Qed.
Lemma fmt_06x_nonempty x : fmt_06x x <> EmptyString.
Proof. unfold fmt_06x. destruct (x <? 16 ^ 6); [done|]. by destruct (x <? 16 ^ 7). Qed.

(** An SBS line is always produced, and a consumer of SBS reads back its address in
    lower case, its altitude, and its position to five decimals. *)
Theorem sbs_roundtrip r : exists l, sbs_line r = Some l /\
  sbs_parse_line l = Some {| sp_icao_hex := to_hex (or_icao r); sp_alt_ft := Some (of_Z (or_alt_ft r));
    sp_lat := Some (rounded 5 (lat_deg (or_pos r))); sp_lon := Some (rounded 5 (lon_deg (or_pos r))) |}.
Proof.
  unfold sbs_line, sbs_datetime. destruct (plain_date (Z.quot (as_i64 (or_stamp r)) 86400)) as (d & -> & Hd).
  cbn [mbind option_bind]. eexists. split; [done|]. set (tm := sbs_time _ _).
  assert (sall plain tm = true) as Htm by apply plain_time.
  set (hex := to_uppercase (to_hex (or_icao r))). assert (sall plain hex = true) as Hhex by apply plain_upper, plain_to_hex.
  set (body := sconcat ["MSG,3,1,1,"; hex; ",1,"; d; ","; tm; ","; d; ","; tm; ",,";
    fmt_int (or_alt_ft r); ",,,"; fmt_fixed 5 (lat_deg (or_pos r)); ","; fmt_fixed 5 (lon_deg (or_pos r)); ",,,,,,"]%string).
  unfold sbs_parse_line. lazymatch goal with |- context [trim_end ?t] => replace (trim_end t) with (String.append body "0") end.
  2:{ transitivity (trim_end (String.append body (String "0" (String CR (String NEWLINE EmptyString))))).
      - by rewrite trim_end_prefix.
      - f_equal. unfold body, char_text. cbn [sconcat]. autorewrite with text. done. }
  assert (split_on COMMA (String.append body "0") = ["MSG"; "3"; "1"; "1"; hex; "1"; d; tm; d; tm; EmptyString; fmt_int (or_alt_ft r);
    EmptyString; EmptyString; fmt_fixed 5 (lat_deg (or_pos r)); fmt_fixed 5 (lon_deg (or_pos r));
    EmptyString; EmptyString; EmptyString; EmptyString; EmptyString; "0"]%string) as ->.
  { unfold body. cbn [sconcat]. autorewrite with text.
    change (Ascii.Ascii false false true true false true false false) with COMMA.
    assert (forall t, split_on COMMA (String "M" (String "S" (String "G" (String COMMA t)))) = "MSG"%string :: split_on COMMA t) as Emsg
      by (intros t; exact (split_comma "MSG" t eq_refl)).
    rewrite Emsg. repeat first [rewrite split_comma by auto with text | rewrite split_comma_nil | rewrite split_comma_one by done].
    done. }
  cbn [length lookup list_lookup Nat.ltb Nat.leb mbind option_bind]. rewrite bool_decide_eq_true_2 by done. cbn [negb orb].
  rewrite trim_plain by done. unfold hex. rewrite lower_upper_hex.
  rewrite (proj2 (String.eqb_neq _ _)) by apply fmt_06x_nonempty.
  rewrite !trim_plain by auto with text. by rewrite !parse_fmt_fixed, parse_fmt_int, dec_value_Z.
Qed.
End Roundtrip.

(** ** Concrete rows *)
Section Sample.
Definition sample_row (users : list string) : OutRow :=
  {| or_shard := 0; or_pos := {| lat_deg := lit 472001 10000; lon_deg := fneg (lit 15002 10000); alt_m := of_Z 6096 |};
     or_icao := 0x3944f1; or_stamp := of_Z 1788177600; or_alt_ft := 20000; or_err_m := lit 852 10; or_n := 5;
     or_users := users; or_filtered := None |}.

Example csv_line_sample : csv_line (sample_row ["a"; "b"]%string)
  = sconcat ["1788177600.000,3944f1,,,47.20010,-1.50020,20000,85.2,5,5,"; char_text QUOTE; "a,b"; char_text QUOTE; ",1,"; char_text NEWLINE]%string.
Proof. vm_compute. reflexivity. Qed.
Example sbs_line_sample : sbs_line (sample_row []) = Some (String.append
  "MSG,3,1,1,3944F1,1,2026/08/31,12:00:00.000,2026/08/31,12:00:00.000,,20000,,,47.20010,-1.50020,,,,,,0"
  (String CR (String NEWLINE EmptyString))).
Proof. vm_compute. reflexivity. Qed.
(** The tests of the two parsers. *)
Example parse_results_csv_test : match parse_results_csv (sconcat
    ["1788000010.5,3944f1,,7700,47.2001,-1.5002,20000,85.2,5,5,"; char_text QUOTE; "a,b,c,d,e"; char_text QUOTE; ",2,0";
     char_text NEWLINE; "badline"; char_text NEWLINE]%string) with
  | [r] => cr_icao r = 0x3944f1 /\ cr_err_est_m r = Some (lit 852 10)
  | _ => False
  end.
Proof. vm_compute. split; reflexivity. Qed.
Example sbs_parse_line_test :
  sbs_parse_line "SEL,,496,2286,4CA4E5" = None /\ sbs_parse_line EmptyString = None /\ sbs_parse_line "MSG,8,1,1,,1" = None.
Proof. repeat split; vm_compute; reflexivity. Qed.

(** The name a client chooses is written as it is: a line feed in it ends the row, and what
    follows is read as a row of its own. *)
Example user_injects_row :
  length (parse_results_csv (csv_line (sample_row [String.append "a" (String NEWLINE "0,abcdef,,,0,0,0,0,9,9")]))) = 2%nat.
Proof. vm_compute. reflexivity. Qed.

Lemma csv_roundtrip_witness : map cr_icao (parse_results_csv (sconcat (csv_line <$> [sample_row ["a"; "b"]; sample_row []]%string)))
  = [0x3944f1; 0x3944f1].
Proof.
  rewrite (csv_roundtrip [sample_row ["a"; "b"]; sample_row []]%string); [reflexivity|].
  repeat constructor; vm_compute; done.
Defined.
End Sample.
