(* ===== verification/Metrics.v ===== *)
(** * Scoring results against the truth (crates/mb-metrics/src/lib.rs)

    The interpolating index over the truth log, the error statistics, the score of a run and
    its report.  Hash maps and hash sets are finite maps and sets; the one loop over a hash
    map visits it in an arbitrary order. *)
From S2P Require Import Prelude F64 Num Geo Text Decimal Results.
From Stdlib Require Import Ascii.
Local Open Scope Z_scope.

Definition GHOST_M : f64 := of_Z 10000.
Definition MIN_RX : nat := 4.

Record TruthPoint := { tp_t : Z; tp_icao : Z; tp_pos : Geodetic f64; gs_mps : f64; vrate_mps : f64 }.
Record AudibilitySecond := { au_t_s : Z; au_icao : Z; au_n_receivers : nat }.
Record ResourceSample := { rs_t_wall : f64; cpu_usec : option Z; mem_bytes : option Z }.

Record ErrorStats := { es_n : nat; p50 : f64; p90 : f64; p99 : f64; es_max : f64; mean : f64 }.
Record AircraftMetrics := {
  results : nat; p50_error_m : option f64; coverage_ratio : option f64; ttff_s : option f64;
  update_rate_per_min : option f64
}.
Record Coverage := { trackable_aircraft_seconds : Z; tracked_aircraft_seconds : Z; cov_ratio : option f64 }.
Record Resources := { cpu_mean_pct : option f64; cpu_max_pct : option f64; mem_max_mb : option f64; samples : nat }.
Record Metrics := {
  schema_version : Z; results_total : nat; results_matched : nat; unscored_known_aircraft : nat;
  ghosts_unknown_icao : nat; ghosts_gross_error : nat; horizontal_error_m : ErrorStats;
  altitude_error_m : option ErrorStats; err_estimate_ratio_p50 : option f64;
  per_aircraft : gmap string AircraftMetrics; coverage : Coverage; resources : Resources
}.

(** ** The truth index *)
Definition TruthIndex : Type := gmap Z (list (f64 * Geodetic f64)).
Definition truth_push (m : gmap Z (list (f64 * Geodetic f64))) (p : TruthPoint) : gmap Z (list (f64 * Geodetic f64)) :=
  <[tp_icao p := default [] (m !! tp_icao p) ++ [(nanos_as_secs_f64 (tp_t p), tp_pos p)]]> m.
Definition point_le (a b : f64 * Geodetic f64) : bool := total_le a.1 b.1.
Definition build (points : list TruthPoint) : TruthIndex :=
  stable_sort point_le <$> fold_left truth_push points ∅.
Definition known (truth : TruthIndex) (icao : Z) : bool := bool_decide (is_Some (truth !! icao)).

(** [partition_point] of a vector on which the predicate holds first and then no more. *)
Fixpoint partition_point {A} (P : A -> bool) (l : list A) : nat :=
  match l with [] => O | x :: l => if P x then S (partition_point P l) else O end.
Definition interpolate (t_s : f64) (a b : f64 * Geodetic f64) : Geodetic f64 :=
  let '(t0, p0) := a in let '(t1, p1) := b in
  if (fabs (t1 - t0) <? lit 1 1000000000)%f64 then p0
  else
    let f := fclamp ((t_s - t0) / (t1 - t0))%f64 (of_Z 0) (of_Z 1) in
    {| lat_deg := (lat_deg p0 + f * (lat_deg p1 - lat_deg p0))%f64;
       lon_deg := (lon_deg p0 + f * (lon_deg p1 - lon_deg p0))%f64;
       alt_m := (alt_m p0 + f * (alt_m p1 - alt_m p0))%f64 |}.
Definition pos_at (truth : TruthIndex) (icao : Z) (t_s : f64) : option (Geodetic f64) :=
  pts ← truth !! icao;
  first ← head pts; final ← list.last pts;
  if (t_s <? first.1 - of_Z 1)%f64 || (t_s >? final.1 + of_Z 1)%f64 then None
  else
    let i := Nat.pred (partition_point (fun tp : f64 * Geodetic f64 => (tp.1 <=? t_s)%f64) pts) in
    a ← pts !! i;
    Some (interpolate t_s a (default a (pts !! S i))).

(** ** Statistics *)
(** [iter().sum()], from the neutral element of the addition. *)
Definition fsum (l : list f64) : f64 := fold_left fadd l (S754_zero true).
Definition quantile (sorted : list f64) (p : f64) : f64 :=
  let n := length sorted in
  nth (Nat.min (Z.to_nat (as_u64 (of_Z (Z.of_nat n) * p)%f64)) (n - 1)) sorted fnan.
Definition stats (sorted : list f64) : option ErrorStats :=
  l ← list.last sorted;
  let q := quantile sorted in
  Some {| es_n := length sorted; p50 := q (lit 50 100); p90 := q (lit 90 100); p99 := q (lit 99 100);
          es_max := l; mean := (fsum sorted / of_Z (Z.of_nat (length sorted)))%f64 |}.
Definition sort_total : list f64 -> list f64 := stable_sort total_le.

Section Code.
Context `{Elem f64, !HashIter Z (list Z)}.

(** ** The rows *)
Record Tally := {
  unscored : nat; herr : list f64; aerr : list f64; est_ratio : list f64;
  ghosts_unknown : nat; ghosts_gross : nat; matched : nat; per_ac : gmap string (list (f64 * f64))
}.
Definition Tally_empty : Tally :=
  {| unscored := 0; herr := []; aerr := []; est_ratio := []; ghosts_unknown := 0; ghosts_gross := 0; matched := 0; per_ac := ∅ |}.

Definition horizontal_error (r : CsvRow) (tp : Geodetic f64) : f64 :=
  haversine_m {| lat_deg := cr_lat r; lon_deg := cr_lon r; alt_m := of_Z 0 |}
    {| lat_deg := lat_deg tp; lon_deg := lon_deg tp; alt_m := of_Z 0 |}.
Definition set_counts (unk uns gross : nat) (t : Tally) : Tally :=
  {| unscored := uns; herr := herr t; aerr := aerr t; est_ratio := est_ratio t; ghosts_unknown := unk;
     ghosts_gross := gross; matched := matched t; per_ac := per_ac t |}.
Definition count_match (r : CsvRow) (tp : Geodetic f64) (sim_t e : f64) (t : Tally) : Tally :=
  let hex := to_hex (cr_icao r) in
  {| unscored := unscored t; herr := herr t ++ [e];
     aerr := match cr_alt_ft r with
             | Some alt_ft => aerr t ++ [fabs (alt_ft * lit 3048 10000 - alt_m tp)%f64]
             | None => aerr t
             end;
     est_ratio := match cr_err_est_m r with
                  | Some est => if (e >? of_Z 1)%f64 then est_ratio t ++ [(est / e)%f64] else est_ratio t
                  | None => est_ratio t
                  end;
     ghosts_unknown := ghosts_unknown t; ghosts_gross := ghosts_gross t; matched := S (matched t);
     per_ac := <[hex := default [] (per_ac t !! hex) ++ [(sim_t, e)]]> (per_ac t) |}.
Definition score_row (truth : TruthIndex) (wall_t0 : f64) (known_untruthed : gset Z) (t : Tally) (r : CsvRow) : Tally :=
  if negb (known truth (cr_icao r)) then
    if bool_decide (cr_icao r ∈ known_untruthed)
    then set_counts (ghosts_unknown t) (S (unscored t)) (ghosts_gross t) t
    else set_counts (S (ghosts_unknown t)) (unscored t) (ghosts_gross t) t
  else
    let sim_t := (t_wall r - wall_t0)%f64 in
    match pos_at truth (cr_icao r) sim_t with
    | None => t
    | Some tp =>
        let e := horizontal_error r tp in
        if (e >? GHOST_M)%f64 then set_counts (ghosts_unknown t) (unscored t) (S (ghosts_gross t)) t
        else count_match r tp sim_t e t
    end.

(** ** Coverage *)
Definition trackable_push (targets : gset Z) (m : gmap Z (list Z)) (a : AudibilitySecond) : gmap Z (list Z) :=
  if (MIN_RX <=? au_n_receivers a)%nat && bool_decide (au_icao a ∈ targets)
  then <[au_icao a := default [] (m !! au_icao a) ++ [au_t_s a]]> m else m.
Definition trackable_of (targets : gset Z) (audibility : list AudibilitySecond) : gmap Z (list Z) :=
  fold_left (trackable_push targets) audibility ∅.

(** The seconds with a result, and those of them the aircraft was on the air. *)
Definition tracked_seconds (v : option (list (f64 * f64))) : gset Z :=
  list_to_set ((fun te => as_u64 te.1) <$> filter (fun te => (te.1 >=? of_Z 0)%f64 = true) (default [] v)).
Definition both_seconds (v : option (list (f64 * f64))) (secs : list Z) : nat :=
  size (tracked_seconds v ∩ list_to_set secs).
Definition min_by_total (l : list f64) : option f64 :=
  match l with [] => None | x :: l => Some (fold_left (fun best y => if total_le best y then best else y) l x) end.
Definition max_by_total (l : list f64) : option f64 :=
  match l with [] => None | x :: l => Some (fold_left (fun best y => if total_le best y then y else best) l x) end.
Definition min_Z (l : list Z) : option Z :=
  match l with [] => None | x :: l => Some (fold_left Z.min l x) end.
Definition max_Z (l : list Z) : option Z :=
  match l with [] => None | x :: l => Some (fold_left Z.max l x) end.

Definition aircraft_metrics (errs : option (list (f64 * f64))) (secs : list Z) : AircraftMetrics :=
  let on_air := list_to_set secs : gset Z in
  let sorted_err := sort_total (snd <$> default [] errs) in
  let first_result := v ← errs; min_by_total (fst <$> v) in
  let span_min := fmax (of_Z (Z.of_nat (length secs)) / of_Z 60)%f64 (of_Z 1 / of_Z 60)%f64 in
  {| results := length (default [] errs); p50_error_m := p50 <$> stats sorted_err;
     coverage_ratio := if (size on_air =? 0)%nat then None
                       else Some (of_Z (Z.of_nat (both_seconds errs secs)) / of_Z (Z.of_nat (size on_air)))%f64;
     ttff_s := match first_result, min_Z secs with Some r, Some a => Some (r - of_Z a)%f64 | _, _ => None end;
     update_rate_per_min := (fun v => of_Z (Z.of_nat (length v)) / span_min)%f64 <$> errs |}.
Definition cover_step (per_ac : gmap string (list (f64 * f64))) (acc : Z * gmap string AircraftMetrics) (kv : Z * list Z)
    : Z * gmap string AircraftMetrics :=
  let hex := to_hex kv.1 in
  let errs := per_ac !! hex in
  (acc.1 + Z.of_nat (both_seconds errs kv.2), <[hex := aircraft_metrics errs kv.2]> acc.2).

(** ** Resources *)
Fixpoint cpu_pcts (l : list ResourceSample) : list f64 :=
  match l with
  | w0 :: (w1 :: _) as l' =>
      let rest := cpu_pcts l' in
      match cpu_usec w0, cpu_usec w1 with
      | Some a, Some b =>
          let dt := (rs_t_wall w1 - rs_t_wall w0)%f64 in
          if (dt >? of_Z 0)%f64 && (a <=? b) then (of_Z (b - a) / (dt * of_Z 1000000) * of_Z 100)%f64 :: rest else rest
      | _, _ => rest
      end
  | _ => []
  end.
Definition resources_of (l : list ResourceSample) : Resources :=
  let pcts := cpu_pcts l in
  {| cpu_mean_pct := match pcts with [] => None | _ => Some (fsum pcts / of_Z (Z.of_nat (length pcts)))%f64 end;
     cpu_max_pct := max_by_total pcts;
     mem_max_mb := (fun m => of_Z m / of_Z 1000000)%f64 <$> max_Z (omap mem_bytes l);
     samples := length l |}.

(** ** The score *)
Definition no_stats : ErrorStats := {| es_n := 0; p50 := fnan; p90 := fnan; p99 := fnan; es_max := fnan; mean := fnan |}.
Definition tally (truth : TruthIndex) (rows : list CsvRow) (wall_t0 : f64) (known_untruthed : gset Z) : Tally :=
  fold_left (score_row truth wall_t0 known_untruthed) rows Tally_empty.
Definition score (truth : TruthIndex) (rows : list CsvRow) (wall_t0 : f64) (audibility : list AudibilitySecond)
    (mlat_targets known_untruthed : gset Z) (res : list ResourceSample) : Metrics :=
  let t := tally truth rows wall_t0 known_untruthed in
  let trackable := trackable_of mlat_targets audibility in
  let trackable_secs := foldr Z.add 0 ((fun kv => Z.of_nat (length kv.2)) <$> hash_iter trackable) in
  let '(tracked_secs, per_aircraft) := fold_left (cover_step (per_ac t)) (hash_iter trackable) (0, ∅) in
  {| schema_version := 1; results_total := length rows; results_matched := matched t;
     unscored_known_aircraft := unscored t; ghosts_unknown_icao := ghosts_unknown t;
     ghosts_gross_error := ghosts_gross t;
     horizontal_error_m := default no_stats (stats (sort_total (herr t)));
     altitude_error_m := stats (sort_total (aerr t));
     err_estimate_ratio_p50 := p50 <$> stats (sort_total (est_ratio t));
     per_aircraft := per_aircraft;
     coverage := {| trackable_aircraft_seconds := trackable_secs; tracked_aircraft_seconds := tracked_secs;
                    cov_ratio := if 0 <? trackable_secs then Some (of_Z tracked_secs / of_Z trackable_secs)%f64 else None |};
     resources := resources_of res |}.
End Code.

(** ** What becomes of a row *)
Section Accounts.
Context `{Elem f64, !HashIter Z (list Z)}.
Context (truth : TruthIndex) (wall_t0 : f64) (known_untruthed : gset Z).

Inductive Verdict := Matched | GrossGhost | UnknownGhost | Unscored | Outside.
#[export] Instance Verdict_eq_dec : EqDecision Verdict.
Proof. solve_decision. Defined.
Definition verdict (r : CsvRow) : Verdict :=
  if decide (is_Some (truth !! cr_icao r)) then
    match pos_at truth (cr_icao r) (t_wall r - wall_t0)%f64 with
    | None => Outside
    | Some tp => if (horizontal_error r tp >? GHOST_M)%f64 then GrossGhost else Matched
    end
  else if decide (cr_icao r ∈ known_untruthed) then Unscored else UnknownGhost.
Definition count (v : Verdict) (rows : list CsvRow) : nat := length (filter (fun r => verdict r = v) rows).
(** The times and errors of an aircraft's matched rows. *)
Definition matched_pair (hex : string) (r : CsvRow) : option (f64 * f64) :=
  if decide (to_hex (cr_icao r) = hex /\ verdict r = Matched) then
    tp ← pos_at truth (cr_icao r) (t_wall r - wall_t0)%f64;
    Some ((t_wall r - wall_t0)%f64, horizontal_error r tp)
  else None.
Definition pairs_of (hex : string) (rows : list CsvRow) : list (f64 * f64) := omap (matched_pair hex) rows.

(** The errors of the matched rows: horizontal, of altitude where a row has one, and the ratio of
    the estimate to an error above a metre where a row has an estimate. *)
Definition matched_to (r : CsvRow) : option (Geodetic f64) :=
  if decide (verdict r = Matched) then pos_at truth (cr_icao r) (t_wall r - wall_t0)%f64 else None.
Definition errors_of (rows : list CsvRow) : list f64 := omap (fun r => horizontal_error r <$> matched_to r) rows.
Definition alt_errors_of (rows : list CsvRow) : list f64 :=
  omap (fun r => tp ← matched_to r; alt_ft ← cr_alt_ft r; Some (fabs (alt_ft * lit 3048 10000 - alt_m tp)%f64)) rows.
Definition est_ratios_of (rows : list CsvRow) : list f64 :=
  omap (fun r => tp ← matched_to r; est ← cr_err_est_m r; let e := horizontal_error r tp in if (e >? of_Z 1)%f64 then Some (est / e)%f64 else None) rows.

Lemma count_snoc v rows r : count v (rows ++ [r]) = (count v rows + if decide (verdict r = v) then 1 else 0)%nat.
Proof. unfold count. rewrite list.filter_app, length_app. f_equal. cbn. by destruct (decide (verdict r = v)). Qed.
Lemma count_all rows : length rows = (count Matched rows + count GrossGhost rows + count UnknownGhost rows + count Unscored rows + count Outside rows)%nat.
Proof.
  induction rows as [|r rows IH] using rev_ind; [done|]. rewrite length_app, !count_snoc, IH. cbn [length].
  destruct (verdict r); repeat case_decide; try done; lia.
Qed.

Record tally_ok (rows : list CsvRow) (t : Tally) : Prop := {
  ta_matched : matched t = count Matched rows;
  ta_gross : ghosts_gross t = count GrossGhost rows;
  ta_unknown : ghosts_unknown t = count UnknownGhost rows;
  ta_unscored : unscored t = count Unscored rows;
  ta_herr : herr t = errors_of rows;
  ta_aerr : aerr t = alt_errors_of rows;
  ta_ratio : est_ratio t = est_ratios_of rows;
  ta_per_ac hex : default [] (per_ac t !! hex) = pairs_of hex rows;
  ta_some hex l : per_ac t !! hex = Some l -> l <> []
}.
Lemma pairs_of_snoc hex rows r : pairs_of hex (rows ++ [r]) = pairs_of hex rows ++ pairs_of hex [r].
Proof. unfold pairs_of. by rewrite omap_app. Qed.
Lemma pairs_of_other hex r : verdict r <> Matched -> pairs_of hex [r] = [].
Proof. intros Hv. unfold pairs_of, matched_pair. cbn. by rewrite decide_False by (by intros [_ ?]). Qed.

Lemma score_row_verdict t r : score_row truth wall_t0 known_untruthed t r =
  match verdict r with
  | UnknownGhost => set_counts (S (ghosts_unknown t)) (unscored t) (ghosts_gross t) t
  | Unscored => set_counts (ghosts_unknown t) (S (unscored t)) (ghosts_gross t) t
  | GrossGhost => set_counts (ghosts_unknown t) (unscored t) (S (ghosts_gross t)) t
  | Outside => t
  | Matched =>
      match pos_at truth (cr_icao r) (t_wall r - wall_t0)%f64 with
      | Some tp => count_match r tp (t_wall r - wall_t0)%f64 (horizontal_error r tp) t
      | None => t
      end
  end.
Proof.
  unfold score_row, known, verdict. case_bool_decide as Hk; cbn [negb].
  - rewrite (decide_True _ _ Hk). destruct (pos_at _ _ _) as [tp|]; [|done]. by destruct (_ >? _)%f64.
  - rewrite (decide_False _ _ Hk). case_bool_decide as Hu; [by rewrite (decide_True _ _ Hu)|by rewrite (decide_False _ _ Hu)].
Qed.
Lemma verdict_matched r : verdict r = Matched -> is_Some (pos_at truth (cr_icao r) (t_wall r - wall_t0)%f64).
Proof. unfold verdict. repeat case_decide; try done. by destruct (pos_at _ _ _). Qed.

Lemma matched_to_other r : verdict r <> Matched -> matched_to r = None.
Proof. intros Hv. unfold matched_to. by rewrite decide_False. Qed.
Lemma tally_step_ok rows r t : tally_ok rows t -> tally_ok (rows ++ [r]) (score_row truth wall_t0 known_untruthed t r).
Proof.
  intros [Hm Hg Hk Hu Hh Ha Hr Hp Hs]. rewrite score_row_verdict. destruct (verdict r) eqn:Ev.
  2-5: split; cbn [set_counts matched ghosts_gross ghosts_unknown unscored herr aerr est_ratio per_ac]; rewrite ?count_snoc, ?Ev;
    repeat case_decide; try done; try lia;
    try (unfold errors_of, alt_errors_of, est_ratios_of; rewrite omap_app; cbn [omap list_omap];
      rewrite matched_to_other by congruence; cbn; by rewrite app_nil_r);
    intros hex; rewrite pairs_of_snoc, pairs_of_other, app_nil_r by congruence; apply Hp.
  destruct (verdict_matched r Ev) as [tp Et]. rewrite Et.
  assert (matched_to r = Some tp) as Emt by (unfold matched_to; by rewrite decide_True).
  split; cbn [count_match matched ghosts_gross ghosts_unknown unscored herr aerr est_ratio per_ac];
    rewrite ?count_snoc, ?Ev; repeat case_decide; try done; try lia;
    unfold errors_of, alt_errors_of, est_ratios_of; rewrite ?omap_app; cbn [omap list_omap]; rewrite ?Emt; cbn [mbind option_bind fmap option_fmap option_map].
  - by rewrite Hh.
  - destruct (cr_alt_ft r); cbn [mbind option_bind]; rewrite Ha; [done|by rewrite app_nil_r].
  - destruct (cr_err_est_m r); cbn [mbind option_bind]; [|by rewrite app_nil_r].
    destruct (_ >? of_Z 1)%f64; rewrite Hr; [done|by rewrite app_nil_r].
  - intros hex. rewrite pairs_of_snoc. unfold pairs_of at 2, matched_pair. cbn [omap list_omap]. rewrite Ev, Et.
    destruct (decide (to_hex (cr_icao r) = hex)) as [<-|Hne].
    + rewrite decide_True by done. rewrite lookup_insert_eq. cbn. by rewrite Hp.
    + rewrite decide_False by naive_solver. rewrite lookup_insert_ne, app_nil_r by done. apply Hp.
  - intros hex l. destruct (decide (to_hex (cr_icao r) = hex)) as [<-|Hne].
    + rewrite lookup_insert_eq. intros [= <-]. by destruct (default [] _).
    + rewrite lookup_insert_ne by done. apply Hs.
Qed.
Lemma errors_count rows : length (errors_of rows) = count Matched rows.
Proof.
  induction rows as [|r rows IH] using rev_ind; [done|]. unfold errors_of in *. rewrite omap_app, length_app, IH, count_snoc. f_equal.
  cbn [omap list_omap]. unfold matched_to. destruct (decide (verdict r = Matched)) as [Ev|]; [|done].
  by destruct (verdict_matched r Ev) as [tp ->].
Qed.
Lemma tally_spec rows : tally_ok rows (tally truth rows wall_t0 known_untruthed).
Proof.
  induction rows as [|r rows IH] using rev_ind.
  - by split.
  - unfold tally. rewrite fold_left_snoc. by apply tally_step_ok.
Qed.
End Accounts.

(** ** The score *)
Section Score.
Context `{Elem f64, !HashIter Z (list Z)}.
Implicit Types (truth : TruthIndex) (rows : list CsvRow) (aud : list AudibilitySecond).

Lemma stats_n l : l <> [] -> exists s, stats l = Some s /\ es_n s = length l.
Proof.
  intros Hl. unfold stats. destruct (list.last l) eqn:E; [|by apply last_None in E]. cbn [mbind option_bind]. by eexists.
Qed.
Lemma stats_length l : es_n (default no_stats (stats l)) = length l.
Proof. destruct l as [|x l]; [done|]. by destruct (stats_n (x :: l)) as (s & -> & <-). Qed.

(** The errors in order, with the statistics over them: their greatest is one of them and no less
    than any. *)
Definition statistics_of (errors : list f64) (st : option ErrorStats) : Prop :=
  exists sorted, sorted ≡ₚ errors /\ StronglySorted (fun a b => total_le a b = true) sorted /\ st = stats sorted /\
    forall s, st = Some s -> es_n s = length errors /\ es_max s ∈ errors /\ forall e, e ∈ errors -> total_le e (es_max s) = true.
Lemma sorted_last (le : f64 -> f64 -> bool) l x : (forall x, le x x = true) -> StronglySorted (fun a b => le a b = true) l -> list.last l = Some x ->
  forall e, e ∈ l -> le e x = true.
Proof.
  intros Hrefl. induction l as [|y l IH]; [done|]. intros [Hs Hy]%StronglySorted_inv Hl e [->|He]%elem_of_cons.
  - destruct l as [|z l]; [injection Hl as ->; apply Hrefl|]. change (list.last (y :: z :: l)) with (list.last (z :: l)) in Hl.
    apply last_Some_elem_of in Hl. rewrite list.Forall_forall in Hy. by apply Hy.
  - destruct l as [|z l]; [by apply elem_of_nil in He|]. change (list.last (y :: z :: l)) with (list.last (z :: l)) in Hl. by apply IH.
Qed.
Lemma stats_of_errors errors : statistics_of errors (stats (sort_total errors)).
Proof.
  exists (sort_total errors). assert (sort_total errors ≡ₚ errors) as Hp by apply stable_sort_perm.
  assert (StronglySorted (fun a b => total_le a b = true) (sort_total errors)) as Hs
    by (apply stable_sort_sorted; intros; [apply total_le_total|by eapply total_le_trans]).
  split_and!; [done..|]. intros s. unfold stats. destruct (list.last (sort_total errors)) as [x|] eqn:El; [|done]. intros [= <-]. cbn [es_n es_max].
  split_and!; [by rewrite Hp|rewrite <- Hp; by apply last_Some_elem_of|].
  intros e He. eapply (sorted_last total_le); [|exact Hs|exact El|by rewrite Hp]. intros y. pose proof (total_le_total y y). naive_solver.
Qed.

(** The loop over the trackable aircraft. *)
Lemma cover_fst per_ac l acc : (fold_left (cover_step per_ac) l acc).1
  = acc.1 + foldr Z.add 0 ((fun kv => Z.of_nat (both_seconds (per_ac !! to_hex kv.1) kv.2)) <$> l).
Proof.
  revert acc. induction l as [|kv l IH]; intros acc; [cbn; lia|]. cbn [fold_left fmap list_fmap foldr].
  rewrite IH. unfold cover_step. cbn [fst]. lia.
Qed.
Lemma cover_snd per_ac l acc hex a : (fold_left (cover_step per_ac) l acc).2 !! hex = Some a ->
  acc.2 !! hex = Some a \/ exists kv, kv ∈ l /\ to_hex kv.1 = hex /\ a = aircraft_metrics (per_ac !! hex) kv.2.
Proof.
  revert acc. induction l as [|kv l IH]; intros acc; [by left|]. cbn [fold_left]. intros [Ha|(kv' & ? & ? & ?)]%IH.
  - unfold cover_step in Ha. cbn [snd] in Ha. destruct (decide (to_hex kv.1 = hex)) as [<-|Hne].
    + rewrite lookup_insert_eq in Ha. injection Ha as <-. right. exists kv. split_and!; [by left|done|done].
    + rewrite lookup_insert_ne in Ha by done. by left.
  - right. exists kv'. split_and!; [by right|done|done].
Qed.

(** C38: every row of the results is accounted for exactly once: matched to the truth, a
    gross or an unknown ghost, an unscored known aircraft, or outside the scenario; the
    statistics of the horizontal errors, of the altitude errors and of the ratios of estimate
    to error are over exactly those of the matched rows; and every aircraft of the table counts
    its own matched rows. *)
Theorem score_accounts truth rows wall_t0 aud targets known_untruthed res :
  let m := score truth rows wall_t0 aud targets known_untruthed res in
  let n v := count truth wall_t0 known_untruthed v rows in
  results_total m = (results_matched m + ghosts_gross_error m + ghosts_unknown_icao m + unscored_known_aircraft m + n Outside)%nat /\
  results_matched m = n Matched /\ ghosts_gross_error m = n GrossGhost /\
  ghosts_unknown_icao m = n UnknownGhost /\ unscored_known_aircraft m = n Unscored /\
  es_n (horizontal_error_m m) = results_matched m /\
  (exists st, horizontal_error_m m = default no_stats st /\ statistics_of (errors_of truth wall_t0 known_untruthed rows) st) /\
  statistics_of (alt_errors_of truth wall_t0 known_untruthed rows) (altitude_error_m m) /\
  (exists st, err_estimate_ratio_p50 m = p50 <$> st /\ statistics_of (est_ratios_of truth wall_t0 known_untruthed rows) st) /\
  forall hex a, per_aircraft m !! hex = Some a ->
    results a = length (pairs_of truth wall_t0 known_untruthed hex rows).
Proof.
  cbv zeta. unfold score. destruct (tally_spec truth wall_t0 known_untruthed rows) as [Hm Hg Hk Hu Hh Ha Hr Hp _].
  set (t := tally _ _ _ _) in *. destruct (fold_left _ _ _) as [secs pa] eqn:Ef.
  cbn [results_total results_matched ghosts_gross_error ghosts_unknown_icao unscored_known_aircraft horizontal_error_m altitude_error_m
    err_estimate_ratio_p50 per_aircraft].
  split_and!; try done.
  - rewrite Hm, Hg, Hk, Hu. apply count_all.
  - rewrite stats_length. unfold sort_total. rewrite stable_sort_length, Hh, Hm. apply errors_count.
  - eexists. split; [done|]. rewrite Hh. apply stats_of_errors.
  - rewrite Ha. apply stats_of_errors.
  - eexists. split; [done|]. rewrite Hr. apply stats_of_errors.
  - intros hex a Haa. apply (f_equal snd) in Ef. cbn [snd] in Ef. rewrite <- Ef in Haa.
    apply cover_snd in Haa as [Haa|(kv & _ & _ & ->)]; [cbn [snd] in Haa; by rewrite lookup_empty in Haa|]. by rewrite <- Hp.
Qed.

Lemma both_le v secs : (both_seconds v secs <= size (list_to_set secs : gset Z))%nat.
Proof. unfold both_seconds. apply subseteq_size. set_solver. Qed.
Lemma size_secs_le (secs : list Z) : (size (list_to_set secs : gset Z) <= length secs)%nat.
Proof.
  induction secs as [|s secs IH]; [done|]. cbn [list_to_set length]. pose proof (size_union_alt {[s]} (list_to_set secs : gset Z)) as E.
  rewrite size_singleton in E. assert (size (list_to_set secs ∖ {[s]} : gset Z) <= size (list_to_set secs : gset Z))%nat
    by (apply subseteq_size; set_solver). lia.
Qed.
Lemma sum_le {A} (f g : A -> Z) l : (forall x, f x <= g x) -> foldr Z.add 0 (f <$> l) <= foldr Z.add 0 (g <$> l).
Proof. intros Hfg. induction l as [|x l IH]; [done|]. cbn. pose proof (Hfg x). lia. Qed.
Lemma sum_nonneg {A} (f : A -> nat) l : 0 <= foldr Z.add 0 ((fun x => Z.of_nat (f x)) <$> l).
Proof. induction l as [|x l IH]; [done|]. cbn. lia. Qed.
Lemma sum_perm l k : l ≡ₚ k -> foldr Z.add 0 l = foldr Z.add 0 k.
Proof. induction 1; cbn; lia. Qed.

(** The seconds the audibility log gives an aircraft. *)
Lemma trackable_lookup targets aud icao : default [] (trackable_of targets aud !! icao)
  = au_t_s <$> filter (fun a => (MIN_RX <= au_n_receivers a)%nat /\ au_icao a ∈ targets /\ au_icao a = icao) aud.
Proof.
  unfold trackable_of. induction aud as [|a aud IH] using rev_ind; [done|].
  rewrite fold_left_snoc, list.filter_app, fmap_app, <- IH. set (m := fold_left _ aud ∅). unfold trackable_push.
  destruct (Nat.leb_spec MIN_RX (au_n_receivers a)) as [Hn|Hn]; cbn [andb].
  - case_bool_decide as Ht.
    + destruct (decide (au_icao a = icao)) as [<-|Hne].
      * rewrite lookup_insert_eq, list.filter_cons_True by done. done.
      * rewrite lookup_insert_ne, list.filter_cons_False by naive_solver. by rewrite app_nil_r.
    + rewrite list.filter_cons_False by naive_solver. by rewrite app_nil_r.
  - rewrite list.filter_cons_False by (intros [? _]; lia). by rewrite app_nil_r.
Qed.

(** The number of seconds in a map, group by group. *)
Definition seconds (m : gmap Z (list Z)) : Z := foldr Z.add 0 ((fun kv => Z.of_nat (length kv.2)) <$> map_to_list m).
Lemma seconds_insert m k l : seconds (<[k := l]> m) = seconds m - Z.of_nat (length (default [] (m !! k))) + Z.of_nat (length l).
Proof.
  assert (forall m, m !! k = None -> seconds (<[k := l]> m) = seconds m + Z.of_nat (length l)) as Hnew.
  { intros m' Hk. unfold seconds. erewrite sum_perm; [|apply fmap_Permutation, map_to_list_insert, Hk]. cbn. lia. }
  destruct (m !! k) as [y|] eqn:E; cbn [default length]; [|rewrite Hnew by done; lia].
  assert (seconds m = seconds (delete k m) + Z.of_nat (length y)) as ->.
  { unfold seconds. erewrite sum_perm; [|apply fmap_Permutation; symmetry; by apply map_to_list_delete]. cbn. lia. }
  rewrite <- insert_delete_eq, Hnew by apply lookup_delete_eq. cbn. lia.
Qed.
Lemma seconds_trackable targets aud : seconds (trackable_of targets aud)
  = Z.of_nat (length (filter (fun a => (MIN_RX <= au_n_receivers a)%nat /\ au_icao a ∈ targets) aud)).
Proof.
  unfold trackable_of. induction aud as [|a aud IH] using rev_ind; [done|].
  rewrite fold_left_snoc, list.filter_app, length_app. set (m := fold_left _ aud ∅) in *. unfold trackable_push.
  destruct (Nat.leb_spec MIN_RX (au_n_receivers a)) as [Hn|Hn]; cbn [andb]; [case_bool_decide as Ht|].
  - rewrite list.filter_cons_True by done. rewrite seconds_insert, IH, length_app. cbn. lia.
  - rewrite list.filter_cons_False by naive_solver. rewrite IH. cbn. lia.
  - rewrite list.filter_cons_False by (intros [? _]; lia). rewrite IH. cbn. lia.
Qed.

(** The trackable time is the number of audible seconds of MLAT targets heard by at
    least four receivers, the tracked time is between zero and it, and no aircraft is
    tracked in more distinct seconds than it is on the air. *)
Theorem score_coverage truth rows wall_t0 aud targets known_untruthed res :
  let c := coverage (score truth rows wall_t0 aud targets known_untruthed res) in
  trackable_aircraft_seconds c
    = Z.of_nat (length (filter (fun a => (MIN_RX <= au_n_receivers a)%nat /\ au_icao a ∈ targets) aud)) /\
  0 <= tracked_aircraft_seconds c <= trackable_aircraft_seconds c /\
  forall v secs, (both_seconds v secs <= size (list_to_set secs : gset Z) <= length secs)%nat.
Proof.
  cbv zeta. unfold score. set (t := tally _ _ _ _). destruct (fold_left _ _ _) as [secs pa] eqn:Ef.
  cbn [coverage trackable_aircraft_seconds tracked_aircraft_seconds]. apply (f_equal fst) in Ef. rewrite cover_fst in Ef.
  cbn [fst] in Ef. split_and!.
  - rewrite <- seconds_trackable. unfold seconds. apply sum_perm, fmap_Permutation, hash_iter_perm.
  - rewrite <- Ef, Z.add_0_l. apply sum_nonneg.
  - rewrite <- Ef, Z.add_0_l. apply sum_le. intros kv. pose proof (both_le (per_ac t !! to_hex kv.1) kv.2). pose proof (size_secs_le kv.2). lia.
  - intros v l. split; [apply both_le|apply size_secs_le].
Qed.
End Score.

(** The order in which the hash map is visited does not matter for 24-bit addresses. *)
Section Order.
Context `{Elem f64}.

Lemma to_hex_inj x y : 0 <= x < 2 ^ 24 -> 0 <= y < 2 ^ 24 -> to_hex x = to_hex y -> x = y.
Proof.
  intros Hx Hy E. pose proof (from_hex_to_hex x Hx) as E1. rewrite E, from_hex_to_hex in E1 by done. congruence.
Qed.
Lemma cover_lookup pm l acc hex : NoDup (to_hex ∘ fst <$> l) ->
  (fold_left (cover_step pm) l acc).2 !! hex =
    match list_find (fun kv => to_hex kv.1 = hex) l with
    | Some (_, kv) => Some (aircraft_metrics (pm !! hex) kv.2)
    | None => acc.2 !! hex
    end.
Proof.
  revert acc. induction l as [|kv l IH]; intros acc Hnd; [done|]. cbn [fold_left list_find fmap list_fmap] in *.
  apply list.NoDup_cons in Hnd as [Hkv Hnd]. rewrite IH by done. unfold cover_step at 1. cbn [snd].
  destruct (decide (to_hex kv.1 = hex)) as [<-|Hne].
  - destruct (list_find _ l) as [[i kv']|] eqn:E; [|by rewrite lookup_insert_eq].
    apply list_find_Some in E as (Hl & E & _). destruct Hkv. apply list_elem_of_fmap. exists kv'.
    split; [done|]. by eapply list_elem_of_lookup_2.
  - rewrite lookup_insert_ne by done. by destruct (list_find _ l) as [[i kv']|].
Qed.
Lemma trackable_icao targets aud icao : is_Some (trackable_of targets aud !! icao) -> icao ∈ targets.
Proof.
  unfold trackable_of. induction aud as [|a aud IH] using rev_ind; [intros [l Hl]; cbn in Hl; by rewrite lookup_empty in Hl|].
  rewrite fold_left_snoc. set (m := fold_left _ aud ∅) in *. unfold trackable_push.
  destruct (_ <=? _)%nat; cbn [andb]; [|done]. case_bool_decide; [|done].
  destruct (decide (au_icao a = icao)) as [<-|Hne]; [done|]. by rewrite lookup_insert_ne.
Qed.

(** For MLAT targets with 24-bit addresses the score does not depend on the order in
    which the hash map of trackable aircraft is visited. *)
Theorem score_order_independent (o1 o2 : HashIter Z (list Z)) truth rows wall_t0 aud targets known_untruthed res :
  (forall icao, icao ∈ targets -> 0 <= icao < 2 ^ 24) ->
  score (HashIter0 := o1) truth rows wall_t0 aud targets known_untruthed res
  = score (HashIter0 := o2) truth rows wall_t0 aud targets known_untruthed res.
Proof.
  intros Hicao. unfold score. set (t := tally _ _ _ _). set (m := trackable_of targets aud).
  assert (@hash_iter _ _ _ _ o1 m ≡ₚ @hash_iter _ _ _ _ o2 m) as Hperm
    by (etransitivity; [apply hash_iter_perm|symmetry; apply hash_iter_perm]).
  assert (forall o : HashIter Z (list Z), NoDup (to_hex ∘ fst <$> @hash_iter _ _ _ _ o m)) as Hnd.
  { intros o. rewrite list_fmap_compose. apply NoDup_fmap_2_strong; [|apply NoDup_hash_iter].
    intros x y Hx Hy. apply list_elem_of_fmap in Hx as ([x' lx] & -> & Hx). apply list_elem_of_fmap in Hy as ([y' ly] & -> & Hy).
    apply to_hex_inj; apply Hicao, (trackable_icao targets aud); eexists; by eapply elem_of_hash_iter. }
  destruct (fold_left (cover_step (per_ac t)) (@hash_iter _ _ _ _ o1 m) (0, ∅)) as [s1 p1] eqn:E1.
  destruct (fold_left (cover_step (per_ac t)) (@hash_iter _ _ _ _ o2 m) (0, ∅)) as [s2 p2] eqn:E2.
  assert (s1 = s2) as ->.
  { apply (f_equal fst) in E1, E2. rewrite cover_fst in E1, E2. cbn [fst] in *. rewrite <- E1, <- E2.
    f_equal. by apply sum_perm, fmap_Permutation. }
  assert (p1 = p2) as ->.
  { apply map_eq. intros hex. apply (f_equal snd) in E1, E2. cbn [snd] in *. rewrite <- E1, <- E2.
    rewrite !cover_lookup by apply Hnd.
    destruct (list_find _ (@hash_iter _ _ _ _ o1 m)) as [[i [k1 l1]]|] eqn:F1, (list_find _ (@hash_iter _ _ _ _ o2 m)) as [[j [k2 l2]]|] eqn:F2.
    - apply list_find_Some in F1 as (L1 & K1 & _), F2 as (L2 & K2 & _). cbn [fst snd] in *.
      apply list_elem_of_lookup_2, elem_of_hash_iter in L1, L2.
      assert (k1 = k2) as <- by (apply to_hex_inj; [by eapply Hicao, (trackable_icao targets aud)..|congruence]). congruence.
    - apply list_find_Some in F1 as (L1 & K1 & _). apply list_find_None in F2. rewrite list.Forall_forall in F2.
      destruct (F2 (k1, l1)); [|done]. rewrite <- Hperm. by eapply list_elem_of_lookup_2.
    - apply list_find_Some in F2 as (L2 & K2 & _). apply list_find_None in F1. rewrite list.Forall_forall in F1.
      destruct (F1 (k2, l2)); [|done]. rewrite Hperm. by eapply list_elem_of_lookup_2.
    - done. }
  f_equal. f_equal; [|f_equal]; erewrite sum_perm by (by apply fmap_Permutation); done.
Qed.
End Order.

(** ** The truth index *)
Section Truth.
Implicit Types (points : list TruthPoint).

Definition logged (icao : Z) points : list (f64 * Geodetic f64) :=
  (fun p => (nanos_as_secs_f64 (tp_t p), tp_pos p)) <$> filter (fun p => tp_icao p = icao) points.
Lemma build_lookup points icao : build points !! icao =
  match logged icao points with [] => None | l => Some (stable_sort point_le l) end.
Proof.
  transitivity (stable_sort point_le <$> fold_left truth_push points ∅ !! icao); [apply lookup_fmap|].
  assert (fold_left truth_push points ∅ !! icao = match logged icao points with [] => None | l => Some l end) as ->;
    [|by destruct (logged icao points)].
  unfold logged. induction points as [|p points IH] using rev_ind; [done|].
  rewrite fold_left_snoc, list.filter_app, fmap_app. set (m := fold_left _ points ∅) in *. unfold truth_push.
  destruct (decide (tp_icao p = icao)) as [<-|Hne].
  - rewrite lookup_insert_eq, list.filter_cons_True by done. rewrite IH. cbn [base.filter list_filter fmap list_fmap].
    by destruct (_ <$> filter _ points).
  - rewrite lookup_insert_ne, list.filter_cons_False by done. by rewrite app_nil_r.
Qed.

(** The points at or before a time come first in the order of the index. *)
Lemma partition_point_spec {A} (P : A -> bool) (le : A -> A -> bool) l :
  (forall a b, le a b = true -> P b = true -> P a = true) -> StronglySorted (fun a b => le a b = true) l ->
  forall j x, l !! j = Some x -> P x = bool_decide (j < partition_point P l)%nat.
Proof.
  intros Hdown. induction 1 as [|y l Hl IH Hy]; intros j x Hx; [done|]. cbn [partition_point].
  assert (P y = false -> forall z, z ∈ l -> P z = false) as Hno.
  { intros HPy z Hz. destruct (P z) eqn:E; [|done]. rewrite list.Forall_forall in Hy. rewrite (Hdown y z) in HPy; auto. }
  destruct j as [|j]; cbn in Hx.
  - injection Hx as <-. destruct (P y); [by rewrite bool_decide_eq_true_2 by lia|by rewrite bool_decide_eq_false_2 by lia].
  - destruct (P y) eqn:E.
    + rewrite (IH j x Hx). apply bool_decide_ext. lia.
    + rewrite bool_decide_eq_false_2 by lia. apply Hno; [done|]. by eapply list_elem_of_lookup_2.
Qed.

(** The truth of an aircraft at a time is interpolated, in the log's time order,
    between the last point not after that time (the first point of all, for a time before
    the log) and the next one, and is known only within a second of the log. *)
Theorem pos_at_brackets points icao t p : pos_at (build points) icao t = Some p ->
  exists l i a, l ≡ₚ logged icao points /\ StronglySorted (fun a b => point_le a b = true) l /\
    l !! i = Some a /\ p = interpolate t a (default a (l !! S i)) /\
    (forall j b, l !! j = Some b -> (j <= i)%nat -> (b.1 <=? t)%f64 = true \/ i = 0%nat) /\
    (forall j b, l !! j = Some b -> (i < j)%nat -> (b.1 <=? t)%f64 = false) /\
    exists first final, head l = Some first /\ list.last l = Some final /\
      (t <? first.1 - of_Z 1)%f64 = false /\ (t >? final.1 + of_Z 1)%f64 = false.
Proof.
  unfold pos_at. rewrite build_lookup. destruct (logged icao points) as [|x l0] eqn:El; [done|]. rewrite <- El in *.
  cbn [mbind option_bind]. set (l := stable_sort point_le (logged icao points)).
  assert (StronglySorted (fun a b => point_le a b = true) l) as Hs.
  { apply stable_sort_sorted; intros; unfold point_le in *; [apply total_le_total|by eapply total_le_trans]. }
  destruct (head l) as [first|] eqn:Ef; [|done]. destruct (list.last l) as [final|] eqn:En; [|done]. cbn [mbind option_bind].
  destruct (_ <? _)%f64 eqn:E1; [done|]. destruct (_ <? t)%f64 eqn:E2; [done|]. cbn [orb].
  set (n := partition_point _ l). destruct (l !! Nat.pred n) as [a|] eqn:Ea; [|done]. cbn [mbind option_bind]. intros [= <-].
  assert (forall j b, l !! j = Some b -> (b.1 <=? t)%f64 = bool_decide (j < n)%nat) as Hn.
  { apply (partition_point_spec (fun tp : f64 * Geodetic f64 => (tp.1 <=? t)%f64) point_le); [|done]. intros u v. apply total_le_down. }
  exists l, (Nat.pred n), a. split_and!; try done.
  - apply stable_sort_perm.
  - intros j b Hb Hj. rewrite (Hn _ _ Hb). destruct n; [by right|left]. rewrite bool_decide_eq_true. cbn in Hj. lia.
  - intros j b Hb Hj. rewrite (Hn _ _ Hb). rewrite bool_decide_eq_false. lia.
  - by exists first, final.
Qed.
End Truth.

(** ** Concrete scores *)
Section Sample.
#[local] Existing Instance elem_taylor.
#[local] Instance seconds_order : HashIter Z (list Z) := hash_iter_list Z (list Z).
Definition truth_point (t : Z) : TruthPoint :=
  {| tp_t := t * 1000000000; tp_icao := 0x3944f1; tp_pos := {| lat_deg := of_Z 47; lon_deg := of_Z (-1); alt_m := of_Z 6000 |};
     gs_mps := of_Z 200; vrate_mps := of_Z 0 |}.
Definition sample_truth : TruthIndex := build [truth_point 10; truth_point 0].
Definition csv_row (t icao : Z) (lat : f64) : CsvRow :=
  {| t_wall := of_Z t; cr_icao := icao; cr_lat := lat; cr_lon := of_Z (-1); cr_alt_ft := None;
     cr_err_est_m := Some (of_Z 60); n_receivers := Some 5; distinct_receivers := Some 5 |}.
Definition audible (t : Z) : AudibilitySecond := {| au_t_s := t; au_icao := 0x3944f1; au_n_receivers := 5 |}.
Definition sample_score (rows : list CsvRow) : Metrics :=
  score sample_truth rows (of_Z 1000) (audible <$> seqZ 0 11) {[0x3944f1]} ∅ [].

Example sample_counts :
  let m := sample_score [csv_row 1005 0x3944f1 (lit 47001 1000); csv_row 1005 0xabcdef (of_Z 47);
                         csv_row 1005 0x3944f1 (of_Z 48); csv_row 1020 0x3944f1 (of_Z 47)] in
  (results_matched m, ghosts_unknown_icao m, ghosts_gross_error m, results_total m) = (1, 1, 1, 4)%nat /\
  (tracked_aircraft_seconds (coverage m), trackable_aircraft_seconds (coverage m)) = (1, 11) /\
  (a ← per_aircraft m !! "3944f1"%string; ttff_s a) = Some (of_Z 5).
Proof. vm_compute. repeat split; reflexivity. Qed.
(** An overconfident estimate (60 m for an error of more than 100 m) has a ratio below one. *)
Example overconfident_below_one :
  let m := sample_score [csv_row 1005 0x3944f1 (lit 47001 1000)] in
  (p50 (horizontal_error_m m) >? of_Z 100)%f64 && (p50 (horizontal_error_m m) <? of_Z 120)%f64 = true /\
  (fun r => (r <? of_Z 1)%f64) <$> err_estimate_ratio_p50 m = Some true.
Proof. vm_compute. split; reflexivity. Qed.
(** A row whose position is NaN is counted as matched, with a NaN error. *)
Example nan_row_matched :
  let m := sample_score [csv_row 1005 0x3944f1 fnan] in
  (results_matched m, ghosts_gross_error m) = (1, 0)%nat /\ is_nan (es_max (horizontal_error_m m)) = true.
Proof. vm_compute. split; reflexivity. Qed.

Lemma score_order_independent_witness :
  score (HashIter0 := seconds_order) sample_truth [] (of_Z 0) [audible 0] {[0x3944f1]} ∅ []
  = score (HashIter0 := hash_iter_list Z (list Z)) sample_truth [] (of_Z 0) [audible 0] {[0x3944f1]} ∅ [].
Proof. apply score_order_independent. intros icao Hi%elem_of_singleton. subst icao. lia. Defined.
Lemma pos_at_brackets_witness : exists p, pos_at sample_truth 0x3944f1 (of_Z 5) = Some p /\
  exists l i a, l ≡ₚ logged 0x3944f1 [truth_point 10; truth_point 0] /\ l !! i = Some a /\
    p = interpolate (of_Z 5) a (default a (l !! S i)).
Proof.
  destruct (pos_at sample_truth 0x3944f1 (of_Z 5)) as [p|] eqn:E; [|vm_compute in E; discriminate E].
  exists p. split; [reflexivity|].
  destruct (pos_at_brackets [truth_point 10; truth_point 0] 0x3944f1 (of_Z 5) p E) as (l & i & a & H1 & _ & H2 & H3 & _).
  exists l, i, a. auto.
Defined.
End Sample.
