(* ===== verification/Capture.v ===== *)
(** * The capture container (crates/mb-capture/src/lib.rs)

    A capture directory is the map from its files' names to their contents, or nothing when it
    does not exist.  zstd, SHA-256 and serde_json are parameters: a decoder's output is the
    bytes it gives and how it ends; the JSON of a value is a byte string.  Failures of the file
    system other than missing files are not modelled. *)
From S2P Require Import Prelude F64 Text Coding Geo Metrics.
From stdpp Require Import countable.
Local Open Scope Z_scope.

(** ** The standard library's parts *)
(** [to_le_bytes] and [from_le_bytes]. *)
Fixpoint le_bytes (n : nat) (z : Z) : list Z :=
  match n with O => [] | S n => z mod 256 :: le_bytes n (z / 256) end.
Definition from_le (l : list Z) : Z := foldr (fun b acc => b + 256 * acc) 0 l.

(** [str::from_utf8]. *)
Definition cont (b : Z) : bool := (128 <=? b) && (b <=? 191).
Fixpoint utf8_loop (fuel : nat) (l : list Z) : bool :=
  match fuel, l with
  | _, [] => true
  | O, _ => false
  | S fuel, b :: l =>
      if b <? 128 then utf8_loop fuel l
      else match l with
      | c1 :: l1 =>
          if (194 <=? b) && (b <=? 223) then cont c1 && utf8_loop fuel l1
          else match l1 with
          | c2 :: l2 =>
              if (224 <=? b) && (b <=? 239) then
                cont c1 && cont c2 && negb ((b =? 224) && (c1 <? 160)) && negb ((b =? 237) && (159 <? c1)) && utf8_loop fuel l2
              else match l2 with
              | c3 :: l3 =>
                  (240 <=? b) && (b <=? 244) && cont c1 && cont c2 && cont c3
                  && negb ((b =? 240) && (c1 <? 144)) && negb ((b =? 244) && (143 <? c1)) && utf8_loop fuel l3
              | [] => false
              end
          | [] => false
          end
      | [] => false
      end
  end.
Definition utf8_valid (l : list Z) : bool := utf8_loop (length l) l.

(** The end of a reader: a clean end of file or an error that repeats. *)
Inductive ErrorKind := UnexpectedEof | InvalidData | NotFound | OtherKind.
#[export] Instance ErrorKind_eq_dec : EqDecision ErrorKind.
Proof. solve_decision. Defined.
Record Stream := { st_bytes : list Z; st_end : option ErrorKind }.
Inductive CaptureError := Io (k : ErrorKind) | JsonErr | Format (msg : string).

(** [read_exact]: a reader that ends first is exhausted. *)
Definition read_exact (n : nat) (z : Stream) : (list Z + ErrorKind) * Stream :=
  if (n <=? length (st_bytes z))%nat
  then (inl (take n (st_bytes z)), {| st_bytes := drop n (st_bytes z); st_end := st_end z |})
  else (inr (default UnexpectedEof (st_end z)), {| st_bytes := []; st_end := st_end z |}).

(** The bytes up to and including the first line feed, and the rest. *)
Fixpoint until_newline (l : list Z) : list Z * list Z :=
  match l with
  | [] => ([], [])
  | b :: l => if b =? 10 then ([b], l) else let '(x, y) := until_newline l in (b :: x, y)
  end.
Definition has_newline (l : list Z) : bool := existsb (fun b => b =? 10) l.
(** [read_line]: a line must be text; without a line feed the end of the reader counts. *)
Definition read_line (z : Stream) : (list Z + ErrorKind) * Stream :=
  let '(line, rest) := until_newline (st_bytes z) in
  let z' := {| st_bytes := rest; st_end := st_end z |} in
  match st_end z with
  | Some k => if has_newline line then (if utf8_valid line then inl line else inr InvalidData, z') else (inr k, z')
  | None => (if utf8_valid line then inl line else inr InvalidData, z')
  end.

(** ** Records *)
Definition MBC_MAGIC : list Z := bytes_of "MBC1".
Definition REC_C2S : Z := 1.
Definition REC_S2C : Z := 2.
Definition REC_CONNECT : Z := 3.
Definition REC_DISCONNECT : Z := 4.
Record ClientEntry := {
  ce_id : string; ce_file : string; ce_clock_type : string; ce_compress : string;
  ce_lat : f64; ce_lon : f64; ce_alt_m : f64
}.
Record Manifest := {
  m_format : string; m_version : Z; m_name : string; m_seed : Z; m_duration_s : Z; m_scenario_sha256 : string;
  m_clients : list ClientEntry
}.
Record Rec := { t_nanos : Z; kind : Z; payload : list Z }.

(** External code: zstd, SHA-256 in hexadecimal, and JSON.  A float need not read back as it was
    written: [json_f64] is what the reader makes of the text of a float, which may differ in its
    last digits, and is nothing for one that is not finite or is out of the reader's range. *)
Class Codec := {
  zstd : list Z -> list Z; unzstd : list Z -> Stream;
  sha256_hex : list Z -> string;
  id_json : string -> list Z;
  manifest_json : Manifest -> list Z; manifest_parse : list Z -> option Manifest;
  truth_json : TruthPoint -> list Z; truth_parse : list Z -> option TruthPoint;
  json_f64 : f64 -> option f64
}.

(** A capture directory. *)
Abbreviation Dir := (option (gmap string (list Z))).

Section Code.
Context `{Codec}.

(** ** Writing *)
Definition create (dir : Dir) : Dir + CaptureError :=
  match dir with
  | Some _ => inr (Format "already exists: captures are immutable, pick a fresh path")
  | None => inl (Some ∅)
  end.
Definition put (name : string) (content : list Z) (dir : Dir) : Dir := <[name := content]> <$> dir.
Definition write_scenario_toml (text : list Z) (dir : Dir) : Dir * string :=
  (put "scenario.toml" text dir, sha256_hex text).
Definition json_lines {A} (json : A -> list Z) (l : list A) : list Z := l ≫= (fun x => json x ++ [10]).
Definition write_truth (points : list TruthPoint) (dir : Dir) : Dir :=
  put "truth.jsonl.zst" (zstd (json_lines truth_json points)) dir.
Definition write_audibility {A} (json : A -> list Z) (rows : list A) (dir : Dir) : Dir :=
  put "audibility.jsonl.zst" (zstd (json_lines json rows)) dir.

(** The stream a client's writer has produced. *)
Definition client_file (id : string) : string := String.append "clients/" (String.append id ".mbc.zst").
Record ClientWriter := { w_file : string; w_bytes : list Z }.
Definition client_writer (id : string) : ClientWriter :=
  {| w_file := client_file id; w_bytes := MBC_MAGIC ++ id_json id ++ [10] |}.
Definition rec_bytes (r : Rec) : list Z :=
  le_bytes 8 (t_nanos r) ++ [kind r] ++ le_bytes 4 (u32 (Z.of_nat (length (payload r)))) ++ payload r.
Definition record (r : Rec) (w : ClientWriter) : ClientWriter :=
  {| w_file := w_file w; w_bytes := w_bytes w ++ rec_bytes r |}.
Definition finish (w : ClientWriter) (dir : Dir) : Dir := put (w_file w) (zstd (w_bytes w)) dir.
Definition write_manifest (m : Manifest) (dir : Dir) : Dir := put "manifest.json" (manifest_json m) dir.

(** ** Reading *)
Definition file (name : string) (dir : Dir) : list Z + CaptureError :=
  match d ← dir; d !! name with Some c => inl c | None => inr (Io NotFound) end.
Definition open (dir : Dir) : Manifest + CaptureError :=
  match file "manifest.json" dir with
  | inr e => inr e
  | inl text =>
      match manifest_parse text with
      | None => inr JsonErr
      | Some m =>
          if negb (m_format m =? "mbc")%string || negb (m_version m =? 1) then inr (Format "unsupported capture format")
          else inl m
      end
  end.
Definition scenario_toml (dir : Dir) : list Z + CaptureError :=
  match file "scenario.toml" dir with
  | inr e => inr e
  | inl text => if utf8_valid text then inl text else inr (Io InvalidData)
  end.

(** A line without its line feed and the carriage return before it. *)
Definition chomp (line : list Z) : list Z :=
  match list.last line with
  | Some 10 =>
      let l := removelast line in
      match list.last l with Some 13 => removelast l | _ => l end
  | _ => line
  end.
Fixpoint parse_lines {A} (parse : list Z -> option A) (fuel : nat) (z : Stream) : list A + CaptureError :=
  match st_bytes z, st_end z with
  | [], None => inl []
  | [], Some k => inr (Io k)
  | _, _ =>
      match read_line z with
      | (inr k, _) => inr (Io k)
      | (inl line, z) =>
          match parse (chomp line), fuel with
          | None, _ => inr JsonErr
          | Some _, O => inr JsonErr
          | Some x, S fuel => match parse_lines parse fuel z with inl l => inl (x :: l) | inr e => inr e end
          end
      end
  end.
Definition read_json_lines {A} (parse : list Z -> option A) (name : string) (dir : Dir) : list A + CaptureError :=
  match file name dir with
  | inr e => inr e
  | inl text => let z := unzstd text in parse_lines parse (length (st_bytes z)) z
  end.
Definition truth (dir : Dir) : list TruthPoint + CaptureError := read_json_lines truth_parse "truth.jsonl.zst" dir.
Definition audibility_raw {A} (parse : list Z -> option A) (dir : Dir) : list A + CaptureError :=
  read_json_lines parse "audibility.jsonl.zst" dir.

Definition open_stream (z : Stream) : Stream + CaptureError :=
  match read_exact 4 z with
  | (inr k, _) => inr (Io k)
  | (inl magic, z) =>
      if negb (bool_decide (magic = MBC_MAGIC)) then inr (Format "bad MBC magic")
      else match read_line z with (inr k, _) => inr (Io k) | (inl _, z) => inl z end
  end.
Definition client_records (entry : ClientEntry) (dir : Dir) : Stream + CaptureError :=
  match file (ce_file entry) dir with inr e => inr e | inl text => open_stream (unzstd text) end.

(** [RecordIter::next]. *)
Definition next (z : Stream) : option (Rec + CaptureError) * Stream :=
  match read_exact 8 z with
  | (inr UnexpectedEof, z) => (None, z)
  | (inr k, z) => (Some (inr (Io k)), z)
  | (inl t, z) =>
      match read_exact 1 z with
      | (inr k, z) => (Some (inr (Io k)), z)
      | (inl kb, z) =>
          match read_exact 4 z with
          | (inr k, z) => (Some (inr (Io k)), z)
          | (inl len, z) =>
              match read_exact (Z.to_nat (from_le len)) z with
              | (inr k, z) => (Some (inr (Io k)), z)
              | (inl p, z) => (Some (inl {| t_nanos := from_le t; kind := hd 0 kb; payload := p |}), z)
              end
          end
      end
  end.
(** The records a consumer sees: all up to the end or the first error. *)
Fixpoint read_all (fuel : nat) (z : Stream) : list Rec * option CaptureError :=
  match next z, fuel with
  | (None, _), _ => ([], None)
  | (Some (inr e), _), _ => ([], Some e)
  | (Some (inl r), _), O => ([r], None)
  | (Some (inl r), z), S fuel => let '(l, e) := read_all fuel z in (r :: l, e)
  end.
Definition records (z : Stream) : list Rec * option CaptureError := read_all (length (st_bytes z)) z.
End Code.

(** ** Reading what was written *)
Section Bytes.
Lemma le_bytes_length n z : length (le_bytes n z) = n.
Proof. revert z. induction n as [|n IH]; intros z; [done|]. cbn. by rewrite IH. Qed.
Lemma from_le_bytes n z : from_le (le_bytes n z) = z mod 256 ^ Z.of_nat n.
Proof.
  revert z. induction n as [|n IH]; intros z; cbn [le_bytes from_le foldr]; [by rewrite Z.mod_1_r|].
  unfold from_le in IH. rewrite IH, Nat2Z.inj_succ, Z.pow_succ_r by lia.
  rewrite Z.rem_mul_r by (lia || apply Z.pow_pos_nonneg; lia). lia.
Qed.

Lemma read_exact_app l r e n : length l = n ->
  read_exact n {| st_bytes := l ++ r; st_end := e |} = (inl l, {| st_bytes := r; st_end := e |}).
Proof.
  intros <-. unfold read_exact. cbn [st_bytes st_end]. rewrite length_app.
  destruct (Nat.leb_spec (length l) (length l + length r)); [|lia]. by rewrite take_app_length, drop_app_length.
Qed.
Lemma read_exact_short l e n : (length l < n)%nat ->
  read_exact n {| st_bytes := l; st_end := e |} = (inr (default UnexpectedEof e), {| st_bytes := []; st_end := e |}).
Proof. intros Hn. unfold read_exact. cbn [st_bytes st_end]. by destruct (Nat.leb_spec n (length l)); [lia|]. Qed.

Record rec_ok (r : Rec) : Prop := {
  rok_t : 0 <= t_nanos r < 2 ^ 64;
  rok_len : Z.of_nat (length (payload r)) < 2 ^ 32
}.
Definition head_bytes (r : Rec) : list Z :=
  le_bytes 8 (t_nanos r) ++ [kind r] ++ le_bytes 4 (u32 (Z.of_nat (length (payload r)))).
Lemma from_le_len r : rec_ok r -> Z.to_nat (from_le (le_bytes 4 (u32 (Z.of_nat (length (payload r)))))) = length (payload r).
Proof.
  intros [_ Hl]. rewrite from_le_bytes, wrap_small by lia. rewrite Z.mod_small; [lia|].
  change (256 ^ Z.of_nat 4) with (2 ^ 32). lia.
Qed.

Lemma next_record r rest e : rec_ok r ->
  next {| st_bytes := rec_bytes r ++ rest; st_end := e |} = (Some (inl r), {| st_bytes := rest; st_end := e |}).
Proof.
  intros Hr. unfold next, rec_bytes. rewrite <- !app_assoc.
  rewrite read_exact_app by apply le_bytes_length. rewrite (read_exact_app [kind r]) by done.
  rewrite read_exact_app by apply le_bytes_length. rewrite from_le_len by done. rewrite read_exact_app by done.
  rewrite from_le_bytes, Z.mod_small by (change (256 ^ Z.of_nat 8) with (2 ^ 64); apply Hr).
  by destruct r.
Qed.
Lemma rec_bytes_length r : length (rec_bytes r) = (13 + length (payload r))%nat.
Proof. unfold rec_bytes. rewrite !length_app, !le_bytes_length. cbn. lia. Qed.

Lemma len_field r : take 4 (drop 9 (rec_bytes r)) = le_bytes 4 (u32 (Z.of_nat (length (payload r)))).
Proof.
  unfold rec_bytes. rewrite app_assoc, drop_app_length' by (by rewrite length_app, le_bytes_length).
  by rewrite take_app_length' by (by rewrite le_bytes_length).
Qed.
(** A record cut short: inside its time the stream seems to end, later it is an error. *)
Definition cut_error (left : nat) (e : option ErrorKind) : option CaptureError :=
  match default UnexpectedEof e with
  | UnexpectedEof => if (left <? 8)%nat then None else Some (Io UnexpectedEof)
  | k => Some (Io k)
  end.
Lemma next_cut r p q e : rec_ok r -> rec_bytes r = p ++ q -> q <> [] ->
  (next {| st_bytes := p; st_end := e |}).1 = (inr <$> cut_error (length p) e).
Proof.
  intros Hr Hp Hq. unfold cut_error.
  assert (length p < 13 + length (payload r))%nat as Hlen.
  { pose proof (rec_bytes_length r) as E. rewrite Hp, length_app in E. destruct q; [done|]. cbn in E. lia. }
  unfold next. destruct (Nat.ltb_spec (length p) 8) as [H8|H8].
  - rewrite read_exact_short by done. by destruct (default UnexpectedEof e).
  - rewrite <- (take_drop 8 p) at 1. rewrite read_exact_app by (rewrite length_take; lia).
    transitivity (Some (inr (Io (default UnexpectedEof e))) : option (Rec + CaptureError)); [|by destruct (default UnexpectedEof e)].
    set (p1 := drop 8 p). assert (length p1 = length p - 8)%nat as H1 by (unfold p1; apply length_drop).
    destruct (decide (length p1 < 1)%nat); [by rewrite read_exact_short|].
    rewrite <- (take_drop 1 p1) at 1. rewrite read_exact_app by (rewrite length_take; lia).
    set (p2 := drop 1 p1). assert (length p2 = length p - 9)%nat as H2 by (unfold p2; rewrite length_drop; lia).
    destruct (decide (length p2 < 4)%nat); [by rewrite read_exact_short|].
    rewrite <- (take_drop 4 p2) at 1. rewrite read_exact_app by (rewrite length_take; lia).
    assert (take 4 p2 = le_bytes 4 (u32 (Z.of_nat (length (payload r))))) as ->.
    { rewrite <- len_field, Hp. unfold p2, p1. rewrite drop_drop, drop_app_le, take_app_le; [done|rewrite ?length_drop; lia..]. }
    rewrite from_le_len by done. rewrite read_exact_short; [done|]. rewrite length_drop. lia.
Qed.
End Bytes.

Section Streams.
Definition stream_bytes (rs : list Rec) : list Z := rs ≫= rec_bytes.

Lemma read_all_app rs fuel rest e : Forall rec_ok rs -> (length rs <= fuel)%nat ->
  read_all fuel {| st_bytes := stream_bytes rs ++ rest; st_end := e |}
  = let '(l, x) := read_all (fuel - length rs) {| st_bytes := rest; st_end := e |} in (rs ++ l, x).
Proof.
  intros Hrs. revert fuel. induction Hrs as [|r rs Hr Hrs IH]; intros fuel Hf.
  - cbn [stream_bytes mbind list_bind app length]. rewrite Nat.sub_0_r. by destruct (read_all _ _).
  - destruct fuel as [|fuel]; [cbn in Hf; lia|]. unfold stream_bytes. cbn [mbind list_bind]. rewrite <- app_assoc.
    cbn [read_all]. rewrite next_record by done. unfold stream_bytes in IH. rewrite IH by (cbn in Hf; lia).
    cbn [length Nat.sub]. by destruct (read_all _ _).
Qed.
Lemma stream_bytes_length rs : (length rs <= length (stream_bytes rs))%nat.
Proof.
  induction rs as [|r rs IH]; [done|]. unfold stream_bytes in *. cbn [mbind list_bind]. rewrite length_app, rec_bytes_length.
  cbn [length]. lia.
Qed.
Lemma read_all_stop fuel z x : (next z).1 = (inr <$> x) -> read_all fuel z = ([], x).
Proof. destruct (next z) as [o z'] eqn:E. cbn [fst]. intros ->. destruct fuel; cbn [read_all]; rewrite E; by destruct x. Qed.

Lemma records_stop rs p x e : Forall rec_ok rs -> (next {| st_bytes := p; st_end := e |}).1 = (inr <$> x) ->
  records {| st_bytes := stream_bytes rs ++ p; st_end := e |} = (rs, x).
Proof.
  intros Hrs Hp. unfold records. cbn [st_bytes]. rewrite read_all_app by (done || (rewrite length_app; pose proof (stream_bytes_length rs); lia)).
  rewrite (read_all_stop _ _ x) by done. by rewrite app_nil_r.
Qed.

(** C40: from a record stream cut anywhere inside a record a reader gets exactly the records
    before it, none of them altered, and then an error; except that a cut within the first
    eight bytes of a record passes for the end of the stream. *)
Theorem capture_truncated rs r p q e : Forall rec_ok rs -> rec_ok r -> rec_bytes r = p ++ q -> q <> [] ->
  records {| st_bytes := stream_bytes rs ++ p; st_end := e |} = (rs, cut_error (length p) e).
Proof. intros Hrs Hr Hp Hq. apply records_stop; [done|]. by eapply next_cut. Qed.

Lemma next_empty e : (next {| st_bytes := []; st_end := e |}).1 = (inr <$> cut_error 0 e).
Proof. unfold next. rewrite read_exact_short by (cbn; lia). unfold cut_error. by destruct (default UnexpectedEof e). Qed.
Lemma records_whole rs : Forall rec_ok rs -> records {| st_bytes := stream_bytes rs; st_end := None |} = (rs, None).
Proof. intros Hrs. rewrite <- (app_nil_r (stream_bytes rs)). apply (records_stop rs [] (cut_error 0 None)); [done|by apply next_empty]. Qed.
End Streams.

(** ** A whole capture *)
(** A truth point and a manifest's entry with their floats changed, when each of them can be. *)
Definition reread_point_with (f : f64 -> option f64) (p : TruthPoint) : option TruthPoint :=
  la ← f (lat_deg (tp_pos p)); lo ← f (lon_deg (tp_pos p)); al ← f (alt_m (tp_pos p)); gs ← f (gs_mps p); vr ← f (vrate_mps p);
  Some {| tp_t := tp_t p; tp_icao := tp_icao p; tp_pos := {| lat_deg := la; lon_deg := lo; alt_m := al |}; gs_mps := gs; vrate_mps := vr |}.
Definition reread_entry_with (f : f64 -> option f64) (e : ClientEntry) : option ClientEntry :=
  la ← f (ce_lat e); lo ← f (ce_lon e); al ← f (ce_alt_m e);
  Some {| ce_id := ce_id e; ce_file := ce_file e; ce_clock_type := ce_clock_type e; ce_compress := ce_compress e;
          ce_lat := la; ce_lon := lo; ce_alt_m := al |}.
Definition with_entries (es : list ClientEntry) (m : Manifest) : Manifest :=
  {| m_format := m_format m; m_version := m_version m; m_name := m_name m; m_seed := m_seed m; m_duration_s := m_duration_s m;
     m_scenario_sha256 := m_scenario_sha256 m; m_clients := es |}.
Section Roundtrip.
Context `{Codec}.
(** A truth point and a manifest as they read back: the integers and texts are those written. *)
Definition reread_point : TruthPoint -> option TruthPoint := reread_point_with json_f64.
Definition reread_entry : ClientEntry -> option ClientEntry := reread_entry_with json_f64.
Definition reread_manifest (m : Manifest) : option Manifest := (fun es => with_entries es m) <$> mapM reread_entry (m_clients m).

(** What the code relies on: zstd is lossless; the JSON of a value is one line of text that
    ends in no carriage return; and a truth point and a manifest read back field by field. *)
Definition one_line (l : list Z) : Prop :=
  has_newline l = false /\ utf8_valid (l ++ [10]) = true /\ list.last l <> Some 13.
Class CodecLaws := {
  unzstd_zstd l : unzstd (zstd l) = {| st_bytes := l; st_end := None |};
  id_json_line id : one_line (id_json id);
  truth_json_line p : one_line (truth_json p);
  truth_read p : truth_parse (truth_json p) = reread_point p;
  manifest_read m : manifest_parse (manifest_json m) = reread_manifest m
}.
Context `{!CodecLaws}.

Lemma reread_entry_same e e' : reread_entry e = Some e' ->
  ce_id e' = ce_id e /\ ce_file e' = ce_file e /\ ce_clock_type e' = ce_clock_type e /\ ce_compress e' = ce_compress e.
Proof.
  unfold reread_entry, reread_entry_with. destruct (json_f64 (ce_lat e)); [|done]. destruct (json_f64 (ce_lon e)); [|done].
  destruct (json_f64 (ce_alt_m e)); [|done]. by intros [= <-].
Qed.
Lemma reread_point_same p p' : reread_point p = Some p' -> tp_t p' = tp_t p /\ tp_icao p' = tp_icao p.
Proof.
  unfold reread_point, reread_point_with. destruct (json_f64 (lat_deg _)); [|done]. destruct (json_f64 (lon_deg _)); [|done].
  destruct (json_f64 (alt_m _)); [|done]. destruct (json_f64 (gs_mps p)); [|done]. destruct (json_f64 (vrate_mps p)); [|done].
  by intros [= <-].
Qed.
Lemma reread_manifest_some m m' : reread_manifest m = Some m' -> exists es, mapM reread_entry (m_clients m) = Some es /\ m' = with_entries es m.
Proof. unfold reread_manifest. destruct (mapM _ _) as [es|]; [|done]. intros [= <-]. by exists es. Qed.
Lemma reread_entries m m' i e' : reread_manifest m = Some m' -> m_clients m' !! i = Some e' ->
  exists e, m_clients m !! i = Some e /\ reread_entry e = Some e'.
Proof.
  intros (es & E%mapM_Some & ->)%reread_manifest_some Hi. destruct (Forall2_lookup_r _ _ _ _ _ E Hi) as (e & ? & ?). by exists e.
Qed.
Lemma entries_reread m m' i e : reread_manifest m = Some m' -> m_clients m !! i = Some e ->
  exists e', m_clients m' !! i = Some e' /\ reread_entry e = Some e'.
Proof.
  intros (es & E%mapM_Some & ->)%reread_manifest_some Hi. destruct (Forall2_lookup_l _ _ _ _ _ E Hi) as (e' & ? & ?). by exists e'.
Qed.
(** An aircraft has truth when one of the points is its. *)
Lemma truth_points (l : list TruthPoint) icao : is_Some (build l !! icao) <-> exists p, p ∈ l /\ tp_icao p = icao.
Proof.
  rewrite build_lookup. assert (logged icao l <> [] <-> exists p, p ∈ l /\ tp_icao p = icao) as <-;
    [|destruct (logged _ _); split; [by intros [? ?]|done|done|by eexists]].
  unfold logged. split.
  - destruct (filter _ l) as [|p k] eqn:E; [done|]. intros _. exists p.
    assert (p ∈ filter (fun p => tp_icao p = icao) l) as [? ?]%list_elem_of_filter by (rewrite E; by left). done.
  - intros (p & Hp & Ep). assert (p ∈ filter (fun p => tp_icao p = icao) l) as Hin by by apply list_elem_of_filter.
    by destruct (filter _ l); [apply elem_of_nil in Hin|].
Qed.
Lemma truth_reread (l l' : list TruthPoint) icao : mapM reread_point l = Some l' -> is_Some (build l' !! icao) <-> is_Some (build l !! icao).
Proof.
  intros E%mapM_Some. rewrite !truth_points. split.
  - intros (p' & (i & Hi)%list_elem_of_lookup_1 & <-). destruct (Forall2_lookup_r _ _ _ _ _ E Hi) as (p & Hp & [_ Ei]%reread_point_same).
    exists p. split; [by eapply list_elem_of_lookup_2|done].
  - intros (p & (i & Hi)%list_elem_of_lookup_1 & <-). destruct (Forall2_lookup_l _ _ _ _ _ E Hi) as (p' & Hp & [_ Ei]%reread_point_same).
    exists p'. split; [by eapply list_elem_of_lookup_2|done].
Qed.

Lemma until_newline_app l r : has_newline l = false -> until_newline (l ++ 10 :: r) = (l ++ [10], r).
Proof.
  induction l as [|b l IH]; [done|]. cbn [has_newline existsb app until_newline]. intros [Hb Hl]%orb_false_iff.
  rewrite Hb, IH by done. done.
Qed.
Lemma read_line_app l r : one_line l ->
  read_line {| st_bytes := l ++ 10 :: r; st_end := None |} = (inl (l ++ [10]), {| st_bytes := r; st_end := None |}).
Proof. intros (Hn & Hu & _). unfold read_line. cbn [st_bytes st_end]. rewrite until_newline_app by done. by rewrite Hu. Qed.
Lemma chomp_line l : list.last l <> Some 13 -> chomp (l ++ [10]) = l.
Proof.
  intros Hl. unfold chomp. rewrite last_snoc, removelast_last.
  destruct (list.last l) as [b|] eqn:E; [|done]. destruct b as [|b|b]; try done.
  do 4 (try destruct b as [b|b|]; try done).
Qed.

Lemma parse_json_values {A B} (json : A -> list Z) parse (g : A -> B) l fuel :
  (forall x, x ∈ l -> one_line (json x) /\ parse (json x) = Some (g x)) -> (length l <= fuel)%nat ->
  parse_lines parse fuel {| st_bytes := json_lines json l; st_end := None |} = inl (g <$> l).
Proof.
  revert fuel. induction l as [|x l IH]; intros fuel Hl Hf; [by destruct fuel|].
  destruct (Hl x ltac:(by left)) as [Hx Hp]. destruct fuel as [|fuel]; [cbn in Hf; lia|].
  assert (json_lines json (x :: l) = json x ++ 10 :: json_lines json l) as ->
    by (unfold json_lines; cbn [mbind list_bind]; by rewrite <- app_assoc).
  cbn [parse_lines st_bytes st_end]. rewrite read_line_app by done. rewrite chomp_line by apply Hx. rewrite Hp.
  rewrite IH by (try (cbn in Hf; lia); intros y Hy; apply Hl; by right).
  by destruct (json x ++ 10 :: json_lines json l) eqn:E; [by destruct (json x)|].
Qed.
(** The truth points read back, when each of them does. *)
Lemma truth_lines_read points points' fuel : mapM reread_point points = Some points' -> (length points <= fuel)%nat ->
  parse_lines truth_parse fuel {| st_bytes := json_lines truth_json points; st_end := None |} = inl points'.
Proof.
  intros E%mapM_Some Hf. set (g p := default p (reread_point p)).
  assert (points' = g <$> points) as -> by (clear -E; induction E as [|p p' l l' Ep _ IH]; [done|]; cbn; unfold g at 1; by rewrite Ep, IH).
  apply parse_json_values; [|done]. intros p (i & Hi)%list_elem_of_lookup_1. split; [apply truth_json_line|].
  destruct (Forall2_lookup_l _ _ _ _ _ E Hi) as (p' & _ & Ep). rewrite truth_read. unfold g. by rewrite Ep.
Qed.
Lemma json_lines_length {A} (json : A -> list Z) l : (length l <= length (json_lines json l))%nat.
Proof.
  induction l as [|x l IH]; [done|]. unfold json_lines in *. cbn [mbind list_bind]. rewrite !length_app. cbn [length]. lia.
Qed.

Lemma open_stream_header id r :
  open_stream {| st_bytes := MBC_MAGIC ++ id_json id ++ 10 :: r; st_end := None |} = inl {| st_bytes := r; st_end := None |}.
Proof.
  unfold open_stream. rewrite read_exact_app by done. rewrite bool_decide_eq_true_2 by done. cbn [negb].
  by rewrite read_line_app by apply id_json_line.
Qed.

(** The writers of a capture's clients, in order, each finished into its file. *)
Definition client_bytes (id : string) (rs : list Rec) : ClientWriter := fold_left (fun w r => record r w) rs (client_writer id).
Definition write_clients (cs : list (string * list Rec)) (dir : Dir) : Dir :=
  fold_left (fun d c => finish (client_bytes c.1 c.2) d) cs dir.
Lemma client_bytes_eq id rs : client_bytes id rs =
  {| w_file := client_file id; w_bytes := MBC_MAGIC ++ id_json id ++ 10 :: stream_bytes rs |}.
Proof.
  unfold client_bytes. induction rs as [|r rs IH] using rev_ind; [done|]. rewrite fold_left_snoc, IH.
  unfold record, stream_bytes. cbn [w_file w_bytes]. rewrite bind_app. cbn [mbind list_bind]. rewrite app_nil_r.
  f_equal. rewrite <- app_assoc. f_equal. rewrite <- app_assoc. f_equal.
Qed.
Lemma append_length a b : String.length (String.append a b) = (String.length a + String.length b)%nat.
Proof. induction a as [|x a IH]; [done|]. change (String.append (String x a) b) with (String x (String.append a b)). cbn. by rewrite IH. Qed.
Lemma append_inj_r a b s : String.append a s = String.append b s -> a = b.
Proof.
  revert b. induction a as [|x a IH]; intros [|y b] E; try done.
  - apply (f_equal String.length) in E. rewrite !append_length in E. cbn in E. lia.
  - apply (f_equal String.length) in E. rewrite !append_length in E. cbn in E. lia.
  - change (String x (String.append a s) = String y (String.append b s)) in E. injection E as -> E. f_equal. by apply IH.
Qed.
Lemma append_inj_l s a b : String.append s a = String.append s b -> a = b.
Proof.
  induction s as [|x s IH]; [done|]. intros E.
  change (String x (String.append s a) = String x (String.append s b)) in E. injection E as E. by apply IH.
Qed.
Lemma client_file_inj a b : client_file a = client_file b -> a = b.
Proof. unfold client_file. intros E%append_inj_l. by apply append_inj_r in E. Qed.

Lemma write_clients_other cs d name : (forall c, c ∈ cs -> client_file c.1 <> name) ->
  write_clients cs d ≫= (fun m => m !! name) = d ≫= (fun m => m !! name).
Proof.
  revert d. induction cs as [|c cs IH]; intros d Hne; [done|]. unfold write_clients in *. cbn [fold_left].
  rewrite IH by (intros c' Hc; apply Hne; by right). rewrite client_bytes_eq. unfold finish, put. cbn [w_file w_bytes].
  destruct d as [m|]; [|done]. cbn. rewrite lookup_insert_ne; [done|]. apply Hne. by left.
Qed.
Lemma write_clients_lookup cs m c : NoDup cs.*1 -> c ∈ cs ->
  write_clients cs (Some m) ≫= (fun m => m !! client_file c.1)
  = Some (zstd (MBC_MAGIC ++ id_json c.1 ++ 10 :: stream_bytes c.2)).
Proof.
  revert m. induction cs as [|c' cs IH]; intros m Hnd Hc; [by apply elem_of_nil in Hc|].
  cbn [fmap list_fmap] in Hnd. apply list.NoDup_cons in Hnd as [Hn Hnd]. unfold write_clients in *. cbn [fold_left].
  rewrite client_bytes_eq. unfold finish at 2, put. cbn [w_file w_bytes fmap option_fmap option_map].
  apply elem_of_cons in Hc as [->|Hc]; [|by apply IH].
  pose proof (write_clients_other cs (Some (<[client_file c'.1 := zstd (MBC_MAGIC ++ id_json c'.1 ++ 10 :: stream_bytes c'.2)]> m)) (client_file c'.1)) as E.
  unfold write_clients in E. rewrite E; [cbn; by rewrite lookup_insert_eq|].
  intros d Hd Hf%client_file_inj. apply Hn. apply list_elem_of_fmap. by exists d.
Qed.

(** What opens has the format and version the reader knows. *)
Lemma open_format dir m : open dir = inl m -> m_format m = "mbc"%string /\ m_version m = 1.
Proof.
  unfold open. destruct (file _ _) as [text|]; [|done]. destruct (manifest_parse text) as [m0|]; [|done].
  destruct (negb (m_format m0 =? "mbc")%string || negb (m_version m0 =? 1)) eqn:E; [done|]. intros [= <-].
  by apply orb_false_iff in E as [E1%negb_false_iff%String.eqb_eq E2%negb_false_iff%Z.eqb_eq].
Qed.
(** A directory opens with the manifest written last, and the clients hide nothing else. *)
Lemma written_sides cs m m' m1 : m_format m = "mbc"%string -> m_version m = 1 -> reread_manifest m = Some m' ->
  let dir := write_manifest m (write_clients cs (Some m1)) in
  open dir = inl m' /\
  (forall name, (forall c, c ∈ cs -> client_file c.1 <> name) -> "manifest.json"%string <> name -> file name dir = file name (Some m1)) /\
  exists d, dir = Some d.
Proof.
  intros Hf Hv Hm. cbv zeta. assert (exists m2, write_clients cs (Some m1) = Some m2) as [m2 E2].
  { clear. revert m1. induction cs as [|c cs IH]; intros m1; [by eexists|].
    unfold write_clients in *. cbn [fold_left]. unfold finish at 2, put. cbn [fmap option_fmap option_map]. apply IH. }
  split_and!.
  - unfold open, file, write_manifest, put. rewrite E2.
    cbn [fmap option_fmap option_map mbind option_bind]. rewrite lookup_insert_eq, manifest_read, Hm.
    apply reread_manifest_some in Hm as (es & _ & ->). cbn [with_entries m_format m_version]. by rewrite Hf, Hv.
  - intros name Hne Hname. unfold file, write_manifest, put. rewrite <- (write_clients_other cs (Some m1) name Hne).
    rewrite E2. cbn. by rewrite lookup_insert_ne.
  - rewrite E2. by eexists.
Qed.
(** The manifest and the clients of a directory, over what it held before. *)
Lemma written_clients cs m m' m1 : base.NoDup cs.*1 -> Forall (fun c => Forall rec_ok c.2) cs ->
  m_format m = "mbc"%string -> m_version m = 1 -> reread_manifest m = Some m' ->
  let dir := write_manifest m (write_clients cs (Some m1)) in
  open dir = inl m' /\
  (forall c entry, c ∈ cs -> ce_file entry = client_file c.1 -> exists z, client_records entry dir = inl z /\ records z = (c.2, None)) /\
  (forall name, (forall c, c ∈ cs -> client_file c.1 <> name) -> "manifest.json"%string <> name -> file name dir = file name (Some m1)) /\
  exists d, dir = Some d.
Proof.
  intros Hnd Hcs Hf Hv Hm. cbv zeta. destruct (written_sides cs m m' m1 Hf Hv Hm) as (Ho & Hother & d & E). split_and!; [done| |done|by exists d].
  intros c entry Hc He. exists {| st_bytes := stream_bytes c.2; st_end := None |}. split.
  - unfold client_records. rewrite He. unfold file. pose proof (write_clients_lookup cs m1 c Hnd Hc) as El.
    unfold write_manifest, put in E |- *. destruct (write_clients cs (Some m1)) as [m2|]; [|done]. cbn in *.
    rewrite lookup_insert_ne by done. rewrite El, unzstd_zstd. apply open_stream_header.
  - rewrite list.Forall_forall in Hcs. by apply records_whole, Hcs.
Qed.

(** A capture reads back as it was written: in a fresh directory, the manifest and the truth
    points with their floats as JSON gives them back, the scenario text and, for every client
    of the manifest, exactly its records; and a directory that exists is never written over. *)
Theorem capture_roundtrip text points points' cs m m' : utf8_valid text = true ->
  mapM reread_point points = Some points' ->
  NoDup cs.*1 -> Forall (fun c => Forall rec_ok c.2) cs ->
  m_format m = "mbc"%string -> m_version m = 1 -> reread_manifest m = Some m' ->
  exists d0, create None = inl d0 /\
    let dir := write_manifest m (write_clients cs (write_truth points (write_scenario_toml text d0).1)) in
    open dir = inl m' /\ scenario_toml dir = inl text /\ truth dir = inl points' /\
    (forall c entry, c ∈ cs -> ce_file entry = client_file c.1 ->
      exists z, client_records entry dir = inl z /\ records z = (c.2, None)) /\
    exists msg, create dir = inr (Format msg).
Proof.
  intros Htext Hpts Hnd Hcs Hf Hv Hm. exists (Some ∅). split; [done|]. cbv zeta. unfold write_scenario_toml. cbn [fst].
  set (d1 := write_truth points _). assert (exists m1, d1 = Some m1) as [m1 E1] by (by eexists).
  destruct (written_clients cs m m' m1 Hnd Hcs Hf Hv Hm) as (Ho & Hrec & Hother & d & Em). rewrite E1. split_and!; [done| | |done|].
  - unfold scenario_toml. rewrite Hother, <- E1 by done. unfold d1, write_truth, put, file.
    cbn [fmap option_fmap option_map mbind option_bind]. by rewrite lookup_insert_ne, lookup_insert_eq, Htext by done.
  - unfold truth, read_json_lines. rewrite Hother, <- E1 by done. unfold d1, write_truth, put, file.
    cbn [fmap option_fmap option_map mbind option_bind]. rewrite lookup_insert_eq, unzstd_zstd.
    apply truth_lines_read; [done|apply json_lines_length].
  - rewrite Em. by eexists.
Qed.
End Roundtrip.

(** ** Text is UTF-8 when its parts are *)
Section Utf8.
Lemma utf8_step fuel b l : utf8_loop (S fuel) (b :: l) = true ->
  exists k, (length k <= length l)%nat /\ (exists h, l = h ++ k) /\ utf8_loop fuel k = true /\
    forall fuel' r, utf8_loop fuel' (k ++ r) = true -> utf8_loop (S fuel') (b :: l ++ r) = true.
Proof.
  cbn [utf8_loop]. destruct (b <? 128); [intros E; exists l; split_and!; [done|by exists []|done|done]|].
  destruct l as [|c1 l1]; [done|]. destruct (_ && (b <=? 223)).
  { intros [Hc E]%andb_prop. exists l1. split_and!; [cbn; lia|by exists [c1]|done|]. intros fuel' r Er. cbn [app]. by rewrite Hc, Er. }
  destruct l1 as [|c2 l2]; [done|]. destruct (_ && (b <=? 239)).
  { intros [Hc E]%andb_prop. exists l2. split_and!; [cbn; lia|by exists [c1; c2]|done|]. intros fuel' r Er. cbn [app]. by rewrite Hc, Er. }
  destruct l2 as [|c3 l3]; [done|]. intros [Hc E]%andb_prop. exists l3. split_and!; [cbn; lia|by exists [c1; c2; c3]|done|].
  intros fuel' r Er. cbn [app]. by rewrite Hc, Er.
Qed.
Lemma utf8_loop_app fuel l fuel' r : utf8_loop fuel l = true -> (forall n, (length r <= n)%nat -> utf8_loop n r = true) -> (length (l ++ r) <= fuel')%nat ->
  utf8_loop fuel' (l ++ r) = true.
Proof.
  revert l fuel'. induction fuel as [|fuel IH]; intros [|b l] fuel' El Hr Hf; try done; [by apply Hr|by apply Hr|].
  destruct (utf8_step _ _ _ El) as (k & Hk & [h ->] & Ek & Hstep). destruct fuel' as [|fuel']; [cbn in Hf; lia|].
  apply Hstep. apply IH; [done..|]. cbn [app length] in *. rewrite !length_app in *. lia.
Qed.
Lemma utf8_enough l fuel : utf8_valid l = true -> (length l <= fuel)%nat -> utf8_loop fuel l = true.
Proof.
  intros Hl Hf. rewrite <- (app_nil_r l). apply (utf8_loop_app (length l)); [done| |by rewrite app_nil_r]. by intros [|n].
Qed.
Lemma utf8_app l r : utf8_valid l = true -> utf8_valid r = true -> utf8_valid (l ++ r) = true.
Proof. intros Hl Hr. apply (utf8_loop_app (length l)); [done| |done]. intros n. by apply utf8_enough. Qed.
Lemma utf8_concat (ls : list (list Z)) : Forall (fun l => utf8_valid l = true) ls -> utf8_valid (concat ls) = true.
Proof. induction 1 as [|l ls Hl _ IH]; [done|]. by apply utf8_app. Qed.
Lemma utf8_ascii l : Forall (fun b => b < 128) l -> utf8_valid l = true.
Proof. intros Hl. unfold utf8_valid. induction Hl as [|b l Hb _ IH]; [done|]. cbn [length utf8_loop]. by rewrite (proj2 (Z.ltb_lt b 128)). Qed.
End Utf8.

(** ** A concrete codec *)
Section Stored.
Definition truth_code (p : TruthPoint) := (tp_t p, tp_icao p, lat_deg (tp_pos p), lon_deg (tp_pos p), alt_m (tp_pos p), gs_mps p, vrate_mps p).
Definition code_truth (c : Z * Z * f64 * f64 * f64 * f64 * f64) : TruthPoint :=
  let '(t, i, la, lo, al, gs, vr) := c in
  {| tp_t := t; tp_icao := i; tp_pos := {| lat_deg := la; lon_deg := lo; alt_m := al |}; gs_mps := gs; vrate_mps := vr |}.
Definition entry_code (e : ClientEntry) := (ce_id e, ce_file e, ce_clock_type e, ce_compress e, ce_lat e, ce_lon e, ce_alt_m e).
Definition code_entry (c : string * string * string * string * f64 * f64 * f64) : ClientEntry :=
  let '(i, f, k, z, la, lo, al) := c in
  {| ce_id := i; ce_file := f; ce_clock_type := k; ce_compress := z; ce_lat := la; ce_lon := lo; ce_alt_m := al |}.
Definition manifest_code (m : Manifest) :=
  (m_format m, m_version m, m_name m, m_seed m, m_duration_s m, m_scenario_sha256 m, entry_code <$> m_clients m).
Definition code_manifest (c : string * Z * string * Z * Z * string * list (string * string * string * string * f64 * f64 * f64)) : Manifest :=
  let '(f, v, n, s, d, h, l) := c in
  {| m_format := f; m_version := v; m_name := n; m_seed := s; m_duration_s := d; m_scenario_sha256 := h; m_clients := code_entry <$> l |}.
(** Stored streams, and values written as the digits of their code, their floats read back with
    the last digit lost. *)
Definition codec_stored : Codec :=
  let read (x : f64) := read_float x in {|
  zstd l := l; unzstd l := {| st_bytes := l; st_end := None |}; sha256_hex _ := EmptyString; id_json _ := bytes_of "{}";
  manifest_json m := text_digits (encode (manifest_code m)); truth_json p := text_digits (encode (truth_code p));
  manifest_parse l := n ← undigits l; c ← decode n; let m := code_manifest c in
    (fun es => with_entries es m) <$> mapM (reread_entry_with read) (m_clients m);
  truth_parse l := n ← undigits l; c ← decode n; reread_point_with read (code_truth c);
  json_f64 := read |}.
#[local] Existing Instance codec_stored.
Lemma digits_line p : one_line (text_digits p).
Proof.
  destruct (digits_text p) as [Hne Hd]. rewrite list.Forall_forall in Hd. split_and!.
  - apply not_true_iff_false. unfold has_newline. rewrite existsb_exists. intros (b & Hb%list_elem_of_In & E%Z.eqb_eq). specialize (Hd b Hb). lia.
  - apply utf8_ascii. apply list.Forall_app. split; [|by apply list.Forall_singleton]. apply list.Forall_forall. intros b Hb. specialize (Hd b Hb). lia.
  - intros E. apply last_Some_elem_of in E. specialize (Hd _ E). lia.
Qed.
Lemma code_truth_code p : code_truth (truth_code p) = p.
Proof. by destruct p as [? ? [] ? ?]. Qed.
Lemma code_manifest_code m : code_manifest (manifest_code m) = m.
Proof.
  destruct m as [f v n s d h l]. unfold code_manifest, manifest_code. cbn. f_equal.
  rewrite <- list_fmap_compose. induction l as [|e l IH]; [done|]. cbn. rewrite IH. by destruct e.
Qed.
Definition codec_stored_laws : CodecLaws.
Proof.
  split.
  - done.
  - intros id. by split_and!.
  - intros p. apply digits_line.
  - intros p. cbn -[reread_point_with]. rewrite undigits_text. cbn [mbind option_bind]. rewrite decode_encode. cbn [mbind option_bind]. by rewrite code_truth_code.
  - intros m. cbn -[reread_entry_with]. rewrite undigits_text. cbn [mbind option_bind]. rewrite decode_encode. cbn [mbind option_bind]. by rewrite code_manifest_code.
Qed.
End Stored.

(** ** Concrete captures *)
Section Sample.
#[local] Existing Instance codec_stored.
#[local] Existing Instance codec_stored_laws.
Definition sample_entry : ClientEntry :=
  {| ce_id := "rx-000"; ce_file := "clients/rx-000.mbc.zst"; ce_clock_type := "dump1090"; ce_compress := "none";
     ce_lat := of_Z 47; ce_lon := of_Z (-1); ce_alt_m := of_Z 40 |}.
Definition sample_manifest : Manifest :=
  {| m_format := "mbc"; m_version := 1; m_name := "recording"; m_seed := 0; m_duration_s := 600;
     m_scenario_sha256 := EmptyString; m_clients := [sample_entry] |}.
Definition sample_recs : list Rec :=
  [{| t_nanos := 0; kind := REC_CONNECT; payload := [123; 125; 10] |}; {| t_nanos := 5; kind := REC_DISCONNECT; payload := [] |}].
(** An incomplete zstd frame ends with the same error kind as the end of the file: a capture
    cut there on a record boundary, or up to seven bytes after one, passes for complete. *)
Example cut_capture_complete :
  records {| st_bytes := stream_bytes sample_recs ++ [1; 2; 3]; st_end := Some UnexpectedEof |} = (sample_recs, None).
Proof. vm_compute. reflexivity. Qed.
Example cut_payload_error :
  records {| st_bytes := take 15 (stream_bytes sample_recs); st_end := None |} = ([], Some (Io UnexpectedEof)).
Proof. vm_compute. reflexivity. Qed.
Example utf8_samples : utf8_valid [195; 169; 226; 130; 172; 240; 159; 152; 128] = true /\ utf8_valid [192; 128] = false
  /\ utf8_valid [237; 160; 128] = false /\ utf8_valid [226; 130] = false.
Proof. repeat split; vm_compute; reflexivity. Qed.

Lemma capture_truncated_witness :
  records {| st_bytes := stream_bytes sample_recs ++ [9; 0; 0; 0; 0; 0; 0; 0; 1; 0]; st_end := None |}
  = (sample_recs, Some (Io UnexpectedEof)).
Proof.
  apply (capture_truncated sample_recs {| t_nanos := 9; kind := 1; payload := [] |} [9; 0; 0; 0; 0; 0; 0; 0; 1; 0] [0; 0; 0] None).
  - repeat constructor; cbn; lia.
  - constructor; cbn; lia.
  - reflexivity.
  - discriminate.
Defined.
Lemma capture_roundtrip_witness : exists dir, open dir = inl sample_manifest /\
  exists z, client_records sample_entry dir = inl z /\ records z = (sample_recs, None).
Proof.
  destruct (capture_roundtrip [] [] [] [("rx-000"%string, sample_recs)] sample_manifest sample_manifest eq_refl) as (d0 & _ & H); try reflexivity.
  - repeat constructor. intros Hx. apply elem_of_nil in Hx. exact Hx.
  - repeat constructor; cbn; lia.
  - eexists. destruct H as (Ho & _ & _ & Hc & _). split; [exact Ho|].
    apply (Hc ("rx-000"%string, sample_recs) sample_entry); [left|reflexivity].
Defined.
End Sample.
