(* ===== verification/Framing.v ===== *)
(** * Compressed framing (crates/mb-proto/src/framing.rs)

    Frames of a two-byte length and the output of a persistent compressor, sync-flushed, with
    the four bytes of the flush trailer stripped.  flate2 is an interface: one call of the
    compressor or decompressor, and what zlib documents about a sequence of calls. *)
From S2P Require Import Prelude F64 Text Proto.
Local Open Scope Z_scope.

Definition SYNC_TRAILER : list Z := [0; 0; 255; 255].

Inductive Status := StOk | StBufError | StStreamEnd.
(** [flate2]: a call gives the new state, the number of bytes consumed and the bytes produced
    within the space it was given, or fails. *)
Class Flate := {
  Comp : Type; Decomp : Type;
  comp_new : Comp; decomp_new : Decomp;
  zcompress : Comp -> list Z -> nat -> option (Comp * nat * list Z * Status);
  zdecompress : Decomp -> list Z -> nat -> option (Decomp * nat * list Z * Status)
}.

Section Code.
Context `{Json, Flate}.

Definition ends_with_sync (b : list Z) : bool :=
  (4 <=? length b)%nat && bool_decide (drop (length b - 4) b = SYNC_TRAILER).

(** The compression loop; [out] is the part of the buffer written so far.  [None]: not ended
    within the fuel. *)
Fixpoint encode_loop (fuel : nat) (z : Comp) (lines : list Z) (in_off : nat) (out : list Z) (buf_len : nat)
    : option ((Comp * list Z) + ProtoError) :=
  match zcompress z (drop in_off lines) (buf_len - length out) with
  | None => Some (inr (Framing "zlib"))
  | Some (z, n, produced, status) =>
      let in_off := (in_off + n)%nat in
      let out := out ++ produced in
      match status with
      | StStreamEnd => Some (inl (z, out))
      | _ =>
          if (length lines <=? in_off)%nat && ends_with_sync out then Some (inl (z, out))
          else match fuel with O => None | S fuel => encode_loop fuel z lines in_off out (buf_len + 4096) end
      end
  end.
(** [strip_suffix]. *)
Definition strip_trailer (b : list Z) : option (list Z) :=
  if ends_with_sync b then Some (take (length b - 4) b) else None.
Definition frame_of (payload : list Z) : list Z :=
  let n := u16 (Z.of_nat (length payload)) in [n / 256; n mod 256] ++ payload.
Definition finish_frame (out : list Z) : list Z + ProtoError :=
  match strip_trailer out with
  | None => inr (Framing "sync flush trailer missing")
  | Some payload =>
      if 65535 <? Z.of_nat (length payload) then inr (Framing "frame too large") else inl (frame_of payload)
  end.
Definition encode_frame (fuel : nat) (z : Comp) (lines : list Z) : option (Comp * (list Z + ProtoError)) :=
  r ← encode_loop fuel z lines 0 [] (length lines + 1024);
  match r with
  | inl (z, out) => Some (z, finish_frame out)
  | inr e => Some (z, inr e)
  end.

Definition OUT_STEP : nat := Z.to_nat (64 * 1024).
Fixpoint decode_loop (fuel : nat) (z : Decomp) (input : list Z) (in_off : nat) (out : list Z) (out_len : nat)
    : option ((Decomp * list Z) + ProtoError) :=
  match zdecompress z (drop in_off input) (out_len - length out) with
  | None => Some (inr (Framing "inflate"))
  | Some (z, n, produced, status) =>
      let in_off := (in_off + n)%nat in
      let out := out ++ produced in
      match status with
      | StStreamEnd => Some (inl (z, out))
      | _ =>
          if (length input <=? in_off)%nat then Some (inl (z, out))
          else match fuel with O => None | S fuel => decode_loop fuel z input in_off out (out_len + OUT_STEP) end
      end
  end.
Definition decode_frame (fuel : nat) (z : Decomp) (frame : list Z) : option (Decomp * (list Z + ProtoError)) :=
  match frame with
  | hi :: lo :: payload =>
      if negb (Z.of_nat (length payload) =? 256 * hi + lo) then Some (z, inr (Framing "length header"))
      else
        r ← decode_loop fuel z (payload ++ SYNC_TRAILER) 0 [] OUT_STEP;
        match r with inl (z, out) => Some (z, inl out) | inr e => Some (z, inr e) end
  | _ => Some (z, inr (Framing "short frame"))
  end.
End Code.

(** ** What zlib documents

    Of a decompressor that has been given everything a compressor emitted and nothing else;
    what inflating anything else gives, a failure included, is left open. *)
Class FlateLaws `{Flate} := {
  (** What a sync flush of an input emits. *)
  emission : Comp -> list Z -> list Z * Comp;
  (** The decompressor has seen everything the compressor emitted. *)
  in_step : Comp -> Decomp -> Prop;
  in_step_new : in_step comp_new decomp_new;
  (** A flush of new input with room to spare completes, and ends with the trailer. *)
  compress_call c d input space : in_step c d -> input <> [] -> (length (emission c input).1 < space)%nat ->
    zcompress c input space = Some ((emission c input).2, length input, (emission c input).1, StOk);
  flush_trailer c d input : in_step c d -> input <> [] -> exists p, (emission c input).1 = p ++ SYNC_TRAILER;
  (** The expansion of incompressible data is bounded. *)
  emission_bound c d input : in_step c d -> Z.of_nat (length input) <= 2 ^ 20 ->
    (length (emission c input).1 < length input + 1024)%nat;
  (** Given what was emitted, and room to spare, the decompressor gives back the input. *)
  decompress_call c d input : in_step c d -> input <> [] -> exists d', in_step (emission c input).2 d' /\
    forall space, (length input < space)%nat ->
      zdecompress d (emission c input).1 space = Some (d', length (emission c input).1, input, StOk)
}.

Section Facts.
Context `{Json, Flate}.

Lemma ends_with_sync_app p : ends_with_sync (p ++ SYNC_TRAILER) = true.
Proof.
  unfold ends_with_sync. rewrite length_app. change (length SYNC_TRAILER) with 4%nat.
  rewrite (proj2 (Nat.leb_le 4 _)) by lia. cbn [andb]. rewrite bool_decide_eq_true. by rewrite drop_app_length' by lia.
Qed.
Lemma strip_trailer_app p : strip_trailer (p ++ SYNC_TRAILER) = Some p.
Proof.
  unfold strip_trailer. rewrite ends_with_sync_app, length_app. change (length SYNC_TRAILER) with 4%nat.
  by rewrite take_app_length' by lia.
Qed.
(** The header is the payload's length, so the decoder's length check accepts the frame. *)
Lemma decode_frame_of fuel z payload : Z.of_nat (length payload) <= 65535 ->
  decode_frame fuel z (frame_of payload) =
    r ← decode_loop fuel z (payload ++ SYNC_TRAILER) 0 [] OUT_STEP;
    match r with inl (z, out) => Some (z, inl out) | inr e => Some (z, inr e) end.
Proof.
  intros Hl. unfold decode_frame, frame_of. rewrite wrap_small by lia. cbn [app].
  rewrite <- Z.div_mod by lia. by rewrite Z.eqb_refl.
Qed.

(** One round was enough: more fuel changes nothing. *)
Lemma encode_frame_fuel fuel z lines r : encode_frame 0 z lines = Some r -> encode_frame fuel z lines = Some r.
Proof.
  destruct fuel as [|fuel]; [done|]. unfold encode_frame. cbn [encode_loop].
  destruct (zcompress z _ _) as [[[[z' n] out] st]|]; [|done].
  destruct st; try done; destruct (_ && _); done.
Qed.

Lemma decode_frame_fuel fuel d frame r : decode_frame 0 d frame = Some r -> decode_frame fuel d frame = Some r.
Proof.
  destruct fuel as [|fuel]; [done|]. unfold decode_frame. destruct frame as [|hi [|lo payload]]; [done..|]. cbn [decode_loop].
  destruct (negb _); [done|]. destruct (zdecompress d _ _) as [[[[z' n] out] st]|]; [|done]. destruct st; try done; destruct (_ <=? _)%nat; done.
Qed.

Context `{!FlateLaws}.

Lemma encode_loop_flush z d lines : in_step z d -> lines <> [] -> Z.of_nat (length lines) <= 2 ^ 20 ->
  encode_loop 0 z lines 0 [] (length lines + 1024) = Some (inl ((emission z lines).2, (emission z lines).1)).
Proof.
  intros Hst Hne Hl. cbn [encode_loop]. rewrite drop_0, Nat.sub_0_r, (compress_call z d) by (done || by eapply emission_bound).
  cbn [app Nat.add]. rewrite Nat.leb_refl. destruct (flush_trailer z d lines Hst Hne) as [p ->]. by rewrite ends_with_sync_app.
Qed.
Lemma decode_loop_inflate z d lines : in_step z d -> lines <> [] -> (length lines < OUT_STEP)%nat ->
  exists d', in_step (emission z lines).2 d' /\ decode_loop 0 d (emission z lines).1 0 [] OUT_STEP = Some (inl (d', lines)).
Proof.
  intros Hst Hne Hl. destruct (decompress_call z d lines Hst Hne) as (d' & Hst' & Hcall). exists d'. split; [done|].
  cbn [decode_loop]. rewrite drop_0, Nat.sub_0_r, Hcall by done. cbn [app Nat.add]. by rewrite Nat.leb_refl.
Qed.

(** One batch: one round of each loop is enough. *)
Lemma frame_step c d lines : in_step c d -> lines <> [] -> Z.of_nat (length lines) <= 64511 ->
  exists c' d' frame, encode_frame 0 c lines = Some (c', inl frame) /\ decode_frame 0 d frame = Some (d', inl lines) /\
    in_step c' d' /\ Z.of_nat (length frame) <= 2 + 65535.
Proof.
  intros Hst Hne Hl. destruct (decode_loop_inflate c d lines Hst Hne) as (d' & Hst' & Hinf); [unfold OUT_STEP; lia|].
  destruct (flush_trailer c d lines Hst Hne) as [p Hp].
  pose proof (emission_bound c d lines Hst ltac:(lia)) as Hb. rewrite Hp, length_app in Hb.
  assert (Z.of_nat (length p) <= 65535) as Hpl by (change (length SYNC_TRAILER) with 4%nat in Hb; lia).
  exists (emission c lines).2, d', (frame_of p). split_and!; [| |done|].
  - unfold encode_frame. rewrite (encode_loop_flush c d) by (done || lia). cbn [mbind option_bind]. unfold finish_frame.
    rewrite Hp, strip_trailer_app. by destruct (Z.ltb_spec 65535 (Z.of_nat (length p))); [lia|].
  - rewrite decode_frame_of by done. by rewrite <- Hp, Hinf.
  - unfold frame_of. cbn [app length]. lia.
Qed.

(** The frames of a connection, encoded and decoded with persistent states. *)
Fixpoint encode_all (fuel : nat) (c : Comp) (batches : list (list Z)) : option (list (list Z)) :=
  match batches with
  | [] => Some []
  | b :: batches =>
      '(c, r) ← encode_frame fuel c b;
      match r with inl f => fs ← encode_all fuel c batches; Some (f :: fs) | inr _ => None end
  end.
Fixpoint decode_all (fuel : nat) (d : Decomp) (frames : list (list Z)) : option (list (list Z)) :=
  match frames with
  | [] => Some []
  | f :: frames =>
      '(d, r) ← decode_frame fuel d f;
      match r with inl b => bs ← decode_all fuel d frames; Some (b :: bs) | inr _ => None end
  end.

(** A decoder that follows the frames [wire] from [d0] has decoded [batches] and is in step with
    the encoder. *)
Definition follows (d0 : Decomp) (enc : Comp) (wire batches : list (list Z)) : Prop :=
  exists d, decode_all 0 d0 wire = Some batches /\ in_step enc d /\
    forall fs, decode_all 0 d0 (wire ++ fs) = (bs ← decode_all 0 d fs; Some (batches ++ bs)).
Lemma follows_new : follows decomp_new comp_new [] [].
Proof. exists decomp_new. split_and!; [done|apply in_step_new|]. intros fs. cbn. by destruct (decode_all 0 decomp_new fs). Qed.
Lemma follows_flush d0 enc wire batches batch : follows d0 enc wire batches -> batch <> [] -> Z.of_nat (length batch) <= 64511 ->
  exists enc' f, encode_frame 0 enc batch = Some (enc', inl f) /\ follows d0 enc' (wire ++ [f]) (batches ++ [batch]).
Proof.
  intros (d & Hd & Hst & Hall) Hne Hlen.
  destruct (frame_step enc d batch Hst Hne Hlen) as (c' & d' & f & Ee & Ed & Hst' & _).
  exists c', f. split; [done|]. exists d'. split_and!; [|done|].
  - rewrite Hall. cbn [decode_all]. by rewrite Ed.
  - intros fs. rewrite <- app_assoc, Hall. cbn [app decode_all]. rewrite Ed. cbn [mbind option_bind].
    destruct (decode_all 0 d' fs); [|done]. cbn. by rewrite <- app_assoc.
Qed.

(** The frames sent on a connection carry the bytes [sent], the batch not yet framed included. *)
Definition carried (d0 : Decomp) (enc : Comp) (wire : list (list Z)) (batch sent : list Z) : Prop :=
  exists batches, follows d0 enc wire batches /\ sent = concat batches ++ batch.
Lemma carried_new : carried decomp_new comp_new [] [] [].
Proof. exists []. split; [apply follows_new|done]. Qed.
Lemma carried_more d0 enc wire batch sent l : carried d0 enc wire batch sent -> carried d0 enc wire (batch ++ l) (sent ++ l).
Proof. intros (batches & Hf & ->). exists batches. split; [done|]. by rewrite app_assoc. Qed.
Lemma carried_flush d0 enc wire batch sent : carried d0 enc wire batch sent -> batch <> [] -> Z.of_nat (length batch) <= 64511 ->
  exists enc' f, encode_frame 0 enc batch = Some (enc', inl f) /\ carried d0 enc' (wire ++ [f]) [] sent.
Proof.
  intros (batches & Hf & ->) Hne Hlen. destruct (follows_flush _ _ _ _ _ Hf Hne Hlen) as (enc' & f & Ee & Hf').
  exists enc', f. split; [done|]. exists (batches ++ [batch]). split; [done|]. rewrite concat_app. cbn [concat]. by rewrite !app_nil_r.
Qed.
Lemma carried_decoded d0 enc wire sent : carried d0 enc wire [] sent ->
  exists batches, decode_all 0 d0 wire = Some batches /\ concat batches = sent.
Proof. intros (batches & (d & Hd & _) & ->). exists batches. by rewrite app_nil_r. Qed.

(** They carry the lines [sent], those of the batch included: each frame a run of whole lines. *)
Definition carried_lines (d0 : Decomp) (enc : Comp) (wire : list (list Z)) (batch sent : list (list Z)) : Prop :=
  exists groups, follows d0 enc wire ((fun ls => concat ls) <$> groups) /\ sent = concat groups ++ batch.
Lemma carried_lines_new : carried_lines decomp_new comp_new [] [] [].
Proof. exists []. split; [apply follows_new|done]. Qed.
Lemma carried_lines_more d0 enc wire batch sent l :
  carried_lines d0 enc wire batch sent -> carried_lines d0 enc wire (batch ++ [l]) (sent ++ [l]).
Proof. intros (groups & Hf & ->). exists groups. split; [done|]. by rewrite app_assoc. Qed.
Lemma carried_lines_flush d0 enc wire batch sent : carried_lines d0 enc wire batch sent -> concat batch <> [] ->
  Z.of_nat (length (concat batch)) <= 64511 ->
  exists enc' f, encode_frame 0 enc (concat batch) = Some (enc', inl f) /\ carried_lines d0 enc' (wire ++ [f]) [] sent.
Proof.
  intros (groups & Hf & ->) Hne Hlen. destruct (follows_flush _ _ _ _ _ Hf Hne Hlen) as (enc' & f & Ee & Hf').
  exists enc', f. split; [done|]. exists (groups ++ [batch]). rewrite fmap_app, concat_app. cbn [fmap list_fmap concat]. by rewrite !app_nil_r.
Qed.
Lemma carried_lines_decoded d0 enc wire sent : carried_lines d0 enc wire [] sent ->
  exists groups, decode_all 0 d0 wire = Some ((fun ls => concat ls) <$> groups) /\ concat groups = sent.
Proof. intros (groups & (d & Hd & _) & ->). exists groups. by rewrite app_nil_r. Qed.

(** Batches of lines (not empty, at most 64511 bytes) are framed without an error and
    decoded back in order by a decoder that follows the connection from its start. *)
Theorem frames_roundtrip batches : Forall (fun b => b <> [] /\ Z.of_nat (length b) <= 64511) batches ->
  exists frames, encode_all 0 comp_new batches = Some frames /\ decode_all 0 decomp_new frames = Some batches.
Proof.
  intros Hb. pose proof in_step_new as Hst. revert Hst. generalize comp_new decomp_new.
  induction Hb as [|b batches [Hne Hl] Hb IH]; intros c d Hst; [by exists []|].
  destruct (frame_step c d b Hst Hne Hl) as (c' & d' & f & Ee & Ed & Hst' & _).
  destruct (IH c' d' Hst') as (fs & Ee' & Ed'). exists (f :: fs). cbn [encode_all decode_all].
  rewrite Ee, Ed. cbn [mbind option_bind]. rewrite Ee', Ed'. done.
Qed.
End Facts.

(** ** A stored format: its calls may be partial, and what does not end in a flush fails *)
Section Sample.
(** The state is the output that did not fit yet. *)
Definition flate_stored : Flate := {|
  Comp := list Z; Decomp := list Z; comp_new := []; decomp_new := [];
  zcompress c input space :=
    let all := c ++ match input with [] => [] | _ => input ++ SYNC_TRAILER end in
    Some (drop space all, length input, take space all, StOk);
  zdecompress d input space :=
    if ends_with_sync input then
      let all := d ++ take (length input - 4) input in
      Some (drop space all, length input, take space all, StOk)
    else None |}.
#[local] Existing Instance flate_stored.
#[local] Existing Instance json_tree.
Definition stored_emission (c input : list Z) : list Z :=
  c ++ match input with [] => [] | _ => input ++ SYNC_TRAILER end.
#[local] Instance stored_laws : FlateLaws.
Proof.
  refine {| emission := (fun c input => (stored_emission c input, [])) : Comp -> list Z -> list Z * Comp;
    in_step := (fun c d => c = [] /\ d = []) : Comp -> Decomp -> Prop |}.
  - done.
  - intros c d input space _ _ Hs. cbn [fst snd] in *. unfold zcompress, flate_stored. fold (stored_emission c input).
    by rewrite drop_ge, take_ge by lia.
  - intros c d lines _ Hl. unfold stored_emission. cbn [fst]. destruct lines as [|b l]; [done|]. exists (c ++ b :: l). by rewrite app_assoc.
  - intros c d input [-> ->] _. unfold stored_emission. cbn [fst app]. destruct input; [cbn; lia|].
    rewrite length_app. change (length SYNC_TRAILER) with 4%nat. lia.
  - intros c d lines [-> ->] Hl. unfold stored_emission. exists []. cbn [fst snd app]. split; [done|]. intros space Hs.
    destruct lines as [|b l]; [done|]. unfold zdecompress, flate_stored. rewrite ends_with_sync_app, length_app. change (length SYNC_TRAILER) with 4%nat.
    rewrite take_app_length' by lia. cbn [app]. by rewrite drop_ge, take_ge by lia.
Defined.

Example encode_stored : encode_frame 0 ([] : Comp) [1; 2; 3] = Some (([] : Comp), inl [0; 3; 1; 2; 3]).
Proof. reflexivity. Qed.
(** The decoder stops once its input is consumed, even when its output buffer is full: with
    a decompressor that took all its input, the output beyond 64 KiB is left behind, and
    comes out in front of the next frame's. *)
Example decode_loses_rest :
  let frame := frame_of (repeat 7 (Z.to_nat 65535)) in
  (fun x => match x.2 with inl out => Z.of_nat (length out) | inr _ => 0 end) <$> decode_frame 5 (repeat 7 10 : Decomp) frame = Some 65536.
Proof. vm_compute. reflexivity. Qed.

Lemma frames_roundtrip_witness : exists frames, encode_all 0 comp_new [[1; 2; 3]; [4]] = Some frames /\
  decode_all 0 decomp_new frames = Some [[1; 2; 3]; [4]].
Proof. apply frames_roundtrip. repeat constructor; discriminate || (cbn; lia). Defined.
End Sample.
