(* ===== verification/Session.v ===== *)
(** * A client's connection (crates/mlatd/src/main.rs, handle_client)

    The handshake and its answer; the message loop, with the reader's state at the points
    where the loop can be interrupted; what a line makes the server do; and the teardown.
    An event is what one iteration of the loop waits for: bytes arriving, a tick of the
    heartbeat or statistics timer, the idle timeout; [WriterTakes] is the writer task. *)
From Stdlib Require Import Ascii.
From S2P Require Import Prelude F64 Num Text Decimal Proto Framing Geo Results ServerState Shard Router.
Local Open Scope Z_scope.

Definition IDLE : Z := 300 * 1000000000.
Definition LINE_LIMIT : Z := 256 * 1024.
Definition OUT_CAPACITY : nat := 256.

(** Serialisation of a list of strings by serde_json. *)
Class JsonText := { strings_json : list string -> string }.

Section Code.
Context `{Json, JsonText, Elem f64, Flate}.

(** ** Handshake *)
Definition negotiate (offered : list string) : option string :=
  head (filter (fun m => m ∈ offered) ["zlib2"; "zlib"; "none"]%string).
Definition client_freq_hz (clock : string) : f64 :=
  if (clock =? "radarcape_gps")%string || (clock =? "radarcape")%string then of_Z 1000000000
  else if (clock =? "sbs")%string then of_Z 20000000 else of_Z 12000000.
Record Accepted := { ac_info : ReceiverInfo; ac_negotiated : string; ac_results : bool; ac_stats : bool }.
Inductive Refusal := NoCompression | NoPosition.

Definition accept_handshake (hs : Value) : Accepted + Refusal :=
  let offered := omap as_str (default [] (jget hs "compress" ≫= as_array)) in
  match negotiate offered with
  | None => inr NoCompression
  | Some negotiated =>
      match jget hs "lat" ≫= as_f64, jget hs "lon" ≫= as_f64, jget hs "alt" ≫= as_f64 with
      | Some lat, Some lon, Some alt =>
          let clock_type := default "unknown"%string (jget hs "clock_type" ≫= as_str) in
          let geo := {| lat_deg := lat; lon_deg := lon; alt_m := alt |} in
          let gps := String.prefix "radarcape_gps" clock_type in
          inl {| ac_info := {| ri_user := default "anon"%string (jget hs "user" ≫= as_str);
                               ri_ecef := to_ecef geo; ri_geo := geo; ri_freq_hz := client_freq_hz clock_type;
                               ri_gps := gps;
                               ri_jitter_s := if gps then lit 30 1000000000 else lit 150 1000000000 |};
                 ac_negotiated := negotiated;
                 ac_results := default false (jget hs "return_results" ≫= as_bool);
                 ac_stats := default false (jget hs "return_stats" ≫= as_bool) |}
      | _, _, _ => inr NoPosition
      end
  end.

Definition bool_text (b : bool) : string := if b then "true" else "false".
Definition deny_line (r : Refusal) : string :=
  sconcat ["{"; jkey "deny"; "["; char_text QUOTE;
    match r with NoCompression => "no supported compression offered" | NoPosition => "missing position" end;
    char_text QUOTE; "],"; jkey "reconnect_in"; "300}"; char_text NEWLINE]%string.
Definition reply_line (a : Accepted) : string :=
  sconcat ["{"; jkey "compress"; char_text QUOTE; ac_negotiated a; char_text QUOTE; ","; jkey "reconnect_in"; "300,";
    jkey "selective_traffic"; "true,"; jkey "heartbeat"; "true,"; jkey "return_results"; bool_text (ac_results a); ",";
    jkey "rate_reports"; "true,"; jkey "return_stats"; bool_text (ac_stats a); ",";
    jkey "motd"; char_text QUOTE; "mlat-bench candidate mlatd"; char_text QUOTE; "}"; char_text NEWLINE]%string.
Definition heartbeat_line (st : f64) : string :=
  sconcat ["{"; jkey "heartbeat"; "{"; jkey "server_time"; fmt_fixed 3 st; "}}"; char_text NEWLINE]%string.
Definition stats_line (peers : nat) (outlier_percent : f64) (quarantined : bool) : string :=
  sconcat ["{"; jkey "stats"; "{"; jkey "peer_count"; fmt_nat (Z.of_nat peers); ",";
    jkey "bad_sync_timeout"; if quarantined then "60" else "0"; ",";
    jkey "outlier_percent"; fmt_fixed 1 outlier_percent; "}}"; char_text NEWLINE]%string.

(** ** One line *)
(** The aircraft a line offers, in the order they are looked at. *)
Definition offers (v : Value) : list string :=
  omap as_str (default [] (jget v "seen" ≫= as_array)) ++ default [] (jget v "rate_report" ≫= object_keys).
Definition request_new (requested : gset string) (keys : list string) : gset string * list string :=
  fold_left (fun acc k =>
    let h := to_lowercase k in
    if bool_decide (h ∈ acc.1) then acc else ({[h]} ∪ acc.1, acc.2 ++ [h])) keys (requested, []).
Definition start_sending_line (fresh : list string) : string :=
  sconcat ["{"; jkey "start_sending"; strings_json fresh; "}"; char_text NEWLINE]%string.

Definition shard_msg (rx : RxRef) (v : Value) (at_scaled : f64) : option ShardMsg :=
  match jget v "sync" with
  | Some sy =>
      et ← jget sy "et" ≫= as_f64; ot ← jget sy "ot" ≫= as_f64;
      em ← jget sy "em" ≫= as_str; om ← jget sy "om" ≫= as_str;
      Some (SyncMsg rx et ot em om at_scaled)
  | None =>
      match jget v "mlat" with
      | Some ml => t ← jget ml "t" ≫= as_f64; m ← jget ml "m" ≫= as_str; Some (MlatMsg rx t m at_scaled)
      | None =>
          match jget v "clock_reset", jget v "clock_jump" with
          | None, None => None
          | _, _ => Some (Shard.ClockReset rx)
          end
      end
  end.

(** The reader between two polls, the aircraft requested, the queue of the writer task and
    the messages sent to the shard. *)
Inductive Reader :=
| ReadLine (line : list Z)
| ReadLen (lenb : list Z) (dec : Decomp)
| ReadBody (want : nat) (payload : list Z) (dec : Decomp).
Inductive LoopStatus := Running | Ended (ok : bool).
Record Sess := {
  s_reader : Reader; s_status : LoopStatus; s_requested : gset string; s_out : list string; s_sent : list ShardMsg;
  s_loop_start : Z; s_next_hb : Z
}.
Definition with_reader (rd : Reader) (s : Sess) : Sess :=
  {| s_reader := rd; s_status := s_status s; s_requested := s_requested s; s_out := s_out s; s_sent := s_sent s;
     s_loop_start := s_loop_start s; s_next_hb := s_next_hb s |}.
Definition with_status (st : LoopStatus) (s : Sess) : Sess :=
  {| s_reader := s_reader s; s_status := st; s_requested := s_requested s; s_out := s_out s; s_sent := s_sent s;
     s_loop_start := s_loop_start s; s_next_hb := s_next_hb s |}.
Definition with_io (req : gset string) (out : list string) (sent : list ShardMsg) (s : Sess) : Sess :=
  {| s_reader := s_reader s; s_status := s_status s; s_requested := req; s_out := out; s_sent := sent;
     s_loop_start := s_loop_start s; s_next_hb := s_next_hb s |}.
Definition with_times (start hb : Z) (s : Sess) : Sess :=
  {| s_reader := s_reader s; s_status := s_status s; s_requested := s_requested s; s_out := s_out s; s_sent := s_sent s;
     s_loop_start := start; s_next_hb := hb |}.

Definition next_iteration (now : Z) (s : Sess) : Sess := with_times now (s_next_hb s) s.

(** [try_send]: a full queue drops the line. *)
Definition try_send (out : list string) (l : string) : list string :=
  if (length out <? OUT_CAPACITY)%nat then out ++ [l] else out.
Definition process_line_tx (rx : RxRef) (at_scaled : f64) (s : Sess) (line : list Z) : Sess :=
  match from_slice line with
  | None => s
  | Some v =>
      let '(requested, fresh) := request_new (s_requested s) (offers v) in
      let out := match fresh with [] => s_out s | _ => try_send (s_out s) (start_sending_line fresh) end in
      let sent := match shard_msg rx v at_scaled with Some m => s_sent s ++ [m] | None => s_sent s end in
      with_io requested out sent s
  end.

(** ** The message loop *)
(** [chunk.split(|b| b == newline)], the empty pieces dropped. *)
Fixpoint split_lines (l : list Z) : list (list Z) :=
  match l with
  | [] => [[]]
  | b :: l =>
      if b =? 10 then [] :: split_lines l
      else match split_lines l with [] => [[b]] | p :: ps => (b :: p) :: ps end
  end.
Definition chunk_lines (chunk : list Z) : list (list Z) := filter (fun p => p <> []) (split_lines chunk).

(** One byte reaches the reader.  [None]: the inflate loop did not end within its fuel. *)
Definition frame_done (fuel : nat) (rx : RxRef) (now : Z) (at_scaled : f64) (s : Sess) (dec : Decomp) (frame : list Z) : option Sess :=
  '(dec, r) ← decode_frame fuel dec frame;
  match r with
  | inr _ => Some (with_status (Ended false) s)
  | inl chunk =>
      Some (next_iteration now (with_reader (ReadLen [] dec) (fold_left (process_line_tx rx at_scaled) (chunk_lines chunk) s)))
  end.
Definition read_byte (fuel : nat) (rx : RxRef) (now : Z) (at_scaled : f64) (s : Sess) (b : Z) : option Sess :=
  match s_status s with
  | Ended _ => Some s
  | Running =>
      match s_reader s with
      | ReadLine line =>
          let line := line ++ [b] in
          if b =? 10 then Some (next_iteration now (with_reader (ReadLine []) (process_line_tx rx at_scaled s line)))
          else if LINE_LIMIT <=? Z.of_nat (length line) then Some (with_status (Ended false) s)
          else Some (with_reader (ReadLine line) s)
      | ReadLen lenb dec =>
          match lenb with
          | [] => Some (with_reader (ReadLen [b] dec) s)
          | hi :: _ =>
              let want := Z.to_nat (256 * hi + b) in
              if (want =? 0)%nat then frame_done fuel rx now at_scaled s dec [hi; b]
              else Some (with_reader (ReadBody want [hi; b] dec) s)
          end
      | ReadBody want payload dec =>
          let payload := payload ++ [b] in
          if (length payload =? 2 + want)%nat then frame_done fuel rx now at_scaled s dec payload
          else Some (with_reader (ReadBody want payload dec) s)
      end
  end.
Fixpoint read_bytes (fuel : nat) (rx : RxRef) (now : Z) (at_scaled : f64) (s : Sess) (bs : list Z) : option Sess :=
  match bs with [] => Some s | b :: bs => s ← read_byte fuel rx now at_scaled s b; read_bytes fuel rx now at_scaled s bs end.

(** A timer's branch drops the read it interrupts, and with it the bytes already read. *)
Definition drop_read (r : Reader) : option Reader :=
  match r with
  | ReadLine _ => Some (ReadLine [])
  | ReadLen _ dec => Some (ReadLen [] dec)
  | ReadBody _ _ _ => None  (** outside the [select] *)
  end.
(** The end of the stream, or a read error. *)
Definition at_end (r : Reader) (error : bool) : bool :=
  match r with
  | ReadLine [] => negb error
  | ReadLine _ => false
  | _ => true
  end.

Inductive SEvent :=
| Data (bs : list Z) (at_scaled : f64)
| Eof | ReadError
| HbTick (server_time : f64)
| StatsTick (reply : option (nat * f64 * bool))
| IdleTimeout
| WriterTakes
| ResultLine (line : string).  (** the task that forwards published results *)

(** One event at time [now]; [None]: it cannot happen in this state, or never returns. *)
Definition step (fuel : nat) (hb_real : Z) (wants_stats : bool) (rx : RxRef) (s : Sess) (now : Z) (ev : SEvent) : option Sess :=
  match s_status s, ev with
  | Ended _, _ => None
  | _, WriterTakes => Some (with_io (s_requested s) (drop 1 (s_out s)) (s_sent s) s)
  | _, ResultLine line =>
      if (length (s_out s) <? OUT_CAPACITY)%nat then Some (with_io (s_requested s) (s_out s ++ [line]) (s_sent s) s) else None
  | _, Data bs at_scaled => read_bytes fuel rx now at_scaled s bs
  | _, Eof => Some (with_status (Ended (at_end (s_reader s) false)) s)
  | _, ReadError => Some (with_status (Ended (at_end (s_reader s) true)) s)
  | _, HbTick st =>
      rd ← drop_read (s_reader s);
      if (s_next_hb s <=? now) && (length (s_out s) <? OUT_CAPACITY)%nat then
        Some (with_times now (s_next_hb s + hb_real)
          (with_reader rd (with_io (s_requested s) (s_out s ++ [heartbeat_line st]) (s_sent s) s)))
      else None
  | _, StatsTick reply =>
      rd ← drop_read (s_reader s);
      if wants_stats && (length (s_out s) <? OUT_CAPACITY)%nat then
        let out := match reply with
                   | Some (peers, outlier, quarantined) => s_out s ++ [stats_line peers outlier quarantined]
                   | None => s_out s
                   end in
        Some (with_times now (s_next_hb s) (with_reader rd (with_io (s_requested s) out (s_sent s) s)))
      else None
  | _, IdleTimeout =>
      _ ← drop_read (s_reader s);
      if s_loop_start s + IDLE <=? now then Some (with_status (Ended false) s) else None
  end.
Fixpoint run_session (fuel : nat) (hb_real : Z) (wants_stats : bool) (rx : RxRef) (s : Sess) (evs : list (Z * SEvent)) : option Sess :=
  match evs with
  | [] => Some s
  | (now, ev) :: evs => s ← step fuel hb_real wants_stats rx s now ev; run_session fuel hb_real wants_stats rx s evs
  end.
Definition Sess_new (hb_real now : Z) (negotiated : string) : Sess :=
  {| s_reader := if (negotiated =? "none")%string then ReadLine [] else ReadLen [] decomp_new;
     s_status := Running; s_requested := ∅; s_out := []; s_sent := []; s_loop_start := now; s_next_hb := now + hb_real |}.

(** ** The writer task of a compressed connection *)
Definition BATCH_MAX : Z := 32 * 1024.
Record DownWriter := { dw_enc : Comp; dw_batch : list Z; dw_wire : list (list Z); dw_sock : bool; dw_open : bool }.
Definition DownWriter_new : DownWriter := {| dw_enc := comp_new; dw_batch := []; dw_wire := []; dw_sock := true; dw_open := true |}.
(** A line of the channel, the tick, the end of the channel; and the client's end going away. *)
Inductive WEvent := WLine (l : string) | WFlush | WClose | WSocketGone.
Definition end_writer (w : DownWriter) : DownWriter :=
  {| dw_enc := dw_enc w; dw_batch := dw_batch w; dw_wire := dw_wire w; dw_sock := dw_sock w; dw_open := false |}.
(** After the loop: what it left in the batch, as a last frame. *)
Definition close_writer (fuel : nat) (w : DownWriter) : option DownWriter :=
  match dw_batch w with
  | [] => Some (end_writer w)
  | batch =>
      '(enc, r) ← encode_frame fuel (dw_enc w) batch;
      Some {| dw_enc := enc; dw_batch := batch;
              dw_wire := match r with inl f => if dw_sock w then dw_wire w ++ [f] else dw_wire w | inr _ => dw_wire w end;
              dw_sock := dw_sock w; dw_open := false |}
  end.
(** The batch as one frame; one that cannot be encoded, or written, ends the loop. *)
Definition flush_batch (fuel : nat) (w : DownWriter) : option DownWriter :=
  '(enc, r) ← encode_frame fuel (dw_enc w) (dw_batch w);
  match r with
  | inl f =>
      if dw_sock w then Some {| dw_enc := enc; dw_batch := []; dw_wire := dw_wire w ++ [f]; dw_sock := true; dw_open := true |}
      else close_writer fuel {| dw_enc := enc; dw_batch := []; dw_wire := dw_wire w; dw_sock := false; dw_open := true |}
  | inr _ => close_writer fuel {| dw_enc := enc; dw_batch := dw_batch w; dw_wire := dw_wire w; dw_sock := dw_sock w; dw_open := true |}
  end.
Definition write_step (fuel : nat) (w : DownWriter) (ev : WEvent) : option DownWriter :=
  if negb (dw_open w) then Some w
  else match ev with
  | WLine l =>
      let w := {| dw_enc := dw_enc w; dw_batch := dw_batch w ++ bytes_of l; dw_wire := dw_wire w; dw_sock := dw_sock w; dw_open := true |} in
      if Z.of_nat (length (dw_batch w)) <? BATCH_MAX then Some w else flush_batch fuel w
  | WFlush => match dw_batch w with [] => Some w | _ => flush_batch fuel w end
  | WClose => close_writer fuel w
  | WSocketGone => Some {| dw_enc := dw_enc w; dw_batch := dw_batch w; dw_wire := dw_wire w; dw_sock := false; dw_open := true |}
  end.
Fixpoint run_writer (fuel : nat) (w : DownWriter) (evs : list WEvent) : option DownWriter :=
  match evs with [] => Some w | ev :: evs => w ← write_step fuel w ev; run_writer fuel w evs end.

(** ** The whole connection *)
Inductive Effect :=
| EClaim (lat lon : f64)      (** [router.shard_for] *)
| EShard (m : ShardMsg)
| EReply (line : string)
| ERelease.                   (** the shard's receiver count *)
(** [hs_line]: what was read of the first line; [rx]: the shard's answer, if it is there;
    [reply_ok]: whether the reply could be written; [sent]: the messages of the loop. *)
Definition handle_client (hs_line : list Z) (rx : option RxRef) (reply_ok : bool) (sent : list ShardMsg) : list Effect :=
  if negb (bool_decide (list.last hs_line = Some 10)) then []
  else
    match from_slice hs_line with
    | None => []
    | Some hs =>
        match accept_handshake hs with
        | inr refusal => [EReply (deny_line refusal)]
        | inl a =>
            EClaim (lat_deg (ri_geo (ac_info a))) (lon_deg (ri_geo (ac_info a))) :: EShard (AddReceiver (ac_info a)) ::
            match rx with
            | None => []
            | Some rx =>
                EReply (reply_line a) ::
                if reply_ok then (EShard <$> sent) ++ [EShard (RemoveReceiver rx); ERelease] else []
            end
        end
    end.
End Code.

(** ** Requests *)
Section Requests.
Lemma request_new_spec req keys : let '(req', fresh) := request_new req keys in
  NoDup fresh /\ (forall h, h ∈ fresh -> h ∉ req) /\ req' = req ∪ list_to_set fresh /\
  forall k, k ∈ keys -> to_lowercase k ∈ req'.
Proof.
  unfold request_new. induction keys as [|k keys IH] using rev_ind; [split_and!; [constructor|set_solver..]|].
  rewrite fold_left_snoc. destruct (fold_left _ keys (req, [])) as [req' fresh]. destruct IH as (Hnd & Hnew & -> & Hin).
  cbn [fst snd]. case_bool_decide as Hk.
  - split_and!; try done. intros k' [?|Hk']%elem_of_app; [by apply Hin|]. apply list_elem_of_singleton in Hk' as ->. done.
  - split_and!.
    + apply list.NoDup_app. split_and!; [done| |apply list.NoDup_singleton]. intros h Hh Hk'. apply list_elem_of_singleton in Hk' as ->.
      apply Hk. set_solver.
    + intros h [Hh|Hh]%elem_of_app; [by apply Hnew|]. apply list_elem_of_singleton in Hh as ->. set_solver.
    + rewrite list_to_set_app_L. set_solver.
    + intros k' [Hk'|Hk']%elem_of_app; [pose proof (Hin _ Hk'); set_solver|]. apply list_elem_of_singleton in Hk' as ->. set_solver.
Qed.
End Requests.

(** ** The loop *)
Section Loop.
Context `{Json, JsonText, Flate}.
Context (fuel : nat) (hb_real : Z) (wants_stats : bool) (rx : RxRef).

(** What a line adds to the requested aircraft and the messages sent. *)
Definition said (at_scaled : f64) (acc : gset string * list ShardMsg) (line : list Z) : gset string * list ShardMsg :=
  match from_slice line with
  | None => acc
  | Some v => ((request_new acc.1 (offers v)).1, acc.2 ++ option_list (shard_msg rx v at_scaled))
  end.
Lemma process_line_said at_scaled s line :
  (s_requested (process_line_tx rx at_scaled s line), s_sent (process_line_tx rx at_scaled s line))
  = said at_scaled (s_requested s, s_sent s) line /\
  s_reader (process_line_tx rx at_scaled s line) = s_reader s /\ s_status (process_line_tx rx at_scaled s line) = s_status s.
Proof.
  unfold process_line_tx, said. destruct (from_slice line) as [v|]; [|done]. cbn [fst snd].
  destruct (request_new (s_requested s) (offers v)) as [req fresh]. cbn [with_io s_requested s_sent s_reader s_status].
  split_and!; [|done..]. destruct (shard_msg rx v at_scaled); cbn; by rewrite ?app_nil_r.
Qed.

(** The complete lines of a stream, their line feeds included, and the rest. *)
Fixpoint cut (line : list Z) (bs : list Z) : list (list Z) * list Z :=
  match bs with
  | [] => ([], line)
  | b :: bs => if b =? 10 then let '(ls, r) := cut [] bs in ((line ++ [b]) :: ls, r) else cut (line ++ [b]) bs
  end.
Fixpoint session_lines (line : list Z) (evs : list (Z * SEvent)) : list (f64 * list Z) :=
  match evs with
  | [] => []
  | (_, Data bs at_scaled) :: evs => ((fun l => (at_scaled, l)) <$> (cut line bs).1) ++ session_lines (cut line bs).2 evs
  | _ :: evs => session_lines line evs
  end.
(** No timer ticks inside a line. *)
Fixpoint ticks_between_lines (line : list Z) (evs : list (Z * SEvent)) : bool :=
  match evs with
  | [] => true
  | (_, Data bs _) :: evs => ticks_between_lines (cut line bs).2 evs
  | (_, (HbTick _ | StatsTick _)) :: evs => bool_decide (line = []) && ticks_between_lines line evs
  | _ :: evs => ticks_between_lines line evs
  end.

Lemma read_bytes_ended now at_scaled s bs s' ok : s_status s = Ended ok -> read_bytes fuel rx now at_scaled s bs = Some s' -> s' = s.
Proof.
  intros Hs. induction bs as [|b bs IH]; cbn [read_bytes]; [congruence|]. unfold read_byte at 1. rewrite Hs. cbn [mbind option_bind]. apply IH.
Qed.
Lemma read_bytes_lines now at_scaled bs s s' line : s_status s = Running -> s_reader s = ReadLine line ->
  read_bytes fuel rx now at_scaled s bs = Some s' -> s_status s' = Running ->
  s_reader s' = ReadLine (cut line bs).2 /\
  (s_requested s', s_sent s') = fold_left (said at_scaled) (cut line bs).1 (s_requested s, s_sent s).
Proof.
  revert s line. induction bs as [|b bs IH]; intros s line Hs Hr; cbn [read_bytes cut].
  - intros [= <-] _. done.
  - unfold read_byte at 1. rewrite Hs, Hr. destruct (Z.eqb_spec b 10) as [->|Hb].
    + cbn [mbind option_bind]. intros Hrun Hs'. destruct (process_line_said at_scaled s (line ++ [10])) as (E & _ & Est).
      destruct (IH (next_iteration now (with_reader (ReadLine []) (process_line_tx rx at_scaled s (line ++ [10])))) []) as [Hr' Hacc];
        [by cbn; rewrite Est|done..|]. destruct (cut [] bs) as [ls r]. cbn [fst snd fold_left] in *. split; [done|].
      rewrite Hacc. cbn [next_iteration with_times with_reader s_requested s_sent]. by rewrite E.
    + destruct (LINE_LIMIT <=? _); cbn [mbind option_bind]; intros Hrun Hs'.
      * apply (read_bytes_ended _ _ _ _ _ false) in Hrun; [|done]. subst s'. done.
      * by apply (IH (with_reader (ReadLine (line ++ [b])) s)).
Qed.

Lemma run_ended evs s s' ok : s_status s = Ended ok -> run_session fuel hb_real wants_stats rx s evs = Some s' -> s' = s.
Proof.
  intros Hs. destruct evs as [|[now ev] evs]; cbn [run_session]; [congruence|]. unfold step. by rewrite Hs.
Qed.

(** On an uncompressed connection whose timers tick only between lines, however the
    bytes are cut into reads: the aircraft requested and the messages sent to the shard are
    those of the complete lines of the stream, in order; an incomplete last line is kept. *)
Theorem session_reads_lines evs s s' line : s_reader s = ReadLine line -> s_status s = Running ->
  ticks_between_lines line evs = true ->
  run_session fuel hb_real wants_stats rx s evs = Some s' -> s_status s' = Running ->
  (s_requested s', s_sent s')
  = fold_left (fun acc l => said l.1 acc l.2) (session_lines line evs) (s_requested s, s_sent s).
Proof.
  revert s line. induction evs as [|[now ev] evs IH]; intros s line Hr Hs Ht Hrun Hs'; cbn [run_session] in Hrun; [by injection Hrun as <-|].
  destruct (step fuel hb_real wants_stats rx s now ev) as [s1|] eqn:E; [|done]. cbn [mbind option_bind] in Hrun.
  assert (s_status s1 = Running) as Hs1.
  { destruct (s_status s1) eqn:Es1; [done|]. apply (run_ended _ _ _ _ Es1) in Hrun. congruence. }
  unfold step in E. rewrite Hs in E. cbn [session_lines ticks_between_lines] in *. destruct ev as [bs at_scaled| | |st|reply| | |result].
  - destruct (read_bytes_lines _ _ _ _ _ _ Hs Hr E Hs1) as [Hr1 Hacc].
    rewrite (IH s1 _ Hr1 Hs1 Ht Hrun Hs'), Hacc, fold_left_app. f_equal.
    generalize (cut line bs).1, (s_requested s, s_sent s). clear. intros ls. induction ls as [|l ls IH]; intros acc; [done|]. apply IH.
  - injection E as <-. done.
  - injection E as <-. done.
  - apply andb_true_iff in Ht as [->%bool_decide_eq_true Ht]. rewrite Hr in E. cbn [drop_read mbind option_bind] in E.
    destruct (_ && _); [|done]. injection E as <-. by refine (IH _ [] _ _ Ht Hrun Hs').
  - apply andb_true_iff in Ht as [->%bool_decide_eq_true Ht]. rewrite Hr in E. cbn [drop_read mbind option_bind] in E.
    destruct (_ && _); [|done]. injection E as <-. by refine (IH _ [] _ _ Ht Hrun Hs').
  - rewrite Hr in E. cbn [drop_read mbind option_bind] in E. destruct (_ <=? _); [|done]. injection E as <-. done.
  - injection E as <-. by refine (IH _ line _ _ Ht Hrun Hs').
  - destruct (_ <? _)%nat; [|done]. injection E as <-. by refine (IH _ line _ _ Ht Hrun Hs').
Qed.
End Loop.

(** ** What is asked of the client *)
Section Asked.
Context `{Json, JsonText, Flate}.
Context (fuel : nat) (hb_real : Z) (wants_stats : bool) (rx : RxRef).

(** The lines that reading puts on the writer's queue, of a run; and that the queue has room. *)
Fixpoint requests_queued (s : Sess) (evs : list (Z * SEvent)) : list string :=
  match evs with
  | [] => []
  | (now, ev) :: evs =>
      match step fuel hb_real wants_stats rx s now ev with
      | None => []
      | Some s1 => match ev with Data _ _ => drop (length (s_out s)) (s_out s1) | _ => [] end ++ requests_queued s1 evs
      end
  end.
Fixpoint roomy (s : Sess) (evs : list (Z * SEvent)) : bool :=
  match evs with
  | [] => true
  | (now, ev) :: evs =>
      match step fuel hb_real wants_stats rx s now ev with
      | None => true
      | Some s1 => match ev with Data _ _ => (length (s_out s1) <? OUT_CAPACITY)%nat | _ => true end && roomy s1 evs
      end
  end.

(** From one state to the other, [add] is queued, and with room it asks for what is newly
    requested, each aircraft once. *)
Definition asks (s s' : Sess) : Prop := exists asked add, s_out s' = s_out s ++ add /\
  s_requested s' = s_requested s ∪ list_to_set (concat asked) /\ NoDup (concat asked) /\ (forall h, h ∈ concat asked -> h ∉ s_requested s) /\
  ((length (s_out s') < OUT_CAPACITY)%nat -> add = start_sending_line <$> asked).
Lemma asks_none s s' : s_out s' = s_out s -> s_requested s' = s_requested s -> asks s s'.
Proof. intros Eo Er. exists [], []. rewrite app_nil_r. split_and!; [done|set_solver|constructor|set_solver|done]. Qed.
Lemma asks_trans s1 s2 s3 : asks s1 s2 -> asks s2 s3 -> asks s1 s3.
Proof.
  intros (l1 & a1 & Eo1 & Er1 & Hn1 & Hf1 & Ha1) (l2 & a2 & Eo2 & Er2 & Hn2 & Hf2 & Ha2). exists (l1 ++ l2), (a1 ++ a2).
  rewrite concat_app, app_assoc, <- Eo1. split_and!; [done|rewrite list_to_set_app_L; set_solver| |set_solver|].
  - apply list.NoDup_app. split_and!; [done| |done]. intros h H1' H2'. apply (Hf2 h H2'). rewrite Er1. set_solver.
  - intros Hl. rewrite fmap_app. rewrite Eo2, length_app in Hl. rewrite Ha1, Ha2 by (rewrite ?Eo2, ?length_app; lia). done.
Qed.
Lemma process_line_asks at_scaled s line : asks s (process_line_tx rx at_scaled s line).
Proof.
  unfold process_line_tx. destruct (from_slice line) as [v|]; [|by apply asks_none].
  pose proof (request_new_spec (s_requested s) (offers v)) as Hs. destruct (request_new _ _) as [req fresh]. destruct Hs as (Hnd & Hnew & -> & _).
  exists (match fresh with [] => [] | _ => [fresh] end). cbn [with_io s_out s_requested]. unfold try_send. destruct fresh as [|f fresh].
  - exists []. rewrite app_nil_r. split_and!; [done|set_solver|constructor|set_solver|done].
  - destruct (Nat.ltb_spec (length (s_out s)) OUT_CAPACITY) as [Hl|Hl]; [exists [start_sending_line (f :: fresh)]|exists []]; cbn [concat]; rewrite !app_nil_r;
      split_and!; try done. lia.
Qed.
Lemma process_lines_ask at_scaled ls s : asks s (fold_left (process_line_tx rx at_scaled) ls s).
Proof.
  induction ls as [|l ls IH] using rev_ind; [by apply asks_none|]. rewrite fold_left_snoc.
  eapply asks_trans; [exact IH|apply process_line_asks].
Qed.
Lemma read_byte_asks now at_scaled s b s' : read_byte fuel rx now at_scaled s b = Some s' -> asks s s'.
Proof.
  assert (forall dec fr s', frame_done fuel rx now at_scaled s dec fr = Some s' -> asks s s') as Hframe.
  { intros dec fr s1. unfold frame_done. destruct (decode_frame fuel dec fr) as [[dec' [chunk|e]]|]; [|by intros [= <-]; apply asks_none|done].
    cbn [mbind option_bind]. intros [= <-]. eapply asks_trans; [apply (process_lines_ask at_scaled (chunk_lines chunk))|by apply asks_none]. }
  unfold read_byte. destruct (s_status s); [|by intros [= <-]; apply asks_none].
  destruct (s_reader s) as [line|lenb dec|want payload dec].
  - destruct (b =? 10); [intros [= <-]; eapply asks_trans; [apply process_line_asks|by apply asks_none]|].
    destruct (_ <=? _); intros [= <-]; by apply asks_none.
  - destruct lenb; [intros [= <-]; by apply asks_none|]. destruct (_ =? _)%nat; [apply Hframe|intros [= <-]; by apply asks_none].
  - destruct (_ =? _)%nat; [apply Hframe|intros [= <-]; by apply asks_none].
Qed.
Lemma read_bytes_ask now at_scaled bs s s' : read_bytes fuel rx now at_scaled s bs = Some s' -> asks s s'.
Proof.
  revert s. induction bs as [|b bs IH]; intros s; cbn [read_bytes]; [intros [= <-]; by apply asks_none|].
  destruct (read_byte _ _ _ _ _ _) as [s1|] eqn:E; [|done]. cbn [mbind option_bind]. intros Hr.
  eapply asks_trans; [by eapply read_byte_asks|by apply IH].
Qed.
Lemma step_requested s now ev s' : step fuel hb_real wants_stats rx s now ev = Some s' -> match ev with Data _ _ => False | _ => True end ->
  s_requested s' = s_requested s.
Proof.
  unfold step. destruct (s_status s); [|by destruct ev]. destruct ev as [bs at_scaled| | |st|reply| | |result]; try done; intros E _;
    try (by injection E as <-); try (destruct (drop_read _); [|done]; cbn [mbind option_bind] in E); by (destruct (_ && _) || destruct (_ <=? _) || destruct (_ <? _)%nat); [injection E as <-|].
Qed.
(** While the queue has room, the lines reading queues are requests, and ask for exactly the
    aircraft that become requested, each once. *)
Lemma requests_complete evs s s' : run_session fuel hb_real wants_stats rx s evs = Some s' -> roomy s evs = true ->
  exists asked, requests_queued s evs = start_sending_line <$> asked /\ NoDup (concat asked) /\
    (forall h, h ∈ concat asked -> h ∉ s_requested s) /\ s_requested s' = s_requested s ∪ list_to_set (concat asked).
Proof.
  revert s. induction evs as [|[now ev] evs IH]; intros s; cbn [run_session requests_queued roomy].
  { intros [= <-] _. exists []. split_and!; [done|constructor|set_solver|set_solver]. }
  destruct (step fuel hb_real wants_stats rx s now ev) as [s1|] eqn:E; [|done]. cbn [mbind option_bind].
  intros Hrun [Hroom Hr]%andb_true_iff. destruct (IH s1 Hrun Hr) as (l2 & -> & Hn2 & Hf2 & Er2).
  destruct (match ev with Data _ _ => true | _ => false end) eqn:Ed.
  - destruct ev; try done. unfold step in E. destruct (s_status s); [|done].
    destruct (read_bytes_ask _ _ _ _ _ E) as (l1 & add & Eo & Er1 & Hn1 & Hf1 & Ha). apply Nat.ltb_lt in Hroom.
    exists (l1 ++ l2). rewrite fmap_app, concat_app, Eo, drop_app_length, Ha by done. split_and!; [done| |set_solver|].
    + apply list.NoDup_app. split_and!; [done| |done]. intros h H1' H2'. apply (Hf2 h H2'). rewrite Er1. set_solver.
    + rewrite Er2, Er1, list_to_set_app_L. set_solver.
  - assert (s_requested s1 = s_requested s) as Er by (apply (step_requested _ _ _ _ E); by destruct ev).
    exists l2. rewrite <- Er. split_and!; [by destruct ev|done|done|done].
Qed.
End Asked.

(** ** The idle timeout *)
Section Idle.
Context `{Json, JsonText, Flate}.
Context (fuel : nat) (hb_real : Z) (wants_stats : bool) (rx : RxRef).

(** Every iteration of the loop starts the timeout anew, and a heartbeat ends an iteration. *)
Record timed (last : Z) (s : Sess) : Prop := {
  ti_start : s_loop_start s <= last;
  ti_hb : s_next_hb s <= s_loop_start s + hb_real
}.
(** The loop serves what it waits for before the next heartbeat falls due, the heartbeat first
    of what is ready: timers are prompt. *)
Definition in_time (s : Sess) (now : Z) : bool := match s_reader s with ReadBody _ _ _ => true | _ => now <=? s_next_hb s end.
Fixpoint prompt (s : Sess) (evs : list (Z * SEvent)) : bool :=
  match evs with
  | [] => true
  | (now, ev) :: evs =>
      match ev with HbTick _ | WriterTakes | ResultLine _ => true | _ => in_time s now end &&
      match step fuel hb_real wants_stats rx s now ev with Some s => prompt s evs | None => true end
  end.
Fixpoint ordered (t : Z) (evs : list (Z * SEvent)) : bool :=
  match evs with [] => true | (now, _) :: evs => (t <=? now) && ordered now evs end.

Lemma read_byte_timed now at_scaled s b s' : timed now s -> read_byte fuel rx now at_scaled s b = Some s' -> timed now s'.
Proof.
  intros [Hst Hhb]. assert (forall rd, timed now (with_reader rd s)) as Hrd by (by split).
  assert (forall rd s1, s_next_hb s1 = s_next_hb s -> timed now (next_iteration now (with_reader rd s1))) as Hnext
    by (intros rd s1 E; split; cbn; lia).
  assert (forall dec fr s', frame_done fuel rx now at_scaled s dec fr = Some s' -> timed now s') as Hframe.
  { intros dec fr s1. unfold frame_done. destruct (decode_frame fuel dec fr) as [[dec' [chunk|e]]|]; [|by intros [= <-]|done].
    cbn [mbind option_bind]. intros [= <-]. apply Hnext.
    induction (chunk_lines chunk) as [|l ls IH] using rev_ind; [done|]. rewrite fold_left_snoc, <- IH.
    unfold process_line_tx at 1. destruct (from_slice l) as [v|]; [|done]. by destruct (request_new _ _). }
  unfold read_byte. destruct (s_status s); [|by intros [= <-]].
  destruct (s_reader s) as [line|lenb dec|want payload dec].
  - destruct (b =? 10).
    + intros [= <-]. apply Hnext. unfold process_line_tx. destruct (from_slice _) as [v|]; [|done]. by destruct (request_new _ _).
    + destruct (_ <=? _); intros [= <-]; [by split|apply Hrd].
  - destruct lenb; [intros [= <-]; apply Hrd|]. destruct (_ =? _)%nat; [apply Hframe|intros [= <-]; apply Hrd].
  - destruct (_ =? _)%nat; [apply Hframe|intros [= <-]; apply Hrd].
Qed.
Lemma read_bytes_timed now at_scaled s bs s' : timed now s -> read_bytes fuel rx now at_scaled s bs = Some s' -> timed now s'.
Proof.
  revert s. induction bs as [|b bs IH]; intros s Ht; cbn [read_bytes]; [by intros [= <-]|].
  destruct (read_byte _ _ _ _ _ _) as [s1|] eqn:E; [|done]. cbn. apply IH. by eapply read_byte_timed.
Qed.
Lemma step_timed t now s ev s' : 0 <= hb_real -> timed t s -> t <= now ->
  step fuel hb_real wants_stats rx s now ev = Some s' -> timed now s'.
Proof.
  intros Hhb0 [Hst Hhb] Hnow. unfold step. destruct (s_status s); [|by destruct ev].
  destruct ev as [bs at_scaled| | |st|reply| | |result].
  - apply read_bytes_timed. split; lia.
  - intros [= <-]. split; cbn; lia.
  - intros [= <-]. split; cbn; lia.
  - destruct (drop_read _); [|done]. cbn [mbind option_bind]. destruct (Z.leb_spec (s_next_hb s) now), (_ <? _)%nat; try done.
    intros [= <-]. split; cbn; lia.
  - destruct (drop_read (s_reader s)) as [rd|] eqn:Ed; [|done]. cbn [mbind option_bind]. destruct wants_stats, (_ <? _)%nat; try done.
    intros [= <-]. split; cbn; lia.
  - destruct (drop_read _); [|done]. cbn [mbind option_bind]. destruct (_ <=? _); [|done]. intros [= <-]. split; cbn; lia.
  - intros [= <-]. split; cbn; lia.
  - destruct (_ <? _)%nat; [|done]. intros [= <-]. split; cbn; lia.
Qed.
Lemma idle_not_in_time t s now : 0 <= hb_real < IDLE -> timed t s -> t <= now -> in_time s now = true ->
  step fuel hb_real wants_stats rx s now IdleTimeout = None.
Proof.
  intros Hhb [Hst Hn] Ht. unfold step, in_time. destruct (s_status s); [|done].
  destruct (s_reader s); cbn [drop_read mbind option_bind]; try done;
    destruct (Z.leb_spec now (s_next_hb s)), (Z.leb_spec (s_loop_start s + IDLE) now); try done; lia.
Qed.

(** C20: when heartbeats are due more often than the idle timeout (every 30 s, against 300 s) and
    timers are prompt, no run of a connection contains an idle timeout: a client that is
    silent for ever is never reaped. *)
Theorem idle_never_fires negotiated start evs s now : 0 <= hb_real < IDLE -> ordered start evs = true ->
  prompt (Sess_new hb_real start negotiated) evs = true ->
  run_session fuel hb_real wants_stats rx (Sess_new hb_real start negotiated) evs = Some s ->
  ~ (exists t, (t, IdleTimeout) ∈ evs) /\
  (Forall (fun e => e.1 <= now) evs -> start <= now -> in_time s now = true -> step fuel hb_real wants_stats rx s now IdleTimeout = None).
Proof.
  intros Hhb Hord Hp Hrun. assert (timed start (Sess_new hb_real start negotiated)) as Ht by (split; cbn; lia).
  revert Hord Hp Hrun Ht. generalize (Sess_new hb_real start negotiated). revert start.
  induction evs as [|[t ev] evs IH]; intros start s0 Hord Hp Hrun Ht; cbn [run_session ordered prompt] in *.
  - injection Hrun as ->. split; [intros [t Hin]; by apply elem_of_nil in Hin|]. intros _. by apply idle_not_in_time.
  - apply andb_true_iff in Hord as [Hle%Z.leb_le Hord]. apply andb_true_iff in Hp as [Hin Hp].
    destruct (step fuel hb_real wants_stats rx s0 t ev) as [s1|] eqn:E; [|done]. cbn [mbind option_bind] in Hrun.
    pose proof (step_timed start t s0 ev s1 ltac:(lia) Ht Hle E) as Ht1.
    destruct (IH t s1 Hord Hp Hrun Ht1) as [Hn Hs]. split.
    + intros [t' [[= -> <-]|Hi]%elem_of_cons]; [|by apply Hn; exists t']. by rewrite (idle_not_in_time start s0 t Hhb Ht Hle Hin) in E.
    + rewrite list.Forall_cons. intros [Hx Hall] _. by apply Hs.
Qed.
End Idle.

(** ** The teardown *)
Section Teardown.
Context `{Json, JsonText, Elem f64, !HashIter nat nat}.

(** What the effects of a connection do to the router; the shard is the one of its claim. *)
Definition route (acc : option (Router * nat)) (e : Effect) : option (Router * nat) :=
  '(r, idx) ← acc;
  match e with
  | EClaim lat lon => shard_for r lat lon
  | ERelease => Some (release r idx, idx)
  | _ => Some (r, idx)
  end.
Definition accepted (hs_line : list Z) (a : Accepted) : Prop :=
  list.last hs_line = Some 10 /\ exists hs, from_slice hs_line = Some hs /\ accept_handshake hs = inl a.

Lemma handle_client_accepted hs_line a rx reply_ok sent : accepted hs_line a ->
  handle_client hs_line (Some rx) reply_ok sent =
    [EClaim (lat_deg (ri_geo (ac_info a))) (lon_deg (ri_geo (ac_info a))); EShard (AddReceiver (ac_info a)); EReply (reply_line a)] ++
    if reply_ok then (EShard <$> sent) ++ [EShard (RemoveReceiver rx); ERelease] else [].
Proof. intros (Hl & hs & Eh & Ea). unfold handle_client. rewrite bool_decide_eq_true_2 by done. cbn [negb]. by rewrite Eh, Ea. Qed.
Lemma route_shards acc sent : fold_left route (EShard <$> sent) acc = acc.
Proof. induction sent as [|m sent IH] in acc |- *; [done|]. cbn. destruct acc as [[r i]|]; apply IH. Qed.

(** An accepted connection is counted once by the router, in an existing shard; when its
    reply could be written, it ends with the removal of the receiver it was given and with
    the count it found; when the reply could not be written, neither happens: the receiver
    stays registered and counted. *)
Theorem session_teardown r hs_line a rx reply_ok sent : router_ok r -> shallow r -> accepted hs_line a ->
  exists r' i, fold_left route (handle_client hs_line (Some rx) reply_ok sent) (Some (r, 0%nat)) = Some (r', i) /\
    (i < length (shards r))%nat /\
    (forall j, receivers_of r' j = if decide (j = i) then u64 (receivers_of r i + if reply_ok then 0 else 1) else receivers_of r j) /\
    (EShard (RemoveReceiver rx) ∈ handle_client hs_line (Some rx) false sent -> False) /\
    list.last (handle_client hs_line (Some rx) true sent) = Some ERelease.
Proof.
  intros Hok Hsh Ha. rewrite !(handle_client_accepted _ _ _ _ _ Ha). rewrite fold_left_app. cbn [fold_left].
  set (lat := lat_deg _). set (lon := lon_deg _).
  destruct (shard_for_total r lat lon Hsh) as [[r1 i] E].
  destruct (shard_for_spec r lat lon r1 i Hok E) as (leaf & _ & Hi & _ & Hn & _).
  assert (route (Some (r, 0%nat)) (EClaim lat lon) = Some (r1, i)) as -> by (cbn [route mbind option_bind]; exact E).
  cbn [route mbind option_bind].
  pose proof (shard_for_counts _ _ _ _ _ E Hi) as Hr1.
  assert (list.last ([EClaim lat lon; EShard (AddReceiver (ac_info a)); EReply (reply_line a)] ++
    (EShard <$> sent) ++ [EShard (RemoveReceiver rx); ERelease]) = Some ERelease) as Hlast.
  { change [EShard (RemoveReceiver rx); ERelease] with ([EShard (RemoveReceiver rx)] ++ [ERelease]). rewrite !app_assoc. apply last_snoc. }
  destruct reply_ok.
  - rewrite fold_left_app, route_shards. cbn [fold_left route mbind option_bind].
    eexists _, i. split_and!; [done|done| |by set_solver|done]. intros j. rewrite release_counts by (by rewrite Hn).
    case_decide; [|by rewrite Hr1, decide_False]. rewrite Hr1, decide_True by done. unfold wrap.
    rewrite Zminus_mod_idemp_l. f_equal. lia.
  - cbn [fold_left]. exists r1, i. split_and!; [done..| |done]. rewrite app_nil_r. set_solver.
Qed.
End Teardown.

(** ** The downlink *)
Section Downlink.
Context `{Json, Flate, !FlateLaws}.

(** The lines of a run, and what is left of them in the batch. *)
Definition lines_bytes (evs : list WEvent) : list Z :=
  evs ≫= (fun ev => match ev with WLine l => bytes_of l | _ => [] end).
Record down_ok (w : DownWriter) (d0 : Decomp) (sent : list Z) : Prop := {
  do_open : dw_open w = true;
  do_sock : dw_sock w = true;
  do_batch : Z.of_nat (length (dw_batch w)) < BATCH_MAX;
  do_wire : carried d0 (dw_enc w) (dw_wire w) (dw_batch w) sent
}.
Lemma flush_batch_ok w d0 sent : dw_sock w = true -> dw_batch w <> [] -> Z.of_nat (length (dw_batch w)) <= 64511 ->
  carried d0 (dw_enc w) (dw_wire w) (dw_batch w) sent ->
  exists w', flush_batch 0 w = Some w' /\ down_ok w' d0 sent.
Proof.
  intros Hs Hne Hlen Hc. destruct (carried_flush _ _ _ _ _ Hc Hne Hlen) as (enc' & f & Ee & Hc').
  unfold flush_batch. rewrite Ee, Hs. cbn [mbind option_bind]. eexists. split; [done|].
  split; cbn [dw_open dw_sock dw_batch dw_wire dw_enc]; [done|done|unfold BATCH_MAX; cbn; lia|done].
Qed.
Definition keeps_on (ev : WEvent) : Prop := match ev with WClose | WSocketGone => False | WLine l => Z.of_nat (length (bytes_of l)) <= 31743 | WFlush => True end.
Lemma write_step_ok w d0 sent ev : down_ok w d0 sent -> keeps_on ev ->
  exists w', write_step 0 w ev = Some w' /\ down_ok w' d0 (sent ++ match ev with WLine l => bytes_of l | _ => [] end).
Proof.
  intros [Hop Hso Hb Hw] Hev. unfold write_step. rewrite Hop, Hso. cbn [negb]. unfold BATCH_MAX in *.
  destruct ev as [l| | |]; [| |done|done].
  - set (w1 := {| dw_enc := dw_enc w; dw_batch := dw_batch w ++ bytes_of l; dw_wire := dw_wire w; dw_sock := true; dw_open := true |}).
    assert (carried d0 (dw_enc w1) (dw_wire w1) (dw_batch w1) (sent ++ bytes_of l)) as Hw1 by by apply carried_more.
    cbn [keeps_on] in Hev. destruct (Z.ltb_spec (Z.of_nat (length (dw_batch w1))) (32 * 1024)).
    + exists w1. split; [done|]. by split.
    + destruct (flush_batch_ok w1 d0 (sent ++ bytes_of l)) as (w' & E & Hok); try done.
      * intros E. rewrite E in *. cbn in *. lia.
      * cbn [dw_batch w1]. rewrite length_app. lia.
      * by exists w'.
  - rewrite app_nil_r. destruct (dw_batch w) as [|b bs] eqn:Eb; [exists w; split; [done|]; split; rewrite ?Eb; done|].
    destruct (flush_batch_ok w d0 sent) as (w' & E & Hok); rewrite ?Eb; try done; [lia|].
    by exists w'.
Qed.
(** Closing sends what is left. *)
Lemma close_writer_ok w d0 sent : down_ok w d0 sent -> exists w' batches, close_writer 0 w = Some w' /\
  decode_all 0 d0 (dw_wire w') = Some batches /\ concat batches = sent.
Proof.
  intros [Hop Hso Hb Hc]. unfold close_writer, BATCH_MAX in *. destruct (dw_batch w) as [|b bs] eqn:Eb.
  - destruct (carried_decoded _ _ _ _ Hc) as (batches & Hd & Hs). by exists (end_writer w), batches.
  - destruct (carried_flush _ _ _ _ _ Hc) as (enc' & f & Ee & Hc'); [done|lia|]. rewrite Ee, Hso. cbn [mbind option_bind].
    destruct (carried_decoded _ _ _ _ Hc') as (batches & Hd & Hs). by eexists _, batches.
Qed.

(** C28: on a compressed downlink every line queued, of at most 31743 bytes, reaches the client:
    whatever the lines and flush ticks, while the socket takes what is written, once the
    channel is closed a decoder that followed the connection has decoded exactly the bytes
    of all lines, in order. *)
Theorem downlink_delivers evs : Forall keeps_on evs ->
  exists w batches, run_writer 0 DownWriter_new (evs ++ [WClose]) = Some w /\
    decode_all 0 decomp_new (dw_wire w) = Some batches /\ concat batches = lines_bytes evs.
Proof.
  intros Hevs. assert (forall w sent, down_ok w decomp_new sent -> exists w' batches, run_writer 0 w (evs ++ [WClose]) = Some w' /\
    decode_all 0 decomp_new (dw_wire w') = Some batches /\ concat batches = sent ++ lines_bytes evs) as Hrun.
  { induction Hevs as [|ev evs Hev Hevs IH]; intros w sent Hok.
    - cbn [app run_writer]. unfold write_step. rewrite (do_open _ _ _ Hok). cbn [negb].
      destruct (close_writer_ok w decomp_new sent Hok) as (w' & batches & -> & Hd & Hs). exists w', batches. cbn. by rewrite app_nil_r.
    - destruct (write_step_ok w decomp_new sent ev Hok Hev) as (w' & E & Hok').
      destruct (IH w' _ Hok') as (w'' & batches & Er & Ed & Ec). exists w'', batches. cbn [app run_writer]. rewrite E.
      cbn [mbind option_bind]. split_and!; [done|done|]. rewrite Ec. unfold lines_bytes. cbn [mbind list_bind]. by rewrite app_assoc. }
  destruct (Hrun DownWriter_new []) as (w & batches & Hw1 & Hw2 & Hw3); [|by exists w, batches].
  split; [done|done|done|apply carried_new].
Qed.
End Downlink.

(** ** Concrete connections *)
Section Sample.
(** A handshake; one line that resets the clock, and one that offers an aircraft. *)
Definition sample_hs : Tree :=
  TObj [("compress"%string, TArr [TStr "zlib"; TStr "none"]);
    ("lat"%string, TNum (inl 47)); ("lon"%string, TNum (inl (-1))); ("alt"%string, TNum (inl 40)); ("user"%string, TStr "a")].
Definition sample_parse (l : list Z) : option Tree :=
  if decide (l = [1; 2; 10]) then Some (TObj [("clock_reset"%string, TNull)])
  else if decide (l = [3; 10]) then Some (TObj [("seen"%string, TArr [TStr "3C6444"])])
  else if decide (l = [9; 10]) then Some sample_hs
  else None.
#[local] Instance json_sample : Json := json_with sample_parse.
#[local] Instance text_sample : JsonText := {| strings_json l := sconcat ["["; String.concat "," l; "]"]%string |}.
#[local] Existing Instance flate_stored.
#[local] Existing Instance elem_nan.
#[local] Instance votes_order : HashIter nat nat := hash_iter_list nat nat.
Definition sample_rx : RxRef := {| rx_idx := 0; rx_gen := 0 |}.
Definition hb30 : Z := 30 * 1000000000.
Definition sample_run (evs : list (Z * SEvent)) : option Sess :=
  run_session 10 hb30 true sample_rx (Sess_new hb30 0 "none") evs.

Example whole_line : s_sent <$> sample_run [(1, Data [1] fzero); (2, Data [2; 10] fzero)] = Some [Shard.ClockReset sample_rx].
Proof. vm_compute. reflexivity. Qed.
(** A heartbeat that falls due while a line is arriving drops the part of it already read;
    the rest of the line is then taken for a line. *)
Example tick_loses_line :
  s_sent <$> sample_run [(1, Data [1] fzero); (hb30, HbTick fzero); (hb30 + 1, Data [2; 10] fzero)] = Some [].
Proof. vm_compute. reflexivity. Qed.
(** On a compressed connection it drops the first byte of a length, and the stream is out of step. *)
Example tick_loses_length :
  (fun s => match s_reader s with ReadBody want _ _ => Some want | _ => None end) <$>
    run_session 10 hb30 true sample_rx (Sess_new hb30 0 "zlib")
      [(1, Data [0] fzero); (hb30, HbTick fzero); (hb30 + 1, Data [3; 1; 2; 3] fzero)] = Some (Some 769%nat).
Proof. vm_compute. reflexivity. Qed.
(** An aircraft offered while the writer's queue is full is marked as requested although the
    request was dropped: it is not requested again. *)
Example request_dropped :
  let s := with_io ∅ (repeat EmptyString OUT_CAPACITY) [] (Sess_new hb30 0 "none") in
  (fun s => (bool_decide ("3c6444"%string ∈ s_requested s), length (s_out s))) <$>
    run_session 10 hb30 true sample_rx s ([(1, Data [3; 10] fzero)] ++ repeat (2, WriterTakes) 256 ++ [(3, Data [3; 10] fzero)])
  = Some (true, 0%nat).
Proof. vm_compute. reflexivity. Qed.

Definition line_events : list (Z * SEvent) := [(1, Data [1] fzero); (2, Data [2; 10; 7] fzero)].
Definition line_sess : Sess := Eval vm_compute in default (Sess_new hb30 0 "none") (sample_run line_events).
Lemma session_reads_lines_witness :
  run_session 10 hb30 true sample_rx (Sess_new hb30 0 "none") line_events = Some line_sess /\
  (s_requested line_sess, s_sent line_sess) =
  fold_left (fun acc l => said sample_rx l.1 acc l.2) (session_lines [] line_events)
    (s_requested (Sess_new hb30 0 "none"), s_sent (Sess_new hb30 0 "none")).
Proof.
  assert (run_session 10 hb30 true sample_rx (Sess_new hb30 0 "none") line_events = Some line_sess) as E
    by (vm_compute; reflexivity).
  split; [exact E|].
  apply (session_reads_lines 10 hb30 true sample_rx line_events (Sess_new hb30 0 "none") line_sess []);
    [reflexivity|reflexivity|vm_compute; reflexivity|exact E|vm_compute; reflexivity].
Defined.
(** A silent client for 400 seconds: heartbeats only. *)
Definition silent_events : list (Z * SEvent) := (fun k => (30000000000 * k, HbTick fzero)) <$> seqZ 1 13.
Definition silent_sess : Sess := Eval vm_compute in default (Sess_new hb30 0 "none") (sample_run silent_events).
Lemma idle_never_fires_witness : ~ (exists t, (t, IdleTimeout) ∈ silent_events) /\
  step 10 hb30 true sample_rx silent_sess (400 * 1000000000) IdleTimeout = None.
Proof.
  destruct (idle_never_fires 10 hb30 true sample_rx "none" 0 silent_events silent_sess (400 * 1000000000)) as [Hn Hs];
    [split; vm_compute; congruence|vm_compute; reflexivity|vm_compute; reflexivity|vm_compute; reflexivity|].
  split; [exact Hn|]. apply Hs; [|lia|vm_compute; reflexivity].
  apply (bool_decide_unpack _). vm_compute. reflexivity.
Defined.
Lemma downlink_delivers_witness : exists w batches,
  run_writer 0 DownWriter_new ([WLine "a"; WFlush; WLine "b"]%string ++ [WClose]) = Some w /\
  decode_all 0 decomp_new (dw_wire w) = Some batches /\ concat batches = [97; 98].
Proof.
  pose proof (@downlink_delivers _ _ stored_laws [WLine "a"; WFlush; WLine "b"]%string) as Hd.
  change [97; 98] with (lines_bytes [WLine "a"; WFlush; WLine "b"]%string). apply Hd.
  repeat constructor; vm_compute; congruence.
Defined.
Lemma session_teardown_witness : exists a r' i,
  fold_left route (handle_client [9; 10] (Some sample_rx) false []) (Some (sample_router, 0%nat)) = Some (r', i) /\
  accepted [9; 10] a.
Proof.
  destruct (accept_handshake (sample_hs : @Value json_sample)) as [a|r] eqn:E;
    [|vm_compute in E; discriminate E].
  assert (accepted [9; 10] a) as Ha by (split; [reflexivity|]; eexists; split; [reflexivity|exact E]).
  destruct (session_teardown sample_router [9; 10] a sample_rx false [] (router_new_ok 4 (of_Z 8) 1000 ltac:(lia)) (shallow_new 4 (of_Z 8) 1000) Ha)
    as (r' & i & Hr & _).
  exists a, r', i. split; [exact Hr|exact Ha].
Defined.
End Sample.
