(* ===== verification/Wire.v ===== *)
(** * What the client's messages say (crates/mb-proto/src/lib.rs: to_line; crates/mlatd/src/main.rs: handle_client, process_line_tx)

    The JSON of the handshake and of the messages, field by field as their serde attributes
    have it, and that the server's connection understands them: what it makes of a line is
    what the message says.  Writing JSON as text is serde_json's, an interface with its laws. *)
From S2P Require Import Prelude F64 Num Text Decimal Coding Geo Proto Framing ServerState Shard Router Session.
Local Open Scope Z_scope.

#[export] Instance ClockType_eq_dec : EqDecision ClockType.
Proof. solve_decision. Defined.

(** ** Writing JSON: [serde_json::to_vec] and the values it writes *)
Class JsonWrite `{Json} := {
  jnull : Value;
  jarr : list Value -> Value;
  jf64 : f64 -> Value;           (** a float field: null when it is not finite *)
  to_vec : Value -> list Z
}.

Section Values.
Context `{JsonWrite}.
(** The values the programs write: nested twice at most, no key twice in an object. *)
Inductive leaf : Value -> Prop :=
| leaf_null : leaf jnull
| leaf_bool b : leaf (vbool b)
| leaf_str s : leaf (vstr s)
| leaf_num n : leaf (vnum n)
| leaf_float x : leaf (jf64 x).
Inductive flat : Value -> Prop :=
| flat_leaf v : leaf v -> flat v
| flat_arr l : Forall leaf l -> flat (jarr l)
| flat_obj l : NoDup l.*1 -> Forall leaf l.*2 -> flat (vobject l).
Inductive written : Value -> Prop :=
| written_flat v : flat v -> written v
| written_arr l : Forall flat l -> written (jarr l)
| written_obj l : NoDup l.*1 -> Forall flat l.*2 -> written (vobject l).
(** The field of an object. *)
Fixpoint field (l : list (string * Value)) (k : string) : option Value :=
  match l with [] => None | (k', v) :: l => if (k' =? k)%string then Some v else field l k end.
End Values.

(** A line of text that is not empty. *)
Definition text_ok (t : list Z) : Prop := t <> [] /\ 10 ∉ t.
Class JsonWriteLaws `{JsonWrite} := {
  to_vec_text v : text_ok (to_vec v);
  trailing_feed l : from_slice (l ++ [10]) = from_slice l;
  reread : Value -> Value;             (** a value after it was written and read *)
  num_value : Number -> f64;
  float_value : f64 -> f64;            (** the same to its last digits *)
  read_back v : written v -> from_slice (to_vec v) = Some (reread v);
  reread_field l k : NoDup l.*1 -> jget (reread (vobject l)) k = reread <$> field l k;
  reread_keys l : NoDup l.*1 -> exists ks, object_keys (reread (vobject l)) = Some ks /\ ks ≡ₚ l.*1;
  reread_arr l : as_array (reread (jarr l)) = Some (reread <$> l);
  reread_str s : as_str (reread (vstr s)) = Some s;
  reread_bool b : as_bool (reread (vbool b)) = Some b;
  reread_num n : as_f64 (reread (vnum n)) = Some (num_value n);
  reread_float x : is_finite x = true -> as_f64 (reread (jf64 x)) = Some (float_value x);
  reread_null x : is_finite x = false -> as_f64 (reread (jf64 x)) = None
}.

(** ** The lines *)
Section Lines.
Context `{JsonWrite}.

(** [#[serde(rename)]] and [rename_all = "lowercase"]. *)
Definition clock_name (c : ClockType) : string :=
  match c with
  | RadarcapeGps => "radarcape_gps" | BeastClock => "beast" | Radarcape12Mhz => "radarcape_12mhz"
  | SbsClock => "sbs" | Dump1090 => "dump1090" | UnknownClock => "unknown"
  end.
Definition compress_name (c : Compress) : string := match c with CNone => "none" | CZlib => "zlib" | CZlib2 => "zlib2" end.
(** [skip_serializing_if = "Option::is_none"]. *)
Definition opt_field {A} (k : string) (f : A -> Value) (v : option A) : list (string * Value) :=
  match v with Some v => [(k, f v)] | None => [] end.
Definition handshake_fields (h : Handshake) : list (string * Value) :=
  [("version", vnum (num_of_u64 (version h))); ("user", vstr (user h))]%string ++ opt_field "uuid" vstr (uuid h) ++
    [("compress", jarr ((fun c => vstr (compress_name c)) <$> Proto.compress h));
     ("lat", jf64 (hs_lat h)); ("lon", jf64 (hs_lon h)); ("alt", jf64 (hs_alt h)); ("clock_type", vstr (clock_name (clock_type h)))]%string ++
    opt_field "return_results" vbool (return_results h) ++ opt_field "return_result_format" vstr (return_result_format h) ++
    opt_field "client_version" vstr (client_version h) ++ opt_field "selective_traffic" vbool (selective_traffic h) ++
    opt_field "heartbeat" vbool (heartbeat h) ++ opt_field "return_stats" vbool (return_stats h).
Definition handshake_value (h : Handshake) : Value := vobject (handshake_fields h).
(** A map is written in the order of its keys. *)
Definition map_entries (m : gmap string Value) : list (string * Value) :=
  stable_sort (fun a b => String.leb a.1 b.1) (map_to_list m).
Definition msg_value (m : ClientMsg) : Value :=
  match m with
  | Sync et ot em om => vobject [("sync", vobject [("et", vnum et); ("ot", vnum ot); ("em", vstr em); ("om", vstr om)])]
  | Mlat t m => vobject [("mlat", vobject [("t", vnum t); ("m", vstr m)])]
  | Seen l => vobject [("seen", jarr (vstr <$> l))]
  | Lost l => vobject [("lost", jarr (vstr <$> l))]
  | InputConnected s => vobject [("input_connected", vstr s)]
  | InputDisconnected s => vobject [("input_disconnected", vstr s)]
  | Proto.ClockReset s => vobject [("clock_reset", vstr s)]
  | ClockJump s => vobject [("clock_jump", vstr s)]
  | Heartbeat v => vobject [("heartbeat", v)]
  | RateReport rates => vobject [("rate_report", vobject (map_entries rates))]
  end%string.
(** [to_line]. *)
Definition handshake_line (h : Handshake) : list Z := to_vec (handshake_value h) ++ [10].
Definition to_line (m : ClientMsg) : list Z := to_vec (msg_value m) ++ [10].
End Lines.

(** ** What they say *)
Section Said.
Context `{JsonWriteLaws, Hex, Elem f64}.

Lemma leaves (l : list string) : Forall leaf (vstr <$> l).
Proof. apply list.Forall_fmap, list.Forall_true. constructor. Qed.
#[local] Ltac flats := repeat (apply list.Forall_cons_2; [first [apply flat_arr, list.Forall_fmap, list.Forall_true; constructor | by repeat constructor]|]);
  apply list.Forall_nil_2.
Lemma field_app l l' k : field (l ++ l') k = match field l k with Some v => Some v | None => field l' k end.
Proof. induction l as [|[k' v] l IH]; [done|]. cbn [app field]. by destruct (k' =? k)%string. Qed.
Lemma field_opt {A} k (f : A -> Value) v k' : field (opt_field k f v) k' = if (k =? k')%string then f <$> v else None.
Proof. destruct v; cbn; by destruct (k =? k')%string. Qed.
Lemma opt_keys {A} k (f : A -> Value) v : (opt_field k f v).*1 `sublist_of` [k].
Proof. destruct v; cbn; [done|apply sublist_nil_l]. Qed.
Lemma opt_values {A} k (f : A -> Value) v : (forall a, leaf (f a)) -> Forall flat (opt_field k f v).*2.
Proof. intros Hf. destruct v; cbn; repeat constructor. apply Hf. Qed.

Definition handshake_keys : list string :=
  ["version"; "user"; "uuid"; "compress"; "lat"; "lon"; "alt"; "clock_type"; "return_results"; "return_result_format"; "client_version";
   "selective_traffic"; "heartbeat"; "return_stats"]%string.
Lemma handshake_nodup h : NoDup (handshake_fields h).*1.
Proof.
  apply (sublist_NoDup _ handshake_keys); [apply (bool_decide_unpack _); by vm_compute|]. unfold handshake_fields. rewrite !fmap_app.
  change handshake_keys with (["version"; "user"]%string ++ ["uuid"]%string ++ ["compress"; "lat"; "lon"; "alt"; "clock_type"]%string ++
    ["return_results"]%string ++ ["return_result_format"]%string ++ ["client_version"]%string ++ ["selective_traffic"]%string ++
    ["heartbeat"]%string ++ ["return_stats"]%string).
  repeat apply sublist_app; first [apply opt_keys|done].
Qed.
Lemma handshake_written h : written (handshake_value h).
Proof.
  apply written_obj; [apply handshake_nodup|]. unfold handshake_fields.
  rewrite !fmap_app. repeat apply list.Forall_app_2; try (apply opt_values; constructor); flats.
Qed.
(** The handshake the server reads has the client's fields. *)
Lemma handshake_reads h : from_slice (handshake_line h) = Some (reread (handshake_value h)) /\
  forall k, jget (reread (handshake_value h)) k = reread <$> field (handshake_fields h) k.
Proof.
  split; [unfold handshake_line; rewrite trailing_feed; apply read_back, handshake_written|].
  intros k. apply reread_field, handshake_nodup.
Qed.
Lemma reread_strings (l : list string) : omap as_str (reread <$> (vstr <$> l)) = l.
Proof. induction l as [|s l IH]; [done|]. cbn [fmap list_fmap omap list_omap]. by rewrite reread_str, IH. Qed.

(** What the server makes of a handshake: JSON has no infinities and no NaN. *)
Definition handshake_meaning (h : Handshake) : Accepted + Refusal :=
  match negotiate (compress_name <$> Proto.compress h) with
  | None => inr NoCompression
  | Some n =>
      if is_finite (hs_lat h) && is_finite (hs_lon h) && is_finite (hs_alt h) then
        let geo := {| lat_deg := float_value (hs_lat h); lon_deg := float_value (hs_lon h); alt_m := float_value (hs_alt h) |} in
        let gps := bool_decide (clock_type h = RadarcapeGps) in
        inl {| ac_info := {| ri_user := user h; ri_ecef := to_ecef geo; ri_geo := geo; ri_freq_hz := freq_hz (clock_type h);
                             ri_gps := gps; ri_jitter_s := if gps then lit 30 1000000000 else lit 150 1000000000 |};
               ac_negotiated := n; ac_results := default false (return_results h); ac_stats := default false (return_stats h) |}
      else inr NoPosition
  end.
Lemma float_read x : as_f64 (reread (jf64 x)) = if is_finite x then Some (float_value x) else None.
Proof. destruct (is_finite x) eqn:E; [by apply reread_float|by apply reread_null]. Qed.
Lemma handshake_understood h : exists v, from_slice (handshake_line h) = Some v /\ accept_handshake v = handshake_meaning h.
Proof.
  destruct (handshake_reads h) as [Ev Ef]. exists (reread (handshake_value h)). split; [done|].
  unfold accept_handshake, handshake_meaning. rewrite !Ef. unfold handshake_fields. rewrite !field_app, !field_opt. cbn [field String.eqb Ascii.eqb Bool.eqb fmap option_fmap option_map].
  cbn [mbind option_bind default]. rewrite reread_arr. cbn [default]. rewrite !float_read, !reread_str.
  change (Datatypes.id ?l) with l. rewrite <- (reread_strings (compress_name <$> _)). rewrite <- (list_fmap_compose compress_name vstr).
  change (vstr ∘ compress_name) with (fun c => vstr (compress_name c)).
  destruct (negotiate _) as [n|]; [|done]. destruct (is_finite (hs_lat h)), (is_finite (hs_lon h)), (is_finite (hs_alt h)); try done.
  cbn [default andb]. destruct (return_results h), (return_stats h); cbn; rewrite ?reread_bool; by destruct (clock_type h).
Qed.

(** What a message makes the connection request and pass on to the shard. *)
Definition understood (rx : RxRef) (at_scaled : f64) (acc : gset string * list ShardMsg) (m : ClientMsg) : gset string * list ShardMsg :=
  match m with
  | Sync et ot em om => (acc.1, acc.2 ++ [SyncMsg rx (num_value et) (num_value ot) em om at_scaled])
  | Mlat t m => (acc.1, acc.2 ++ [MlatMsg rx (num_value t) m at_scaled])
  | Seen l => (acc.1 ∪ list_to_set (to_lowercase <$> l), acc.2)
  | RateReport rates => (acc.1 ∪ set_map to_lowercase (dom rates), acc.2)
  | Proto.ClockReset _ | ClockJump _ => (acc.1, acc.2 ++ [Shard.ClockReset rx])
  | Lost _ | InputConnected _ | InputDisconnected _ | Heartbeat _ => acc
  end.
(** The messages the programs send: the empty heartbeat, and numbers as rates. *)
Definition msg_ok (m : ClientMsg) : Prop :=
  match m with
  | Heartbeat v => v = vobject []
  | RateReport rates => map_Forall (fun _ v => leaf v) rates
  | _ => True
  end.

Lemma map_entries_ok (m : gmap string Value) : NoDup (map_entries m).*1 /\ list_to_set (map_entries m).*1 = dom m /\
  (map_Forall (fun _ v => leaf v) m -> Forall leaf (map_entries m).*2).
Proof.
  assert (map_entries m ≡ₚ map_to_list m) as Hp by apply stable_sort_perm.
  assert (forall k v, (k, v) ∈ map_entries m <-> m !! k = Some v) as Hin by (intros; by rewrite Hp, elem_of_map_to_list). split_and!.
  - assert ((map_entries m).*1 ≡ₚ (map_to_list m).*1) as -> by by rewrite Hp. apply NoDup_fst_map_to_list.
  - apply set_eq. intros k. rewrite elem_of_list_to_set, list_elem_of_fmap, elem_of_dom. split.
    + intros ([k' v] & -> & Hv%Hin). by exists v.
    + intros [v Hv]. exists (k, v). split; [done|]. by apply Hin.
  - intros Hm. apply list.Forall_fmap, list.Forall_forall. intros [k v] Hv%Hin. by apply (Hm k).
Qed.
Lemma one_written k v : flat v -> written (vobject [(k, v)]).
Proof. intros Hv. apply written_obj; [apply NoDup_singleton|by apply list.Forall_singleton]. Qed.
Lemma msg_written m : msg_ok m -> written (msg_value m).
Proof.
  intros Hm. destruct m; cbn [msg_value]; apply one_written; try (apply flat_arr, leaves); try (repeat constructor; fail).
  1-2: apply flat_obj; [apply (bool_decide_unpack _); by vm_compute|repeat constructor].
  - cbn in Hm. subst v. apply flat_obj; constructor.
  - destruct (map_entries_ok rates) as (Hn & _ & Hl). by apply flat_obj, Hl.
Qed.
Lemma requested_set req keys : (request_new req keys).1 = req ∪ list_to_set (to_lowercase <$> keys).
Proof.
  unfold request_new. induction keys as [|k keys IH] using rev_ind; [cbn; set_solver|].
  rewrite fold_left_snoc, fmap_app, list_to_set_app_L. destruct (fold_left _ keys (req, [])) as [req' fresh]. cbn [fst snd] in *. subst req'.
  case_bool_decide; cbn; set_solver.
Qed.
(** The only field of a message. *)
Lemma only_field k v k' : jget (reread (vobject [(k, v)])) k' = if (k =? k')%string then Some (reread v) else None.
Proof. rewrite reread_field by apply NoDup_singleton. cbn [field]. by destruct (k =? k')%string. Qed.
#[local] Ltac fields := repeat (rewrite reread_field by (apply (bool_decide_unpack _); vm_compute; reflexivity));
  cbn [field String.eqb Ascii.eqb Bool.eqb fmap option_fmap option_map mbind option_bind]; rewrite ?reread_num, ?reread_str;
  cbn [mbind option_bind].
(** The server's connection understands every message. *)
Lemma message_understood rx at_scaled acc m : msg_ok m -> said rx at_scaled acc (to_vec (msg_value m)) = understood rx at_scaled acc m.
Proof.
  intros Hm. unfold said. rewrite (read_back _ (msg_written _ Hm)). rewrite requested_set. unfold offers, shard_msg.
  destruct m; cbn [msg_value]; rewrite !only_field; cbn [String.eqb Ascii.eqb Bool.eqb mbind option_bind default omap list_omap app fmap list_fmap list_to_set understood].
  all: rewrite ?(right_id_L ∅ (∪)), ?app_nil_r; try (by destruct acc); try done.
  - by fields.
  - by fields.
  - rewrite reread_arr. cbn [default]. change (Datatypes.id ?l) with l. by rewrite reread_strings.
  - destruct (map_entries_ok rates) as (Hn & Hd & _). destruct (reread_keys _ Hn) as (ks & -> & Hp). f_equal. f_equal. cbn [default]. change (Datatypes.id ?l) with l.
    apply set_eq. intros k. rewrite elem_of_list_to_set, list_elem_of_fmap, elem_of_map. split; intros (k' & -> & Hk); exists k'; (split; [done|]); revert Hk;
      by rewrite <- Hd, elem_of_list_to_set, Hp.
Qed.
Lemma line_understood rx at_scaled acc m : msg_ok m -> said rx at_scaled acc (to_line m) = understood rx at_scaled acc m.
Proof. intros Hm. rewrite <- message_understood by done. unfold said, to_line. by rewrite trailing_feed. Qed.
End Said.

(** ** A concrete text of trees: the digits of their code in base 4 *)
Section Coded.
Definition Leaf : Type := (unit + bool) + ((Z + f64) + string).
Fixpoint tree_code (t : Tree) : gen_tree Leaf :=
  match t with
  | TNull => GenLeaf (inl (inl ())) | TBool b => GenLeaf (inl (inr b)) | TNum n => GenLeaf (inr (inl n)) | TStr s => GenLeaf (inr (inr s))
  | TArr l => GenNode 0 (tree_code <$> l)
  | TObj l => GenNode 1 ((fun kv => GenNode 2 [GenLeaf (inr (inr kv.1)); tree_code kv.2]) <$> l)
  end.
Fixpoint code_tree (g : gen_tree Leaf) : Tree :=
  match g with
  | GenLeaf (inl (inl _)) => TNull | GenLeaf (inl (inr b)) => TBool b | GenLeaf (inr (inl n)) => TNum n | GenLeaf (inr (inr s)) => TStr s
  | GenNode 0 l => TArr (code_tree <$> l)
  | GenNode _ l => TObj ((fun g => match g with GenNode _ [GenLeaf (inr (inr k)); v] => (k, code_tree v) | _ => (EmptyString, TNull) end) <$> l)
  end.
Lemma code_tree_code t : code_tree (tree_code t) = t.
Proof.
  revert t. fix IH 1. intros [|b|n|s|l|l]; try reflexivity; cbn; f_equal; rewrite <- list_fmap_compose.
  - induction l as [|t l IHl]; [done|]. cbn. by rewrite IH, IHl.
  - induction l as [|[k t] l IHl]; [done|]. cbn. by rewrite IH, IHl.
Qed.

(** Line feeds at the end are ignored. *)
Fixpoint strip_feeds (l : list Z) : list Z := match l with [] => [] | b :: l => if b =? 10 then strip_feeds l else b :: l end.
Definition tree_text (t : Tree) : list Z := text_digits (encode (tree_code t)).
Definition stripped (l : list Z) : list Z := reverse (strip_feeds (reverse l)).
(** Text that starts with a brace is looked up in a table. *)
Definition text_tree (table : list Z -> option Tree) (l : list Z) : option Tree :=
  if bool_decide (head (stripped l) = Some 123) then table (stripped l)
  else p ← undigits (stripped l); code_tree <$> decode p.
Lemma tree_text_ok t : text_ok (tree_text t).
Proof.
  unfold tree_text. destruct (digits_text (encode (tree_code t))) as [Hne Hd]. split; [done|]. intros Hin.
  rewrite list.Forall_forall in Hd. specialize (Hd _ Hin). lia.
Qed.
Lemma text_tree_text table t : text_tree table (tree_text t) = Some t.
Proof.
  unfold text_tree, stripped. destruct (tree_text_ok t) as [_ Hn]. assert (strip_feeds (reverse (tree_text t)) = reverse (tree_text t)) as ->.
  { destruct (reverse (tree_text t)) as [|b l] eqn:E; [done|]. cbn. destruct (Z.eqb_spec b 10) as [->|]; [|done].
    destruct Hn. apply elem_of_reverse. rewrite E. by left. }
  rewrite reverse_involutive. unfold tree_text. rewrite bool_decide_eq_false_2, undigits_text.
  - cbn [mbind option_bind]. rewrite decode_encode. cbn. by rewrite code_tree_code.
  - destruct (digits_text (encode (tree_code t))) as [_ Hd]. destruct Hd as [|d l Hd _]; [done|]. cbn. intros [= ->]. lia.
Qed.
Definition json_coding (table : list Z -> option Tree) : Json := json_with (text_tree table).
Definition write_coding (table : list Z -> option Tree) : @JsonWrite (json_coding table) :=
  @Build_JsonWrite (json_coding table) TNull TArr (fun x => if is_finite x then TNum (inr x) else TNull) tree_text.
Lemma assoc_field table (l : list (string * Tree)) k : assoc k l = @field (json_coding table) l k.
Proof. induction l as [|[k' v] l IH]; [done|]. cbn. by rewrite String.eqb_sym, IH. Qed.
Definition coding_laws table : @JsonWriteLaws (json_coding table) (write_coding table).
Proof.
  refine (@Build_JsonWriteLaws (json_coding table) (write_coding table) _ _ (fun v => v) (fun n => match n with inl z => of_Z z | inr x => x end) (fun x => x)
    _ _ _ _ _ _ _ _ _).
  - exact tree_text_ok.
  - intros l. cbn. unfold text_tree, stripped. by rewrite reverse_snoc.
  - intros v _. apply text_tree_text.
  - intros l k _. cbn. rewrite (assoc_field table). by destruct (field l k).
  - intros l _. by exists l.*1.
  - intros l. cbn. by rewrite list_fmap_id.
  - done.
  - done.
  - by intros [].
  - intros x Hx. cbn. by rewrite Hx.
  - intros x Hx. cbn. by rewrite Hx.
Defined.
Definition json_coded : Json := json_coding (fun _ => None).
#[local] Existing Instance json_coded.
Definition write_coded : JsonWrite := write_coding (fun _ => None).
#[local] Existing Instance write_coded.
Definition write_coded_laws : JsonWriteLaws := coding_laws (fun _ => None).

Example seen_said : let rx := {| rx_idx := 0; rx_gen := 0 |} in
  said rx fzero (∅, []) (to_line (Seen ["3C6444"; "a0"])) = ({["3c6444"; "a0"]}, []) /\
  said rx fzero (∅, []) (to_line (Mlat (inl 5) "8d")) = (∅, [MlatMsg rx (of_Z 5) "8d" fzero]).
Proof. split; vm_compute; reflexivity. Qed.
End Coded.
