(* ===== verification/Output.v ===== *)
(** * The output task and the periodic tasks (crates/mlatd/src/main.rs)

    One task owns the writers: it passes a fix only when its shard owns the solved position,
    and drops the twin of a fix that another shard published in the same tenth of a second.
    The statistics task feeds the router's capacity gate; the export task merges the shards'
    sync.json and writes the partition. *)
From S2P Require Import Prelude F64 Num Text Decimal Geo ServerState Shard Router Calendar Results.
Local Open Scope Z_scope.

(** (icao, 100 ms bucket) *)
Abbreviation OutKey := (Z * Z)%type.
Definition RECENT_MAX : nat := Z.to_nat 4096.
Record Published := { pb_sbs_line : option string; pb_result_line : string }.
(** The writers that are configured, with what was written; the keys remembered; and what
    was sent to the subscribers. *)
Record OutTask := {
  o_csv : option string; o_filtered : option string; o_selftruth : option string;
  o_recent : gset OutKey; o_order : list OutKey; o_published : list OutRow
}.
Definition OutTask_new (csv filtered selftruth : bool) : OutTask :=
  let w (b : bool) := if b then Some EmptyString else None in
  {| o_csv := w csv; o_filtered := w filtered; o_selftruth := w selftruth; o_recent := ∅; o_order := []; o_published := [] |}.
Definition out_key (row : OutRow) : OutKey := (or_icao row, as_i64 (or_stamp row * of_Z 10)%f64).
Definition in_territory (r : Router) (row : OutRow) : bool :=
  match owner_of_point r (lat_deg (or_pos row)) (lon_deg (or_pos row)) with
  | Some owner => (owner =? or_shard row)%nat
  | None => true
  end.
(** Keys are forgotten from the front while there are too many. *)
Fixpoint evict (recent : gset OutKey) (order : list OutKey) : gset OutKey * list OutKey :=
  match order with
  | k :: rest => if (RECENT_MAX <? length order)%nat then evict (recent ∖ {[k]}) rest else (recent, order)
  | [] => (recent, [])
  end.
Definition published_of (row : OutRow) : Published := {| pb_sbs_line := sbs_line row; pb_result_line := result_line row |}.
Definition write_fix (row : OutRow) (o : OutTask) : OutTask :=
  let key := out_key row in
  let '(recent, order) := evict ({[key]} ∪ o_recent o) (o_order o ++ [key]) in
  {| o_csv := (fun w => String.append w (csv_line row)) <$> o_csv o;
     o_filtered := match filtered_line row with
                   | Some l => (fun w => String.append w l) <$> o_filtered o
                   | None => o_filtered o
                   end;
     o_selftruth := o_selftruth o; o_recent := recent; o_order := order; o_published := o_published o ++ [row] |}.
(** One message, with the router as it is when the message is handled. *)
Definition handle_out (o : OutTask) (rm : Router * OutMsg) : OutTask :=
  match rm.2 with
  | SelfTruth stamp icao err err_est n =>
      {| o_csv := o_csv o; o_filtered := o_filtered o;
         o_selftruth := (fun w => String.append w (self_truth_line stamp icao err err_est n)) <$> o_selftruth o;
         o_recent := o_recent o; o_order := o_order o; o_published := o_published o |}
  | Fix row =>
      if negb (in_territory rm.1 row) then o
      else if bool_decide (out_key row ∈ o_recent o) then o
      else write_fix row o
  end.
Definition run_output (o : OutTask) (msgs : list (Router * OutMsg)) : OutTask := fold_left handle_out msgs o.

(** ** Statistics: one round over the shards' answers *)
Record StatsTotals := { st_rx : nat; st_sync : Z; st_solved : Z; st_rejected : Z }.
Definition stats_shard (acc : Router * list Z * StatsTotals) (ia : nat * option (nat * Z * Z * Z)) : Router * list Z * StatsTotals :=
  let '(r, prev, t) := acc in
  match ia.2 with
  | None => acc
  | Some (a, b, c, d) =>
      (store_rate r ia.1 (saturating_sub b (prev !!! ia.1)), <[ia.1 := b]> prev,
       {| st_rx := (st_rx t + a)%nat; st_sync := st_sync t + b; st_solved := st_solved t + c; st_rejected := st_rejected t + d |})
  end.
Definition stats_round (r : Router) (prev : list Z) (answers : list (option (nat * Z * Z * Z))) : Router * list Z * StatsTotals :=
  fold_left stats_shard (zip (seq 0 (length answers)) answers)
    (r, prev, {| st_rx := 0; st_sync := 0; st_solved := 0; st_rejected := 0 |}).

(** ** Exports *)
Definition merge_sync (answers : list (option (gmap string (gmap string (Z * f64))))) : gmap string (gmap string (Z * f64)) :=
  fold_left (fun merged m => default ∅ m ∪ merged) answers ∅.
Record PartitionCell := {
  pc_level : Z; lat0 : f64; lat1 : f64; lon0 : f64; lon1 : f64; pc_shard : nat; pc_rx : Z
}.
Definition partition_cells `{!HashIter CellKey nat} (r : Router) : list PartitionCell :=
  (fun row : CellKey * nat * Z =>
     let '(level, y, x, shard, rx) := row in
     let size := cell_size r level in
     {| pc_level := level; lat0 := (of_Z y * size)%f64; lat1 := ((of_Z y + of_Z 1) * size)%f64;
        lon0 := (of_Z x * size)%f64; lon1 := ((of_Z x + of_Z 1) * size)%f64; pc_shard := shard; pc_rx := rx |})
  <$> partition_dump r.

(** ** The output task *)
Section Task.
Implicit Types o : OutTask.

(** The keys remembered are those of the last fixes published. *)
Definition published_keys o : list OutKey := out_key <$> o_published o.
Definition last_n {A} (n : nat) (l : list A) : list A := drop (length l - n) l.
Record out_ok o : Prop := {
  oo_order : o_order o = last_n RECENT_MAX (published_keys o);
  oo_recent : o_recent o = list_to_set (o_order o);
  oo_nodup : NoDup (o_order o);
  oo_spacing i j k : published_keys o !! i = Some k -> published_keys o !! j = Some k -> (i < j)%nat -> (i + RECENT_MAX < j)%nat
}.
Lemma last_n_length {A} n (l : list A) : length (last_n n l) = Nat.min n (length l).
Proof. unfold last_n. rewrite length_drop. lia. Qed.
Lemma last_n_lookup {A} n (l : list A) i x : l !! i = Some x -> (length l <= i + n)%nat -> x ∈ last_n n l.
Proof.
  intros Hi Hn. apply list_elem_of_lookup. exists (i - (length l - n))%nat. unfold last_n. rewrite lookup_drop.
  rewrite <- Hi. f_equal. lia.
Qed.
Lemma last_n_snoc {A} n (l : list A) x : (0 < n)%nat ->
  last_n n (l ++ [x]) = drop (length l + 1 - n) l ++ [x].
Proof. intros Hn. unfold last_n. rewrite length_app. cbn [length]. by rewrite drop_app_le by lia. Qed.

(** One key more: at most the oldest is forgotten. *)
Lemma evict_spec recent order : (length order <= S RECENT_MAX)%nat -> NoDup order -> recent = list_to_set order ->
  evict recent order = (list_to_set (last_n RECENT_MAX order), last_n RECENT_MAX order).
Proof.
  intros Hl Hnd ->. unfold last_n. destruct order as [|k rest]; [done|]. cbn [evict]. cbn [length] in *.
  apply list.NoDup_cons in Hnd as [Hk _].
  destruct (Nat.ltb_spec RECENT_MAX (S (length rest))).
  - replace (S (length rest) - RECENT_MAX)%nat with 1%nat by lia. cbn [drop]. rewrite drop_0.
    assert ((list_to_set (k :: rest) ∖ {[k]} : gset OutKey) = list_to_set rest) as -> by set_solver.
    destruct rest as [|k' rest]; [done|]. cbn [evict]. by rewrite (proj2 (Nat.ltb_ge _ _)) by (cbn [length] in *; lia).
  - by replace (S (length rest) - RECENT_MAX)%nat with 0%nat by lia.
Qed.
Lemma recent_pos : (0 < RECENT_MAX)%nat.
Proof. unfold RECENT_MAX. lia. Qed.

Lemma write_fix_ok row o : out_ok o -> out_key row ∉ o_recent o -> out_ok (write_fix row o).
Proof.
  intros [Ho Hr Hnd Hsp] Hnew. pose proof recent_pos as Hpos. unfold write_fix.
  assert (length (o_order o) <= RECENT_MAX)%nat as Hlen by (rewrite Ho, last_n_length; lia).
  rewrite Hr in Hnew. rewrite elem_of_list_to_set in Hnew.
  assert (NoDup (o_order o ++ [out_key row])) as Hnd'.
  { apply list.NoDup_app. split_and!; [done| |apply list.NoDup_singleton]. intros k Hk Hk'.
    apply list_elem_of_singleton in Hk' as ->. done. }
  rewrite evict_spec; [|rewrite length_app; cbn [length]; lia|done|rewrite Hr, list_to_set_app_L; set_solver].
  assert (published_keys {| o_csv := None; o_filtered := None; o_selftruth := None; o_recent := ∅; o_order := [];
    o_published := o_published o ++ [row] |} = published_keys o ++ [out_key row]) as Hk by (unfold published_keys; cbn; by rewrite fmap_app).
  split; cbn [o_order o_recent]; unfold published_keys in *; cbn [o_published] in *.
  - rewrite Hk, Ho. rewrite !last_n_snoc by done. unfold last_n. rewrite length_drop, drop_drop. f_equal. f_equal. lia.
  - done.
  - unfold last_n. rewrite <- (take_drop (length (o_order o ++ [out_key row]) - RECENT_MAX) (o_order o ++ [out_key row])) in Hnd'.
    by apply list.NoDup_app in Hnd' as (_ & _ & ?).
  - rewrite Hk. intros i j k Hi Hj Hij. apply lookup_app_Some in Hj as [Hj|[Hj Hx]].
    + apply lookup_app_Some in Hi as [Hi|[Hi _]]; [by eapply Hsp|]. apply lookup_lt_Some in Hj. lia.
    + assert (j = length (out_key <$> o_published o) /\ k = out_key row) as [-> ->].
      { apply list_lookup_singleton_Some in Hx as [? <-]. split; [lia|done]. }
      rewrite lookup_app_l in Hi by done. destruct (decide (i + RECENT_MAX < length (out_key <$> o_published o))%nat) as [|Hn]; [done|].
      destruct Hnew. rewrite Ho. eapply last_n_lookup; [exact Hi|lia].
Qed.
Lemma handle_out_ok o rm : out_ok o -> out_ok (handle_out o rm).
Proof.
  intros Hok. unfold handle_out. destruct rm.2 as [row|]; [|by destruct Hok].
  destruct (in_territory rm.1 row); [|done]. cbn [negb]. case_bool_decide; [done|by apply write_fix_ok].
Qed.
Lemma run_output_ok msgs csv filtered selftruth : out_ok (run_output (OutTask_new csv filtered selftruth) msgs).
Proof.
  unfold run_output. apply fold_left_invariant; [|intros; by apply handle_out_ok].
  split; [done|done|constructor|]. intros i j k Hi. done.
Qed.

(** The fixes a run publishes, with the router each met. *)
Definition passes (o : OutTask) (rm : Router * OutMsg) : option OutRow :=
  match rm.2 with
  | Fix row => if in_territory rm.1 row && negb (bool_decide (out_key row ∈ o_recent o)) then Some row else None
  | SelfTruth _ _ _ _ _ => None
  end.
Lemma handle_out_published o rm : o_published (handle_out o rm) = o_published o ++ option_list (passes o rm) /\
  o_csv (handle_out o rm) = (fun w => String.append w (sconcat (csv_line <$> option_list (passes o rm)))) <$> o_csv o.
Proof.
  unfold handle_out, passes. destruct rm.2 as [row|]; cbn [option_list].
  - destruct (in_territory rm.1 row); cbn [negb andb].
    + case_bool_decide; cbn [negb option_list fmap list_fmap sconcat].
      * rewrite app_nil_r. split; [done|]. destruct (o_csv o); cbn; by rewrite ?sapp_nil_r.
      * unfold write_fix. destruct (evict _ _). cbn. split; [done|]. destruct (o_csv o); cbn; by rewrite ?sapp_nil_r.
    + cbn. rewrite app_nil_r. split; [done|]. destruct (o_csv o); cbn; by rewrite ?sapp_nil_r.
  - cbn. rewrite app_nil_r. split; [done|]. destruct (o_csv o); cbn; by rewrite ?sapp_nil_r.
Qed.

(** C15: after any messages, whatever the partition does meanwhile: between two published
    fixes of one aircraft in one tenth of a second there are more than 4095 others; every
    published fix lay in its shard's territory, or in none, when it was handled; a fix that
    does and whose key is not among the last 4096 published is published; and results.csv
    is exactly the rows of the published fixes, in order. *)
Theorem output_gate csv filtered selftruth msgs r m :
  let o := run_output (OutTask_new csv filtered selftruth) msgs in
  (forall i j k, published_keys o !! i = Some k -> published_keys o !! j = Some k -> (i < j)%nat -> (i + 4096 < j)%nat) /\
  (forall row, row ∈ o_published o -> exists r, (r, Fix row) ∈ msgs /\ in_territory r row = true) /\
  o_published (handle_out o (r, m)) = o_published o ++
    match m with
    | Fix row => if in_territory r row && negb (bool_decide (out_key row ∈ last_n 4096 (published_keys o))) then [row] else []
    | SelfTruth _ _ _ _ _ => []
    end /\
  o_csv o = (if csv then Some (sconcat (csv_line <$> o_published o)) else None).
Proof.
  cbv zeta. pose proof (run_output_ok msgs csv filtered selftruth) as Hok. change 4096%nat with RECENT_MAX. split_and!.
  - apply Hok.
  - clear Hok. unfold run_output. induction msgs as [|rm msgs IH] using rev_ind; [intros row Hr; by apply elem_of_nil in Hr|].
    intros row. rewrite fold_left_snoc, (proj1 (handle_out_published _ _)), elem_of_app.
    intros [(r' & Hin & Ht)%IH|Hr]; [exists r'; split; [apply elem_of_app; by left|done]|].
    destruct rm as [r' [row'|]]; unfold passes in Hr; cbn [fst snd] in Hr; [|by apply elem_of_nil in Hr].
    destruct (in_territory r' row') eqn:Et; cbn [andb] in Hr; [|by apply elem_of_nil in Hr].
    destruct (negb _); [|by apply elem_of_nil in Hr]. apply list_elem_of_singleton in Hr as ->. exists r'.
    split; [apply elem_of_app; right; by left|done].
  - rewrite (proj1 (handle_out_published _ _)). unfold passes. cbn [fst snd]. destruct m as [row|]; [|done]. f_equal.
    rewrite (oo_recent _ Hok), (oo_order _ Hok). set (b1 := bool_decide _). set (b2 := bool_decide _).
    assert (b1 = b2) as -> by (apply bool_decide_ext; apply elem_of_list_to_set). by destruct (_ && _).
  - clear Hok. unfold run_output. induction msgs as [|rm msgs IH] using rev_ind; [by destruct csv|].
    rewrite fold_left_snoc. destruct (handle_out_published (fold_left handle_out msgs (OutTask_new csv filtered selftruth)) rm) as [-> ->].
    rewrite IH. destruct csv; [|done]. cbn [fmap option_fmap option_map]. f_equal.
    rewrite fmap_app. generalize (csv_line <$> o_published (fold_left handle_out msgs (OutTask_new true filtered selftruth))).
    generalize (csv_line <$> option_list (passes (fold_left handle_out msgs (OutTask_new true filtered selftruth)) rm)).
    intros l k. by rewrite sconcat_app.
Qed.
End Task.
