(* ===== verification/Client.v ===== *)
(** * The client around the engine (crates/mlatc/src/main.rs)

    Parsing of the command line's values; the engine task with the per-server queues; a server
    session as a state machine over what its [select] waits for, with the reads it interrupts;
    the reconnect backoff; the stats file; and the positions returned to other programs.
    Serialisation of messages and parsing of JSON are interfaces. *)
From Stdlib Require Import Ascii.
From S2P Require Import Prelude F64 Num Text Decimal Crc Alt Cpr Frames Beast Proto Framing Engine Results.
Local Open Scope Z_scope.

(** ** Arguments *)
Definition input_clock (s : string) : option ClockType :=
  if (s =? "auto")%string || (s =? "dump1090")%string then Some Dump1090
  else if (s =? "beast")%string then Some BeastClock
  else if (s =? "radarcape_12mhz")%string then Some Radarcape12Mhz
  else None.
(** [strip_suffix]. *)
Definition strip_suffix (suf s : string) : option string :=
  let n := (String.length s - String.length suf)%nat in
  if (String.length suf <=? String.length s)%nat && (String.substring n (String.length suf) s =? suf)%string
  then Some (String.substring 0 n s) else None.
Definition parse_alt (s : string) : option f64 :=
  let t := trim s in
  let '(num, scale) := match strip_suffix "ft" t with
                       | Some n => (n, lit 3048 10000)
                       | None => match strip_suffix "m" t with Some n => (n, of_Z 1) | None => (t, of_Z 1) end
                       end in
  v ← parse_f64 (trim num); Some (v * scale)%f64.
Inductive ResultSink := SinkNone | SinkSbsListen (port : string) | SinkBeastListen (port : string) | SinkBeastConnect (addr : string).
Definition parse_results (spec : string) : option ResultSink :=
  match split_on COMMA spec with
  | [a] => if (a =? "none")%string then Some SinkNone else None
  | [a; b; c] =>
      if (a =? "basestation")%string && (b =? "listen")%string then Some (SinkSbsListen c)
      else if (a =? "beast")%string && (b =? "listen")%string then Some (SinkBeastListen c)
      else if (a =? "beast")%string && (b =? "connect")%string then Some (SinkBeastConnect c)
      else None
  | _ => None
  end.
(** One uuid for all servers, or one for each. *)
Definition uuids_fit (uuids : list string) (n_servers : nat) : bool := negb ((1 <? length uuids)%nat && negb (length uuids =? n_servers)%nat).
Definition uuid_of (uuids : list string) (idx : nat) : option string := match uuids with [] => None | [u] => Some u | _ => uuids !! idx end.

(** ** Returned positions *)
Record ResultPos := { rp_addr : Z; rp_lat : f64; rp_lon : f64; rp_alt_ft : Z }.
Section Positions.
Context `{Json}.
Definition rp_from_json (r : Value) : option ResultPos :=
  a ← jget r "addr"; s ← as_str a; addr ← from_str_radix16 s;
  la ← jget r "lat"; lat ← as_f64 la;
  lo ← jget r "lon"; lon ← as_f64 lo;
  Some {| rp_addr := addr; rp_lat := lat; rp_lon := lon;
          rp_alt_ft := as_i32 (default fzero (jget r "alt" ≫= as_f64)) |}.
End Positions.
Definition rp_sbs_line (p : ResultPos) : string :=
  sconcat ["MSG,3,1,1,"; to_uppercase (fmt_06x (rp_addr p)); ",1,,,,,,"; fmt_int (rp_alt_ft p); ",,,";
    fmt_fixed 5 (rp_lat p); ","; fmt_fixed 5 (rp_lon p); ",,,,,,0"; char_text CR; char_text NEWLINE]%string.
(** The Beast header of a returned position: the magic MLAT timestamp and no signal level. *)
Definition MLAT_HEAD : list Z := 0x1a :: bytes_of "3" ++ [0xff; 0] ++ bytes_of "MLAT" ++ [0].
Definition rp_beast_bytes `{Elem f64} (p : ResultPos) : option (list Z) :=
  frames ← df18_position_pair (rp_addr p) (rp_alt_ft p) (rp_lat p) (rp_lon p);
  Some (frames ≫= (fun f => MLAT_HEAD ++ (f ≫= (fun b => if b =? 0x1a then [b; 0x1a] else [b])))).
Definition BEAST_KEEPALIVE : list Z := 0x1a :: bytes_of "1" ++ repeat 0 9.

(** [beast_pump]: what the socket is sent until the channel fails; a lagging receiver's
    channel fails once. *)
Inductive PumpEvent := PumpPos (p : ResultPos) | PumpLagged | PumpClosed | PumpKeepalive.
Fixpoint beast_pump `{Elem f64} (evs : list PumpEvent) : list (list Z) :=
  match evs with
  | [] => []
  | PumpPos p :: evs => match rp_beast_bytes p with Some b => b :: beast_pump evs | None => beast_pump evs end
  | PumpKeepalive :: evs => BEAST_KEEPALIVE :: beast_pump evs
  | (PumpLagged | PumpClosed) :: _ => []
  end.

Section Code.
Context `{Json, Hex, !HashIter Z Aircraft}.

(** ** The engine task *)
Definition UP_CAPACITY : nat := Z.to_nat 4096.
Inductive Ev :=
| Receptions (rs : list Reception)
| InputUp | InputDown
| EvStart (server : nat) (hexes : list string)
| EvStop (server : nat) (hexes : list string)
| EvServerReset (server : nat).
Definition on_receptions (eng : Engine) (rs : list Reception) (now : Z) : Engine * list Outbound :=
  fold_left (fun acc r => let '(e, out) := on_reception acc.1 r now in (e, acc.2 ++ out)) rs (eng, []).
Definition engine_event (n_srv : nat) (eng : Engine) (ev : option Ev) (now : Z) : Engine * list Outbound :=
  match ev with
  | None => tick eng now
  | Some (Receptions rs) => on_receptions eng rs now
  | Some InputUp => (input_reset eng, (fun s => (s, InputConnected "input connected")) <$> seq 0 n_srv)
  | Some InputDown => (input_reset eng, (fun s => (s, InputDisconnected "input disconnected")) <$> seq 0 n_srv)
  | Some (EvStart s v) => (start_sending eng s v, [])
  | Some (EvStop s v) => (stop_sending eng s v, [])
  | Some (EvServerReset s) => (server_reset eng s, [])
  end.
(** The queue of a server; [None]: its session's task is gone, and the receiver with it. *)
Abbreviation Queue := (option (list ClientMsg)).
(** [try_send] on the queue of a message's server: a full queue loses the message. *)
Definition try_send (m : ClientMsg) (q : list ClientMsg) : list ClientMsg := if (length q <? UP_CAPACITY)%nat then q ++ [m] else q.
(** The messages in order, until one is for a queue that is closed: [false], the task returns. *)
Fixpoint offer (queues : list Queue) (msgs : list Outbound) : list Queue * bool :=
  match msgs with
  | [] => (queues, true)
  | (srv, m) :: msgs =>
      match queues !! srv with
      | Some None => (queues, false)
      | _ => offer (alter (fmap (try_send m)) srv queues) msgs
      end
  end.
Record EngineTask := { et_engine : Engine; et_queues : list Queue; et_live : bool }.
Definition EngineTask_new (user : string) (now : Z) (n_srv : nat) : EngineTask :=
  {| et_engine := Engine_new user now n_srv; et_queues := replicate n_srv (Some []); et_live := true |}.
(** An event of the task ([None]: the tick) or the end of its channel; and what the sessions do
    with their queues: take a message, drain it, or be gone. *)
Inductive TaskStep :=
| TaskEvent (ev : option Ev) (now : Z) | TaskEventsEnd
| TaskTake (server : nat) | TaskDrain (server : nat) | TaskGone (server : nat).
Definition with_queues (f : list Queue -> list Queue) (t : EngineTask) : EngineTask :=
  {| et_engine := et_engine t; et_queues := f (et_queues t); et_live := et_live t |}.
Definition engine_task (n_srv : nat) (t : EngineTask) (st : TaskStep) : EngineTask :=
  match st with
  | TaskEvent ev now =>
      if et_live t then
        let '(e, msgs) := engine_event n_srv (et_engine t) ev now in
        let '(qs, live) := offer (et_queues t) msgs in
        {| et_engine := e; et_queues := qs; et_live := live |}
      else t
  | TaskEventsEnd => {| et_engine := et_engine t; et_queues := et_queues t; et_live := false |}
  | TaskTake s => with_queues (alter (fmap (drop 1)) s) t
  | TaskDrain s => with_queues (alter (fmap (fun _ => [])) s) t
  | TaskGone s => with_queues (alter (fun _ => None) s) t
  end.

(** ** The stats file *)
Record StatsFile := {
  server_stats : bool; latest : option Value; history : list (Z * Z); last_bad_sync : Z; clock_resets : Z
}.
Definition StatsFile_default : StatsFile :=
  {| server_stats := false; latest := None; history := []; last_bad_sync := 0; clock_resets := 0 |}.
(** Entries older than an hour leave from the front. *)
Fixpoint forget_old (now : Z) (h : list (Z * Z)) : list (Z * Z) :=
  match h with
  | (t, st) :: h' => if 3600 <? saturating_sub now t then forget_old now h' else h
  | [] => []
  end.
Definition stats_push (v : Value) (now : Z) (s : StatsFile) : StatsFile :=
  let get k := default fzero (jget v k ≫= as_f64) in
  let bad := (get "bad_sync_timeout"%string >? of_Z 0)%f64 in
  let state := if bad then -1 else if (get "peer_count"%string >? of_Z 0)%f64 then 1 else 0 in
  {| server_stats := server_stats s; latest := if is_object v then Some v else None;
     history := forget_old now (history s ++ [(now, state)]);
     last_bad_sync := if bad then now else last_bad_sync s; clock_resets := clock_resets s |}.
(** What [write] adds to the latest push; the percentages are [None] (written -1) without a history. *)
Record StatsOut := {
  so_latest : option Value; so_now : Z; so_good : option f64; so_bad : option f64; so_last_bad_sync : Z;
  so_clock_resets : Z; so_server_stats : bool
}.
Definition history_count (st : Z) (h : list (Z * Z)) : nat := length (filter (fun e => e.2 = st) h).
Definition stats_write (now : Z) (s : StatsFile) : StatsOut :=
  let n := length (history s) in
  let pct k := if (0 <? n)%nat then Some (fround (of_Z (Z.of_nat k) / of_Z (Z.of_nat n) * of_Z 100)%f64) else None in
  {| so_latest := latest s; so_now := now; so_good := pct (history_count 1 (history s));
     so_bad := pct (history_count (-1) (history s)); so_last_bad_sync := last_bad_sync s;
     so_clock_resets := clock_resets s; so_server_stats := server_stats s |}.

(** ** A server session *)
Context `{Flate}.
(** [ClientMsg::to_line]: derived serialisation and a line feed. *)
Context (to_line : ClientMsg -> list Z).
Definition UP_BATCH : Z := 32 * 1024.

(** The downlink between two polls: the read in progress, the decoded lines not yet
    returned, and the bytes received but not read. *)
Inductive DownRead :=
| DownLine (line : list Z)
| DownHead (head : list Z) (dec : Decomp)
| DownBody (want : nat) (got : list Z) (dec : Decomp).
Record Downlink := { d_read : DownRead; d_queue : list (list Z); d_unread : list Z }.
Definition Downlink_new (framed : bool) : Downlink :=
  {| d_read := if framed then DownHead [] decomp_new else DownLine []; d_queue := []; d_unread := [] |}.
Inductive NextLine := GotLine (l : list Z) | NoLine | LineError | PendingLine.
Definition is_ascii_whitespace (b : Z) : bool := (b =? 32) || (b =? 9) || (b =? 10) || (b =? 12) || (b =? 13).
(** [bytes.split(newline)] without empty pieces. *)
Fixpoint split_nl (l : list Z) : list (list Z) :=
  match l with
  | [] => [[]]
  | b :: l => if b =? 10 then [] :: split_nl l else match split_nl l with [] => [[b]] | p :: ps => (b :: p) :: ps end
  end.
Definition nonempty_lines (l : list Z) : list (list Z) := filter (fun p => p <> []) (split_nl l).
(** A complete frame; [None]: the inflate loop did not end within its fuel. *)
Definition down_frame (fuel : nat) (dec : Decomp) (frame rest : list Z) : option (Downlink * NextLine) :=
  '(dec, r) ← decode_frame fuel dec frame;
  Some match r with
       | inr _ => ({| d_read := DownHead [] dec; d_queue := []; d_unread := rest |}, LineError)
       | inl bytes =>
           match nonempty_lines bytes with
           | [] => ({| d_read := DownHead [] dec; d_queue := []; d_unread := rest |}, NoLine)
           | l :: q => ({| d_read := DownHead [] dec; d_queue := q; d_unread := rest |}, GotLine l)
           end
       end.
(** One poll: bytes are read until a line or a frame is complete. *)
Fixpoint poll_bytes (fuel : nat) (rd : DownRead) (bs : list Z) : option (Downlink * NextLine) :=
  match bs with
  | [] => Some ({| d_read := rd; d_queue := []; d_unread := [] |}, PendingLine)
  | b :: bs =>
      match rd with
      | DownLine line =>
          let line := line ++ [b] in
          if b =? 10 then
            if forallb is_ascii_whitespace line then poll_bytes fuel (DownLine []) bs
            else Some ({| d_read := DownLine []; d_queue := []; d_unread := bs |}, GotLine line)
          else poll_bytes fuel (DownLine line) bs
      | DownHead [] dec => poll_bytes fuel (DownHead [b] dec) bs
      | DownHead (hi :: _) dec =>
          let want := Z.to_nat (256 * hi + b) in
          if (want =? 0)%nat then down_frame fuel dec [hi; b] bs else poll_bytes fuel (DownBody want [hi; b] dec) bs
      | DownBody want got dec =>
          let got := got ++ [b] in
          if (length got =? 2 + want)%nat then down_frame fuel dec got bs else poll_bytes fuel (DownBody want got dec) bs
      end
  end.
Definition next_line (fuel : nat) (d : Downlink) (arrived : list Z) : option (Downlink * NextLine) :=
  match d_queue d with
  | l :: q => Some ({| d_read := d_read d; d_queue := q; d_unread := d_unread d ++ arrived |}, GotLine l)
  | [] => poll_bytes fuel (d_read d) (d_unread d ++ arrived)
  end.
(** The end of the stream: clean except inside a frame's body. *)
Definition down_eof (d : Downlink) : NextLine := match d_read d with DownBody _ _ _ => LineError | _ => NoLine end.
(** Another branch of the [select] was taken: the read in progress is dropped. *)
Definition cancel_read (d : Downlink) : Downlink :=
  {| d_read := match d_read d with DownLine _ => DownLine [] | DownHead _ dec | DownBody _ _ dec => DownHead [] dec end;
     d_queue := d_queue d; d_unread := d_unread d |}.

Inductive Exit := ExConnect | ExReply | ExEngineGone | ExServerClosed | ExProto | ExFrame | ExWrite.
Record CSess := {
  c_enc : option Comp; c_batch : list Z; c_wire : list (list Z); c_down : Downlink; c_stats : StatsFile;
  c_events : list Ev; c_results : list ResultPos; c_files : list StatsOut
}.
Definition CSess_new (c : Compress) : CSess :=
  {| c_enc := match c with CNone => None | _ => Some comp_new end; c_batch := []; c_wire := [];
     c_down := Downlink_new (bool_decide (c = CZlib2)); c_stats := StatsFile_default; c_events := []; c_results := []; c_files := [] |}.
Definition set_up (enc : option Comp) (batch : list Z) (w : list (list Z)) (s : CSess) : CSess :=
  {| c_enc := enc; c_batch := batch; c_wire := w; c_down := c_down s; c_stats := c_stats s; c_events := c_events s;
     c_results := c_results s; c_files := c_files s |}.
Definition set_down (d : Downlink) (s : CSess) : CSess :=
  {| c_enc := c_enc s; c_batch := c_batch s; c_wire := c_wire s; c_down := d; c_stats := c_stats s; c_events := c_events s;
     c_results := c_results s; c_files := c_files s |}.
Definition set_rest (st : StatsFile) (evs : list Ev) (rs : list ResultPos) (files : list StatsOut) (s : CSess) : CSess :=
  {| c_enc := c_enc s; c_batch := c_batch s; c_wire := c_wire s; c_down := c_down s; c_stats := st; c_events := evs;
     c_results := rs; c_files := files |}.

(** The handshake a session sends; the version of the program is the build's. *)
Definition client_handshake (user_name : string) (uid : option string) (lat lon alt_m : f64) (clk : ClockType)
    (want_results stats_path : bool) (program : string) : Handshake :=
  {| version := 3; user := user_name; uuid := uid; compress := [CZlib2; CNone];
     hs_lat := lat; hs_lon := lon; hs_alt := alt_m; clock_type := clk;
     return_results := Some want_results; return_result_format := None; client_version := Some program;
     selective_traffic := Some true; heartbeat := Some true; return_stats := if stats_path then Some true else None |}.
(** The reply line, empty when the server closed, starts the session or ends it. *)
Definition session_open (first : list Z) : CSess + Exit :=
  match first with
  | [] => inr ExReply
  | _ => match parse_handshake_reply first with
         | inl (HandshakeAccept c _ _ _ _) => inl (CSess_new c)
         | inl _ => inr ExReply
         | inr _ => inr ExProto
         end
  end.

(** [send_batch]. *)
Definition send_batch (fuel : nat) (s : CSess) : option (CSess + Exit) :=
  match c_batch s, c_enc s with
  | [], _ | _, None => Some (inl s)
  | batch, Some enc =>
      '(enc, r) ← encode_frame fuel enc batch;
      Some match r with inl f => inl (set_up (Some enc) [] (c_wire s ++ [f]) s) | inr _ => inr ExFrame end
  end.
(** A line goes to the socket, or to the batch, which is sent first when it would grow too large. *)
Definition send_line (fuel : nat) (room : bool) (line : list Z) (s : CSess) : option (CSess + Exit) :=
  match c_enc s with
  | None => Some (inl (set_up None (c_batch s) (c_wire s ++ [line]) s))
  | Some _ =>
      r ← if room && (UP_BATCH <? Z.of_nat (length (c_batch s) + length line)) then send_batch fuel s else Some (inl s);
      Some match r with
           | inl s => inl (set_up (c_enc s) (c_batch s ++ line) (c_wire s) s)
           | inr e => inr e
           end
  end.
Definition save_stats (stats_path : bool) (now : Z) (s : CSess) : CSess :=
  if stats_path then set_rest (c_stats s) (c_events s) (c_results s) (c_files s ++ [stats_write now (c_stats s)]) s else s.
Definition count_reset (st : StatsFile) : StatsFile :=
  {| server_stats := server_stats st; latest := latest st; history := history st; last_bad_sync := last_bad_sync st;
     clock_resets := u64 (clock_resets st + 1) |}.
Definition pushes_stats (st : StatsFile) : StatsFile :=
  {| server_stats := true; latest := latest st; history := history st; last_bad_sync := last_bad_sync st;
     clock_resets := clock_resets st |}.
(** One line of the server. *)
Definition server_line (idx : nat) (stats_path : bool) (now : Z) (line : list Z) (s : CSess) : CSess + Exit :=
  match Proto.parse_line line with
  | inr _ => inr ExProto
  | inl (StartSending v) => inl (set_rest (c_stats s) (c_events s ++ [EvStart idx v]) (c_results s) (c_files s) s)
  | inl (StopSending v) => inl (set_rest (c_stats s) (c_events s ++ [EvStop idx v]) (c_results s) (c_files s) s)
  | inl (Result r) =>
      match rp_from_json r with
      | Some p => inl (set_rest (c_stats s) (c_events s) (c_results s ++ [p]) (c_files s) s)
      | None => inl s
      end
  | inl (Proto.Stats v) =>
      let st := pushes_stats (c_stats s) in
      let st := if stats_path then stats_push v now st else st in
      inl (save_stats stats_path now (set_rest st (c_events s) (c_results s) (c_files s) s))
  | inl _ => inl s
  end.

Inductive CEvent :=
| CStatsTick | CUp (m : ClientMsg) | CEngineGone | CFlush | CHeartbeat
| CDown (arrived : list Z) | CDownEof | CDownError | CWriteError.
(** One event of the session at time [now]; [None]: a codec loop did not end within its fuel. *)
Definition c_step (fuel : nat) (idx : nat) (stats_path : bool) (now : Z) (s : CSess) (ev : CEvent) : option (CSess + Exit) :=
  let s' := set_down (cancel_read (c_down s)) s in
  match ev with
  | CStatsTick => Some (inl (save_stats stats_path now s'))
  | CUp m =>
      let s1 := match m with
                | ClockReset _ => save_stats stats_path now (set_rest (count_reset (c_stats s')) (c_events s') (c_results s') (c_files s') s')
                | _ => s'
                end in
      send_line fuel true (to_line m) s1
  | CEngineGone => Some (inr ExEngineGone)
  | CFlush => send_batch fuel s'
  | CHeartbeat => send_line fuel false (to_line heartbeat_now) s'
  | CDown arrived =>
      '(d, r) ← next_line fuel (c_down s) arrived;
      let s := set_down d s in
      Some match r with
           | PendingLine => inl s
           | NoLine => inr ExServerClosed
           | LineError => inr ExFrame
           | GotLine l => server_line idx stats_path now l s
           end
  | CDownEof => Some (inr match down_eof (c_down s) with LineError => ExFrame | _ => ExServerClosed end)
  | CDownError => Some (inr ExFrame)
  | CWriteError => Some (inr ExWrite)
  end.
Fixpoint c_run (fuel : nat) (idx : nat) (stats_path : bool) (s : CSess) (evs : list (Z * CEvent)) : option (CSess + Exit) :=
  match evs with
  | [] => Some (inl s)
  | (now, ev) :: evs =>
      r ← c_step fuel idx stats_path now s ev;
      match r with inl s => c_run fuel idx stats_path s evs | inr e => Some (inr e) end
  end.

(** A session: what [server_session] returns, with the events it sent the engine. *)
Definition server_session (fuel : nat) (idx : nat) (stats_path : bool) (first : list Z) (evs : list (Z * CEvent)) : option (CSess + Exit) :=
  match session_open first with
  | inl s => c_run fuel idx stats_path s evs
  | inr e => Some (inr e)
  end.

(** The loop around the sessions: the pause after each, and the event that precedes it. *)
Fixpoint session_loop (idx : nat) (backoff_s : f64) (ends : list (unit + Exit)) : list (Ev * f64) :=
  match ends with
  | [] => []
  | r :: ends =>
      let backoff_s := match r with inl _ => of_Z 5 | inr _ => backoff_s end in
      (EvServerReset idx, backoff_s) :: session_loop idx (fmin (backoff_s * of_Z 2)%f64 (of_Z 60)) ends
  end.
End Code.

(** ** Returned positions over Beast *)
Section BeastResults.
Context `{Elem f64}.

Definition MLAT_TIMESTAMP : Z := 0xFF004D4C4154.
Lemma df18_frame_ok icao alt12 (lat lon : f64) odd :
  bytes_ok (df18_frame icao alt12 lat lon odd) /\ length (df18_frame icao alt12 lat lon odd) = 14%nat.
Proof.
  unfold df18_frame. destruct (encode_airborne lat lon odd) as [yz xz]. cbv zeta. split; [|done].
  apply seal_ok, bytes_ok_cons. split; [vm_compute; split; congruence|].
  apply bytes_ok_app. split; [apply be24_bytes_ok|apply me_bytes_ok].
Qed.
Lemma beast_head_encode f : length f = 14%nat ->
  MLAT_HEAD ++ (f ≫= (fun b => if b =? 0x1a then [b; 0x1a] else [b])) = encode MLAT_TIMESTAMP 0 f.
Proof.
  intros Hf. unfold encode, escape. rewrite Hf. cbn [Nat.eqb]. rewrite app_assoc, bind_app. reflexivity.
Qed.

(** The receptions of a position: its even and its odd frame, stamped as multilaterated; none
    when its altitude has no code. *)
Definition rp_receptions (p : ResultPos) : list Reception :=
  match ac12 (rp_alt_ft p) with
  | Some alt12 =>
      (fun odd => {| counts_12mhz := MLAT_TIMESTAMP; frame := df18_frame (rp_addr p) alt12 (rp_lat p) (rp_lon p) odd |}) <$> [false; true]
  | None => []
  end.
(** The positions that reach the pump before its channel fails. *)
Fixpoint passed (evs : list PumpEvent) : list ResultPos :=
  match evs with
  | PumpPos p :: evs => p :: passed evs
  | PumpKeepalive :: evs => passed evs
  | _ => []
  end.
Lemma keepalive_silent y : scan_all (BEAST_KEEPALIVE ++ y) = scan_all y.
Proof.
  change (BEAST_KEEPALIVE ++ y) with (0x1a :: 49 :: 0 :: 0 :: 0 :: 0 :: 0 :: 0 :: 0 :: 0 :: 0 :: y). rewrite scan_all_cons.
  replace (parse_at _) with (Consumed 11 None) by (by destruct y). cbn -[scan_all]. rewrite drop_0. by destruct (scan_all y).
Qed.
Lemma position_scanned p y bytes : rp_beast_bytes p = Some bytes ->
  scan_all (bytes ++ y) = ((scan_all y).1, rp_receptions p ++ (scan_all y).2).
Proof.
  unfold rp_beast_bytes, rp_receptions, df18_position_pair. destruct (ac12 (rp_alt_ft p)) as [alt12|]; [|done]. cbn [mbind option_bind fmap list_fmap].
  pose proof (fun odd => df18_frame_ok (rp_addr p) alt12 (rp_lat p) (rp_lon p) odd) as Hf.
  generalize (df18_frame (rp_addr p) alt12 (rp_lat p) (rp_lon p)), Hf. clear Hf. intros f Hf E. apply (inj Some) in E as <-.
  assert (forall (g : list Z -> list Z) a b, [a; b] ≫= g = g a ++ g b) as -> by (intros; cbn; by rewrite app_nil_r).
  destruct (Hf false) as [B1 L1], (Hf true) as [B2 L2]. rewrite (beast_head_encode _ L1), (beast_head_encode _ L2), <- app_assoc.
  assert (forall odd z, scan_all (encode MLAT_TIMESTAMP 0 (f odd) ++ z) = ((scan_all z).1, {| counts_12mhz := MLAT_TIMESTAMP; frame := f odd |} :: (scan_all z).2)) as Hone.
  { intros odd z. destruct (Hf odd) as [Hb Hl]. apply (scan_all_message [] MLAT_TIMESTAMP 0 _ z); [constructor|done|done|done|by right]. }
  by rewrite !Hone.
Qed.

(** C25: a program that decodes the Beast results, whatever reads its stream arrives in and
    whatever keepalives come in between, gets for every position up to a failure of the
    channel, if its altitude can be encoded, exactly its even and odd DF18 frames, in order,
    with the timestamp that marks them as multilaterated; and nothing else. *)
Theorem results_beast_roundtrip evs chunks : concat chunks = concat (beast_pump evs) ->
  feed_all {| buf := [] |} chunks = ({| buf := [] |}, passed evs ≫= rp_receptions).
Proof.
  intros Hc. rewrite feed_all_scan, feed_scan, Hc by done. cbn [buf app]. clear Hc.
  assert (scan_all (concat (beast_pump evs)) = ([], passed evs ≫= rp_receptions)) as ->; [|done].
  induction evs as [|[p| | |] evs IH]; try done; cbn [beast_pump passed mbind list_bind].
  - destruct (rp_beast_bytes p) as [bytes|] eqn:E; cbn [concat].
    + by rewrite (position_scanned p _ bytes E), IH.
    + rewrite IH. assert (rp_receptions p = []) as ->; [|done]. unfold rp_beast_bytes, df18_position_pair in E. unfold rp_receptions.
      by destruct (ac12 (rp_alt_ft p)).
  - cbn [concat]. by rewrite keepalive_silent.
Qed.
End BeastResults.

(** ** The uplink *)
Section Uplink.
Context `{Json, Hex, !HashIter Z Aircraft, Flate, !FlateLaws}.
Context (to_line : ClientMsg -> list Z).

Definition LINE_MAX : Z := 31743.
Definition line_fits (l : list Z) : Prop := l <> [] /\ Z.of_nat (length l) <= LINE_MAX.
(** What an event adds to the uplink, and the events that do nothing else. *)
Definition up_message (ev : CEvent) : option ClientMsg :=
  match ev with CUp m => Some m | CHeartbeat => Some heartbeat_now | _ => None end.
Definition up_lines (ev : CEvent) : list (list Z) := option_list (to_line <$> up_message ev).
Definition sends (ev : CEvent) : bool :=
  match ev with CUp _ | CHeartbeat | CFlush | CStatsTick => true | _ => false end.
(** Between two heartbeats a message is sent or the batch is flushed (the flush timer ticks
    every second, the heartbeat's every thirty). *)
Fixpoint spaced (pending : bool) (evs : list CEvent) : bool :=
  match evs with
  | [] => true
  | CHeartbeat :: evs => negb pending && spaced true evs
  | (CUp _ | CFlush) :: evs => spaced false evs
  | _ :: evs => spaced pending evs
  end.

Context (c : Compress).
Record up_ok (pending : bool) (sent : list (list Z)) (s : CSess) : Prop := {
  uo_batch : Z.of_nat (length (c_batch s)) <= UP_BATCH + (if pending then LINE_MAX else 0);
  uo_wire : match c_enc s with
            | Some enc => exists batch, c_batch s = concat batch /\ Forall (.≠ []) batch /\ carried_lines decomp_new enc (c_wire s) batch sent
            | None => c_batch s = [] /\ c_wire s = sent
            end;
  uo_enc : is_Some (c_enc s) <-> c <> CNone
}.
Lemma up_ok_ext pending sent s s' : c_enc s' = c_enc s -> c_batch s' = c_batch s -> c_wire s' = c_wire s ->
  up_ok pending sent s -> up_ok pending sent s'.
Proof. intros E1 E2 E3 [Hb Hw Hc]. split; by rewrite ?E1, ?E2, ?E3. Qed.
Lemma up_ok_weaken sent s pending : up_ok false sent s -> up_ok pending sent s.
Proof. intros [Hb Hw]. split; [|done..]. destruct pending; unfold LINE_MAX in *; lia. Qed.
Lemma send_batch_ok fuel pending sent s : up_ok pending sent s ->
  exists s', send_batch fuel s = Some (inl s') /\ c_batch s' = [] /\ up_ok false sent s'.
Proof.
  intros [Hb Hw He]. unfold send_batch. destruct (c_batch s) as [|b bs] eqn:Eb.
  - exists s. split_and!; [done|done|]. split; rewrite ?Eb; [by vm_compute|done|done].
  - destruct (c_enc s) as [enc|] eqn:Ee; [|by destruct Hw].
    destruct Hw as (batch & E & _ & Hw). rewrite E in *.
    destruct (carried_lines_flush _ _ _ _ _ Hw) as (enc' & f & Ef & Hc); [congruence|unfold UP_BATCH, LINE_MAX in *; destruct pending; lia|].
    rewrite (encode_frame_fuel fuel _ _ _ Ef). eexists. split_and!; [done|done|].
    split; [by vm_compute|exists []; by split_and!|]. rewrite <- He. by split; eexists.
Qed.
Lemma send_line_ok fuel room pending sent line s : up_ok pending sent s -> line_fits line ->
  (room = false -> pending = false) ->
  exists s', send_line fuel room line s = Some (inl s') /\ up_ok (negb room) (sent ++ [line]) s'.
Proof.
  intros Hok [Hfull Hl] Hroom. unfold send_line. destruct (c_enc s) as [enc|] eqn:Ee.
  - assert (exists s1, (if room && (UP_BATCH <? Z.of_nat (length (c_batch s) + length line)) then send_batch fuel s else Some (inl s)) = Some (inl s1)
      /\ (exists pending1, up_ok pending1 sent s1) /\
      Z.of_nat (length (c_batch s1) + length line) <= UP_BATCH + (if room then 0 else LINE_MAX)) as (s1 & E1 & [pend1 [_ Hw1 He1]] & Hb1).
    { destruct room; cbn [andb].
      - destruct (Z.ltb_spec UP_BATCH (Z.of_nat (length (c_batch s) + length line))).
        + destruct (send_batch_ok fuel _ _ _ Hok) as (s1 & E1 & Eb & Hok1). exists s1. split_and!; [done|by eexists|].
          rewrite Eb. unfold UP_BATCH, LINE_MAX in *. cbn [length]. lia.
        + exists s. split_and!; [done|by eexists|lia].
      - exists s. rewrite (Hroom eq_refl) in Hok. split_and!; [done|by eexists|]. destruct Hok as [Hb _ _]. unfold UP_BATCH, LINE_MAX in *. lia. }
    rewrite E1. cbn [mbind option_bind]. eexists. split; [done|].
    split; cbn [c_batch c_enc c_wire set_up]; [rewrite length_app; by destruct room| |done].
    destruct (c_enc s1) as [enc1|] eqn:Ee1;
      [destruct Hw1 as (batch & -> & Hne & Hw1); exists (batch ++ [line]); split_and!;
        [by rewrite concat_app; cbn; rewrite app_nil_r|by apply list.Forall_app_2, list.Forall_singleton|by apply carried_lines_more]|]. destruct Hok as [_ _ He].
    destruct (proj2 He1) as [? ?]; [apply He; by rewrite Ee|done].
  - destruct Hok as [Hb Hw He]. rewrite Ee in Hw. destruct Hw as [Hb' Hw]. eexists. split; [done|].
    split; cbn [c_batch c_enc c_wire set_up]; [rewrite Hb'; by destruct room| |by rewrite <- Ee].
    split; [done|]. by rewrite Hw.
Qed.

(** Steps that leave the uplink alone. *)
Ltac up_same := match goal with Hok : up_ok _ _ ?s |- up_ok _ _ _ => by apply (up_ok_ext _ _ s) end.
Lemma save_stats_up pending sent stats_path now s : up_ok pending sent s -> up_ok pending sent (save_stats stats_path now s).
Proof. destruct stats_path; [|done]. by apply up_ok_ext. Qed.
Lemma server_line_up idx pending sent stats_path now line s s' : up_ok pending sent s ->
  server_line idx stats_path now line s = inl s' -> up_ok pending sent s'.
Proof.
  intros Hok. unfold server_line. destruct (Proto.parse_line line) as [m|e]; [|done].
  destruct m as [| |v|v| | | |]; try (intros [= <-]; first [exact Hok|up_same]).
  - destruct (rp_from_json v); intros [= <-]; [up_same|done].
  - intros [= <-]. apply save_stats_up. up_same.
Qed.
(** One event; [pending]: a heartbeat since the last message or flush. *)
Definition pending_after (pending : bool) (ev : CEvent) : bool :=
  match ev with CHeartbeat => true | CUp _ | CFlush => false | _ => pending end.
Lemma c_step_sends fuel idx stats_path now pending sent s ev : up_ok pending sent s -> sends ev = true ->
  Forall line_fits (up_lines ev) -> (ev = CHeartbeat -> pending = false) ->
  exists s', c_step to_line fuel idx stats_path now s ev = Some (inl s') /\ up_ok (pending_after pending ev) (sent ++ up_lines ev) s'.
Proof.
  intros Hok Hs Hl Hp.
  assert (up_ok pending sent (set_down (cancel_read (c_down s)) s)) as Hok1 by up_same.
  destruct ev as [|m| | | | | | |]; try discriminate Hs; cbn [c_step up_lines up_message option_list fmap option_fmap option_map pending_after] in *.
  - eexists. split; [done|]. rewrite app_nil_r. by apply save_stats_up.
  - edestruct (send_line_ok fuel true pending sent (to_line m)) as (s' & E & Hok'); [|exact (List.Forall_inv Hl)|done|exists s'; split; [exact E|exact Hok']].
    destruct m; try exact Hok1. apply save_stats_up. up_same.
  - destruct (send_batch_ok fuel _ _ _ Hok1) as (s' & E & _ & Hok'). exists s'. by rewrite app_nil_r.
  - destruct (send_line_ok fuel false pending sent (to_line heartbeat_now) _ Hok1 (List.Forall_inv Hl)) as (s' & E & Hok'); [by intros _; apply Hp|].
    by exists s'.
Qed.
Lemma c_step_up fuel idx stats_path now pending sent s ev s' : up_ok pending sent s ->
  Forall line_fits (up_lines ev) -> (ev = CHeartbeat -> pending = false) ->
  c_step to_line fuel idx stats_path now s ev = Some (inl s') -> up_ok (pending_after pending ev) (sent ++ up_lines ev) s'.
Proof.
  intros Hok Hl Hp E. destruct (sends ev) eqn:Es.
  - destruct (c_step_sends fuel idx stats_path now _ _ _ _ Hok Es Hl Hp) as (s1 & E1 & Hok1). rewrite E1 in E. by injection E as <-.
  - destruct ev as [|m| | | |arrived| | |]; try discriminate; cbn [c_step up_lines up_message option_list fmap option_fmap option_map pending_after] in *. rewrite app_nil_r.
    destruct (next_line fuel (c_down s) arrived) as [[d r]|]; [|done]. cbn [mbind option_bind] in E. injection E as E.
    assert (up_ok pending sent (set_down d s)) as Hok1 by up_same.
    destruct r; try discriminate E; [by eapply server_line_up|by injection E as <-].
Qed.
Lemma spaced_step pending ev evs : spaced pending (ev :: evs) = true ->
  (ev = CHeartbeat -> pending = false) /\ spaced (pending_after pending ev) evs = true.
Proof. destruct ev, pending; cbn; naive_solver. Qed.
Lemma c_run_up fuel idx stats_path evs pending sent s : up_ok pending sent s ->
  Forall (fun ev => Forall line_fits (up_lines ev)) evs.*2 -> spaced pending evs.*2 = true ->
  (forall s', c_run to_line fuel idx stats_path s evs = Some (inl s') -> exists pending', up_ok pending' (sent ++ (evs.*2 ≫= up_lines)) s') /\
  (forallb sends evs.*2 = true -> exists s', c_run to_line fuel idx stats_path s evs = Some (inl s')).
Proof.
  revert pending sent s. induction evs as [|[now ev] evs IH]; intros pending sent s Hok Hl Hs.
  - split; [intros s' [= <-]; exists pending; by rewrite app_nil_r|intros _; by exists s].
  - cbn [fmap list_fmap snd] in *. inversion Hl as [|? ? Hl1 Hl2]; subst. apply spaced_step in Hs as [Hp Hs]. cbn [c_run]. split.
    + intros s' E. destruct (c_step _ _ _ _ _ _ _) as [[s1|e]|] eqn:E1; try discriminate E. cbn [mbind option_bind] in E.
      pose proof (c_step_up _ _ _ _ _ _ _ _ _ Hok Hl1 Hp E1) as Hok1.
      destruct (proj1 (IH _ _ _ Hok1 Hl2 Hs) _ E) as [p' Hok']. exists p'. cbn [mbind list_bind]. by rewrite app_assoc.
    + cbn [forallb]. intros [Hs1 Hs2]%andb_prop. destruct (c_step_sends fuel idx stats_path now _ _ _ _ Hok Hs1 Hl1 Hp) as (s1 & E1 & Hok1).
      rewrite E1. cbn [mbind option_bind]. by apply (IH _ _ _ Hok1 Hl2 Hs).
Qed.
Lemma c_run_app fuel idx stats_path s evs evs' : c_run to_line fuel idx stats_path s (evs ++ evs') =
  r ← c_run to_line fuel idx stats_path s evs;
  match r with inl s => c_run to_line fuel idx stats_path s evs' | inr e => Some (inr e) end.
Proof.
  revert s. induction evs as [|[now ev] evs IH]; intros s; [done|]. cbn [app c_run].
  destruct (c_step _ _ _ _ _ _ _) as [[s1|e]|]; [apply IH|done..].
Qed.
Lemma CSess_new_up : up_ok false [] (CSess_new c).
Proof. split; [by vm_compute| |]; destruct c; cbn; rewrite ?is_Some_alt; try done; exists []; (split_and!; [done|done|apply carried_lines_new]). Qed.

(** C13: a server gets every line of a session, in order: whatever the messages (of at most
    31743 bytes), flush ticks, heartbeats (spaced by the flush timer) and lines of the server,
    up to a flush of a session that goes on the lines are on the wire, one write each, or in
    frames of whole lines that a decoder following the connection decodes to exactly them; and
    messages, ticks and heartbeats alone never end the session. *)
Theorem uplink_delivers fuel idx stats_path evs now :
  Forall (fun ev => Forall line_fits (up_lines ev)) evs.*2 -> spaced false evs.*2 = true ->
  (forall s, c_run to_line fuel idx stats_path (CSess_new c) (evs ++ [(now, CFlush)]) = Some (inl s) ->
     match c with
     | CNone => c_wire s = evs.*2 ≫= up_lines
     | _ => exists groups, decode_all 0 decomp_new (c_wire s) = Some ((fun ls => concat ls) <$> groups) /\ concat groups = evs.*2 ≫= up_lines
     end) /\
  (forallb sends evs.*2 = true -> exists s, c_run to_line fuel idx stats_path (CSess_new c) (evs ++ [(now, CFlush)]) = Some (inl s)).
Proof.
  intros Hl Hs. destruct (c_run_up fuel idx stats_path _ _ _ _ CSess_new_up Hl Hs) as [Hgo Hend].
  rewrite c_run_app. split.
  - intros s E. destruct (c_run _ _ _ _ _ evs) as [[s1|e]|] eqn:E1; try discriminate E. destruct (Hgo s1 eq_refl) as [p Hok].
    apply (up_ok_ext _ _ _ (set_down (cancel_read (c_down s1)) s1)) in Hok; [|done..].
    cbn [mbind option_bind c_run c_step] in E. destruct (send_batch_ok fuel _ _ _ Hok) as (s2 & E2 & Eb & [_ Hw He]).
    rewrite E2 in E. injection E as <-. cbn [app] in Hw. destruct (c_enc s2) as [enc|].
    + destruct Hw as (batch & Ebatch & Hne & Hw). rewrite Eb in Ebatch. destruct Hne as [|l batch Hl0 _]; [|by destruct l].
      pose proof (carried_lines_decoded _ _ _ _ Hw) as Hd. destruct c; [by destruct (proj1 He)|exact Hd..].
    + destruct Hw as [_ ->]. destruct c; [done|..]; by destruct (proj2 He).
  - intros Hsend. destruct (Hend Hsend) as [s1 E1]. rewrite E1. cbn [mbind option_bind c_run c_step].
    destruct (Hgo s1 E1) as [p Hok]. apply (up_ok_ext _ _ _ (set_down (cancel_read (c_down s1)) s1)) in Hok; [|done..].
    destruct (send_batch_ok fuel _ _ _ Hok) as (s2 & E2 & _). rewrite E2. by exists s2.
Qed.
End Uplink.

(** ** Pauses between sessions *)
Section Backoff.
Lemma doubled_pause n m : fmin (of_Z n * of_Z 2)%f64 (of_Z 60) = of_Z m -> forall idx (e : Exit) exits,
  (session_loop idx (of_Z n) (inr <$> e :: exits)).*2 = of_Z n :: (session_loop idx (of_Z m) (inr <$> exits)).*2.
Proof. intros E idx e exits. cbn [fmap list_fmap session_loop snd]. by rewrite E. Qed.
(** A session only ever ends with an error: the pauses are 5, 10, 20 and 40 s, and then 60 s
    for ever, however long the sessions last. *)
Lemma pauses idx (exits : list Exit) : (session_loop idx (of_Z 5) (inr <$> exits)).*2
  = take (length exits) ((of_Z <$> [5; 10; 20; 40]) ++ repeat (of_Z 60) (length exits - 4)).
Proof.
  assert (forall l : list Exit, (session_loop idx (of_Z 60) (inr <$> l)).*2 = repeat (of_Z 60) (length l)) as H60.
  { induction l as [|e l IH]; [done|]. rewrite (doubled_pause 60 60) by reflexivity. cbn [length repeat]. by rewrite IH. }
  destruct exits as [|e1 exits]; [done|]. rewrite (doubled_pause 5 10) by reflexivity. cbn [length take app fmap list_fmap]. f_equal.
  destruct exits as [|e2 exits]; [done|]. rewrite (doubled_pause 10 20) by reflexivity. cbn [length take app]. f_equal.
  destruct exits as [|e3 exits]; [done|]. rewrite (doubled_pause 20 40) by reflexivity. cbn [length take app]. f_equal.
  destruct exits as [|e4 exits]; [done|]. rewrite (doubled_pause 40 60) by reflexivity. cbn [length take app Nat.sub]. f_equal.
  rewrite H60, take_ge by (rewrite repeat_length; lia). f_equal. lia.
Qed.
End Backoff.

(** ** Concrete sessions *)
Section Sample.
Definition client_parse (l : list Z) : option Tree :=
  if decide (l = [1; 2; 10]) then Some (TObj [("start_sending"%string, TArr [TStr "3c6444"])]) else None.
#[local] Instance json_client : Json := json_with client_parse.
#[local] Existing Instance hex_tree.
#[local] Existing Instance flate_stored.
#[local] Existing Instance elem_nan.
#[local] Instance aircraft_order : HashIter Z Aircraft := hash_iter_list Z Aircraft.
Definition sample_line (m : ClientMsg) : list Z :=
  match m with Seen _ => [7; 10] | Heartbeat _ => [8; 10] | _ => [9; 10] end.
Definition client_run (c : Compress) (evs : list (Z * CEvent)) : option (CSess + Exit) :=
  c_run sample_line 10 0 false (CSess_new c) evs.
Definition client_events (r : option (CSess + Exit)) : option (list Ev + Exit) :=
  (fun r => match r with inl s => inl (c_events s) | inr e => inr e end) <$> r.

Example line_in_two_reads : client_events (client_run CNone [(1, CDown [1]); (2, CDown [2; 10])]) = Some (inl [EvStart 0 ["3c6444"%string]]).
Proof. vm_compute. reflexivity. Qed.
(** A flush tick while a line of the server is arriving drops what was read of it; the rest
    is taken for a line, and ends the session. *)
Example flush_loses_line : client_events (client_run CNone [(1, CDown [1]); (2, CFlush); (3, CDown [2; 10])]) = Some (inr ExProto).
Proof. vm_compute. reflexivity. Qed.
(** On a compressed downlink the length is then read from the wrong bytes. *)
Example flush_loses_length :
  (fun r => match r with inl s => match d_read (c_down s) with DownBody want _ _ => Some want | _ => None end | inr _ => None end) <$> client_run CZlib2 [(1, CDown [0]); (2, CFlush); (3, CDown [3; 1; 2; 10])] = Some (Some 769%nat).
Proof. vm_compute. reflexivity. Qed.
(** A frame of empty lines is taken for the end of the connection. *)
Example empty_frame_ends : client_events (client_run CZlib2 [(1, CDown [0; 1; 10])]) = Some (inr ExServerClosed).
Proof. vm_compute. reflexivity. Qed.

Definition near : ResultPos := {| rp_addr := 0x3c6444; rp_lat := of_Z 47; rp_lon := of_Z 8; rp_alt_ft := 12000 |}.
(** A receiver that falls behind the channel ends the output for good. *)
Example pump_stops_on_lag : length (beast_pump [PumpPos near; PumpLagged; PumpPos near]) = 1%nat.
Proof. vm_compute. reflexivity. Qed.
Example stats_forget : (fun s => (history s, so_good (stats_write 7300 s))) (stats_push (TObj [("peer_count"%string, TNum (inl 2))]) 7300
  (stats_push (TObj []) 3000 StatsFile_default)) = ([(7300, 1)], Some (of_Z 100)).
Proof. vm_compute. reflexivity. Qed.
Example alt_feet : ((fabs (default fnan (parse_alt "100ft") - lit 3048 100) <? lit 1 1000000000)%f64) = true.
Proof. vm_compute. reflexivity. Qed.

(** A keepalive before, between and after two positions, one too high for its code. *)
Definition near_events : list PumpEvent :=
  [PumpKeepalive; PumpPos near; PumpKeepalive; PumpPos {| rp_addr := 0x3c6444; rp_lat := of_Z 47; rp_lon := of_Z 8; rp_alt_ft := 60000 |}; PumpPos near; PumpKeepalive].
Definition near_reads : list (list Z) := Eval vm_compute in (fun l => [take 5 l; drop 5 l]) (concat (beast_pump near_events)).
Lemma results_beast_roundtrip_witness :
  feed_all {| buf := [] |} near_reads = ({| buf := [] |}, passed near_events ≫= rp_receptions) /\ length (passed near_events ≫= rp_receptions) = 4%nat.
Proof. split; [apply results_beast_roundtrip; vm_compute; reflexivity|vm_compute; reflexivity]. Defined.
Definition up_events : list (Z * CEvent) := [(1, CUp (Seen [])); (2, CHeartbeat); (3, CFlush); (4, CHeartbeat); (5, CUp (InputConnected "a"))].
Lemma uplink_delivers_witness : exists s groups,
  c_run sample_line 10 0 false (CSess_new CZlib2) (up_events ++ [(6, CFlush)]) = Some (inl s) /\
  decode_all 0 decomp_new (c_wire s) = Some ((fun ls => concat ls) <$> groups) /\ concat groups = [[7; 10]; [8; 10]; [8; 10]; [9; 10]].
Proof.
  destruct (@uplink_delivers _ _ stored_laws sample_line CZlib2 10 0 false up_events 6) as [Hgo Hend].
  - repeat constructor; vm_compute; congruence.
  - reflexivity.
  - destruct (Hend eq_refl) as [s Hs]. destruct (Hgo s Hs) as (groups & Hd & Hg). exists s, groups. split_and!; [exact Hs|exact Hd|exact Hg].
Defined.
End Sample.
