(* ===== verification/Isolation.v ===== *)
(** * One server's traffic and the others (crates/mlatc/src/engine.rs; crates/mlatc/src/main.rs: the engine task)

    The engine serves every server from one table and one task.  Two engines that differ in
    what other servers asked for and were told give a server the same messages; so its queue
    is what it would be if it were alone, as long as every session's task is there. *)
From S2P Require Import Prelude F64 Text Crc Frames Beast Proto Engine Geo Framing Client.
Local Open Scope Z_scope.

Section View.
Context `{Json, Hex, !HashIter Z Aircraft} (s : nat).

(** The messages for the server. *)
Definition for_server (msgs : list Outbound) : list ClientMsg := omap (fun m : Outbound => if decide (m.1 = s) then Some m.2 else None) msgs.
(** Engines that differ in the views of other servers only. *)
Definition same_view (a a' : Aircraft) : Prop :=
  last_seen a = last_seen a' /\ msgs_in_window a = msgs_in_window a' /\ even_msg a = even_msg a' /\ odd_msg a = odd_msg a' /\
  servers a !! s = servers a' !! s.
Definition same_table (m m' : gmap Z Aircraft) : Prop := forall addr, option_Forall2 same_view (m !! addr) (m' !! addr).
Record alike (e e' : Engine) : Prop := {
  al_table : same_table (aircraft e) (aircraft e'); al_servers : n_servers e = n_servers e';
  al_counter : last_counter e = last_counter e'; al_report : last_rate_report e = last_rate_report e'; al_user : eng_user e = eng_user e'
}.
#[local] Instance same_view_equiv : Equivalence same_view.
Proof.
  split; [by intros a; split_and!|by intros a b (? & ? & ? & ? & ?); split_and!|].
  intros a b c (? & ? & ? & ? & ?) (? & ? & ? & ? & ?). split_and!; congruence.
Qed.
#[export] Instance alike_equiv : Equivalence alike.
Proof.
  split.
  - intros e. split; try done. by intros addr.
  - intros e e' []. split; try done. intros addr. by symmetry.
  - intros e1 e2 e3 [] []. split; try congruence. intros addr. etrans; eauto.
Qed.

Lemma for_server_app l l' : for_server (l ++ l') = for_server l ++ for_server l'.
Proof. unfold for_server. by rewrite omap_app. Qed.
Lemma for_server_all (n : nat) (m : ClientMsg) (l : list nat) : NoDup l -> for_server ((fun s => (s, m)) <$> l) = if decide (s ∈ l) then [m] else [].
Proof.
  induction 1 as [|x l Hx _ IH]; [done|]. cbn [fmap list_fmap for_server omap list_omap fst snd]. fold (for_server ((fun s => (s, m)) <$> l)). rewrite IH.
  repeat case_decide; set_solver.
Qed.

(** ** Tables *)
Lemma same_insert m m' addr a a' : same_table m m' -> same_view a a' -> same_table (<[addr := a]> m) (<[addr := a']> m').
Proof. intros Hm Ha k. destruct (decide (addr = k)) as [->|]; [rewrite !lookup_insert_eq; by constructor|by rewrite !lookup_insert_ne]. Qed.
Lemma same_fmap (f : Aircraft -> Aircraft) m m' : (forall a a', same_view a a' -> same_view (f a) (f a')) -> same_table m m' -> same_table (f <$> m) (f <$> m').
Proof. intros Hf Hm k. rewrite !lookup_fmap. destruct (Hm k); constructor. by apply Hf. Qed.
Lemma same_alter (f : Aircraft -> Aircraft) m m' addr : (forall a a', same_view a a' -> same_view (f a) (f a')) -> same_table m m' ->
  same_table (alter f addr m) (alter f addr m').
Proof.
  intros Hf Hm k. destruct (decide (addr = k)) as [->|]; [|by rewrite !lookup_alter_ne].
  rewrite !lookup_alter_eq. destruct (Hm k); constructor. by apply Hf.
Qed.
Lemma same_dom m m' : same_table m m' -> dom m = dom m'.
Proof. intros Hm. apply set_eq. intros k. rewrite !elem_of_dom. destruct (Hm k); by split; intros [? ?]. Qed.
Lemma set_servers_view f a a' : same_view a a' -> f (servers a) !! s = f (servers a') !! s -> same_view (set_servers f a) (set_servers f a').
Proof. by intros (? & ? & ? & ? & ?) ?; split_and!. Qed.

(** ** Requests *)
Lemma requested_own hexes v e e' : alike e e' -> alike (set_requested e s hexes v) (set_requested e' s hexes v).
Proof.
  revert e e'. induction hexes as [|h hexes IH]; intros e e' Ha; [done|]. apply IH. destruct (from_str_radix16 h) as [addr|]; [|done].
  destruct Ha. split; try done. cbn [set_aircraft aircraft]. apply same_alter; [|done]. intros a a' Hv. apply set_servers_view; [done|].
  destruct Hv as (_ & _ & _ & _ & Hs). by rewrite !list_lookup_alter_eq, Hs.
Qed.
Lemma requested_other s' hexes v e : s' <> s -> alike (set_requested e s' hexes v) e.
Proof.
  intros Hne. revert e. induction hexes as [|h hexes IH]; intros e; [done|]. unfold set_requested in *. cbn [fold_left]. etrans; [apply IH|].
  destruct (from_str_radix16 h) as [addr|]; [|done]. split; try done. intros k. cbn [set_aircraft aircraft].
  destruct (decide (addr = k)) as [->|]; [|by rewrite lookup_alter_ne]. rewrite lookup_alter_eq.
  destruct (aircraft e !! k); constructor. split_and!; try done. cbn. by rewrite list_lookup_alter_ne.
Qed.
Lemma reset_own e e' : alike e e' -> alike (server_reset e s) (server_reset e' s).
Proof.
  intros []. split; try done. apply same_fmap; [|done]. intros a a' Hv. apply set_servers_view; [done|].
  destruct Hv as (_ & _ & _ & _ & Hs). by rewrite !list_lookup_alter_eq, Hs.
Qed.
Lemma reset_other s' e : s' <> s -> alike (server_reset e s') e.
Proof.
  intros Hne. split; try done. intros k. cbn. rewrite lookup_fmap. destruct (aircraft e !! k); constructor. split_and!; try done. cbn.
  by rewrite list_lookup_alter_ne.
Qed.
Lemma input_reset_alike e e' : alike e e' -> alike (input_reset e) (input_reset e').
Proof. intros []. split; try done. apply same_fmap; [|done]. by intros a a' (? & ? & ? & ? & ?); split_and!. Qed.

(** ** Receptions *)
Lemma send_where_server p msg l : for_server (send_where p msg l) = match l !! s with Some ps => if p ps then [msg] else [] | None => [] end.
Proof.
  assert (forall k, for_server (mjoin (imap (fun i ps => if p ps then [((k + i)%nat, msg)] else []) l))
    = if decide (k <= s)%nat then match l !! (s - k)%nat with Some ps => if p ps then [msg] else [] | None => [] end else []) as Hl.
  { induction l as [|ps l IH]; intros k; [cbn; by case_decide|]. rewrite imap_cons. cbn [mjoin list_join]. rewrite for_server_app.
    rewrite (imap_ext _ (fun i ps => if p ps then [((S k + i)%nat, msg)] else [])) by (intros i x _; cbn; by rewrite Nat.add_succ_r).
    rewrite IH, Nat.add_0_r. destruct (decide (k <= s)%nat) as [Hk|Hk].
    - destruct (decide (k = s)) as [->|Hne].
      + rewrite Nat.sub_diag, decide_False by lia. rewrite app_nil_r. cbn [lookup list_lookup]. destruct (p ps); [|done]. cbn. by rewrite decide_True.
      + rewrite decide_True by lia. replace (s - k)%nat with (S (s - S k)) by lia. destruct (p ps); [|done]. cbn. by rewrite decide_False.
    - rewrite decide_False by lia. rewrite app_nil_r. destruct (p ps); [|done]. cbn. rewrite decide_False by lia. done. }
  unfold send_where. specialize (Hl 0%nat). rewrite decide_True, Nat.sub_0_r in Hl by lia. exact Hl.
Qed.
Lemma touch_alike e e' addr now v : alike e e' -> alike (touch e addr now v) (touch e' addr now v).
Proof.
  intros [Ht Hn ? ? ?]. unfold touch. destruct (Ht addr) as [a a' Hv|].
  - split; try done. apply same_insert; [done|]. destruct Hv as (? & E & ? & ? & ?). rewrite E. by split_and!.
  - destruct v; [|by split]. split; try done. apply same_insert; [done|]. by rewrite Hn.
Qed.
Lemma check_counter_alike e e' r : alike e e' ->
  alike (check_counter e r).1 (check_counter e' r).1 /\ for_server (check_counter e r).2 = for_server (check_counter e' r).2.
Proof.
  intros Ha. unfold check_counter. rewrite (al_counter _ _ Ha). destruct (last_counter e'); [|done]. destruct (clock_restarted _ _); [|done].
  cbn [fst snd]. split; [by apply input_reset_alike|]. by rewrite (al_servers _ _ Ha), (al_user _ _ Ha).
Qed.
Lemma pair_sync_alike e e' addr odd r now : alike e e' ->
  alike (pair_sync e addr odd r now).1 (pair_sync e' addr odd r now).1 /\
  for_server (pair_sync e addr odd r now).2 = for_server (pair_sync e' addr odd r now).2.
Proof.
  intros Ha. pose proof Ha as [Ht Hn Hc Hr Hu]. unfold pair_sync. destruct (Ht addr) as [a a' Hv|]; [|done].
  set (this := Some _). set (b := if odd then _ else _). set (b' := if odd then set_pair (even_msg a') _ _ else _).
  assert (same_view b b') as Hb by (unfold b, b'; destruct Hv as (? & ? & E1 & E2 & ?); rewrite E1, E2; destruct odd; by split_and!).
  clearbody b b'. pose proof Hb as (_ & _ & -> & -> & Hs).
  assert (forall f : list PerServer -> list PerServer, f (servers b) !! s = f (servers b') !! s ->
    alike (set_aircraft (<[addr := set_servers f b]> (aircraft e)) e) (set_aircraft (<[addr := set_servers f b']> (aircraft e')) e')) as Hput
    by (intros f Hf; split; try done; apply same_insert; [done|by apply set_servers_view]).
  specialize (Hput id Hs) as Hput0. assert (forall x, set_servers id x = x) as Hid by (by intros []). rewrite !Hid in Hput0.
  destruct (even_msg b') as [ev|]; [|done]. destruct (odd_msg b') as [od|]; [|done]. destruct (_ >? _)%f64; [done|]. cbn [fst snd]. split.
  - apply Hput. by rewrite !list_lookup_fmap, Hs.
  - by rewrite !send_where_server, Hs.
Qed.
Lemma mlat_address_alike e e' df f now : alike e e' ->
  option_Forall2 (fun x y => x.1 = y.1 /\ alike x.2 y.2) (mlat_address e df f now) (mlat_address e' df f now).
Proof.
  intros Ha. unfold mlat_address. destruct (df =? 11).
  - destruct (80 <=? crc24 f); constructor. split; [done|by apply touch_alike].
  - destruct (bool_decide _); [|constructor]. set (addr := Z.land _ _). destruct (al_table _ _ Ha addr); constructor. split; [done|by apply touch_alike].
Qed.
Lemma on_reception_alike e e' r now : alike e e' ->
  alike (on_reception e r now).1 (on_reception e' r now).1 /\ for_server (on_reception e r now).2 = for_server (on_reception e' r now).2.
Proof.
  intros Ha. unfold on_reception. destruct (check_counter_alike e e' r Ha) as [Hc Ho]. destruct (check_counter e r) as [e1 out], (check_counter e' r) as [e1' out'].
  cbn [fst snd] in *. assert (alike (set_last_counter (Some (counts_12mhz r)) e1) (set_last_counter (Some (counts_12mhz r)) e1')) as Hl by (destruct Hc; by split).
  set (e2 := set_last_counter _ e1) in *. set (e2' := set_last_counter _ e1') in *. clearbody e2 e2'. destruct (df_of (frame r)) as [df|]; [|done].
  destruct (df =? 17).
  - destruct (negb _); [done|]. apply (touch_alike _ _ (u24_of (frame r !!! 1%nat) (frame r !!! 2%nat) (frame r !!! 3%nat)) now true) in Hl.
    destruct (parse_df17_airborne (frame r)) as [d|]; [|done].
    apply (pair_sync_alike _ _ (icao d) (odd d) r now) in Hl. do 2 destruct (pair_sync _ _ _ _ _). cbn [fst snd] in *. destruct Hl as [Hl Hs]. split; [done|]. by rewrite !for_server_app, Ho, Hs.
  - destruct (mlat_address_alike _ _ df (frame r) now Hl) as [[addr e3] [addr' e3'] [E He]|]; [|done]. cbn [fst snd] in E, He. subst addr'.
    destruct (al_table _ _ He addr) as [a a' Hv|]; [|done]. cbn [fst snd]. split; [done|].
    rewrite !for_server_app, !send_where_server, Ho. by destruct Hv as (_ & _ & _ & _ & ->).
Qed.

(** ** Ticks, when the order of a table is that of its addresses *)
Hypothesis by_address : forall m m' : gmap Z Aircraft, dom m = dom m' -> (hash_iter m).*1 = (hash_iter m').*1.
Definition same_entry (x y : Z * Aircraft) : Prop := x.1 = y.1 /\ same_view x.2 y.2.
Lemma entries_alike m m' : same_table m m' -> Forall2 same_entry (hash_iter m) (hash_iter m').
Proof.
  intros Hm. pose proof (by_address m m' (same_dom _ _ Hm)) as Hk.
  assert (forall m i x, hash_iter m !! i = Some x -> m !! x.1 = Some x.2) as Hin.
  { intros m0 i [k a] Hi. apply list_elem_of_lookup_2 in Hi. rewrite hash_iter_perm in Hi. by apply elem_of_map_to_list in Hi. }
  apply list.Forall2_same_length_lookup. split; [apply (f_equal length) in Hk; by rewrite !length_fmap in Hk|].
  intros i [k a] [k' a'] Hi Hi'. assert (k = k') as <-.
  { apply (f_equal (fun l => l !! i)) in Hk. rewrite !list_lookup_fmap, Hi, Hi' in Hk. by injection Hk. }
  split; [done|]. apply Hin in Hi, Hi'. cbn [fst snd] in *. specialize (Hm k). rewrite Hi, Hi' in Hm. by inversion Hm.
Qed.
Lemma push_where_server p a a' h acc acc' : servers a !! s = servers a' !! s -> acc !! s = acc' !! s ->
  push_where p a h acc !! s = push_where p a' h acc' !! s.
Proof. intros Ha Hacc. unfold push_where. rewrite !list_lookup_imap, Hacc. destruct (acc' !! s); [|done]. cbn. by rewrite Ha. Qed.
Record sweeps_alike (x y : Sweep) : Prop := {
  sa_kept : same_table (kept x) (kept y); sa_seen : sw_seen x !! s = sw_seen y !! s; sa_lost : sw_lost x !! s = sw_lost y !! s
}.
Lemma sweep_alike now n l l' : Forall2 same_entry l l' -> sweeps_alike (sweep now n l) (sweep now n l').
Proof.
  unfold sweep. intros Hl. assert (forall st st', sweeps_alike st st' -> sweeps_alike (fold_left (sweep_step now) l st) (fold_left (sweep_step now) l' st')) as Hfold;
    [|apply Hfold; split; try done; by intros k].
  induction Hl as [|[k a] [k' a'] l l' [E Hv] _ IH]; intros st st' Hst; [done|]. apply IH. cbn [fst snd] in E, Hv. subst k'. cbn [sweep_step].
  destruct Hst as [Hk Hs Hlo]. unfold expired. pose proof Hv as (-> & _ & _ & _ & Hsv). destruct (_ >? _)%f64; split; cbn [kept sw_seen sw_lost]; try done.
  - by apply push_where_server.
  - apply same_insert; [done|]. apply set_servers_view; [done|]. by rewrite !list_lookup_fmap, Hsv.
  - by apply push_where_server.
Qed.
Lemma announcements_server n seen seen' lost lost' : seen !! s = seen' !! s -> lost !! s = lost' !! s ->
  for_server (announcements n seen lost) = for_server (announcements n seen' lost').
Proof.
  intros Es El. unfold announcements. induction (seq 0 n) as [|i l IH]; [done|]. cbn [mbind list_bind]. rewrite !for_server_app, IH. f_equal.
  destruct (decide (i = s)) as [->|Hne]; [by rewrite !list_lookup_total_alt, Es, El|].
  assert (forall a b, for_server (told_lists i a b) = []) as Hnil by (intros [|? ?] [|? ?]; cbn; by rewrite ?decide_False by done). by rewrite !Hnil.
Qed.
Lemma rates_alike elapsed l l' acc : Forall2 same_entry l l' -> fold_left (rate_entry elapsed) l acc = fold_left (rate_entry elapsed) l' acc.
Proof.
  intros Hl. revert acc. induction Hl as [|[k a] [k' a'] l l' [E (_ & Hm & _)] _ IH]; intros acc; [done|]. cbn [fst snd] in E, Hm. subst k'.
  cbn [fold_left rate_entry]. by rewrite Hm, IH.
Qed.
Lemma tick_alike e e' now : alike e e' -> alike (tick e now).1 (tick e' now).1 /\ for_server (tick e now).2 = for_server (tick e' now).2.
Proof.
  intros [Ht Hn Hc Hr Hu]. unfold tick. cbn [set_aircraft aircraft last_rate_report n_servers last_counter eng_user]. rewrite Hn, Hr, Hc, Hu.
  destruct (sweep_alike now (n_servers e') _ _ (entries_alike _ _ Ht)) as [Hk Hs Hl].
  pose proof (announcements_server (n_servers e') _ _ _ _ Hs Hl) as Ha. destruct (_ >=? _)%f64; [|split; [by split|done]]. cbn [fst snd]. split.
  - split; try done. cbn [aircraft]. apply same_fmap; [|done]. by intros a a' (? & ? & ? & ? & ?); split_and!.
  - rewrite (rates_alike _ _ _ ∅ (entries_alike _ _ Hk)). destruct (bool_decide _); [done|]. by rewrite !for_server_app, Ha.
Qed.

(** ** The task *)
Lemma on_receptions_alike e e' rs now : alike e e' ->
  alike (on_receptions e rs now).1 (on_receptions e' rs now).1 /\ for_server (on_receptions e rs now).2 = for_server (on_receptions e' rs now).2.
Proof.
  unfold on_receptions. intros Ha. induction rs as [|r rs IH] using rev_ind; [done|]. rewrite !fold_left_app. cbn [fold_left].
  destruct (fold_left _ rs (e, [])) as [e1 o1], (fold_left _ rs (e', [])) as [e2 o2]. cbn [fst snd] in *. destruct IH as [Ha1 Ho1].
  destruct (on_reception_alike e1 e2 r now Ha1) as [Ha2 Ho2]. destruct (on_reception e1 r now), (on_reception e2 r now). cbn [fst snd] in *.
  split; [done|]. by rewrite !for_server_app, Ho1, Ho2.
Qed.
(** What concerns the server: the input, the tick, its own requests and its own session; the
    requests and the sessions of the others do not. *)
Definition concerns (st : TaskStep) : bool :=
  match st with
  | TaskEvent (Some (EvStart s' _ | EvStop s' _ | EvServerReset s')) _ | TaskTake s' | TaskDrain s' | TaskGone s' => (s' =? s)%nat
  | _ => true
  end.
Lemma engine_event_own n e e' ev now : alike e e' ->
  alike (engine_event n e ev now).1 (engine_event n e' ev now).1 /\
  for_server (engine_event n e ev now).2 = for_server (engine_event n e' ev now).2.
Proof.
  intros Ha. destruct ev as [[rs| | |s' v|s' v|s']|]; cbn [engine_event fst snd].
  - by apply on_receptions_alike.
  - split; [by apply input_reset_alike|done].
  - split; [by apply input_reset_alike|done].
  - split; [|done]. destruct (decide (s' = s)) as [->|Hne]; [by apply requested_own|].
    etrans; [by apply requested_other|]. etrans; [exact Ha|]. symmetry. by apply requested_other.
  - split; [|done]. destruct (decide (s' = s)) as [->|Hne]; [by apply requested_own|].
    etrans; [by apply requested_other|]. etrans; [exact Ha|]. symmetry. by apply requested_other.
  - split; [|done]. destruct (decide (s' = s)) as [->|Hne]; [by apply reset_own|].
    etrans; [by apply reset_other|]. etrans; [exact Ha|]. symmetry. by apply reset_other.
  - by apply tick_alike.
Qed.
Lemma engine_event_other n e ev now : concerns (TaskEvent ev now) = false ->
  alike (engine_event n e ev now).1 e /\ (engine_event n e ev now).2 = [].
Proof.
  destruct ev as [[rs| | |s' v|s' v|s']|]; cbn [concerns engine_event fst snd]; try done; intros Hne%Nat.eqb_neq; (split; [|done]).
  - by apply requested_other.
  - by apply requested_other.
  - by apply reset_other.
Qed.

(** With every queue open, an offer goes through, and a queue gets its server's messages. *)
Lemma offer_open msgs qs : Forall is_Some qs -> exists qs', offer qs msgs = (qs', true) /\ Forall is_Some qs' /\
  qs' !! s = fmap (fun q => fold_left (fun q m => try_send m q) (for_server msgs) q) <$> qs !! s.
Proof.
  revert qs. induction msgs as [|[s' m] msgs IH]; intros qs Hq.
  - exists qs. split_and!; [done|done|]. destruct (qs !! s) as [[q|]|]; done.
  - cbn [offer]. assert (Forall is_Some (alter (fmap (try_send m)) s' qs)) as Hq'
      by (apply list.Forall_alter; [done|]; intros q _ [x ->]; by eexists).
    destruct (IH _ Hq') as (qs' & E & Hqs' & Hs). exists qs'. split_and!; [|done|].
    + destruct (qs !! s') as [[q|]|] eqn:El; [done| |done]. by apply (list.Forall_lookup_1 _ _ _ _ Hq) in El as [? ?].
    + rewrite Hs. unfold for_server. cbn [omap list_omap fst snd]. destruct (decide (s' = s)) as [->|Hne].
      * rewrite list_lookup_alter_eq. by destruct (qs !! s) as [[q|]|].
      * by rewrite list_lookup_alter_ne.
Qed.
Definition stays (st : TaskStep) : Prop := match st with TaskEventsEnd | TaskGone _ => False | _ => True end.
Record tasks_alike (t t' : EngineTask) : Prop := {
  ta_engine : alike (et_engine t) (et_engine t'); ta_queue : et_queues t !! s = et_queues t' !! s;
  ta_live : et_live t = true /\ et_live t' = true; ta_open : Forall is_Some (et_queues t) /\ Forall is_Some (et_queues t')
}.
Lemma step_own n t t' st : stays st -> tasks_alike t t' -> tasks_alike (engine_task n t st) (engine_task n t' st).
Proof.
  intros Hst [Ha Hq [L1 L2] [O1 O2]]. destruct st as [ev now| |s'|s'|s']; try done; cbn [engine_task].
  - rewrite L1, L2. destruct (engine_event_own n _ _ ev now Ha) as [Ha' Ho].
    destruct (engine_event n (et_engine t) ev now) as [e1 o1], (engine_event n (et_engine t') ev now) as [e2 o2]. cbn [fst snd] in *.
    destruct (offer_open o1 _ O1) as (q1 & -> & P1 & E1), (offer_open o2 _ O2) as (q2 & -> & P2 & E2).
    split; cbn [et_engine et_queues et_live]; try done. by rewrite E1, E2, Hq, Ho.
  - split; try done; cbn [with_queues et_queues]; [|split; (apply list.Forall_alter; [done|]; intros q _ [x ->]; by eexists)].
    destruct (decide (s' = s)) as [->|]; [by rewrite !list_lookup_alter_eq, Hq|by rewrite !list_lookup_alter_ne].
  - split; try done; cbn [with_queues et_queues]; [|split; (apply list.Forall_alter; [done|]; intros q _ [x ->]; by eexists)].
    destruct (decide (s' = s)) as [->|]; [by rewrite !list_lookup_alter_eq, Hq|by rewrite !list_lookup_alter_ne].
Qed.
Lemma step_other n t t' st : stays st -> concerns st = false -> tasks_alike t t' -> tasks_alike (engine_task n t st) t'.
Proof.
  intros Hst Hc [Ha Hq [L1 L2] [O1 O2]]. destruct st as [ev now| |s'|s'|s']; try done; cbn [engine_task].
  - rewrite L1. destruct (engine_event_other n (et_engine t) ev now Hc) as [Ha' Ho].
    destruct (engine_event n (et_engine t) ev now) as [e1 o1]. cbn [fst snd] in *. subst o1. split; try done. by etrans.
  - apply Nat.eqb_neq in Hc. split; try done; cbn [with_queues et_queues]; [by rewrite list_lookup_alter_ne|].
    split; [|done]. apply list.Forall_alter; [done|]. intros q _ [x ->]. by eexists.
  - apply Nat.eqb_neq in Hc. split; try done; cbn [with_queues et_queues]; [by rewrite list_lookup_alter_ne|].
    split; [|done]. apply list.Forall_alter; [done|]. intros q _ [x ->]. by eexists.
Qed.
Lemma run_alike n steps t t' : Forall stays steps -> tasks_alike t t' ->
  tasks_alike (fold_left (engine_task n) steps t) (fold_left (engine_task n) (filter (fun st => concerns st = true) steps) t').
Proof.
  intros Hs. revert t t'. induction Hs as [|st steps Hst _ IH]; intros t t' Ht; [done|]. cbn [fold_left]. destruct (concerns st) eqn:Ec.
  - rewrite list.filter_cons_True by done. cbn [fold_left]. apply IH. by apply step_own.
  - rewrite list.filter_cons_False by congruence. apply IH. by apply step_other.
Qed.
End View.

Section Isolated.
Context `{Json, Hex, !HashIter Z Aircraft}.

(** C5: a server's queue does not depend on the other servers.  Of everything that happens to
    the engine's task, take away what the others request, withdraw, forget by reconnecting,
    and take from their queues, or fail to take: the queue holds the same messages, in the
    same order.  The order of a table is assumed to be that of its addresses, and every
    session's task to be there. *)
Theorem servers_isolated s n_srv user t0 steps :
  (forall m m' : gmap Z Aircraft, dom m = dom m' -> (hash_iter m).*1 = (hash_iter m').*1) -> Forall stays steps ->
  let run l := fold_left (engine_task n_srv) l (EngineTask_new user t0 n_srv) in
  et_queues (run steps) !! s = et_queues (run (filter (fun st => concerns s st = true) steps)) !! s /\
  et_live (run steps) = true.
Proof.
  intros Hord Hst run. assert (tasks_alike s (EngineTask_new user t0 n_srv) (EngineTask_new user t0 n_srv)) as Ht.
  { split; try done. cbn. split; (apply list.Forall_replicate; by eexists). }
  destruct (run_alike s Hord n_srv steps _ _ Hst Ht) as [_ Hq [Hl _] _]. by split.
Qed.
(** A session's task that is gone ends the engine's for every server, at the first message
    for its own: no queue gets anything after that (main.rs, the return at Closed). *)
Theorem gone_ends_all n_srv t ev now s m steps : et_live t = true -> et_queues t !! s = Some None ->
  (s, m) ∈ (engine_event n_srv (et_engine t) ev now).2 ->
  let t' := engine_task n_srv t (TaskEvent ev now) in
  et_live t' = false /\ forall s' q q', et_queues t' !! s' = Some (Some q) ->
    et_queues (fold_left (engine_task n_srv) steps t') !! s' = Some (Some q') -> (length q' <= length q)%nat.
Proof.
  intros Hl Hq Hm. cbn [engine_task]. rewrite Hl. destruct (engine_event n_srv (et_engine t) ev now) as [e msgs]. cbn [snd] in Hm.
  assert ((offer (et_queues t) msgs).2 = false) as Hoff.
  { revert Hq Hm. generalize (et_queues t). induction msgs as [|[s0 m0] msgs IH]; intros qs Hq Hm; [by apply elem_of_nil in Hm|]. cbn [offer].
    destruct (decide (s0 = s)) as [->|Hne]; [by rewrite Hq|]. apply elem_of_cons in Hm as [[= -> ->]|Hm]; [done|].
    destruct (qs !! s0) as [[q0|]|]; try done; apply IH; try done; by rewrite list_lookup_alter_ne. }
  destruct (offer (et_queues t) msgs) as [qs live]. cbn [snd] in Hoff. subst live. cbv zeta. split; [done|].
  intros s' q q'. cbn [et_queues]. set (t1 := {| et_engine := e; et_queues := qs; et_live := false |}). intros Hq1.
  assert (forall l t, et_live t = false -> match et_queues t !! s' with Some (Some x) => (length x <= length q)%nat | _ => True end ->
    match et_queues (fold_left (engine_task n_srv) l t) !! s' with Some (Some x) => (length x <= length q)%nat | _ => True end) as Hall.
  { clear. induction l as [|st l IH]; intros t Hl Ht; [done|]. cbn [fold_left]. apply IH.
    - destruct st; cbn [engine_task]; try done. by rewrite Hl.
    - destruct st as [ev now| |s0|s0|s0]; cbn [engine_task]; try done; [by rewrite Hl|..]; cbn [with_queues et_queues];
        (destruct (decide (s0 = s')) as [->|]; [rewrite list_lookup_alter_eq|by rewrite list_lookup_alter_ne]);
        destruct (et_queues t !! s') as [[x|]|]; cbn; try done; rewrite ?length_drop; lia. }
  intros Hq'. specialize (Hall steps t1 eq_refl). cbn [t1 et_queues] in Hall. rewrite Hq1, Hq' in Hall. by apply Hall.
Qed.
End Isolated.

(** ** Two servers *)
Section Sample.
#[local] Existing Instance json_tree.
#[local] Existing Instance hex_tree.
#[local] Instance address_order : HashIter Z Aircraft := hash_iter_list Z Aircraft.
(** The order of the map's list is a function of its keys. *)
Lemma address_order_keys (m m' : gmap Z Aircraft) : dom m = dom m' -> (hash_iter m).*1 = (hash_iter m').*1.
Proof.
  intros Hd. cbn [hash_iter address_order hash_iter_list]. assert ((fun _ => ()) <$> m = (fun _ => ()) <$> m') as E.
  { apply map_eq. intros k. rewrite !lookup_fmap. assert (k ∈ dom m <-> k ∈ dom m') as Hk by by rewrite Hd. rewrite !elem_of_dom in Hk.
    destruct (m !! k), (m' !! k); try done; [by destruct (proj1 Hk (mk_is_Some _ _ eq_refl)) as [? ?]|by destruct (proj2 Hk (mk_is_Some _ _ eq_refl)) as [? ?]]. }
  apply (f_equal (fun x => (map_to_list x).*1)) in E. by rewrite !map_to_list_fmap, <- !list_fmap_compose in E.
Qed.
(** The other server requests the aircraft, reconnects and never takes from its queue. *)
Definition two_steps : list TaskStep :=
  [TaskEvent (Some InputUp) 0; TaskEvent (Some (Receptions [{| counts_12mhz := 12000000; frame := frame_even |}])) 1000000000;
   TaskEvent None 2000000000; TaskEvent (Some (EvStart 0 ["40621d"%string])) 2100000000; TaskEvent (Some (EvStart 1 ["40621d"%string])) 2200000000;
   TaskTake 0; TaskEvent (Some (Receptions [{| counts_12mhz := 18000000; frame := frame_odd |}])) 3000000000; TaskEvent (Some (EvServerReset 1)) 3100000000].
Lemma servers_isolated_witness :
  let run l := fold_left (engine_task 2) l (EngineTask_new "u" 0 2) in
  et_queues (run two_steps) !! 0%nat = et_queues (run (filter (fun st => concerns 0 st = true) two_steps)) !! 0%nat /\
  length (filter (fun st => concerns 0 st = true) two_steps) = 6%nat /\
  option_map (option_map (@length ClientMsg)) (et_queues (run two_steps) !! 0%nat) = Some (Some 2%nat).
Proof.
  cbv zeta. split_and!; [|vm_compute; reflexivity|vm_compute; reflexivity].
  apply (servers_isolated 0 2 "u" 0 two_steps address_order_keys). repeat constructor.
Defined.
End Sample.
