(* ===== verification/Trajectory.v ===== *)
(** * Trajectories of the simulated aircraft (crates/mb-sim/src/traj.rs)

    Where an aircraft is at a time: a great-circle leg flown at constant speed, or an orbit;
    over any arithmetic.  The theorems are over the reals. *)
From S2P Require Import Prelude F64 Num Geo.
Local Open Scope Z_scope.

(** A point of a scenario file: latitude and longitude in degrees, altitude in feet. *)
Record Waypoint (F : Type) := mkWaypoint { w_lat : F; w_lon : F; w_alt_ft : F }.
Arguments mkWaypoint {F} _ _ _.
Arguments w_lat {F} _.
Arguments w_lon {F} _.
Arguments w_alt_ft {F} _.
Inductive Trajectory (F : Type) :=
| GreatCircle (from to : Waypoint F) (gs_kts : F)
| Orbit (center : Waypoint F) (radius_m gs_kts : F) (clockwise : bool).
Arguments GreatCircle {F} _ _ _.
Arguments Orbit {F} _ _ _ _.

Section Code.
Context `{Num F, Elem F}.
Local Open Scope num_scope.

Definition KTS_TO_MPS : F := nlit 514444 1000000.
Definition FT_TO_M : F := nlit 3048 10000.

Definition unit_vec (g : Geodetic F) : Ecef F :=
  let lat := to_rad (lat_deg g) in
  let lon := to_rad (lon_deg g) in
  {| ex := ecos lat * ecos lon; ey := ecos lat * esin lon; ez := esin lat |}.
Definition dot (a b : Ecef F) : F := ex a * ex b + ey a * ey b + ez a * ez b.
(** The interpolated direction. *)
Definition slerp_dir (va vb : Ecef F) (omega f : F) : Ecef F :=
  let so := esin omega in
  let ka := esin ((#1 - f) * omega) / so in
  let kb := esin (f * omega) / so in
  {| ex := ka * ex va + kb * ex vb; ey := ka * ey va + kb * ey vb; ez := ka * ez va + kb * ez vb |}.
Definition slerp (a b : Geodetic F) (f : F) : Geodetic F :=
  let va := unit_vec a in
  let vb := unit_vec b in
  let omega := eacos (nclamp (dot va vb) (- #1) (#1)) in
  if omega <? nlit 1 1000000000000 then a
  else
    let v := slerp_dir va vb omega f in
    {| lat_deg := to_deg (eatan2 (ez v) (nsqrt (ex v * ex v + ey v * ey v)));
       lon_deg := to_deg (eatan2 (ey v) (ex v)); alt_m := #0 |}.

Definition waypoint_pos (w : Waypoint F) (alt : F) : Geodetic F :=
  {| lat_deg := w_lat w; lon_deg := w_lon w; alt_m := alt |}.
Definition leg_m (a b : Geodetic F) : F := nmax (haversine_m a b) (#1).

Definition position_at (tr : Trajectory F) (t_s : F) : Geodetic F :=
  match tr with
  | GreatCircle from to gs_kts =>
      let a := waypoint_pos from (w_alt_ft from * FT_TO_M) in
      let b := waypoint_pos to (w_alt_ft to * FT_TO_M) in
      let dist_m := leg_m a b in
      let f := gs_kts * KTS_TO_MPS * t_s / dist_m in
      let p := slerp a b f in
      {| lat_deg := lat_deg p; lon_deg := lon_deg p;
         alt_m := alt_m a + (alt_m b - alt_m a) * nclamp f (#0) (#1) |}
  | Orbit center radius_m gs_kts clockwise =>
      let omega := gs_kts * KTS_TO_MPS / nmax radius_m (#1) in
      let theta := if clockwise then - omega * t_s else omega * t_s in
      let '(east, north) := (radius_m * ecos theta, radius_m * esin theta) in
      let m_lat := #111320 in
      let m_lon := m_lat * nmax (ecos (to_rad (w_lat center))) (nlit 5 100) in
      {| lat_deg := w_lat center + north / m_lat; lon_deg := w_lon center + east / m_lon;
         alt_m := w_alt_ft center * FT_TO_M |}
  end.
Definition gs_mps (tr : Trajectory F) : F :=
  match tr with GreatCircle _ _ gs_kts | Orbit _ _ gs_kts _ => gs_kts * KTS_TO_MPS end.
Definition vrate_mps (tr : Trajectory F) (t_s : F) : F :=
  match tr with
  | GreatCircle from to gs_kts =>
      let a := waypoint_pos from (#0) in
      let b := waypoint_pos to (#0) in
      let dist_m := leg_m a b in
      let leg_s := dist_m / (gs_kts * KTS_TO_MPS) in
      if t_s <? leg_s then (w_alt_ft to - w_alt_ft from) * FT_TO_M / leg_s else #0
  | Orbit _ _ _ _ => #0
  end.
End Code.

(** ** Over the reals *)
Section Exact.
Local Open Scope R_scope.

(** The radius of the mean sphere. *)
Definition EARTH_R : R := 63710008 / 10.

Lemma to_rad_deg x : to_rad (to_deg x) = x.
Proof. unfold to_rad, to_deg. real_ops. change npi with PI. field. exact PI_neq0. Qed.

Lemma unit_norm g : dot (unit_vec g) (unit_vec g) = 1.
Proof.
  unfold dot, unit_vec. cbn [ex ey ez]. real_ops.
  set (p := to_rad (lat_deg g)). set (l := to_rad (lon_deg g)).
  pose proof (sin_cos_sq p). pose proof (sin_cos_sq l) as Hl.
  transitivity (cos p * cos p * (sin l * sin l + cos l * cos l) + sin p * sin p); [ring|]. rewrite Hl. lra.
Qed.
(** Cauchy and Schwarz, for unit vectors. *)
Lemma dot_range (u v : Ecef R) : dot u u = 1 -> dot v v = 1 -> -1 <= dot u v <= 1.
Proof.
  unfold dot. real_ops. intros Hu Hv. pose proof (Rle_0_sqr (ex u - ex v)). pose proof (Rle_0_sqr (ey u - ey v)).
  pose proof (Rle_0_sqr (ez u - ez v)). pose proof (Rle_0_sqr (ex u + ex v)). pose proof (Rle_0_sqr (ey u + ey v)).
  pose proof (Rle_0_sqr (ez u + ez v)). unfold Rsqr in *. lra.
Qed.
Lemma dot_sym (u v : Ecef R) : dot u v = dot v u.
Proof. unfold dot. real_ops. ring. Qed.

(** Angles on a great circle. *)
Lemma slerp_dir_dot (va vb : Ecef R) w f g : dot va va = 1 -> dot vb vb = 1 -> dot va vb = cos w -> sin w <> 0 ->
  dot (slerp_dir va vb w f) (slerp_dir va vb w g) = cos ((f - g) * w).
Proof.
  intros Ha Hb Hab Hw.
  assert (dot (slerp_dir va vb w f) (slerp_dir va vb w g) =
    (sin ((1 - f) * w) * sin ((1 - g) * w) * dot va va + sin (f * w) * sin (g * w) * dot vb vb
      + dot va vb * (sin ((1 - f) * w) * sin (g * w) + sin (f * w) * sin ((1 - g) * w))) / (sin w * sin w)) as ->
    by (unfold dot, slerp_dir; cbn [ex ey ez]; real_ops; field; done).
  rewrite Ha, Hb, Hab.
  assert (forall h, sin ((1 - h) * w) = sin w * cos (h * w) - cos w * sin (h * w)) as E
    by (intros h; rewrite <- sin_minus; f_equal; ring).
  rewrite !E. replace ((f - g) * w) with (f * w - g * w) by ring. rewrite cos_minus.
  set (S := sin w) in *. set (C := cos w). pose proof (sin_cos_sq w) as HS. fold S C in HS.
  set (s1 := sin (f * w)). set (c1 := cos (f * w)). set (s2 := sin (g * w)). set (c2 := cos (g * w)).
  apply (Rmult_eq_reg_r (S * S)); [|by apply Rmult_integral_contrapositive].
  unfold Rdiv. rewrite Rmult_assoc, Rinv_l, Rmult_1_r by by apply Rmult_integral_contrapositive.
  transitivity (S * S * (c1 * c2) + (1 - C * C) * (s1 * s2)); [ring|].
  replace (1 - C * C) with (S * S) by lra. ring.
Qed.
Lemma slerp_dir_0 (va vb : Ecef R) w : sin w <> 0 -> slerp_dir va vb w 0 = va.
Proof.
  intros Hw. destruct va as [x y z]. unfold slerp_dir. cbn [ex ey ez]. real_ops.
  rewrite Rminus_0_r, Rmult_1_l, Rmult_0_l, sin_0. f_equal; field; done.
Qed.
Lemma slerp_dir_1 (va vb : Ecef R) w : sin w <> 0 -> slerp_dir va vb w 1 = vb.
Proof.
  intros Hw. destruct vb as [x y z]. unfold slerp_dir. cbn [ex ey ez]. real_ops.
  rewrite Rminus_diag, Rmult_1_l, Rmult_0_l, sin_0. f_equal; field; done.
Qed.

(** Polar coordinates. *)
Lemma Ratan2_polar x y : let r := sqrt (x * x + y * y) in r * cos (Ratan2 y x) = x /\ r * sin (Ratan2 y x) = y.
Proof.
  cbv zeta. assert (forall t, cos (atan t) = / sqrt (1 + t * t) /\ sin (atan t) = t * / sqrt (1 + t * t)) as Hat.
  { intros t. rewrite cos_atan, sin_atan. unfold Rsqr. split; field; apply Rgt_not_eq, sqrt_lt_R0; nra. }
  assert (forall u, 0 < u -> sqrt (u * u + y * y) = u * sqrt (1 + y / u * (y / u))) as Hr.
  { intros u Hu. replace (u * u + y * y) with (u * u * (1 + y / u * (y / u))) by (field; lra).
    rewrite sqrt_mult by nra. by rewrite sqrt_square by lra. }
  assert (forall t, 0 < sqrt (1 + t * t)) as Hp by (intros t; apply sqrt_lt_R0; nra).
  unfold Ratan2. destruct (Rlt_dec 0 x) as [Hx|Hx].
  - rewrite Hr by done. destruct (Hat (y / x)) as [-> ->]. pose proof (Hp (y / x)). split; field; lra.
  - destruct (Rlt_dec x 0) as [Hx'|Hx'].
    + replace (x * x) with (- x * - x) by ring. rewrite Hr by lra.
      replace (y / - x) with (- (y / x)) by (field; lra). replace (- (y / x) * - (y / x)) with (y / x * (y / x)) by ring.
      destruct (Hat (y / x)) as [Ec Es]. pose proof (Hp (y / x)).
      destruct (Rle_dec 0 y); rewrite ?neg_cos, ?neg_sin, ?cos_minus, ?sin_minus, ?cos_PI, ?sin_PI, Ec, Es; split; field; lra.
    + replace x with 0 by lra. rewrite Rmult_0_l, Rplus_0_l.
      destruct (Rlt_dec 0 y) as [Hy|Hy]; [rewrite sqrt_square, cos_PI2, sin_PI2 by lra; split; ring|].
      destruct (Rlt_dec y 0) as [Hy'|Hy'].
      * replace (y * y) with (- y * - y) by ring. replace (- PI / 2) with (- (PI / 2)) by (unfold Rdiv; ring).
        rewrite sqrt_square, cos_neg, sin_neg, cos_PI2, sin_PI2 by lra. split; ring.
      * replace y with 0 by lra. rewrite Rmult_0_l, sqrt_0. split; ring.
Qed.
(** Latitude and longitude of a direction give it back. *)
Lemma unit_of_direction (v : Ecef R) alt : dot v v = 1 ->
  unit_vec {| lat_deg := to_deg (Ratan2 (ez v) (sqrt (ex v * ex v + ey v * ey v)));
              lon_deg := to_deg (Ratan2 (ey v) (ex v)); alt_m := alt |} = v.
Proof.
  destruct v as [x y z]. unfold dot. cbn [ex ey ez]. real_ops. intros Hv.
  unfold unit_vec. cbn [lat_deg lon_deg]. rewrite !to_rad_deg. real_ops.
  set (r := sqrt (x * x + y * y)).
  assert (r * r = x * x + y * y) as Hr by (apply sqrt_sqrt; nra).
  destruct (Ratan2_polar r z) as [Ec Es]. rewrite Hr, Hv, sqrt_1, Rmult_1_l in Ec, Es.
  destruct (Ratan2_polar x y) as [Ec' Es']. fold r in Ec', Es'. by rewrite Ec, Es, Ec', Es'.
Qed.

(** The haversine distance is the mean radius times the angle between the directions. *)
Lemma haversine_angle (a b : Geodetic R) : haversine_m a b = EARTH_R * acos (dot (unit_vec a) (unit_vec b)).
Proof.
  set (d := dot (unit_vec a) (unit_vec b)).
  assert (-1 <= d <= 1) as Hd by (apply dot_range; apply unit_norm).
  set (w := acos d). assert (0 <= w <= PI) as Hw by apply acos_bound. assert (cos w = d) as Hcos by by apply cos_acos.
  unfold haversine_m. real_ops.
  set (h := powerRZ _ _ + _).
  assert (h = sin (w / 2) * sin (w / 2)) as ->.
  { assert (forall x, sin (x / 2) * sin (x / 2) = (1 - cos x) / 2) as Hhalf.
    { intros x. replace (cos x) with (cos (2 * (x / 2))) by (f_equal; field). rewrite cos_2a_sin. field. }
    rewrite Hhalf, Hcos. unfold h, d, dot, unit_vec. cbn [ex ey ez powerRZ]. real_ops. change (Pos.to_nat 2) with 2%nat. cbn [pow].
    rewrite !Rmult_1_r, !Hhalf.
    assert (to_rad (lon_deg b - lon_deg a) = to_rad (lon_deg b) - to_rad (lon_deg a)) as -> by (unfold to_rad; real_ops; ring).
    rewrite !cos_minus. field. }
  rewrite sqrt_square by (apply sin_ge_0; lra). change (easin ?x) with (asin x).
  rewrite asin_sin by lra. unfold EARTH_R. change (nlit ?n ?m) with (IZR (Zpos n) / IZR (Zpos m)). field.
Qed.

(** The direction of an interpolated position: a leg of at least a meter, short of half the
    circumference. *)
Lemma slerp_direction (a b : Geodetic R) f alt : 1 <= haversine_m a b < EARTH_R * PI ->
  let w := haversine_m a b / EARTH_R in
  sin w <> 0 /\ dot (unit_vec a) (unit_vec b) = cos w /\
  unit_vec {| lat_deg := lat_deg (slerp a b f); lon_deg := lon_deg (slerp a b f); alt_m := alt |} = slerp_dir (unit_vec a) (unit_vec b) w f.
Proof.
  rewrite haversine_angle. set (d := dot (unit_vec a) (unit_vec b)). intros Hleg.
  assert (-1 <= d <= 1) as Hd by (apply dot_range; apply unit_norm).
  assert (0 < EARTH_R) as HR by (unfold EARTH_R; lra). cbv zeta.
  replace (EARTH_R * acos d / EARTH_R) with (acos d) by (field; lra).
  set (w := acos d) in *. assert (cos w = d) as Hcos by by apply cos_acos.
  assert (1 / 10000000 < w < PI) as Hw by (unfold EARTH_R in *; split; nra).
  assert (sin w <> 0) as Hsin by (apply Rgt_not_eq, sin_gt_0; lra). split_and!; [done|done|].
  assert (nclamp d (nneg (nZ 1)) (nZ 1) = d) as Hcl.
  { unfold nclamp. real_ops. unfold Rltb. destruct (Rlt_dec d (- (1))); [lra|]. by destruct (Rlt_dec 1 d); [lra|]. }
  unfold slerp. fold d. rewrite Hcl. change (eacos d) with (acos d). fold w. real_ops. unfold Rltb.
  destruct (Rlt_dec w (nlit 1 1000000000000)) as [Hlt|_].
  { change (nlit 1 1000000000000) with (1 / 1000000000000) in Hlt. lra. }
  cbn [lat_deg lon_deg]. change (eatan2 ?y ?x) with (Ratan2 y x). apply unit_of_direction.
  rewrite (slerp_dir_dot _ _ w) by (done || apply unit_norm). by rewrite Rminus_diag, Rmult_0_l, cos_0.
Qed.

(** C39: an aircraft on a great-circle leg flies at its speed: over the reals, and on the mean
    sphere of the code's own distances, the positions at two times are apart by the speed
    times the time between (up to half the circumference); it starts over [from], is over
    [to] at the leg's end and climbs at the rate reported on the way. *)
Theorem leg_constant_speed (from to : Waypoint R) gs t s :
  let tr := GreatCircle from to gs in
  let d := haversine_m (waypoint_pos from 0) (waypoint_pos to 0) in
  1 <= d < EARTH_R * PI -> 0 < gs -> Rabs (gs_mps tr * (t - s)) <= EARTH_R * PI ->
  haversine_m (position_at tr t) (position_at tr s) = Rabs (gs_mps tr * (t - s)) /\
  unit_vec (position_at tr 0) = unit_vec (waypoint_pos from 0) /\
  unit_vec (position_at tr (d / gs_mps tr)) = unit_vec (waypoint_pos to 0) /\
  (0 <= t < d / gs_mps tr -> alt_m (position_at tr t) = w_alt_ft from * FT_TO_M + vrate_mps tr t * t).
Proof.
  cbv zeta. intros Hd Hgs Hts. set (d := haversine_m _ _) in *.
  set (v := gs_mps (GreatCircle from to gs)) in *. assert (gs * KTS_TO_MPS = v) as Hv by done.
  assert (0 < v) as Hv0 by (rewrite <- Hv; unfold KTS_TO_MPS; change (nlit ?n ?m) with (IZR (Zpos n) / IZR (Zpos m)); lra).
  assert (0 < EARTH_R) as HR by (unfold EARTH_R; lra).
  assert (forall x y, leg_m (waypoint_pos from x) (waypoint_pos to y) = d) as Hleg
    by (intros x y; unfold leg_m; real_ops; apply Rmax_left, Hd).
  assert (forall u, unit_vec (position_at (GreatCircle from to gs) u)
    = slerp_dir (unit_vec (waypoint_pos from 0)) (unit_vec (waypoint_pos to 0)) (d / EARTH_R) (v * u / d)) as Hdir.
  { intros u. cbn [position_at]. rewrite Hleg.
    exact (proj2 (proj2 (slerp_direction (waypoint_pos from (w_alt_ft from * FT_TO_M)%num) (waypoint_pos to (w_alt_ft to * FT_TO_M)%num) _ _ Hd))). }
  destruct (slerp_direction (waypoint_pos from 0) (waypoint_pos to 0) 0 0 Hd) as (Hsin & Hcos & _). fold d in Hsin, Hcos.
  split_and!.
  - rewrite haversine_angle, !Hdir, (slerp_dir_dot _ _ (d / EARTH_R)) by (done || apply unit_norm).
    replace ((v * t / d - v * s / d) * (d / EARTH_R)) with (v * (t - s) / EARTH_R) by (field; lra).
    set (x := v * (t - s) / EARTH_R). assert (v * (t - s) = EARTH_R * x) as Ex by (unfold x; field; lra).
    rewrite Ex, Rabs_mult, (Rabs_right EARTH_R) in Hts |- * by lra.
    assert (Rabs x <= PI) as Hx by (apply (Rmult_le_reg_l EARTH_R); done).
    assert (cos x = cos (Rabs x)) as -> by (unfold Rabs; destruct (Rcase_abs x); [by rewrite cos_neg|done]).
    rewrite acos_cos; [done|]. split; [apply Rabs_pos|done].
  - rewrite Hdir. replace (v * 0 / d) with 0 by (field; lra). by apply slerp_dir_0.
  - rewrite Hdir. replace (v * (d / v) / d) with 1 by (field; lra). by apply slerp_dir_1.
  - intros Ht. cbn [position_at vrate_mps]. rewrite !Hleg. cbn [alt_m waypoint_pos]. real_ops.
    assert (v * t < d) as Hvt by (apply (Rmult_lt_reg_r (/ v)); [by apply Rinv_0_lt_compat|]; replace (v * t * / v) with t by (field; lra); apply Ht).
    unfold nclamp. real_ops. unfold Rltb.
    destruct (Rlt_dec (gs * KTS_TO_MPS * t / d) 0) as [Hlt|_].
    { exfalso. rewrite Hv in Hlt. apply (Rmult_lt_compat_r d) in Hlt; [|lra]. replace (v * t / d * d) with (v * t) in Hlt by (field; lra).
      pose proof (Rmult_le_pos v t). lra. }
    destruct (Rlt_dec 1 (gs * KTS_TO_MPS * t / d)) as [Hlt|_].
    { exfalso. rewrite Hv in Hlt. apply (Rmult_lt_compat_r d) in Hlt; [|lra]. replace (v * t / d * d) with (v * t) in Hlt by (field; lra). lra. }
    destruct (Rlt_dec t (d / (gs * KTS_TO_MPS))) as [_|Hn]; [|by destruct Hn; apply Ht].
    rewrite Hv. field. split; lra.
Qed.

(** An orbit stays on its circle, in the plane the code works in. *)
Lemma orbit_on_circle (c : Waypoint R) r gs cw t : 5 / 100 <= cos (to_rad (w_lat c)) ->
  let p := position_at (Orbit c r gs cw) t in
  ((lat_deg p - w_lat c) * 111320) ^ 2 + ((lon_deg p - w_lon c) * (111320 * cos (to_rad (w_lat c)))) ^ 2 = r ^ 2.
Proof.
  intros Hc. cbv zeta. cbn [position_at]. real_ops. change (nlit 5 100) with (5 / 100). rewrite (Rmax_left (cos _)) by lra.
  cbn [lat_deg lon_deg]. set (th := if cw then _ else _). pose proof (sin_cos_sq th) as E.
  transitivity (r ^ 2 * (sin th * sin th + cos th * cos th)); [field; lra|]. rewrite E. ring.
Qed.
End Exact.

(** A quarter of the equator. *)
Section Sample.
Local Open Scope R_scope.
Definition quarter : Trajectory R := GreatCircle (mkWaypoint 0 0 30000) (mkWaypoint 0 90 34000) 450.
Lemma leg_constant_speed_witness :
  haversine_m (position_at quarter 3600) (position_at quarter 0) = Rabs (gs_mps quarter * (3600 - 0)).
Proof.
  assert (3 < PI) as Hpi by (pose proof PI2_3_2; lra).
  apply (leg_constant_speed (mkWaypoint 0 0 30000) (mkWaypoint 0 90 34000) 450 3600 0).
  - rewrite haversine_angle.
    assert (dot (unit_vec (waypoint_pos (mkWaypoint 0 0 30000) 0)) (unit_vec (waypoint_pos (mkWaypoint 0 90 34000) 0)) = 0) as ->.
    { unfold dot, unit_vec, waypoint_pos, to_rad. cbn [lat_deg lon_deg w_lat w_lon ex ey ez]. real_ops. change (@npi R _) with PI.
      replace (90 * (PI / 180)) with (PI / 2) by field. rewrite !Rmult_0_l, sin_0, cos_PI2. ring. }
    rewrite acos_0. unfold EARTH_R. lra.
  - lra.
  - unfold gs_mps, KTS_TO_MPS. change (nlit ?n ?m) with (IZR (Zpos n) / IZR (Zpos m)). real_ops. unfold EARTH_R.
    rewrite Rabs_right by lra. lra.
Defined.
End Sample.
