(* ===== verification/SimClock.v ===== *)
(** * Receiver clocks of the simulator (crates/mb-sim/src/clock.rs, mb-core's rng_for)

    The counter value a receiver stamps on a reception at a true time: frequency offset,
    drift, jitter, and for hostile clocks a random walk and jumps.  The random streams are an
    interface; the natural logarithm is the platform's. *)
From S2P Require Import Prelude F64 Num Text.
Local Open Scope Z_scope.

(** [sha2], [rand] and [rand_chacha]: a stream seeded from 32 bytes, and a uniform draw
    from [lo..hi] (or [lo..=hi]). *)
Class Rand := {
  Stream : Type;
  sha256 : list Z -> list Z;
  from_seed : list Z -> Stream;
  gen_range : f64 -> f64 -> Stream -> f64 * Stream;
  gen_range_incl : f64 -> f64 -> Stream -> f64 * Stream
}.
Class Ln (F : Type) := eln : F -> F.

(** A clock of a scenario file. *)
Inductive ClockSpec :=
| SpecDump1090 (offset_ppm drift_ppm_per_hr jitter_ns : f64) (start_count : Z) (wander_ppm_sqrt_hr jump_prob_per_min : f64)
| SpecRadarcapeGps (jitter_ns : f64).

Section Code.
Context `{Rand, Elem f64, Ln f64}.

(** What is hashed to seed a stream. *)
Definition le64_bytes (z : Z) : list Z := (fun i => u8 (Z.shiftr z (8 * Z.of_nat i))) <$> seq 0 8.
Definition rng_input (seed : Z) (stream : string) : list Z := le64_bytes seed ++ [0x1f] ++ bytes_of stream.
Definition rng_for (seed : Z) (stream : string) : Stream := from_seed (sha256 (rng_input seed stream)).

Definition WRAP_48 : Z := Z.shiftl 1 48.
Definition EPSILON : f64 := lit 1 4503599627370496.

Record ClockModel := {
  freq_hz : f64; offset : f64; drift_per_s : f64; jitter_s : f64; start_count : Z;
  last_count : option Z; wraps : bool;
  wander_per_sqrt_s : f64; jump_prob_per_s : f64; hostile_rng : option Stream;
  wander_accum : f64; wander_phase_s : f64; last_t : f64
}.
Definition ClockModel_new (spec : ClockSpec) : ClockModel :=
  match spec with
  | SpecDump1090 offset_ppm drift_ppm_per_hr jitter_ns start wander_ppm_sqrt_hr jump_prob_per_min =>
      {| freq_hz := of_Z 12000000; offset := (offset_ppm * lit 1 1000000)%f64;
         drift_per_s := (drift_ppm_per_hr * lit 1 1000000 / of_Z 3600)%f64; jitter_s := (jitter_ns * lit 1 1000000000)%f64;
         start_count := start; last_count := None; wraps := true;
         wander_per_sqrt_s := (wander_ppm_sqrt_hr * lit 1 1000000 / of_Z 60)%f64;
         jump_prob_per_s := (jump_prob_per_min / of_Z 60)%f64; hostile_rng := None;
         wander_accum := fzero; wander_phase_s := fzero; last_t := fzero |}
  | SpecRadarcapeGps jitter_ns =>
      {| freq_hz := of_Z 1000000000; offset := fzero; drift_per_s := fzero; jitter_s := (jitter_ns * lit 1 1000000000)%f64;
         start_count := 0; last_count := None; wraps := false; wander_per_sqrt_s := fzero; jump_prob_per_s := fzero;
         hostile_rng := None; wander_accum := fzero; wander_phase_s := fzero; last_t := fzero |}
  end.
Definition set_hostile_rng (rng : Stream) (m : ClockModel) : ClockModel :=
  {| freq_hz := freq_hz m; offset := offset m; drift_per_s := drift_per_s m; jitter_s := jitter_s m; start_count := start_count m;
     last_count := last_count m; wraps := wraps m; wander_per_sqrt_s := wander_per_sqrt_s m; jump_prob_per_s := jump_prob_per_s m;
     hostile_rng := Some rng; wander_accum := wander_accum m; wander_phase_s := wander_phase_s m; last_t := last_t m |}.
Definition is_hostile (m : ClockModel) : bool := (wander_per_sqrt_s m >? fzero)%f64 || (jump_prob_per_s m >? fzero)%f64.
Definition wire_clock_type (spec : ClockSpec) : string :=
  match spec with SpecDump1090 _ _ _ _ _ _ => "dump1090" | SpecRadarcapeGps _ => "radarcape_gps" end.

(** Box and Muller. *)
Definition gaussian (s : Stream) : f64 * Stream :=
  let '(u1, s) := gen_range EPSILON (of_Z 1) s in
  let '(u2, s) := gen_range fzero (of_Z 1) s in
  ((fsqrt (fneg (of_Z 2) * eln u1) * ecos (of_Z 2 * F64.PI * u2))%f64, s).

(** The random walk and the jump of a hostile clock over [dt]: accumulated offset, phase,
    the stream, and whether the counter jumped. *)
Definition wander (m : ClockModel) (dt : f64) (h : Stream) : f64 * f64 * Stream * bool :=
  let '(accum, phase, h) :=
    if (wander_per_sqrt_s m >? fzero)%f64 && (dt >? fzero)%f64 then
      let phase := (wander_phase_s m + wander_accum m * dt)%f64 in
      let '(g, h) := gaussian h in
      ((wander_accum m + g * wander_per_sqrt_s m * fsqrt dt)%f64, phase, h)
    else (wander_accum m, wander_phase_s m, h) in
  if (jump_prob_per_s m >? fzero)%f64 then
    let '(u, h) := gen_range fzero (of_Z 1) h in
    if (u <? jump_prob_per_s m * dt)%f64 then
      let '(a, h) := gen_range (of_Z 1) (of_Z 100) h in
      let '(b, h) := gen_range fzero (of_Z 1) h in
      let ms := (a * (if b <? lit 1 2 then fneg (of_Z 1) else of_Z 1))%f64 in
      (accum, (phase + ms / of_Z 1000)%f64, h, true)
    else (accum, phase, h, false)
  else (accum, phase, h, false).

(** The counter of a phase, before the clamp. *)
Definition raw_count (m : ClockModel) (phase_s : f64) : Z :=
  let raw := (of_Z (start_count m) + phase_s * freq_hz m)%f64 in
  if wraps m then as_i128 (fround raw) mod WRAP_48 else as_u64 (fmax (fround raw) fzero).
(** The monotonic clamp, not across a wrap. *)
Definition clamp_count (m : ClockModel) (last : option Z) (count : Z) : Z :=
  match last with
  | Some prev =>
      let wrapped := wraps m && (WRAP_48 - as_u64 (freq_hz m) <? prev) && (count <? prev) in
      if negb wrapped && (count <=? prev) then u64 (prev + 1) else count
  | None => count
  end.
Definition count_at_hostile (m : ClockModel) (t_s : f64) (rng : Stream) : Z * bool * ClockModel * Stream :=
  let dt := fmax (t_s - last_t m)%f64 fzero in
  let '(accum, phase, h, jumped) :=
    match hostile_rng m with
    | Some h => let '(accum, phase, h, jumped) := wander m dt h in (accum, phase, Some h, jumped)
    | None => (wander_accum m, wander_phase_s m, None, false)
    end in
  let '(g, rng) := gaussian rng in
  let jitter := (g * jitter_s m)%f64 in
  let phase_s := (t_s * (of_Z 1 + offset m) + lit 1 2 * drift_per_s m * t_s * t_s + phase + jitter)%f64 in
  let count := clamp_count m (if jumped then None else last_count m) (raw_count m phase_s) in
  (count, jumped,
   {| freq_hz := freq_hz m; offset := offset m; drift_per_s := drift_per_s m; jitter_s := jitter_s m; start_count := start_count m;
      last_count := Some count; wraps := wraps m; wander_per_sqrt_s := wander_per_sqrt_s m; jump_prob_per_s := jump_prob_per_s m;
      hostile_rng := h; wander_accum := accum; wander_phase_s := phase; last_t := t_s |}, rng).
Definition count_at (m : ClockModel) (t_s : f64) (rng : Stream) : Z * ClockModel * Stream :=
  let '(count, _, m, rng) := count_at_hostile m t_s rng in (count, m, rng).
End Code.

(** ** The counter *)
Section Counter.
Context `{Rand, Elem f64, Ln f64}.

(** Seeds and streams are told apart by what is hashed. *)
Lemma le64_bytes_length z : length (le64_bytes z) = 8%nat.
Proof. done. Qed.
Lemma le64_bytes_inj a b : 0 <= a < 2 ^ 64 -> 0 <= b < 2 ^ 64 -> le64_bytes a = le64_bytes b -> a = b.
Proof.
  intros Ha Hb E. apply Z.bits_inj'. intros i Hi. destruct (decide (i < 64)) as [Hlt|Hge].
  - set (k := Z.to_nat (i / 8)). assert (k < 8)%nat as Hk by (unfold k; zlia).
    assert (le64_bytes a !! k = le64_bytes b !! k) as Ek by by rewrite E.
    unfold le64_bytes in Ek. rewrite !list_lookup_fmap, !lookup_seq_lt in Ek by done. injection Ek as Ek.
    apply (f_equal (fun z => Z.testbit z (i mod 8))) in Ek. rewrite !wrap_testbit in Ek by zlia.
    rewrite (proj2 (Z.ltb_lt (i mod 8) 8)) in Ek by zlia. cbn [andb] in Ek. rewrite !Z.shiftr_spec in Ek by zlia.
    replace (i mod 8 + 8 * Z.of_nat k) with i in Ek by (unfold k; zlia). exact Ek.
  - assert (forall z, 0 <= z < 2 ^ 64 -> Z.testbit z i = false) as Hz.
    { intros z Hz. destruct (decide (z = 0)) as [->|]; [apply Z.bits_0|]. apply Z.bits_above_log2; [lia|].
      apply Z.lt_le_trans with 64; [apply Z.log2_lt_pow2; lia|lia]. }
    by rewrite !Hz.
Qed.
Lemma rng_input_inj s1 s2 n1 n2 : 0 <= s1 < 2 ^ 64 -> 0 <= s2 < 2 ^ 64 -> rng_input s1 n1 = rng_input s2 n2 -> s1 = s2 /\ bytes_of n1 = bytes_of n2.
Proof.
  intros Hs1 Hs2 E. unfold rng_input in E. apply app_inj_1 in E as [E1 E2]; [|done]. injection E2 as E2.
  split; [by apply le64_bytes_inj|done].
Qed.

Lemma raw_count_range m phase : 0 <= raw_count m phase < if wraps m then WRAP_48 else 2 ^ 64.
Proof.
  unfold raw_count. destruct (wraps m); [by apply Z.mod_pos_bound|].
  pose proof (fcast_range 0 (2 ^ 64 - 1) (fmax (fround (of_Z (start_count m) + phase * freq_hz m)%f64) fzero) ltac:(lia)).
  unfold as_u64. lia.
Qed.
(** The last value a clock of this kind can send: 2^48 itself is one. *)
Definition last_value (m : ClockModel) : Z := if wraps m then WRAP_48 else u64_max.
Lemma clamp_count_spec m last count : 0 <= count < (if wraps m then WRAP_48 else 2 ^ 64) ->
  (forall prev, last = Some prev -> 0 <= prev <= last_value m) ->
  0 < as_u64 (freq_hz m) ->
  0 <= clamp_count m last count <= last_value m /\
  (forall prev, last = Some prev -> prev < clamp_count m last count \/
     (wraps m = true /\ clamp_count m last count < prev /\ WRAP_48 - as_u64 (freq_hz m) < prev) \/ prev = u64_max).
Proof.
  unfold last_value, clamp_count, u64_max. intros Hc Hlast Hf. destruct last as [prev|].
  - specialize (Hlast prev eq_refl). change WRAP_48 with (2 ^ 48) in *.
    destruct (wraps m) eqn:Ew; cbn [andb].
    + destruct (Z.ltb_spec (2 ^ 48 - as_u64 (freq_hz m)) prev), (Z.ltb_spec count prev), (Z.leb_spec count prev);
        cbn [andb negb]; rewrite ?wrap_small by lia; (split; [lia|intros p [= <-]; lia]).
    + destruct (Z.leb_spec count prev); cbn [negb andb]; [|split; [lia|intros p [= <-]; lia]].
      destruct (decide (prev = 2 ^ 64 - 1)) as [->|]; [split; [vm_compute; split; congruence|intros p [= <-]; lia]|].
      rewrite wrap_small by lia. split; [lia|intros p [= <-]; lia].
  - split; [destruct (wraps m); [change WRAP_48 with (2 ^ 48) in *|]; lia|done].
Qed.

(** The counts of receptions at true times, each with its jitter stream. *)
Fixpoint stamps (m : ClockModel) (l : list (f64 * Stream)) : list (Z * bool) :=
  match l with
  | [] => []
  | (t, s) :: l => let '(n, jumped, m, _) := count_at_hostile m t s in (n, jumped) :: stamps m l
  end.
Definition is_dump1090 (spec : ClockSpec) : bool := match spec with SpecDump1090 _ _ _ _ _ _ => true | _ => false end.
Record clock_ok (spec : ClockSpec) (m : ClockModel) : Prop := {
  ck_wraps : wraps m = is_dump1090 spec;
  ck_freq : as_u64 (freq_hz m) = if is_dump1090 spec then 12000000 else 1000000000;
  ck_last : forall prev, last_count m = Some prev -> 0 <= prev <= last_value m
}.
Lemma clock_new_ok spec h : clock_ok spec (match h with Some h => set_hostile_rng h (ClockModel_new spec) | None => ClockModel_new spec end).
Proof. destruct spec, h; split; done. Qed.
Lemma count_at_ok spec m t s : clock_ok spec m ->
  let r := count_at_hostile m t s in
  clock_ok spec r.1.2 /\ last_count r.1.2 = Some r.1.1.1 /\
  (forall prev, last_count m = Some prev -> r.1.1.2 = false -> prev < r.1.1.1 \/
     (is_dump1090 spec = true /\ r.1.1.1 < prev /\ 2 ^ 48 - 12000000 < prev) \/ (is_dump1090 spec = false /\ prev = u64_max)).
Proof.
  intros [Hw Hf Hl]. unfold count_at_hostile.
  destruct (match hostile_rng m with Some h => _ | None => _ end) as [[[accum phase] h] jumped].
  destruct (gaussian s) as [g rng]. cbv zeta. cbn [fst snd].
  destruct (clamp_count_spec m (if jumped then None else last_count m) (raw_count m (t * (of_Z 1 + offset m) + lit 1 2 * drift_per_s m * t * t + phase + g * jitter_s m)%f64))
    as [Hr Hn]; [apply raw_count_range|by destruct jumped|rewrite Hf; by destruct (is_dump1090 spec)|].
  split_and!; [|done|].
  - split; cbn [wraps freq_hz last_count]; [done|done|]. by intros prev [= <-].
  - intros prev Ep ->. cbn iota in *. rewrite Ep in *. destruct (Hn prev eq_refl) as [?|[(E1 & ? & ?)|?]]; [by left| |].
    + right. left. rewrite Hw in E1. rewrite Hf, E1 in *. by split_and!.
    + right. destruct (is_dump1090 spec) eqn:Es; [|by right]. exfalso.
      specialize (Hl prev eq_refl). unfold last_value in Hl. rewrite Hw in Hl. subst prev. vm_compute in Hl. by destruct Hl.
Qed.

(** C37: the counter a simulated receiver sends: for any receptions and any random draws it
    stays within 2^48 (64 bits for a GPS clock), and except at a jump it increases strictly
    from one reception to the next; only in the last second of counts before 2^48 (or, for
    a GPS clock, at the end of 64 bits) can it be followed by a smaller one. *)
Theorem clock_counts spec h l :
  let cs := stamps (match h with Some h => set_hostile_rng h (ClockModel_new spec) | None => ClockModel_new spec end) l in
  (forall n j, (n, j) ∈ cs -> 0 <= n <= if is_dump1090 spec then 2 ^ 48 else 2 ^ 64 - 1) /\
  (forall i a ja b, cs !! i = Some (a, ja) -> cs !! S i = Some (b, false) ->
     a < b \/ (is_dump1090 spec = true /\ b < a /\ 2 ^ 48 - 12000000 < a) \/ (is_dump1090 spec = false /\ a = 2 ^ 64 - 1)).
Proof.
  cbv zeta. pose proof (clock_new_ok spec h) as Hok. revert Hok. generalize (match h with Some h => set_hostile_rng h (ClockModel_new spec) | None => ClockModel_new spec end).
  induction l as [|[t s] l IH]; intros m Hok; [split; [by intros n j ?%elem_of_nil|done]|].
  pose proof (count_at_ok spec m t s Hok) as Hstep. cbn [stamps]. cbv zeta in Hstep.
  destruct (count_at_hostile m t s) as [[[n jumped] m'] s']. cbn [fst snd] in Hstep. destruct Hstep as (Hok' & El & _).
  destruct (IH m' Hok') as [IH1 IH2]. split.
  - intros n' j'. rewrite elem_of_cons. intros [[= -> ->]|Hin]; [|by eapply IH1].
    pose proof (ck_last _ _ Hok' n El) as Hn. unfold last_value in Hn. by rewrite (ck_wraps _ _ Hok') in Hn.
  - intros [|i] a ja b Ha Hb; [|by eapply IH2]. injection Ha as -> ->. cbn [lookup list_lookup] in Hb.
    destruct l as [|[t2 s2] l]; [done|]. pose proof (count_at_ok spec m' t2 s2 Hok') as Hstep. cbn [stamps] in Hb. cbv zeta in Hstep.
    destruct (count_at_hostile m' t2 s2) as [[[n2 j2] m2] s2']. cbn [fst snd] in Hstep. injection Hb as <- ->.
    by apply (proj2 (proj2 Hstep) a El).
Qed.
End Counter.

(** ** Concrete clocks *)
Section Sample.
(** Scripted draws, as fractions of the range; the logarithm by its first Taylor term. *)
Definition rand_script : Rand := {|
  Stream := list f64; sha256 l := l; from_seed _ := [];
  gen_range lo hi s := ((lo + default fzero (head s) * (hi - lo))%f64, tail s);
  gen_range_incl lo hi s := ((lo + default fzero (head s) * (hi - lo))%f64, tail s) |}.
Definition ln_taylor : Ln f64 := fun x => (x - of_Z 1)%f64.
#[local] Existing Instance rand_script.
#[local] Existing Instance ln_taylor.
#[local] Existing Instance elem_taylor.
(** No jitter: the first draw is one, whose logarithm is zero. *)
Definition calm : Stream := [of_Z 1].
(** One standard deviation late. *)
Definition late : Stream := [lit 1 2; fzero].
Definition clock_from (start : Z) (jitter_ns : f64) : ClockModel := ClockModel_new (SpecDump1090 fzero fzero jitter_ns start fzero fzero).

Example nominal_frequency : (stamps (clock_from 0 fzero) [(of_Z 1, calm); (of_Z 10, calm)]).*1 = [12000000; 120000000].
Proof. vm_compute. reflexivity. Qed.
Example wraps_at_48_bits : (stamps (clock_from (2 ^ 48 - 6000000) fzero) [(lit 1 4, calm); (of_Z 1, calm)]).*1 = [2 ^ 48 - 3000000; 6000000].
Proof. vm_compute. reflexivity. Qed.
(** In the last second before the wrap the clamp is off: jitter steps the counter back. *)
Example jitter_steps_back :
  (stamps (clock_from (2 ^ 48 - 6000000) (of_Z 500)) [(lit 1 4, late); (lit 25000001 100000000, calm)]).*1 = [2 ^ 48 - 2999994; 2 ^ 48 - 3000000].
Proof. vm_compute. reflexivity. Qed.
(** Two receptions in the last count: the second is stamped 2^48. *)
Example count_of_49_bits : (stamps (clock_from (2 ^ 48 - 1) fzero) [(fzero, calm); (fzero, calm)]).*1 = [2 ^ 48 - 1; 2 ^ 48].
Proof. vm_compute. reflexivity. Qed.
(** A hostile clock draws from its stream at every reception: one reception more, of any
    aircraft, moves the clock at the later ones. *)
Example reception_moves_clock :
  let wild := set_hostile_rng [lit 1 2; fzero; lit 1 4; fzero; lit 3 4; fzero; lit 1 8; fzero] (ClockModel_new (SpecDump1090 fzero fzero fzero 0 (of_Z 60) fzero)) in
  list.last (stamps wild [(of_Z 1, calm); (of_Z 3, calm)]).*1 <> list.last (stamps wild [(of_Z 1, calm); (of_Z 2, calm); (of_Z 3, calm)]).*1.
Proof. vm_compute. discriminate. Qed.
End Sample.
