(* ===== verification/Scenario.v ===== *)
(** * Scenarios (crates/mb-sim/src/scenario.rs)

    The resolved form of a scenario file, the expansion of its [generate] block from the
    seed, and the checks before a run.  Reading it from a TOML document, with
    the defaults of its fields, is [ScenarioToml]. *)
From S2P Require Import Prelude F64 Num Text Decimal Results Geo Trajectory SimClock.
Local Open Scope Z_scope.

Record GenerateSpec := {
  g_receivers : Z; g_aircraft_adsb : Z; g_aircraft_modes : Z; g_center : f64 * f64; g_radius_km : f64; g_gps_fraction : f64
}.
Record Meta := { name : string; seed : Z; duration_s : Z }.
Record Network := { latency_ms_min : f64; latency_ms_max : f64; jitter_ms : f64 }.
Record ReceiverSpec := {
  r_id : string; r_lat : f64; r_lon : f64; r_alt_m : f64; r_clock : ClockSpec; loss_prob : f64; max_range_km : option f64;
  reported_pos_error_m : f64; multipath_prob : f64; r_compress : string
}.
Definition r_pos (r : ReceiverSpec) : Geodetic f64 := {| lat_deg := r_lat r; lon_deg := r_lon r; alt_m := r_alt_m r |}.
Inductive AircraftKind := KindAdsb | KindModesOnly.
Record AircraftSpec := {
  a_icao : string; a_kind : AircraftKind; a_traj : Trajectory f64; pos_rate_hz : f64; df11_rate_hz : f64; df4_rate_hz : f64;
  nav_error_m : f64
}.
Record Scenario := {
  meta : Meta; network : Network; generate_spec : option GenerateSpec; receivers : list ReceiverSpec; aircraft : list AircraftSpec
}.

(** ** The generate block *)
Section Expand.
Context `{Rand, Elem f64}.

(** [format!("{x:05X}")] of an unsigned 32-bit value. *)
Definition fmt_05X (x : Z) : string :=
  to_uppercase (hex_digits (if x <? 16 ^ 5 then 5 else if x <? 16 ^ 6 then 6 else if x <? 16 ^ 7 then 7 else 8) x).
Definition TAU : f64 := (of_Z 2 * F64.PI)%f64.
(** [111.32]. *)
Definition KM_PER_DEG : f64 := lit 11132 100.
(** Uniform in a disk around the centre. *)
Definition disk (clat clon r_km : f64) (rng : Stream) : f64 * f64 * Stream :=
  let deg_per_km_lat := (of_Z 1 / KM_PER_DEG)%f64 in
  let deg_per_km_lon := (of_Z 1 / (KM_PER_DEG * ecos (to_radians clat)))%f64 in
  let '(u, rng) := gen_range fzero (of_Z 1) rng in
  let r := (r_km * fsqrt u)%f64 in
  let '(th, rng) := gen_range fzero TAU rng in
  ((clat + r * esin th * deg_per_km_lat)%f64, (clon + r * ecos th * deg_per_km_lon)%f64, rng).
Definition gen_receiver (g : GenerateSpec) (i : Z) (rng : Stream) : ReceiverSpec * Stream :=
  let '(lat, lon, rng) := disk (g_center g).1 (g_center g).2 (g_radius_km g) rng in
  let '(u, rng) := gen_range fzero (of_Z 1) rng in
  let '(clock, rng) :=
    if (u <? g_gps_fraction g)%f64 then (SpecRadarcapeGps (of_Z 15), rng)
    else
      let '(offset_ppm, rng) := gen_range (of_Z (-40)) (of_Z 40) rng in
      let '(drift, rng) := gen_range fzero (lit 3 10) rng in
      let '(jitter, rng) := gen_range (of_Z 40) (of_Z 90) rng in
      let '(wander, rng) := gen_range fzero (lit 4 10) rng in
      (SpecDump1090 offset_ppm drift jitter 0 wander fzero, rng) in
  let '(alt, rng) := gen_range (of_Z 10) (of_Z 200) rng in
  let '(loss, rng) := gen_range (lit 1 100) (lit 8 100) rng in
  ({| r_id := String.append "gen-" (fmt_0n 3 i); r_lat := lat; r_lon := lon; r_alt_m := alt; r_clock := clock; loss_prob := loss;
      max_range_km := None; reported_pos_error_m := fzero; multipath_prob := fzero; r_compress := "none" |}, rng).
Definition mk_traj (g : GenerateSpec) (alt_lo alt_hi : f64) (rng : Stream) : Trajectory f64 * Stream :=
  let radius := (g_radius_km g * lit 13 10)%f64 in
  let '(la1, lo1, rng) := disk (g_center g).1 (g_center g).2 radius rng in
  let '(la2, lo2, rng) := disk (g_center g).1 (g_center g).2 radius rng in
  let '(alt, rng) := gen_range alt_lo alt_hi rng in
  let '(gs, rng) := gen_range (of_Z 320) (of_Z 500) rng in
  (GreatCircle (mkWaypoint la1 lo1 alt) (mkWaypoint la2 lo2 alt) gs, rng).
Definition gen_adsb (g : GenerateSpec) (i : Z) (rng : Stream) : AircraftSpec * Stream :=
  let '(traj, rng) := mk_traj g (of_Z 26000) (of_Z 41000) rng in
  ({| a_icao := String.append "A" (fmt_05X (u32 (0x10000 + i))); a_kind := KindAdsb; a_traj := traj; pos_rate_hz := of_Z 2;
      df11_rate_hz := of_Z 1; df4_rate_hz := of_Z 4; nav_error_m := fzero |}, rng).
Definition gen_modes (g : GenerateSpec) (i : Z) (rng : Stream) : AircraftSpec * Stream :=
  let '(traj, rng) := mk_traj g (of_Z 8000) (of_Z 26000) rng in
  let '(df4, rng) := gen_range (of_Z 2) (of_Z 6) rng in
  ({| a_icao := String.append "B" (fmt_05X (u32 (0x20000 + i))); a_kind := KindModesOnly; a_traj := traj; pos_rate_hz := of_Z 2;
      df11_rate_hz := of_Z 1; df4_rate_hz := df4; nav_error_m := fzero |}, rng).
(** [for i in 0..n], each round pushing one item. *)
Fixpoint gen_loop {A} (f : Z -> Stream -> A * Stream) (n : nat) (i : Z) (rng : Stream) : list A * Stream :=
  match n with
  | O => ([], rng)
  | S n => let '(a, rng) := f i rng in let '(l, rng) := gen_loop f n (i + 1) rng in (a :: l, rng)
  end.
Definition expand_generate (sc : Scenario) : Scenario :=
  match generate_spec sc with
  | None => sc
  | Some g =>
      let rng := rng_for (seed (meta sc)) "generate" in
      let '(rxs, rng) := gen_loop (gen_receiver g) (Z.to_nat (g_receivers g)) 0 rng in
      let '(adsb, rng) := gen_loop (gen_adsb g) (Z.to_nat (g_aircraft_adsb g)) 0 rng in
      let '(modes, rng) := gen_loop (gen_modes g) (Z.to_nat (g_aircraft_modes g)) 0 rng in
      {| meta := meta sc; network := network sc; generate_spec := None; receivers := receivers sc ++ rxs;
         aircraft := aircraft sc ++ adsb ++ modes |}
  end.
End Expand.

(** ** Validation *)
Inductive ScenarioError :=
| NoReceivers | NoAircraft | DuplicateReceiver (id : string) | ReceiverPosition (id : string) | ReceiverAltitude (id : string) (alt : f64)
| ReceiverCompress (id compress : string) | IcaoNotHex (icao : string) | DuplicateIcao (icao : string).
Definition known_compress (s : string) : bool := (s =? "none")%string || (s =? "zlib")%string || (s =? "zlib2")%string.
Fixpoint check_receivers (ids : gset string) (l : list ReceiverSpec) : option ScenarioError :=
  match l with
  | [] => None
  | r :: l =>
      if decide (r_id r ∈ ids) then Some (DuplicateReceiver (r_id r))
      else if negb (fin_range (of_Z (-90)) (of_Z 90) (r_lat r)) || negb (fin_range (of_Z (-180)) (of_Z 180) (r_lon r)) then Some (ReceiverPosition (r_id r))
      else if negb (fin_range (of_Z (-1000)) (of_Z 10000) (r_alt_m r)) then Some (ReceiverAltitude (r_id r) (r_alt_m r))
      else if negb (known_compress (r_compress r)) then Some (ReceiverCompress (r_id r) (r_compress r))
      else check_receivers ({[r_id r]} ∪ ids) l
  end.
Fixpoint check_aircraft (icaos : gset string) (l : list AircraftSpec) : option ScenarioError :=
  match l with
  | [] => None
  | a :: l =>
      match from_hex (a_icao a) with
      | None => Some (IcaoNotHex (a_icao a))
      | Some _ => if decide (a_icao a ∈ icaos) then Some (DuplicateIcao (a_icao a)) else check_aircraft ({[a_icao a]} ∪ icaos) l
      end
  end.
(** [None]: the scenario is valid. *)
Definition validate (sc : Scenario) : option ScenarioError :=
  match receivers sc, aircraft sc with
  | [], _ => Some NoReceivers
  | _, [] => Some NoAircraft
  | rs, acs => match check_receivers ∅ rs with Some e => Some e | None => check_aircraft ∅ acs end
  end.

(** ** What the checks accept *)
Section Validate.
Definition receiver_ok (r : ReceiverSpec) : bool :=
  fin_range (of_Z (-90)) (of_Z 90) (r_lat r) && fin_range (of_Z (-180)) (of_Z 180) (r_lon r) &&
  fin_range (of_Z (-1000)) (of_Z 10000) (r_alt_m r) && known_compress (r_compress r).
Lemma check_receivers_ok ids l : check_receivers ids l = None <->
  Forall (fun r => receiver_ok r = true) l /\ base.NoDup (r_id <$> l) /\ Forall (fun r => r_id r ∉ ids) l.
Proof.
  revert ids. induction l as [|r l IH]; intros ids; cbn [check_receivers fmap list_fmap]; [split; [intros _; split_and!; constructor|done]|].
  rewrite !list.Forall_cons, list.NoDup_cons, list_elem_of_fmap. unfold receiver_ok at 1.
  destruct (decide (r_id r ∈ ids)) as [Hin|Hin]; [naive_solver|].
  destruct (fin_range (of_Z (-90)) _ _), (fin_range (of_Z (-180)) _ _), (fin_range (of_Z (-1000)) _ _), (known_compress (r_compress r));
    cbn [negb orb andb]; try naive_solver.
  rewrite IH. setoid_rewrite not_elem_of_union. rewrite !list.Forall_forall. setoid_rewrite elem_of_singleton. naive_solver.
Qed.
Lemma check_aircraft_ok icaos l : check_aircraft icaos l = None <->
  Forall (fun a => is_Some (from_hex (a_icao a))) l /\ base.NoDup (a_icao <$> l) /\ Forall (fun a => a_icao a ∉ icaos) l.
Proof.
  revert icaos. induction l as [|a l IH]; intros icaos; cbn [check_aircraft fmap list_fmap]; [split; [intros _; split_and!; constructor|done]|].
  rewrite !list.Forall_cons, list.NoDup_cons, list_elem_of_fmap.
  destruct (from_hex (a_icao a)) as [v|]; [|split; [done|by intros [[[? ?] _] _]]].
  destruct (decide (a_icao a ∈ icaos)) as [Hin|Hin]; [naive_solver|].
  rewrite IH. setoid_rewrite not_elem_of_union. rewrite !list.Forall_forall. setoid_rewrite elem_of_singleton. naive_solver.
Qed.

(** A scenario is accepted exactly when it has receivers and aircraft, the receivers'
    names and the aircraft's address texts are distinct, every receiver is in range with a
    known compression and every address is a hexadecimal number of at most 24 bits. *)
Theorem validate_iff sc : validate sc = None <->
  receivers sc <> [] /\ aircraft sc <> [] /\
  Forall (fun r => receiver_ok r = true) (receivers sc) /\ base.NoDup (r_id <$> receivers sc) /\
  Forall (fun a => is_Some (from_hex (a_icao a))) (aircraft sc) /\ base.NoDup (a_icao <$> aircraft sc).
Proof.
  unfold validate. destruct (receivers sc) as [|r rs]; [naive_solver|]. destruct (aircraft sc) as [|a acs]; [naive_solver|].
  pose proof (check_receivers_ok ∅ (r :: rs)) as Hr. pose proof (check_aircraft_ok ∅ (a :: acs)) as Ha.
  assert (forall A (f : A -> string) l, Forall (fun x => f x ∉ (∅ : gset string)) l) as Hempty
    by (intros A f l; apply list.Forall_forall; set_solver).
  destruct (check_receivers ∅ (r :: rs)); [naive_solver|]. rewrite Ha. naive_solver.
Qed.
End Validate.

(** ** What the generate block adds *)
Section Generated.
Context `{Rand, Elem f64}.

Lemma digit_val_upper d : 0 <= d < 16 -> digit_val (upper (hex_digit d)) = Some d.
Proof.
  intros Hd. pose proof (range_forallb (fun d => match digit_val (upper (hex_digit d)) with Some e => e =? d | None => false end)
    16 ltac:(vm_compute; reflexivity) d Hd) as E. cbv beta in E. destruct (digit_val _); [|done]. by apply Z.eqb_eq in E as ->.
Qed.
Lemma parse_hex_upper n z acc : 0 <= acc -> parse_hex (to_uppercase (hex_digits n z)) acc = parse_hex (hex_digits n z) acc.
Proof.
  revert acc. induction n as [|n IH]; intros acc Ha; [done|]. unfold to_uppercase in *. cbn [hex_digits smap parse_hex].
  pose proof (Z.mod_pos_bound (z / 16 ^ Z.of_nat n) 16 ltac:(lia)) as Hd.
  rewrite digit_val_upper, digit_val_hex by done. cbv zeta. destruct (_ <=? _); [|done]. apply IH. lia.
Qed.
(** A prefix digit and five more. *)
Lemma from_hex_prefix c d x : digit_val c = Some d -> plain c = true -> byte_of c =? 43 = false -> 0 <= d < 16 -> 0 <= x < 16 ^ 5 ->
  from_hex (String.append (String c EmptyString) (fmt_05X x)) = Some (d * 16 ^ 5 + x).
Proof.
  intros Hc Hp H43 Hd Hx. unfold fmt_05X. rewrite (proj2 (Z.ltb_lt x (16 ^ 5))) by lia.
  rewrite sapp_cons, sapp_nil. unfold from_hex. rewrite trim_plain.
  2:{ cbn [sall]. rewrite Hp. cbn [andb]. by apply plain_upper, plain_hex_digits. }
  unfold from_str_radix16. rewrite H43. cbn [parse_hex]. rewrite Hc. cbv zeta.
  rewrite (proj2 (Z.leb_le (0 * 16 + d) (2 ^ 32 - 1))) by lia. rewrite parse_hex_upper, parse_hex_digits by (cbn; lia).
  rewrite Z.mod_small by (cbn; lia). cbn [mbind option_bind]. change (16 ^ Z.of_nat 5) with (16 ^ 5).
  rewrite (proj2 (Z.leb_le _ 0xFFFFFF)) by lia. f_equal; lia.
Qed.

Lemma gen_loop_items {A B} (f : Z -> Stream -> A * Stream) (key : A -> B) (k : Z -> B) n i rng :
  (forall j s, i <= j < i + Z.of_nat n -> key (f j s).1 = k j) ->
  key <$> (gen_loop f n i rng).1 = (fun m => k (i + Z.of_nat m)) <$> seq 0 n.
Proof.
  revert i rng. induction n as [|n IH]; intros i rng Hk; [done|]. cbn [gen_loop]. rewrite <- cons_seq, <- fmap_S_seq.
  pose proof (Hk i rng ltac:(lia)) as Ha. destruct (f i rng) as [a rng']. specialize (IH (i + 1) rng').
  destruct (gen_loop f n (i + 1) rng') as [l rng'']. cbn [fst fmap list_fmap] in *. rewrite Ha, Z.add_0_r. f_equal.
  rewrite IH by (intros j s Hj; apply Hk; lia). rewrite <- list_fmap_compose. apply list_fmap_ext. intros ? m _. cbn. f_equal. lia.
Qed.
Lemma gen_loop_length {A} (f : Z -> Stream -> A * Stream) n i rng : length (gen_loop f n i rng).1 = n.
Proof.
  revert i rng. induction n as [|n IH]; intros i rng; [done|]. cbn [gen_loop]. destruct (f i rng) as [a rng'].
  specialize (IH (i + 1) rng'). destruct (gen_loop f n (i + 1) rng'). cbn in *. by rewrite IH.
Qed.
Lemma NoDup_range {B} (k : Z -> B) n : (forall i j, 0 <= i < Z.of_nat n -> 0 <= j < Z.of_nat n -> k i = k j -> i = j) ->
  base.NoDup ((fun m => k (0 + Z.of_nat m)) <$> seq 0 n).
Proof.
  intros Hk. apply NoDup_fmap_2_strong; [|apply NoDup_seq]. intros x y Hx%elem_of_seq Hy%elem_of_seq E.
  apply Hk in E; lia.
Qed.

(** The generate block adds as many receivers and aircraft as it says after those written
    out, with distinct names and distinct valid addresses, up to the 983040 ADS-B and 917504
    other aircraft its address blocks hold. *)
Theorem expand_generate_adds sc g : generate_spec sc = Some g ->
  0 <= g_aircraft_adsb g <= 0xF0000 -> 0 <= g_aircraft_modes g <= 0xE0000 ->
  let sc' := expand_generate sc in
  exists rxs acs, receivers sc' = receivers sc ++ rxs /\ aircraft sc' = aircraft sc ++ acs /\ generate_spec sc' = None /\
    length rxs = Z.to_nat (g_receivers g) /\ length acs = (Z.to_nat (g_aircraft_adsb g) + Z.to_nat (g_aircraft_modes g))%nat /\
    base.NoDup (r_id <$> rxs) /\ Forall (fun a => is_Some (from_hex (a_icao a))) acs /\ base.NoDup (from_hex ∘ a_icao <$> acs).
Proof.
  intros Eg Ha Hm. cbv zeta. unfold expand_generate. rewrite Eg.
  pose proof (gen_loop_items (gen_receiver g) r_id (fun i => String.append "gen-" (fmt_0n 3 i)) (Z.to_nat (g_receivers g)) 0 (rng_for (seed (meta sc)) "generate")) as H1.
  pose proof (gen_loop_length (gen_receiver g) (Z.to_nat (g_receivers g)) 0 (rng_for (seed (meta sc)) "generate")) as L1.
  destruct (gen_loop (gen_receiver g) _ _ _) as [rxs rng1]. cbn [fst] in *.
  pose proof (gen_loop_items (gen_adsb g) (from_hex ∘ a_icao) (fun i => Some (0xA10000 + i)) (Z.to_nat (g_aircraft_adsb g)) 0 rng1) as H2.
  pose proof (gen_loop_length (gen_adsb g) (Z.to_nat (g_aircraft_adsb g)) 0 rng1) as L2.
  destruct (gen_loop (gen_adsb g) _ _ _) as [adsb rng2]. cbn [fst] in *.
  pose proof (gen_loop_items (gen_modes g) (from_hex ∘ a_icao) (fun i => Some (0xB20000 + i)) (Z.to_nat (g_aircraft_modes g)) 0 rng2) as H3.
  pose proof (gen_loop_length (gen_modes g) (Z.to_nat (g_aircraft_modes g)) 0 rng2) as L3.
  destruct (gen_loop (gen_modes g) _ _ _) as [modes rng3]. cbn [fst receivers aircraft generate_spec] in *.
  exists rxs, (adsb ++ modes). rewrite length_app, L1, L2, L3.
  lapply H1; [clear H1; intros ->|].
  2:{ intros j s _. unfold gen_receiver. repeat (match goal with |- context [let '_ := ?x in _] => destruct x end). reflexivity. }
  lapply H2; [clear H2; intros E2|].
  2:{ intros j s Hj. unfold gen_adsb. destruct (mk_traj _ _ _ _). cbn [fst compose a_icao].
    rewrite wrap_small by lia. rewrite (from_hex_prefix _ 10) by (reflexivity || lia). f_equal; lia. }
  lapply H3; [clear H3; intros E3|].
  2:{ intros j s Hj. unfold gen_modes. destruct (mk_traj _ _ _ _). destruct (gen_range _ _ _). cbn [fst compose a_icao].
    rewrite wrap_small by lia. rewrite (from_hex_prefix _ 11) by (reflexivity || lia). f_equal; lia. }
  split_and!; try done.
  - apply (NoDup_range (fun i => String.append "gen-" (fmt_0n 3 i))). intros i j Hi Hj [= E]. apply fmt_0n_inj in E; lia.
  - assert (Forall is_Some (from_hex ∘ a_icao <$> adsb ++ modes)) as Hall; [|by rewrite Forall_fmap in Hall].
    rewrite fmap_app, E2, E3. apply Forall_app. split; apply list.Forall_fmap, list.Forall_forall; intros m _; cbn; by eexists.
  - rewrite fmap_app, E2, E3. apply list.NoDup_app. split_and!.
    + apply (NoDup_range (fun i => Some (0xA10000 + i))). intros i j _ _ [= E]. lia.
    + intros x (m & -> & Hm1%elem_of_seq)%list_elem_of_fmap (m' & E & Hm2%elem_of_seq)%list_elem_of_fmap. injection E as E. lia.
    + apply (NoDup_range (fun i => Some (0xB20000 + i))). intros i j _ _ [= E]. lia.
Qed.
End Generated.

(** ** Concrete scenarios *)
Section Sample.
#[local] Existing Instance rand_script.
#[local] Existing Instance elem_taylor.
Definition still : Trajectory f64 := Orbit (mkWaypoint (of_Z 47) (of_Z (-1)) (of_Z 20000)) (of_Z 1500) (of_Z 70) false.
Definition plane (icao : string) : AircraftSpec :=
  {| a_icao := icao; a_kind := KindModesOnly; a_traj := still; pos_rate_hz := of_Z 2; df11_rate_hz := of_Z 1; df4_rate_hz := of_Z 4; nav_error_m := fzero |}.
Definition station : ReceiverSpec :=
  {| r_id := "rx-000"; r_lat := of_Z 47; r_lon := of_Z (-1); r_alt_m := of_Z 40; r_clock := SpecRadarcapeGps (of_Z 10); loss_prob := fzero;
     max_range_km := None; reported_pos_error_m := fzero; multipath_prob := fzero; r_compress := "none" |}.
Definition scenario_of (g : option GenerateSpec) (acs : list AircraftSpec) : Scenario :=
  {| meta := {| name := "t"; seed := 7; duration_s := 60 |};
     network := {| latency_ms_min := of_Z 5; latency_ms_max := of_Z 40; jitter_ms := fzero |};
     generate_spec := g; receivers := [station]; aircraft := acs |}.

(** The same address in two cases passes for two aircraft, and one digit for six. *)
Example same_address_twice : validate (scenario_of None [plane "3C6444"; plane "3c6444"; plane "A"]) = None.
Proof. vm_compute. reflexivity. Qed.
Example address_block_full : from_hex (String.append "A" (fmt_05X (u32 (0x10000 + 0xF0000)))) = None.
Proof. vm_compute. reflexivity. Qed.

Definition block : GenerateSpec :=
  {| g_receivers := 3; g_aircraft_adsb := 2; g_aircraft_modes := 1; g_center := (of_Z 47, of_Z (-1)); g_radius_km := of_Z 100; g_gps_fraction := lit 1 10 |}.
Example expanded_names : let sc := expand_generate (scenario_of (Some block) [plane "3C6444"]) in
  r_id <$> receivers sc = ["rx-000"; "gen-000"; "gen-001"; "gen-002"]%string /\
  a_icao <$> aircraft sc = ["3C6444"; "A10000"; "A10001"; "B20000"]%string.
Proof. split; vm_compute; reflexivity. Qed.
Lemma expand_generate_adds_witness :
  exists rxs acs, receivers (expand_generate (scenario_of (Some block) [])) = [station] ++ rxs /\
    aircraft (expand_generate (scenario_of (Some block) [])) = [] ++ acs /\ length rxs = 3%nat /\ length acs = 3%nat /\
    base.NoDup (r_id <$> rxs) /\ base.NoDup (from_hex ∘ a_icao <$> acs).
Proof.
  destruct (expand_generate_adds (scenario_of (Some block) []) block) as (rxs & acs & E1 & E2 & _ & L1 & L2 & N1 & _ & N2);
    [reflexivity|vm_compute; split; congruence|vm_compute; split; congruence|].
  exists rxs, acs. split_and!; [exact E1|exact E2|exact L1|exact L2|exact N1|exact N2].
Defined.
End Sample.
