(* ===== verification/Gen.v ===== *)
(** * Generation of captures (crates/mb-sim/src/gen.rs)

    From a scenario to the byte streams of its clients: what the aircraft transmit, which
    receiver hears what and when, the messages a client makes of it, and their framing.
    Loops over time run on fuel; the random streams, the codecs and the serialisation of
    messages are interfaces. *)
From S2P Require Import Prelude F64 F64Int F64Step Num Text Results Metrics Geo Alt Frames Proto Framing Trajectory SimClock Scenario.
Local Open Scope Z_scope.

Inductive BroadcastKind := BDf17 (odd : bool) | BDf11 | BDf4.
Record Broadcast := { b_t_s : f64; b_icao : Z; b_kind : BroadcastKind; b_bytes : list Z; b_pos : Geodetic f64 }.
Record AudibilityRow := { row_t_s : Z; row_icao : Z; row_receivers : list string }.
Record SendRecord := { sr_t : Z; sr_bytes : list Z }.
Record ClientStream := {
  cs_id : string; cs_handshake_line : list Z; cs_compress : string; cs_clock_type : string; cs_records : list SendRecord;
  message_count : Z; sync_count : Z; mlat_count : Z
}.
Record GeneratedCapture := { truth : list TruthPoint; audibility : list AudibilityRow; clients : list ClientStream }.

Section Failures.
Context `{Json}.
(** Why a generation has no capture: the code's errors, a panic, or a loop that is not over
    within the fuel. *)
Inductive Failure := GenScenario (e : ScenarioError) | GenCompress (s : string) | GenFrame (e : ProtoError) | GenPanic | GenFuel.
Definition Gen (A : Type) : Type := A + Failure.
#[export] Instance gen_ret : MRet Gen := fun A a => inl a.
#[export] Instance gen_bind : MBind Gen := fun A B f m => match m with inl a => f a | inr e => inr e end.
Definition failing {A} (e : Failure) : Gen A := inr e.
End Failures.

Section Code.
Context `{Json, Hex, Flate, Rand, Elem f64, Ln f64}.

(** [gen_range] panics on an empty or unbounded range. *)
Definition draw (lo hi : f64) (rng : Stream) : Gen (f64 * Stream) :=
  if (lo <? hi)%f64 && is_finite (hi - lo)%f64 then mret (gen_range lo hi rng) else failing GenPanic.
Definition draw_incl (lo hi : f64) (rng : Stream) : Gen (f64 * Stream) :=
  if (lo <=? hi)%f64 && is_finite (hi - lo)%f64 then mret (gen_range_incl lo hi rng) else failing GenPanic.
Definition DEG_M : f64 := of_Z 111320.
Definition exp_gap (rng : Stream) (rate_hz : f64) : f64 * Stream :=
  let '(u, rng) := gen_range EPSILON (of_Z 1) rng in ((fneg (eln u) / rate_hz)%f64, rng).

Definition list_of_option {A} (o : option A) : list A := match o with Some a => [a] | None => [] end.

(** ** Hearing *)
Definition horizon_km (h_rx_m h_ac_m : f64) : f64 := (lit 412 100 * (fsqrt (fmax h_rx_m fzero) + fsqrt (fmax h_ac_m fzero)))%f64.
Definition audible (rx : ReceiverSpec) (ac_pos : Geodetic f64) : bool :=
  let surface_km := (haversine_m (r_pos rx) ac_pos / of_Z 1000)%f64 in
  if (surface_km >? horizon_km (r_alt_m rx) (alt_m ac_pos))%f64 then false
  else match max_range_km rx with Some cap => negb (surface_km >? cap)%f64 | None => true end.

(** ** What an aircraft transmits *)
Definition alt_25ft (pos : Geodetic f64) : Z := quantize_25ft (alt_m pos / lit 3048 10000)%f64.
Definition truth_of (ac : AircraftSpec) (icao : Z) (t : Z) : TruthPoint :=
  {| tp_t := u64 (t * 1000000000); tp_icao := icao; tp_pos := position_at (a_traj ac) (of_Z t);
     Metrics.gs_mps := Trajectory.gs_mps (a_traj ac); Metrics.vrate_mps := Trajectory.vrate_mps (a_traj ac) (of_Z t) |}.
(** The fixed offset of the broadcast positions. *)
Definition nav_offset (ac : AircraftSpec) (rng : Stream) : f64 * f64 * Stream :=
  if (nav_error_m ac >? fzero)%f64 then
    let '(th, rng) := gen_range fzero TAU rng in
    ((nav_error_m ac * esin th / DEG_M)%f64, (nav_error_m ac * ecos th / DEG_M)%f64, rng)
  else (fzero, fzero, rng).
Definition df17_broadcast (ac : AircraftSpec) (icao : Z) (nav_off : f64 * f64) (jt : f64) (odd : bool) : option Broadcast :=
  let pos := position_at (a_traj ac) jt in
  let bpos_lat := (lat_deg pos + nav_off.1)%f64 in
  let bpos_lon := (lon_deg pos + nav_off.2 / fmax (ecos (to_radians (lat_deg pos))) (lit 2 10))%f64 in
  (fun f => {| b_t_s := jt; b_icao := icao; b_kind := BDf17 odd; b_bytes := f; b_pos := pos |}) <$>
    df17_airborne_position icao 5 11 (alt_25ft pos) bpos_lat bpos_lon odd.
Fixpoint adsb_loop (fuel : nat) (ac : AircraftSpec) (icao : Z) (nav_off : f64 * f64) (dur_s period : f64) (rng : Stream)
    (odd : bool) (t : f64) : Gen (list Broadcast) :=
  if (t <? dur_s)%f64 then
    match fuel with
    | O => failing GenFuel
    | S fuel =>
        let '(j, rng) := gen_range (fneg (lit 2 100)) (lit 2 100) rng in
        let jt := (t + j)%f64 in
        let out := if (jt >=? fzero)%f64 && (jt <? dur_s)%f64 then list_of_option (df17_broadcast ac icao nav_off jt odd) else [] in
        rest ← adsb_loop fuel ac icao nav_off dur_s period rng (negb odd) (t + period)%f64;
        mret (out ++ rest)
    end
  else mret [].
Definition df11_broadcast (ac : AircraftSpec) (icao : Z) (t : f64) : option Broadcast :=
  Some {| b_t_s := t; b_icao := icao; b_kind := BDf11; b_bytes := df11 icao 5; b_pos := position_at (a_traj ac) t |}.
Definition df4_broadcast (ac : AircraftSpec) (icao : Z) (t : f64) : option Broadcast :=
  let pos := position_at (a_traj ac) t in
  (fun f => {| b_t_s := t; b_icao := icao; b_kind := BDf4; b_bytes := f; b_pos := pos |}) <$> df4 icao 0 (alt_25ft pos).
(** A Poisson process of transmissions. *)
Fixpoint poisson_loop (fuel : nat) (f : f64 -> option Broadcast) (rate_hz dur_s : f64) (rng : Stream) (t : f64) : Gen (list Broadcast * Stream) :=
  if (t <? dur_s)%f64 then
    match fuel with
    | O => failing GenFuel
    | S fuel =>
        let '(gap, rng) := exp_gap rng rate_hz in
        '(rest, rng) ← poisson_loop fuel f rate_hz dur_s rng (t + gap)%f64;
        mret (list_of_option (f t) ++ rest, rng)
    end
  else mret ([], rng).
Definition emit_aircraft (fuel : nat) (seed : Z) (dur_s : f64) (ac : AircraftSpec) : Gen (list Broadcast) :=
  match from_hex (a_icao ac) with
  | None => failing GenPanic
  | Some icao =>
      let rng := rng_for seed (String.append "emit/" (a_icao ac)) in
      let '(n1, n2, rng) := nav_offset ac rng in
      match a_kind ac with
      | KindAdsb =>
          let period := (of_Z 1 / pos_rate_hz ac)%f64 in
          '(phase, rng) ← draw fzero period rng;
          adsb_loop fuel ac icao (n1, n2) dur_s period rng false phase
      | KindModesOnly =>
          let '(t, rng) := exp_gap rng (df11_rate_hz ac) in
          '(l1, rng) ← poisson_loop fuel (df11_broadcast ac icao) (df11_rate_hz ac) dur_s rng t;
          let '(t, rng) := exp_gap rng (df4_rate_hz ac) in
          '(l2, _) ← poisson_loop fuel (df4_broadcast ac icao) (df4_rate_hz ac) dur_s rng t;
          mret (l1 ++ l2)
      end
  end.
Definition seconds (sc : Scenario) : list Z := seqZ 0 (duration_s (meta sc)).
Definition audibility_of (sc : Scenario) (ac : AircraftSpec) (icao : Z) : list AudibilityRow :=
  omap (fun t =>
    match r_id <$> filter (fun r => audible r (position_at (a_traj ac) (of_Z t)) = true) (receivers sc) with
    | [] => None
    | rxs => Some {| row_t_s := t; row_icao := icao; row_receivers := rxs |}
    end) (seconds sc).
Definition broadcast_le (a b : Broadcast) : bool := total_le (b_t_s a) (b_t_s b).

(** ** What a client makes of it *)
(** A DF17 reception awaiting its partner. *)
Record PendingHalf := { p_odd : bool; p_t_arrive : f64; p_count : Z; p_bytes : list Z }.
(** The variables of the loop over the broadcasts. *)
Record CState := {
  k_clock : ClockModel; k_jit : gmap Z Stream; k_loss : gmap Z Stream; k_mp : Stream; k_seen : gset Z; k_pending : gmap Z PendingHalf;
  k_lines : list (f64 * ClientMsg); k_messages : Z; k_syncs : Z; k_mlats : Z; k_next_hb : f64
}.
Definition with_streams (clock : ClockModel) (jit loss : gmap Z Stream) (mp : Stream) (s : CState) : CState :=
  {| k_clock := clock; k_jit := jit; k_loss := loss; k_mp := mp; k_seen := k_seen s; k_pending := k_pending s; k_lines := k_lines s;
     k_messages := k_messages s; k_syncs := k_syncs s; k_mlats := k_mlats s; k_next_hb := k_next_hb s |}.
(** One more line. *)
Definition say (t : f64) (m : ClientMsg) (s : CState) : CState :=
  {| k_clock := k_clock s; k_jit := k_jit s; k_loss := k_loss s; k_mp := k_mp s; k_seen := k_seen s; k_pending := k_pending s;
     k_lines := k_lines s ++ [(t, m)]; k_messages := k_messages s + 1; k_syncs := k_syncs s; k_mlats := k_mlats s; k_next_hb := k_next_hb s |}.
Definition with_rest (seen : gset Z) (pending : gmap Z PendingHalf) (syncs mlats : Z) (hb : f64) (s : CState) : CState :=
  {| k_clock := k_clock s; k_jit := k_jit s; k_loss := k_loss s; k_mp := k_mp s; k_seen := seen; k_pending := pending;
     k_lines := k_lines s; k_messages := k_messages s; k_syncs := syncs; k_mlats := mlats; k_next_hb := hb |}.
Fixpoint heartbeats (fuel : nat) (t_arrive : f64) (s : CState) : Gen CState :=
  if (k_next_hb s <? t_arrive)%f64 then
    match fuel with
    | O => failing GenFuel
    | S fuel =>
        let s := say (k_next_hb s) heartbeat_now s in
        heartbeats fuel t_arrive (with_rest (k_seen s) (k_pending s) (k_syncs s) (k_mlats s) (k_next_hb s + of_Z 30)%f64 s)
    end
  else mret s.
Definition stream_name (kind rx_id : string) (icao : Z) : string := sconcat [kind; "/"; rx_id; "/"; to_hex icao]%string.
(** The loss draw of a broadcast: heard or not. *)
Definition hears (seed : Z) (rx : ReceiverSpec) (b : Broadcast) (losses : gmap Z Stream) : bool * gmap Z Stream :=
  let stream := default (rng_for seed (stream_name "loss" (r_id rx) (b_icao b))) (losses !! b_icao b) in
  let '(u, stream) := gen_range fzero (of_Z 1) stream in
  (negb (u <? loss_prob rx)%f64, <[b_icao b := stream]> losses).
Definition arrival (rx : ReceiverSpec) (b : Broadcast) (mp : Stream) : f64 * Stream :=
  let t_arrive := (b_t_s b + slant_range_m (r_pos rx) (b_pos b) / C_MPS)%f64 in
  if (multipath_prob rx >? fzero)%f64 then
    let '(u, mp) := gen_range fzero (of_Z 1) mp in
    if (u <? multipath_prob rx)%f64 then let '(d, mp) := gen_range (lit 5 10000000) (lit 3 1000000) mp in ((t_arrive + d)%f64, mp)
    else (t_arrive, mp)
  else (t_arrive, mp).
(** What is said of a reception. *)
Definition report (b : Broadcast) (t_arrive : f64) (count : Z) (s : CState) : CState :=
  match b_kind b with
  | BDf17 odd =>
      let keep := with_rest (k_seen s) (<[b_icao b := {| p_odd := odd; p_t_arrive := t_arrive; p_count := count; p_bytes := b_bytes b |}]> (k_pending s))
                    (k_syncs s) (k_mlats s) (k_next_hb s) s in
      match k_pending s !! b_icao b with
      | Some p =>
          if negb (Bool.eqb (p_odd p) odd) && (t_arrive - p_t_arrive p <? of_Z 2)%f64 then
            let '(et, ot, em, om) :=
              if odd then (p_count p, count, p_bytes p, b_bytes b) else (count, p_count p, b_bytes b, p_bytes p) in
            let s := with_rest (k_seen s) (delete (b_icao b) (k_pending s)) (k_syncs s + 1) (k_mlats s) (k_next_hb s) s in
            say t_arrive (Sync (num_of_u64 et) (num_of_u64 ot) (hex_from_bytes em) (hex_from_bytes om)) s
          else keep
      | None => keep
      end
  | BDf11 | BDf4 =>
      say t_arrive (Mlat (num_of_u64 count) (hex_from_bytes (b_bytes b)))
        (with_rest (k_seen s) (k_pending s) (k_syncs s) (k_mlats s + 1) (k_next_hb s) s)
  end.
Definition receive (fuel : nat) (seed : Z) (rx : ReceiverSpec) (s : CState) (b : Broadcast) : Gen CState :=
  if negb (audible rx (b_pos b)) then mret s
  else
    let '(heard, losses) := hears seed rx b (k_loss s) in
    let s := with_streams (k_clock s) (k_jit s) losses (k_mp s) s in
    if negb heard then mret s
    else
      let '(t_arrive, mp) := arrival rx b (k_mp s) in
      s ← heartbeats fuel t_arrive (with_streams (k_clock s) (k_jit s) (k_loss s) mp s);
      let jit := default (rng_for seed (stream_name "clkjit" (r_id rx) (b_icao b))) (k_jit s !! b_icao b) in
      let '(count, jumped, clock, jit) := count_at_hostile (k_clock s) t_arrive jit in
      let s := with_streams clock (<[b_icao b := jit]> (k_jit s)) (k_loss s) (k_mp s) s in
      let s := if jumped then say t_arrive (ClockJump "jump") s else s in
      let s := if decide (b_icao b ∈ k_seen s) then s
               else say t_arrive (seen [b_icao b]) (with_rest ({[b_icao b]} ∪ k_seen s) (k_pending s) (k_syncs s) (k_mlats s) (k_next_hb s) s) in
      mret (report b t_arrive count s).
Fixpoint receive_all (fuel : nat) (seed : Z) (rx : ReceiverSpec) (s : CState) (bs : list Broadcast) : Gen CState :=
  match bs with
  | [] => mret s
  | b :: bs => s ← receive fuel seed rx s b; receive_all fuel seed rx s bs
  end.
Definition client_clock (seed : Z) (rx : ReceiverSpec) : ClockModel :=
  let clock := ClockModel_new (r_clock rx) in
  if is_hostile clock then set_hostile_rng (rng_for seed (String.append "hostile/" (r_id rx))) clock else clock.
Definition CState_new (seed : Z) (rx : ReceiverSpec) : CState :=
  say (lit 1 10) (InputConnected "connected")
    {| k_clock := client_clock seed rx; k_jit := ∅; k_loss := ∅; k_mp := rng_for seed (String.append "mp/" (r_id rx)); k_seen := ∅;
       k_pending := ∅; k_lines := []; k_messages := 0; k_syncs := 0; k_mlats := 0; k_next_hb := of_Z 30 |}.

(** ** Framing *)
(** The latency of the connection and its jitter. *)
Definition to_nanos (latency_s jitter_s t : f64) (rng : Stream) : Z * Stream :=
  let '(j, rng) := if (jitter_s >? fzero)%f64 then
                     let '(g, rng) := gaussian rng in (fmax (g * jitter_s)%f64 (fneg latency_s * lit 9 10)%f64, rng)
                   else (fzero, rng) in
  (F64.as_u64 (fmax (fround ((t + latency_s + j) * of_Z 1000000000)%f64) fzero), rng).
Definition gen_frame (fuel : nat) (enc : Comp) (bytes : list Z) : Gen (Comp * list Z) :=
  match encode_frame fuel enc bytes with
  | Some (enc, inl f) => mret (enc, f)
  | Some (_, inr e) => failing (GenFrame e)
  | None => failing GenFuel
  end.
(** One record per line. *)
Fixpoint plain_records (latency_s jitter_s : f64) (rng : Stream) (lines : list (f64 * list Z)) : list SendRecord :=
  match lines with
  | [] => []
  | (t, l) :: lines =>
      let '(n, rng) := to_nanos latency_s jitter_s t rng in
      {| sr_t := n; sr_bytes := l |} :: plain_records latency_s jitter_s rng lines
  end.
(** One frame per line. *)
Fixpoint line_frames (fuel : nat) (latency_s jitter_s : f64) (rng : Stream) (enc : Comp) (lines : list (f64 * list Z)) : Gen (list SendRecord) :=
  match lines with
  | [] => mret []
  | (t, l) :: lines =>
      let '(n, rng) := to_nanos latency_s jitter_s t rng in
      '(enc, f) ← gen_frame fuel enc l;
      rest ← line_frames fuel latency_s jitter_s rng enc lines;
      mret ({| sr_t := n; sr_bytes := f |} :: rest)
  end.
(** One frame per second of lines, sent at its end. *)
Record Window := { w_enc : Comp; w_rng : Stream; w_batch : list Z; w_end : f64; w_out : list SendRecord }.
Definition flush_window (fuel : nat) (latency_s jitter_s : f64) (w : Window) : Gen Window :=
  match w_batch w with
  | [] => mret w
  | batch =>
      let '(n, rng) := to_nanos latency_s jitter_s (w_end w) (w_rng w) in
      '(enc, f) ← gen_frame fuel (w_enc w) batch;
      mret {| w_enc := enc; w_rng := rng; w_batch := []; w_end := w_end w; w_out := w_out w ++ [{| sr_t := n; sr_bytes := f |}] |}
  end.
Fixpoint advance_window (fuel : nat) (latency_s jitter_s t : f64) (w : Window) : Gen Window :=
  if (t >=? w_end w)%f64 then
    match fuel with
    | O => failing GenFuel
    | S fuel' =>
        w ← flush_window fuel latency_s jitter_s w;
        advance_window fuel' latency_s jitter_s t
          {| w_enc := w_enc w; w_rng := w_rng w; w_batch := w_batch w; w_end := (w_end w + of_Z 1)%f64; w_out := w_out w |}
    end
  else mret w.
Definition window_line (fuel : nat) (latency_s jitter_s : f64) (w : Window) (tl : f64 * list Z) : Gen Window :=
  w ← advance_window fuel latency_s jitter_s tl.1 w;
  mret {| w_enc := w_enc w; w_rng := w_rng w; w_batch := w_batch w ++ tl.2; w_end := w_end w; w_out := w_out w |}.
Fixpoint window_lines (fuel : nat) (latency_s jitter_s : f64) (w : Window) (lines : list (f64 * list Z)) : Gen Window :=
  match lines with
  | [] => mret w
  | tl :: lines => w ← window_line fuel latency_s jitter_s w tl; window_lines fuel latency_s jitter_s w lines
  end.
Definition frame_lines (fuel : nat) (lines : list (f64 * list Z)) (compress : Compress) (latency_s jitter_s : f64) (rng : Stream) : Gen (list SendRecord) :=
  match compress with
  | CNone => mret (plain_records latency_s jitter_s rng lines)
  | CZlib => line_frames fuel latency_s jitter_s rng comp_new lines
  | CZlib2 =>
      match lines with
      | [] => mret []
      | (t, _) :: _ =>
          w ← window_lines fuel latency_s jitter_s
                {| w_enc := comp_new; w_rng := rng; w_batch := []; w_end := (ffloor t + of_Z 1)%f64; w_out := [] |} lines;
          w ← flush_window fuel latency_s jitter_s w;
          mret (w_out w)
      end
  end.

(** ** The capture *)
(** [to_line] of messages and of the handshake, and the program's version. *)
Context (msg_line : ClientMsg -> list Z) (hs_line : Handshake -> list Z) (program : string).
Definition line_le (a b : f64 * list Z) : bool := total_le a.1 b.1.
(** The position of the handshake. *)
Definition reported_pos (rx : ReceiverSpec) (rng : Stream) : f64 * f64 * Stream :=
  if (reported_pos_error_m rx >? fzero)%f64 then
    let '(th, rng) := gen_range fzero TAU rng in
    ((r_lat rx + reported_pos_error_m rx * esin th / DEG_M)%f64,
     (r_lon rx + reported_pos_error_m rx * ecos th / (DEG_M * fmax (ecos (to_radians (r_lat rx))) (lit 2 10)))%f64, rng)
  else (r_lat rx, r_lon rx, rng).
Definition sim_handshake (rx : ReceiverSpec) (compress : Compress) (lat lon : f64) : Handshake :=
  {| version := 3; user := r_id rx; uuid := None; compress := [compress]; hs_lat := lat; hs_lon := lon; hs_alt := r_alt_m rx;
     clock_type := match r_clock rx with SpecDump1090 _ _ _ _ _ _ => Dump1090 | SpecRadarcapeGps _ => RadarcapeGps end;
     return_results := Some false; return_result_format := None; client_version := Some program; selective_traffic := None;
     heartbeat := None; return_stats := None |}.
Definition build_client (fuel : nat) (sc : Scenario) (rx : ReceiverSpec) (broadcasts : list Broadcast) : Gen ClientStream :=
  match compress_of (r_compress rx) with
  | None => failing (GenCompress (r_compress rx))
  | Some compress =>
      let seed := seed (meta sc) in
      let net_rng := rng_for seed (String.append "net/" (r_id rx)) in
      '(latency_ms, net_rng) ← draw_incl (latency_ms_min (network sc)) (latency_ms_max (network sc)) net_rng;
      let latency_s := (latency_ms / of_Z 1000)%f64 in
      let jitter_s := (jitter_ms (network sc) / of_Z 1000)%f64 in
      let '(rep_lat, rep_lon, net_rng) := reported_pos rx net_rng in
      s ← receive_all fuel seed rx (CState_new seed rx) broadcasts;
      let lines := stable_sort line_le ((fun tm => (tm.1, msg_line tm.2)) <$> k_lines s) in
      records ← frame_lines fuel lines compress latency_s jitter_s net_rng;
      mret {| cs_id := r_id rx; cs_handshake_line := hs_line (sim_handshake rx compress rep_lat rep_lon); cs_compress := r_compress rx;
              cs_clock_type := wire_clock_type (r_clock rx); cs_records := records; message_count := k_messages s;
              sync_count := k_syncs s; mlat_count := k_mlats s |}
  end.
Fixpoint gen_each {A B} (f : A -> Gen B) (l : list A) : Gen (list B) :=
  match l with
  | [] => mret []
  | a :: l => b ← f a; bs ← gen_each f l; mret (b :: bs)
  end.
Definition generate (fuel : nat) (sc : Scenario) : Gen GeneratedCapture :=
  match validate sc with
  | Some e => failing (GenScenario e)
  | None =>
      let icao ac := default 0 (from_hex (a_icao ac)) in
      emitted ← gen_each (emit_aircraft fuel (seed (meta sc)) (of_Z (duration_s (meta sc)))) (aircraft sc);
      let broadcasts := stable_sort broadcast_le (concat emitted) in
      clients ← gen_each (fun rx => build_client fuel sc rx broadcasts) (receivers sc);
      mret {| truth := aircraft sc ≫= (fun ac => truth_of ac (icao ac) <$> seconds sc);
              audibility := aircraft sc ≫= (fun ac => audibility_of sc ac (icao ac)); clients := clients |}
  end.
End Code.

(** ** The records of a client *)
Section Records.
Context `{Json, Hex, Flate, !FlateLaws, Rand, Elem f64, Ln f64}.

Definition line_bytes (lines : list (f64 * list Z)) : list Z := concat lines.*2.
(** The bytes of the lines of the second before [k]. *)
Definition second_bytes (k : Z) (lines : list (f64 * list Z)) : nat :=
  length (line_bytes (filter (fun tl => (of_Z (k - 1) <=? tl.1)%f64 && (tl.1 <? of_Z k)%f64 = true) lines)).
(** Lines in order, from the second before [k0] to [n] seconds, at most 64511 bytes in any second. *)
Record timed_lines (n k0 : Z) (lines : list (f64 * list Z)) : Prop := {
  tl_sorted : StronglySorted (fun a b => (a.1 <=? b.1)%f64 = true) lines;
  tl_times : Forall (fun tl => (of_Z (k0 - 1) <=? tl.1)%f64 = true /\ (tl.1 <? of_Z n)%f64 = true) lines;
  tl_bytes : forall k, Z.of_nat (second_bytes k lines) <= 64511;
  tl_range : 0 < k0 <= n /\ n < 2 ^ 52
}.

Lemma gen_frame_ok fuel d0 enc wire batch sent : carried_lines d0 enc wire batch sent -> concat batch <> [] ->
  Z.of_nat (length (concat batch)) <= 64511 ->
  exists enc' f, gen_frame fuel enc (concat batch) = inl (enc', f) /\ carried_lines d0 enc' (wire ++ [f]) [] sent.
Proof.
  intros Hc Hne Hl. destruct (carried_lines_flush _ _ _ _ _ Hc Hne Hl) as (enc' & f & Ee & Hc').
  exists enc', f. split; [|done]. unfold gen_frame. by rewrite (encode_frame_fuel fuel _ _ _ Ee).
Qed.
(** A window: what was framed and what is still in the batch are the lines so far. *)
Record window_ok (k : Z) (sent : list (list Z)) (w : Window) : Prop := {
  wo_end : w_end w = of_Z k;
  wo_wire : exists batch, w_batch w = concat batch /\ carried_lines decomp_new (w_enc w) (sr_bytes <$> w_out w) batch sent
}.
Lemma flush_window_ok fuel lat jit k sent w : window_ok k sent w -> Z.of_nat (length (w_batch w)) <= 64511 ->
  Forall (fun l => l <> []) sent ->
  exists w', flush_window fuel lat jit w = inl w' /\ window_ok k sent w' /\ w_batch w' = [] /\
    carried_lines decomp_new (w_enc w') (sr_bytes <$> w_out w') [] sent.
Proof.
  intros [He (batch & Eb & Hw)] Hl Hne. unfold flush_window. destruct (w_batch w) as [|b bs] eqn:Ew.
  - assert (batch = []) as ->.
    { destruct Hw as (groups & _ & ->). apply list.Forall_app in Hne as [_ Hne]. destruct batch as [|[|? ?] batch]; [done| |done].
      by apply list.Forall_cons in Hne as [? _]. }
    exists w. split_and!; [done| |done|done]. split; [done|]. exists []. by rewrite Ew.
  - destruct (to_nanos lat jit (w_end w) (w_rng w)) as [n rng]. rewrite Eb in *.
    destruct (gen_frame_ok fuel _ _ _ _ _ Hw) as (enc' & f & Ef & Hc); [by rewrite <- Eb|done|]. rewrite Ef.
    assert (carried_lines decomp_new enc' (sr_bytes <$> (w_out w ++ [{| sr_t := n; sr_bytes := f |}])) [] sent) as Hc' by by rewrite fmap_app.
    eexists. split_and!; [reflexivity| |done|done]. split; [done|]. by exists [].
Qed.
(** Advancing to a time before [n] takes at most [n - k] rounds. *)
Lemma advance_window_ok n fuel lat jit t k sent w : window_ok k sent w -> Z.of_nat (length (w_batch w)) <= 64511 ->
  Forall (fun l => l <> []) sent -> 0 <= k <= n -> n < 2 ^ 52 -> (t <? of_Z n)%f64 = true -> n - k < Z.of_nat fuel ->
  exists k' w', advance_window fuel lat jit t w = inl w' /\ window_ok k' sent w' /\ k <= k' <= n /\ (t <? of_Z k')%f64 = true /\
    (k' = k /\ w_batch w' = w_batch w \/ w_batch w' = [] /\ (of_Z (k' - 1) <=? t)%f64 = true).
Proof.
  revert k w. induction fuel as [|fuel IH]; intros k w Hw Hl Hne Hk Hn Ht Hf; [lia|]. cbn [advance_window].
  rewrite (wo_end _ _ _ Hw). destruct (fle (of_Z k) t) eqn:Ek.
  - assert (k < n) as Hkn.
    { apply Z.ltb_lt. rewrite <- of_Z_lt by lia. by eapply fle_lt_trans. }
    destruct (flush_window_ok (S fuel) lat jit k sent w Hw Hl Hne) as (w1 & E1 & Hw1 & Eb & _). rewrite E1. cbn [mbind gen_bind].
    set (w2 := {| w_enc := w_enc w1; w_rng := w_rng w1; w_batch := w_batch w1; w_end := (w_end w1 + of_Z 1)%f64; w_out := w_out w1 |}).
    assert (window_ok (k + 1) sent w2) as Hw2.
    { split; [cbn [w2 w_end]; by rewrite (wo_end _ _ _ Hw1), of_Z_add by lia|exact (wo_wire _ _ _ Hw1)]. }
    destruct (IH (k + 1) w2 Hw2) as (k' & w' & E' & Hw' & Hk' & Ht' & Hb'); [cbn [w2 w_batch]; rewrite Eb; cbn; lia|done|lia|done|done|lia|].
    exists k', w'. split_and!; try done; try lia. right. destruct Hb' as [[-> Eb']|[Eb' Hle]]; [|done].
    split; [by rewrite Eb'|]. by replace (k + 1 - 1) with k by lia.
  - exists k, w. split_and!; try done; try lia; [|by left]. destruct (flt t (of_Z k)) eqn:Elt; [done|].
    apply fnot_lt_le in Elt; [congruence|by apply flt_not_nan in Ht as [? _]|by apply of_Z_not_nan; lia].
Qed.

Lemma second_bytes_app k l1 l2 : second_bytes k (l1 ++ l2) = (second_bytes k l1 + second_bytes k l2)%nat.
Proof. unfold second_bytes, line_bytes. by rewrite list.filter_app, fmap_app, concat_app, length_app. Qed.
Lemma second_bytes_in k t l : (of_Z (k - 1) <=? t)%f64 = true -> (t <? of_Z k)%f64 = true -> second_bytes k [(t, l)] = length l.
Proof.
  intros H1' H2'. unfold second_bytes, line_bytes. rewrite list.filter_cons_True by (cbn [fst]; by rewrite H1', H2').
  cbn. by rewrite app_nil_r.
Qed.
Lemma window_lines_ok n fuel lat jit k sofar lines w :
  window_ok k sofar.*2 w -> (length (w_batch w) <= second_bytes k sofar)%nat ->
  StronglySorted (fun a b => (a.1 <=? b.1)%f64 = true) lines ->
  Forall (fun tl => (of_Z (k - 1) <=? tl.1)%f64 = true /\ (tl.1 <? of_Z n)%f64 = true) lines ->
  Forall (fun l => l <> []) (sofar ++ lines).*2 ->
  (forall k, Z.of_nat (second_bytes k (sofar ++ lines)) <= 64511) -> 0 < k <= n -> n < 2 ^ 52 -> n < Z.of_nat fuel ->
  exists k' w', window_lines fuel lat jit w lines = inl w' /\ window_ok k' (sofar ++ lines).*2 w' /\
    Z.of_nat (length (w_batch w')) <= 64511.
Proof.
  intros Hw Hb Hs Ht Hne Hbytes Hk Hn Hf. revert k sofar w Hw Hb Ht Hne Hbytes Hk.
  induction Hs as [|[t l] lines Hs IH Hle]; intros k sofar w Hw Hb Ht Hne Hbytes Hk.
  - exists k, w. rewrite app_nil_r in *. split_and!; [done|done|]. specialize (Hbytes k). lia.
  - apply list.Forall_cons in Ht as [[Hlo Hhi] Ht]. cbn [fst] in Hlo, Hhi. cbn [window_lines]. unfold window_line. cbn [fst snd].
    destruct (advance_window_ok n fuel lat jit t k sofar.*2 w) as (k' & w' & E & Hw' & Hk' & Hlt & Hcase);
      [done|specialize (Hbytes k); rewrite second_bytes_app in Hbytes; lia| |lia|done|done|lia|].
    { rewrite fmap_app in Hne. by apply list.Forall_app in Hne as [? _]. }
    rewrite E. cbn [mbind gen_bind]. set (w2 := {| w_enc := w_enc w'; w_rng := w_rng w'; w_batch := w_batch w' ++ l; w_end := w_end w'; w_out := w_out w' |}).
    assert ((of_Z (k' - 1) <=? t)%f64 = true) as Hlo' by (destruct Hcase as [[-> _]|[_ ?]]; done).
    cbn [mret gen_ret]. rewrite cons_middle, app_assoc in Hbytes, Hne |- *. apply (IH k').
    + destruct Hw' as [He (batch & Eb & Hc)]. split; [exact He|]. exists (batch ++ [l]). cbn [w2 w_batch w_enc w_out].
      rewrite Eb, concat_app, fmap_app. cbn [fmap list_fmap snd concat]. rewrite app_nil_r. split; [done|]. by apply carried_lines_more.
    + cbn [w2 w_batch]. rewrite length_app, second_bytes_app, second_bytes_in by done. destruct Hcase as [[-> ->]|[-> _]]; cbn [length]; lia.
    + rewrite list.Forall_forall in Hle, Ht |- *. intros tl Htl. split; [|by apply Ht].
      eapply fle_trans; [exact Hlo'|]. by apply Hle.
    + exact Hne.
    + exact Hbytes.
    + lia.
Qed.

(** The records of a client carry its lines: for lines in order, none empty and at most 64511
    bytes in any second, framing succeeds (the fuel is the duration in seconds); plain records
    are the lines, and a decoder that follows the frames decodes each to a run of whole lines,
    all of them in order. *)
Theorem records_carry_lines fuel n k0 lines compress lat jit rng :
  timed_lines n k0 lines -> Forall (fun tl => tl.2 <> [] /\ Z.of_nat (length tl.2) <= 64511) lines ->
  (forall t l rest, lines = (t, l) :: rest -> (ffloor t + of_Z 1)%f64 = of_Z k0) -> n < Z.of_nat fuel ->
  exists records, frame_lines fuel lines compress lat jit rng = inl records /\
    match compress with
    | CNone => sr_bytes <$> records = lines.*2
    | _ => exists groups, decode_all 0 decomp_new (sr_bytes <$> records) = Some ((fun ls => concat ls) <$> groups) /\ concat groups = lines.*2
    end.
Proof.
  intros [Hs Ht Hb Hr] Hl Hk0 Hf. destruct compress; cbn [frame_lines].
  - eexists. split; [reflexivity|]. clear. revert rng.
    induction lines as [|[t l] lines IH]; intros rng; [done|]. cbn [plain_records]. destruct (to_nanos _ _ _ _). cbn. by rewrite IH.
  - assert (forall enc wire sent, carried_lines decomp_new enc wire [] sent -> exists records, line_frames fuel lat jit rng enc lines = inl records /\
      exists enc', carried_lines decomp_new enc' (wire ++ (sr_bytes <$> records)) [] (sent ++ lines.*2)) as Hall.
    { clear Hs Ht Hb Hr Hk0. revert rng. induction Hl as [|[t l] lines [Hne Hlen] Hl IH]; intros rng enc wire sent Hc.
      - exists []. split; [done|]. exists enc. by rewrite !app_nil_r.
      - cbn [line_frames]. destruct (to_nanos _ _ _ _) as [m rng'].
        apply (carried_lines_more _ _ _ _ _ l) in Hc. cbn [app snd] in Hne, Hlen, Hc.
        destruct (gen_frame_ok fuel _ _ _ _ _ Hc) as (enc' & f & Ef & Hc'); [by cbn; rewrite app_nil_r|by cbn; rewrite app_nil_r|].
        cbn [concat] in Ef. rewrite app_nil_r in Ef. rewrite Ef. cbn [mbind gen_bind]. destruct (IH rng' _ _ _ Hc') as (records & Er & enc'' & Hc'').
        rewrite Er. eexists. split; [reflexivity|]. exists enc''. cbn [fmap list_fmap sr_bytes snd]. by rewrite <- !app_assoc in Hc''. }
    destruct (Hall comp_new [] [] carried_lines_new) as (records & -> & enc' & Hc). exists records. split; [done|].
    by apply carried_lines_decoded in Hc.
  - destruct lines as [|[t l] rest]; [exists []; split; [done|]; by exists []|]. specialize (Hk0 t l rest eq_refl).
    set (w0 := {| w_enc := comp_new; w_rng := rng; w_batch := []; w_end := (ffloor t + of_Z 1)%f64; w_out := [] |}).
    assert (Forall (fun l => l <> []) ((t, l) :: rest).*2) as Hne
      by (apply list.Forall_fmap; eapply list.Forall_impl; [exact Hl|]; by intros ? [? _]).
    destruct (window_lines_ok n fuel lat jit k0 [] ((t, l) :: rest) w0) as (k' & w' & E & Hw' & Hlen);
      [split; [done|exists []; split; [done|apply carried_lines_new]]|cbn; lia|done|done|exact Hne|exact Hb|apply Hr|apply Hr|done|].
    rewrite E. cbn [mbind gen_bind]. destruct (flush_window_ok fuel lat jit _ _ _ Hw' Hlen Hne) as (w2 & E2 & _ & _ & Hc).
    rewrite E2. cbn [mbind gen_bind]. eexists. split; [reflexivity|]. by apply carried_lines_decoded in Hc.
Qed.
End Records.

(** ** The messages of a client *)
Section Messages.
Context `{Json, Hex, Flate, Rand, Elem f64, Ln f64}.

Definition is_sync (m : ClientMsg) : bool := match m with Sync _ _ _ _ => true | _ => false end.
Definition is_mlat (m : ClientMsg) : bool := match m with Mlat _ _ => true | _ => false end.
Definition announced (m : ClientMsg) : option (list string) := match m with Seen l => Some l | _ => None end.
(** A time at which a receiver may get a transmission. *)
Definition arrived (rx : ReceiverSpec) (b : Broadcast) (t : f64) : Prop := exists mp, t = (arrival rx b mp).1.
(** A transmission a receiver may hear. *)
Definition hearable (rx : ReceiverSpec) (bs : list Broadcast) (b : Broadcast) : Prop := b ∈ bs /\ audible rx (b_pos b) = true.
(** What a line is about. *)
Definition line_ok (rx : ReceiverSpec) (bs : list Broadcast) (tm : f64 * ClientMsg) : Prop :=
  match tm.2 with
  | Sync et ot em om => exists be bo ne no t0,
      hearable rx bs be /\ hearable rx bs bo /\ b_kind be = BDf17 false /\ b_kind bo = BDf17 true /\ b_icao be = b_icao bo /\
      em = hex_from_bytes (b_bytes be) /\ om = hex_from_bytes (b_bytes bo) /\ et = num_of_u64 ne /\ ot = num_of_u64 no /\
      (arrived rx be t0 /\ arrived rx bo tm.1 \/ arrived rx bo t0 /\ arrived rx be tm.1) /\ (tm.1 - t0 <? of_Z 2)%f64 = true
  | Mlat n m => exists b c, hearable rx bs b /\ (b_kind b = BDf11 \/ b_kind b = BDf4) /\ n = num_of_u64 c /\
      m = hex_from_bytes (b_bytes b) /\ arrived rx b tm.1
  | Seen l => exists b, hearable rx bs b /\ l = [to_hex (b_icao b)]
  | Heartbeat _ | InputConnected _ | ClockJump _ => True
  | _ => False
  end.
Definition half_ok (rx : ReceiverSpec) (bs : list Broadcast) (a : Z) (p : PendingHalf) : Prop :=
  exists b, hearable rx bs b /\ b_icao b = a /\ b_kind b = BDf17 (p_odd p) /\ b_bytes b = p_bytes p /\ arrived rx b (p_t_arrive p).

(** Lines, their counters, the announced addresses and the halves kept. *)
Record msgs_ok (rx : ReceiverSpec) (bs : list Broadcast) (lines : list (f64 * ClientMsg)) (n y z : Z)
    (known : gset Z) (pending : gmap Z PendingHalf) : Prop := {
  mo_messages : n = Z.of_nat (length lines);
  mo_syncs : y = Z.of_nat (length (filter (fun tm => is_sync tm.2 = true) lines));
  mo_mlats : z = Z.of_nat (length (filter (fun tm => is_mlat tm.2 = true) lines));
  mo_lines : Forall (line_ok rx bs) lines;
  mo_seen : exists l, base.NoDup l /\ known = list_to_set l /\ omap (announced ∘ snd) lines = (fun a => [to_hex a]) <$> l;
  mo_pending : map_Forall (half_ok rx bs) pending
}.
Definition state_ok (rx : ReceiverSpec) (bs : list Broadcast) (s : CState) : Prop :=
  msgs_ok rx bs (k_lines s) (k_messages s) (k_syncs s) (k_mlats s) (k_seen s) (k_pending s).

(** One more line. *)
Lemma msgs_say rx bs L n y z known known' pending t m : msgs_ok rx bs L n y z known pending -> line_ok rx bs (t, m) ->
  (match announced m with
   | Some l => exists a, a ∉ known /\ l = [to_hex a] /\ known' = {[a]} ∪ known
   | None => known' = known
   end) ->
  msgs_ok rx bs (L ++ [(t, m)]) (n + 1) (y + Z.b2z (is_sync m)) (z + Z.b2z (is_mlat m)) known' pending.
Proof.
  intros [Hn Hy Hz Hl (l & Hnd & -> & Ha) Hp] Hm Hk.
  split; [rewrite length_app; cbn [length]; lia| | | | |done].
  - rewrite list.filter_app, length_app. destruct (is_sync m) eqn:E; [rewrite list.filter_cons_True by done|rewrite list.filter_cons_False by (cbn; congruence)]; cbn; lia.
  - rewrite list.filter_app, length_app. destruct (is_mlat m) eqn:E; [rewrite list.filter_cons_True by done|rewrite list.filter_cons_False by (cbn; congruence)]; cbn; lia.
  - apply Forall_app. split; [done|]. by apply list.Forall_singleton.
  - rewrite omap_app, Ha. cbn [omap list_omap compose snd]. destruct (announced m) as [l'|].
    + destruct Hk as (a & Hni & -> & ->). exists (l ++ [a]). split_and!.
      * apply list.NoDup_app. split_and!; [done| |apply NoDup_singleton]. intros x Hx ->%list_elem_of_singleton. set_solver.
      * rewrite list_to_set_app_L. set_solver.
      * by rewrite fmap_app.
    + subst known'. exists l. by rewrite app_nil_r.
Qed.
Lemma msgs_pending rx bs L n y z known pending pending' : msgs_ok rx bs L n y z known pending -> map_Forall (half_ok rx bs) pending' ->
  msgs_ok rx bs L n y z known pending'.
Proof. by intros [? ? ? ? ? ?] Hp. Qed.

(** The state between two broadcasts: the lines so far, and the next heartbeat due. *)
Record between (rx : ReceiverSpec) (bs : list Broadcast) (n : Z) (s : CState) : Prop := {
  bt_ok : state_ok rx bs s;
  bt_hb : exists j, k_next_hb s = of_Z (30 * j) /\ 0 <= j /\ 30 * j <= n + 30
}.
Lemma heartbeats_ok n fuel rx bs t s : between rx bs n s -> 0 <= n < 2 ^ 52 -> (t <? of_Z n)%f64 = true -> n < Z.of_nat fuel ->
  exists s', heartbeats fuel t s = inl s' /\ between rx bs n s'.
Proof.
  intros [Hok (j & Ej & Hj & Hjn)] Hn Ht Hf. assert (n - 30 * j < Z.of_nat fuel) as Hf' by lia. clear Hf. revert j s Hok Ej Hj Hjn Hf'.
  induction fuel as [|fuel IH]; intros j s Hok Ej Hj Hjn Hf; cbn [heartbeats]; rewrite Ej; destruct (flt (of_Z (30 * j)) t) eqn:Elt;
    try (exists s; split; [done|]; split; [done|by exists j]).
  - assert (flt (of_Z (30 * j)) (of_Z n) = true) as Hlt by by eapply flt_trans.
    rewrite of_Z_lt in Hlt by lia. apply Z.ltb_lt in Hlt. lia.
  - assert (flt (of_Z (30 * j)) (of_Z n) = true) as Hlt by by eapply flt_trans.
    rewrite of_Z_lt in Hlt by lia. apply Z.ltb_lt in Hlt. apply (IH (j + 1)).
    + unfold state_ok in *. cbn [say with_rest k_lines k_messages k_syncs k_mlats k_seen k_pending].
      rewrite <- (Z.add_0_r (k_syncs s)), <- (Z.add_0_r (k_mlats s)).
      exact (msgs_say _ _ _ _ _ _ _ _ _ _ heartbeat_now Hok I eq_refl).
    + cbn [say with_rest k_next_hb]. rewrite Ej, of_Z_add by lia. f_equal. lia.
    + lia.
    + lia.
    + lia.
Qed.
Lemma report_ok rx bs b t c s : state_ok rx bs s -> hearable rx bs b -> arrived rx b t -> state_ok rx bs (report b t c s).
Proof.
  intros Hok Hb Ht. unfold report, state_ok in *.
  assert (forall k, b_kind b = k -> (k = BDf11 \/ k = BDf4) ->
    msgs_ok rx bs (k_lines s ++ [(t, Mlat (num_of_u64 c) (hex_from_bytes (b_bytes b)))]) (k_messages s + 1) (k_syncs s) (k_mlats s + 1) (k_seen s) (k_pending s)) as Hmlat.
  { intros k Ek Hk. rewrite <- (Z.add_0_r (k_syncs s)).
    apply (msgs_say _ _ _ _ _ _ (k_seen s) _ _ _ (Mlat (num_of_u64 c) (hex_from_bytes (b_bytes b))) Hok); [|done].
    exists b, c. rewrite Ek. by split_and!. }
  destruct (b_kind b) as [odd| |] eqn:Ek; [|by eapply Hmlat; [|left]|by eapply Hmlat; [|right]].
  assert (map_Forall (half_ok rx bs) (<[b_icao b:={| p_odd := odd; p_t_arrive := t; p_count := c; p_bytes := b_bytes b |}]> (k_pending s))) as Hins.
  { apply map_Forall_insert_2; [by exists b|]. exact (mo_pending _ _ _ _ _ _ _ _ Hok). }
  destruct (k_pending s !! b_icao b) as [p|] eqn:Ep; [|exact (msgs_pending _ _ _ _ _ _ _ _ _ Hok Hins)].
  destruct (negb (Bool.eqb (p_odd p) odd)) eqn:Eodd; cbn [andb]; [|exact (msgs_pending _ _ _ _ _ _ _ _ _ Hok Hins)].
  destruct (t - p_t_arrive p <? of_Z 2)%f64 eqn:Egap; [|exact (msgs_pending _ _ _ _ _ _ _ _ _ Hok Hins)].
  destruct (mo_pending _ _ _ _ _ _ _ _ Hok _ _ Ep) as (b0 & Hb0 & Ea & Ek0 & Eb0 & Ht0).
  assert (map_Forall (half_ok rx bs) (delete (b_icao b) (k_pending s))) as Hdel
    by (apply map_Forall_delete; exact (mo_pending _ _ _ _ _ _ _ _ Hok)).
  pose proof (msgs_pending _ _ _ _ _ _ _ _ _ Hok Hdel) as Hok'.
  destruct odd; cbn [say with_rest k_lines k_messages k_syncs k_mlats k_seen k_pending]; rewrite <- (Z.add_0_r (k_mlats s)).
  - apply (msgs_say _ _ _ _ _ _ (k_seen s) _ _ _ (Sync _ _ _ _) Hok'); [|done]. destruct (p_odd p); [done|].
    exists b0, b, (p_count p), c, (p_t_arrive p). cbn [snd fst]. rewrite Eb0. split_and!; try done. by left.
  - apply (msgs_say _ _ _ _ _ _ (k_seen s) _ _ _ (Sync _ _ _ _) Hok'); [|done]. destruct (p_odd p); [|done].
    exists b, b0, c, (p_count p), (p_t_arrive p). cbn [snd fst]. rewrite Eb0. split_and!; try done. by right.
Qed.

Lemma receive_ok n fuel seed rx bs s b : between rx bs n s -> b ∈ bs ->
  (audible rx (b_pos b) = true -> forall mp, ((arrival rx b mp).1 <? of_Z n)%f64 = true) -> 0 <= n < 2 ^ 52 -> n < Z.of_nat fuel ->
  exists s', receive fuel seed rx s b = inl s' /\ between rx bs n s'.
Proof.
  intros Hs Hin Ht Hn Hf. unfold receive. destruct (audible rx (b_pos b)) eqn:Ea; cbn [negb]; [|by exists s].
  assert (hearable rx bs b) as Hb by done. destruct (hears seed rx b (k_loss s)) as [heard losses].
  destruct heard; cbn [negb]; [|eexists; split; [reflexivity|by destruct Hs]].
  set (s0 := with_streams (k_clock s) (k_jit s) losses (k_mp s) s). destruct (arrival rx b (k_mp s0)) as [t mp] eqn:Earr.
  assert (arrived rx b t) as Hat by (exists (k_mp s0); by rewrite Earr).
  destruct (heartbeats_ok n fuel rx bs t (with_streams (k_clock s0) (k_jit s0) (k_loss s0) mp s0)) as (s1 & E1 & Hs1); try done.
  { by destruct Hs. } { specialize (Ht eq_refl (k_mp s0)). by rewrite Earr in Ht. }
  rewrite E1. cbn [mbind gen_bind]. destruct (count_at_hostile _ _ _) as [[[c jumped] clock] jit].
  eexists. split; [reflexivity|].
  set (s2 := with_streams clock (<[b_icao b:=jit]> (k_jit s1)) (k_loss s1) (k_mp s1) s1).
  set (s3 := if jumped then say t (ClockJump "jump") s2 else s2).
  assert (state_ok rx bs s3 /\ k_next_hb s3 = k_next_hb s1) as [Hok3 E3].
  { unfold s3. destruct jumped; [|split; [exact (bt_ok _ _ _ _ Hs1)|done]]. split; [|done]. unfold state_ok. cbn [say k_lines k_messages k_syncs k_mlats k_seen k_pending].
    rewrite <- (Z.add_0_r (k_syncs s2)), <- (Z.add_0_r (k_mlats s2)).
    exact (msgs_say _ _ _ _ _ _ _ _ _ _ (ClockJump "jump") (bt_ok _ _ _ _ Hs1) I eq_refl). }
  set (s4 := if decide (b_icao b ∈ k_seen s3) then s3 else _).
  assert (state_ok rx bs s4 /\ k_next_hb s4 = k_next_hb s1) as [Hok4 E4].
  { unfold s4. destruct (decide (b_icao b ∈ k_seen s3)) as [|Hni]; [done|]. split; [|done].
    unfold state_ok. cbn [say with_rest k_lines k_messages k_syncs k_mlats k_seen k_pending].
    rewrite <- (Z.add_0_r (k_syncs s3)), <- (Z.add_0_r (k_mlats s3)).
    apply (msgs_say _ _ _ _ _ _ (k_seen s3) _ _ _ (seen [b_icao b]) Hok3); [by exists b|by exists (b_icao b)]. }
  split; [by apply report_ok|]. destruct (bt_hb _ _ _ _ Hs1) as (j & Ej & Hj). exists j. split; [|done].
  rewrite <- Ej, <- E4. unfold report. destruct (b_kind b) as [odd| |]; [|done..].
  destruct (k_pending s4 !! b_icao b) as [p|]; [|done]. destruct (_ && _); [|done]. by destruct odd.
Qed.

Lemma receive_all_ok n fuel seed rx bs :
  (forall b mp, hearable rx bs b -> ((arrival rx b mp).1 <? of_Z n)%f64 = true) -> 0 <= n < 2 ^ 52 -> n < Z.of_nat fuel ->
  exists s, receive_all fuel seed rx (CState_new seed rx) bs = inl s /\ between rx bs n s.
Proof.
  intros Ht Hn Hf. assert (forall l s, l ⊆ bs -> between rx bs n s -> exists s', receive_all fuel seed rx s l = inl s' /\ between rx bs n s') as Hall.
  { intros l. induction l as [|b l IH]; intros s Hl Hs; [by exists s|]. cbn [receive_all].
    assert (b ∈ bs) as Hb by (apply Hl; left).
    destruct (receive_ok n fuel seed rx bs s b Hs Hb) as (s1 & E1 & Hs1); [intros Ha mp; by apply Ht|done|done|].
    rewrite E1. cbn [mbind gen_bind]. apply IH; [|done]. intros x Hx. apply Hl. by right. }
  apply Hall; [done|]. split; [|by exists 1; split_and!; [|lia|lia]].
  apply (msgs_say _ _ [] 0 0 0 ∅ ∅ ∅ _ (InputConnected "connected")); [|done|done].
  split; [done|done|done|constructor| |apply map_Forall_empty]. exists []. split_and!; [constructor|done|done].
Qed.

(** ** What is heard of one aircraft does not depend on the others *)
Fixpoint heard (seed : Z) (rx : ReceiverSpec) (losses : gmap Z Stream) (bs : list Broadcast) : list Broadcast :=
  match bs with
  | [] => []
  | b :: bs =>
      if audible rx (b_pos b) then
        let '(h, losses) := hears seed rx b losses in
        if h then b :: heard seed rx losses bs else heard seed rx losses bs
      else heard seed rx losses bs
  end.
Lemma heard_filter seed rx a bs losses losses' : losses !! a = losses' !! a ->
  filter (fun b => b_icao b = a) (heard seed rx losses bs) = heard seed rx losses' (filter (fun b => b_icao b = a) bs).
Proof.
  revert losses losses'. induction bs as [|b bs IH]; intros losses losses' El; [done|]. cbn [heard].
  destruct (decide (b_icao b = a)) as [Ea|Ea].
  - rewrite (list.filter_cons_True _ b bs) by done. cbn [heard]. destruct (audible rx (b_pos b)); [|by apply IH].
    unfold hears. rewrite Ea, El. destruct (gen_range _ _ _) as [u st]. cbn [negb].
    destruct (negb _); [rewrite list.filter_cons_True by done; f_equal|]; apply IH; by rewrite !lookup_insert_eq.
  - rewrite (list.filter_cons_False _ b bs) by done. destruct (audible rx (b_pos b)); [|by apply IH].
    unfold hears. destruct (gen_range _ _ _) as [u st].
    destruct (negb _); [rewrite list.filter_cons_False by done|]; apply IH; by rewrite lookup_insert_ne.
Qed.

Definition mlat_frames (L : list (f64 * ClientMsg)) : list HexMsg := omap (fun tm => match tm.2 with Mlat _ m => Some m | _ => None end) L.
Definition is_reply (k : BroadcastKind) : bool := match k with BDf17 _ => false | _ => true end.
Definition reply_frames (bs : list Broadcast) : list HexMsg :=
  (fun b => hex_from_bytes (b_bytes b)) <$> filter (fun b => is_reply (b_kind b) = true) bs.
Lemma mlat_frames_say L t m : mlat_frames (L ++ [(t, m)]) = mlat_frames L ++ match m with Mlat _ h => [h] | _ => [] end.
Proof. unfold mlat_frames. rewrite omap_app. by destruct m. Qed.
Lemma heartbeats_mlats fuel t s s' : heartbeats fuel t s = inl s' -> mlat_frames (k_lines s') = mlat_frames (k_lines s) /\ k_loss s' = k_loss s /\ k_seen s' = k_seen s.
Proof.
  revert s. induction fuel as [|fuel IH]; intros s; cbn [heartbeats]; destruct (flt (k_next_hb s) t); try done; try (by intros [= <-]).
  intros (-> & -> & ->)%IH. cbn [say with_rest k_lines k_loss k_seen]. rewrite mlat_frames_say. by rewrite app_nil_r.
Qed.
Lemma report_mlats b t c s : mlat_frames (k_lines (report b t c s)) = mlat_frames (k_lines s) ++ reply_frames [b] /\ k_loss (report b t c s) = k_loss s /\
  k_seen (report b t c s) = k_seen s.
Proof.
  unfold report, reply_frames. destruct (b_kind b) as [odd| |] eqn:Ek.
  - rewrite list.filter_cons_False by (by rewrite Ek). rewrite app_nil_r. destruct (k_pending s !! b_icao b) as [p|]; [|done].
    destruct (_ && _); [|done]. destruct odd; cbn [say with_rest k_lines k_loss]; rewrite mlat_frames_say; by rewrite app_nil_r.
  - rewrite list.filter_cons_True by (by rewrite Ek). cbn [say with_rest k_lines k_loss]. by rewrite mlat_frames_say.
  - rewrite list.filter_cons_True by (by rewrite Ek). cbn [say with_rest k_lines k_loss]. by rewrite mlat_frames_say.
Qed.
Lemma receive_mlats fuel seed rx s b s' : receive fuel seed rx s b = inl s' ->
  if audible rx (b_pos b) then
    mlat_frames (k_lines s') = mlat_frames (k_lines s) ++ (if (hears seed rx b (k_loss s)).1 then reply_frames [b] else []) /\
    k_loss s' = (hears seed rx b (k_loss s)).2 /\ k_seen s' = (if (hears seed rx b (k_loss s)).1 then {[b_icao b]} else ∅) ∪ k_seen s
  else s' = s.
Proof.
  unfold receive. destruct (audible rx (b_pos b)); cbn [negb]; [|by intros [= <-]].
  destruct (hears seed rx b (k_loss s)) as [h losses]. cbn [fst snd]. destruct h; cbn [negb]; [|intros [= <-]; rewrite app_nil_r; split_and!; [done|done|cbn; set_solver]].
  destruct (arrival _ _ _) as [t mp]. destruct (heartbeats _ _ _) as [s1|e] eqn:E1; [|done]. cbn [mbind gen_bind].
  destruct (heartbeats_mlats _ _ _ _ E1) as (Em1 & El1 & Es1). destruct (count_at_hostile _ _ _) as [[[c jumped] clock] jit].
  intros [= <-]. match goal with |- context [report b t c ?s4] => destruct (report_mlats b t c s4) as (-> & -> & ->) end.
  destruct jumped, (decide _) as [Hd|Hd]; cbn [say with_rest with_streams k_lines k_loss k_seen] in *; rewrite ?mlat_frames_say; rewrite ?app_nil_r, Em1, El1;
    (split_and!; [done|done|]); rewrite Es1 in *; set_solver.
Qed.

(** The addresses known at the end are those heard. *)
Lemma seen_heard fuel seed rx bs s s' : receive_all fuel seed rx s bs = inl s' ->
  forall a, a ∈ k_seen s' <-> a ∈ k_seen s \/ exists b, b ∈ heard seed rx (k_loss s) bs /\ b_icao b = a.
Proof.
  revert s. induction bs as [|b bs IH]; intros s; cbn [receive_all heard].
  - intros [= <-] a. split; [by left|]. intros [?|(b & Hb & _)]; [done|]. by apply elem_of_nil in Hb.
  - destruct (receive fuel seed rx s b) as [s1|e] eqn:E1; [|done]. cbn [mbind gen_bind]. intros E a. rewrite (IH _ E).
    apply receive_mlats in E1. destruct (audible rx (b_pos b)); [|by rewrite E1]. destruct E1 as (_ & -> & ->).
    destruct (hears seed rx b (k_loss s)) as [h losses]. cbn [fst snd]. destruct h; [|set_solver].
    rewrite elem_of_union, elem_of_singleton. split.
    + intros [[->|?]|(b' & Hb & Ea)]; [right; exists b; split; [by left|done]|by left|right; exists b'; split; [by right|done]].
    + intros [?|(b' & [->|Hb]%elem_of_cons & <-)]; [by left; right|by left; left|right; by exists b'].
Qed.

(** C23: what a simulated client sends: for transmissions that reach it within [n] seconds the
    loop ends (the fuel is the duration), the addresses of the transmissions it hears are
    announced, each once and nothing else, every sync pairs an even and an odd frame of one
    aircraft it can hear that arrived less than two seconds apart, every mlat is a DF11 or DF4
    frame it can hear, and the three counters count the lines, the syncs and the mlats. *)
Theorem client_messages n fuel seed rx bs :
  (forall b mp, hearable rx bs b -> ((arrival rx b mp).1 <? of_Z n)%f64 = true) -> 0 <= n < 2 ^ 52 -> n < Z.of_nat fuel ->
  exists s, receive_all fuel seed rx (CState_new seed rx) bs = inl s /\
    Forall (line_ok rx bs) (k_lines s) /\
    (exists l, base.NoDup l /\ (forall a, a ∈ l <-> exists b, b ∈ heard seed rx ∅ bs /\ b_icao b = a) /\
      omap (announced ∘ snd) (k_lines s) = (fun a => [to_hex a]) <$> l) /\
    k_messages s = Z.of_nat (length (k_lines s)) /\
    k_syncs s = Z.of_nat (length (filter (fun tm => is_sync tm.2 = true) (k_lines s))) /\
    k_mlats s = Z.of_nat (length (filter (fun tm => is_mlat tm.2 = true) (k_lines s))).
Proof.
  intros Ht Hn Hf. destruct (receive_all_ok n fuel seed rx bs Ht Hn Hf) as (s & E & [[Em Ey Ez Hl (l & Hnd & Ek & Hs) _] _]).
  exists s. split_and!; try done. exists l. split_and!; [done| |done]. intros a. pose proof (seen_heard _ _ _ _ _ _ E a) as Ha.
  rewrite Ek, elem_of_list_to_set in Ha. rewrite Ha. cbn [CState_new say k_seen k_loss]. set_solver.
Qed.

(** C35: the mlats a client sends are exactly the DF11 and DF4 frames it does not lose, in
    order; and what it loses of one aircraft depends on no other: the transmissions heard of
    an aircraft are those heard in a scenario with that aircraft alone. *)
Theorem losses_separated n fuel seed rx bs :
  (forall b mp, hearable rx bs b -> ((arrival rx b mp).1 <? of_Z n)%f64 = true) -> 0 <= n < 2 ^ 52 -> n < Z.of_nat fuel ->
  (exists s, receive_all fuel seed rx (CState_new seed rx) bs = inl s /\ mlat_frames (k_lines s) = reply_frames (heard seed rx ∅ bs)) /\
  (forall a, filter (fun b => b_icao b = a) (heard seed rx ∅ bs) = heard seed rx ∅ (filter (fun b => b_icao b = a) bs)).
Proof.
  intros Ht Hn Hf. split; [|intros a; by apply heard_filter].
  destruct (receive_all_ok n fuel seed rx bs Ht Hn Hf) as (s & E & _). exists s. split; [done|]. clear Ht Hn Hf.
  assert (forall s0, receive_all fuel seed rx s0 bs = inl s -> mlat_frames (k_lines s) = mlat_frames (k_lines s0) ++ reply_frames (heard seed rx (k_loss s0) bs)) as Hall;
    [|by rewrite (Hall _ E)].
  clear E. induction bs as [|b bs IH]; intros s0; cbn [receive_all heard].
  - intros [= <-]. by rewrite app_nil_r.
  - destruct (receive fuel seed rx s0 b) as [s1|e] eqn:E1; [|done]. cbn [mbind gen_bind]. intros E. rewrite (IH _ E).
    apply receive_mlats in E1. destruct (audible rx (b_pos b)); [|by rewrite E1]. destruct E1 as (-> & -> & _).
    destruct (hears seed rx b (k_loss s0)) as [h losses]. cbn [fst snd]. destruct h; [|by rewrite app_nil_r].
    rewrite <- app_assoc. unfold reply_frames. change (b :: heard seed rx losses bs) with ([b] ++ heard seed rx losses bs).
    by rewrite list.filter_app, fmap_app.
Qed.
End Messages.

(** ** What an aircraft transmits ends *)
Section Emission.
Context `{Json, Hex, Flate, Rand, Elem f64, Ln f64}.
(** A position report within [d] seconds, from where the aircraft is. *)
Definition report_of (ac : AircraftSpec) (icao d : Z) (b : Broadcast) : Prop :=
  b_icao b = icao /\ (fzero <=? b_t_s b)%f64 = true /\ (b_t_s b <? of_Z d)%f64 = true /\ b_pos b = position_at (a_traj ac) (b_t_s b) /\
  exists odd, b_kind b = BDf17 odd.
Lemma df17_broadcast_report ac icao nav_off jt odd d : (fzero <=? jt)%f64 = true -> (jt <? of_Z d)%f64 = true ->
  Forall (report_of ac icao d) (list_of_option (df17_broadcast ac icao nav_off jt odd)).
Proof.
  intros Hlo Hhi. unfold df17_broadcast. destruct (df17_airborne_position _ _ _ _ _ _ _); cbn; [|constructor].
  constructor; [|constructor]. split_and!; try done. by exists odd.
Qed.
Lemma adsb_loop_ends fuel ac icao nav_off d period rng odd t :
  0 <= d < 2 ^ 31 -> unsigned period -> short period -> 1 <= ticks period < 2 ^ 51 -> unsigned t -> short t ->
  d * 2 ^ 20 <= ticks t + Z.of_nat fuel * ticks period ->
  exists bs, adsb_loop fuel ac icao nav_off (of_Z d) period rng odd t = inl bs /\ Forall (report_of ac icao d) bs /\ (length bs <= fuel)%nat.
Proof.
  intros Hd Up Sp Hp. revert rng odd t. induction fuel as [|fuel IH]; intros rng odd t Ut St Hf; cbn [adsb_loop].
  all: destruct (flt t (of_Z d)) eqn:Et; [|exists []; split_and!; [done|constructor|cbn; lia]].
  all: destruct (lt_ticks t d Hd Ut St Et) as [Hfin Ht].
  { lia. }
  destruct (gen_range _ _ rng) as [j rng']. destruct (add_ticks t period Ut St Up Sp) as (Ua & Sa & Ha); [lia|done|done|].
  destruct (IH rng' (negb odd) _ Ua Sa) as (bs & E & Hb & Hl); [lia|]. rewrite E. cbn [mbind gen_bind mret gen_ret].
  eexists. split; [reflexivity|]. destruct (fle fzero (t + j)%f64) eqn:E0, (flt (t + j)%f64 (of_Z d)) eqn:E1; cbn [andb]; try (split; [done|cbn; lia]).
  split.
  - apply list.Forall_app. split; [by apply df17_broadcast_report|done].
  - rewrite length_app. destruct (df17_broadcast _ _ _ _ _); cbn; lia.
Qed.
(** An ADS-B aircraft that reports every 2^-20 seconds or less often, for a scenario shorter
    than 2^31 seconds: emission ends, for a fuel of the duration over the interval, in reports
    of that aircraft within the scenario, one an interval at most. *)
Theorem adsb_emission_ends fuel seed d ac icao : let period := (of_Z 1 / pos_rate_hz ac)%f64 in
  from_hex (a_icao ac) = Some icao -> a_kind ac = KindAdsb -> 0 <= d < 2 ^ 31 -> 1 <= ticks period < 2 ^ 51 ->
  (forall hi rng, (fzero <? hi)%f64 = true -> (fzero <=? (gen_range fzero hi rng).1)%f64 = true /\ short (gen_range fzero hi rng).1) ->
  d * 2 ^ 20 <= Z.of_nat fuel * ticks period ->
  exists bs, emit_aircraft fuel seed (of_Z d) ac = inl bs /\ Forall (report_of ac icao d) bs /\ (length bs <= fuel)%nat.
Proof.
  intros period Hi Hk Hd Hp Hdraw Hf. unfold emit_aircraft. rewrite Hi, Hk. destruct (nav_offset ac _) as [[n1 n2] rng].
  assert (short period) as Sp by (by apply div_short). fold period. clearbody period. destruct period as [| | |[] m e]; cbn [ticks] in Hp; try lia.
  unfold draw. cbn [flt fsub SFltb SFcompare SFsub andb is_finite fzero].
  destruct (Hdraw (S754_finite false m e) rng eq_refl) as [Hlo Sx]. destruct (gen_range fzero _ rng) as [phase rng']. cbn [fst mbind gen_bind mret gen_ret] in *.
  assert (unsigned phase) as Ux by (by destruct phase as [|[]| |[] ? ?]).
  apply adsb_loop_ends; try done. pose proof (ticks_nonneg phase). cbn [ticks] in *. lia.
Qed.
End Emission.

(** ** A small scenario *)
Section Sample.
#[local] Existing Instance json_tree.
#[local] Existing Instance hex_tree.
#[local] Existing Instance flate_stored.
#[local] Existing Instance stored_laws.
#[local] Existing Instance rand_script.
#[local] Existing Instance elem_taylor.
#[local] Existing Instance ln_taylor.
(** An aircraft above the station. *)
Definition sky : Geodetic f64 := {| lat_deg := of_Z 47; lon_deg := of_Z (-1); alt_m := of_Z 6000 |}.
Definition heard_at (t : f64) (k : BroadcastKind) (bytes : list Z) : Broadcast :=
  {| b_t_s := t; b_icao := 0x3c6444; b_kind := k; b_bytes := bytes; b_pos := sky |}.
Definition sky_broadcasts : list Broadcast :=
  [heard_at (of_Z 1) (BDf17 false) [1]; heard_at (of_Z 2) BDf4 [2]; heard_at (lit 5 2) (BDf17 true) [3]; heard_at (of_Z 40) BDf11 [4]].
Definition sky_messages : list (f64 * ClientMsg) :=
  match receive_all 61 7 station (CState_new 7 station) sky_broadcasts with inl s => k_lines s | inr _ => [] end.
Example sky_lines : (fun tm => match tm.2 with Sync _ _ em om => sconcat [em; om] | Mlat _ m => m | Seen l => sconcat l | Heartbeat _ => "hb" | _ => EmptyString end)%string <$> sky_messages
  = [EmptyString; "3c6444"; "02"; "0103"; "hb"; "04"]%string.
Proof. vm_compute. reflexivity. Qed.

Lemma sky_arrivals : forall b mp, hearable station sky_broadcasts b -> ((arrival station b mp).1 <? of_Z 60)%f64 = true.
Proof.
  intros b mp [Hb _]. unfold sky_broadcasts in Hb. repeat (apply elem_of_cons in Hb as [->|Hb]; [vm_compute; reflexivity|]). by apply elem_of_nil in Hb.
Qed.
Lemma client_messages_witness : exists s, receive_all 61 7 station (CState_new 7 station) sky_broadcasts = inl s /\
  Forall (line_ok station sky_broadcasts) (k_lines s) /\ exists l, omap (announced ∘ snd) (k_lines s) = (fun a => [to_hex a]) <$> l /\
  (forall a, a ∈ l <-> exists b, b ∈ heard 7 station ∅ sky_broadcasts /\ b_icao b = a) /\ length (heard 7 station ∅ sky_broadcasts) = 4%nat.
Proof.
  destruct (client_messages 60 61 7 station sky_broadcasts sky_arrivals) as (s & E & Hl & (l & _ & Ha & Es) & _); [lia|lia|].
  exists s. split; [exact E|]. split; [exact Hl|]. exists l. split; [exact Es|]. split; [exact Ha|vm_compute; reflexivity].
Defined.
Lemma losses_separated_witness : exists s, receive_all 61 7 station (CState_new 7 station) sky_broadcasts = inl s /\
  mlat_frames (k_lines s) = reply_frames (heard 7 station ∅ sky_broadcasts).
Proof. apply (losses_separated 60 61 7 station sky_broadcasts sky_arrivals); lia. Defined.

Definition sample_lines : list (f64 * list Z) := [(lit 1 10, [1; 10]); (lit 1 2, [2; 10]); (of_Z 3, [3; 10])].
Lemma sample_timed : timed_lines 60 1 sample_lines.
Proof.
  split; [repeat constructor|repeat constructor| |lia].
  intros k. apply Z.le_trans with (Z.of_nat (length (line_bytes sample_lines))); [|vm_compute; discriminate].
  unfold second_bytes, line_bytes, sample_lines. cbn [fmap list_fmap concat snd].
  rewrite !list.filter_cons. repeat case_decide; cbn; lia.
Qed.
Lemma records_carry_lines_witness : exists records, frame_lines 61 sample_lines CZlib2 fzero fzero calm = inl records /\
  exists groups, decode_all 0 decomp_new (sr_bytes <$> records) = Some ((fun ls => concat ls) <$> groups) /\ concat groups = [[1; 10]; [2; 10]; [3; 10]].
Proof.
  apply (records_carry_lines 61 60 1 sample_lines CZlib2 fzero fzero calm); [apply sample_timed| | |lia].
  - repeat constructor; try discriminate; vm_compute; discriminate.
  - intros t l rest [= <- <- <-]. vm_compute. reflexivity.
Defined.

(** Two reports a second for a minute, every draw at the low end of its range. *)
Section Low.
#[local] Instance rand_low : Rand :=
  {| Stream := unit; sha256 l := l; from_seed _ := tt; gen_range lo _ s := (lo, s); gen_range_incl lo _ s := (lo, s) |}.
Definition reporting : AircraftSpec :=
  {| a_icao := "3C6444"; a_kind := KindAdsb; a_traj := still; pos_rate_hz := of_Z 2; df11_rate_hz := of_Z 1; df4_rate_hz := of_Z 4; nav_error_m := fzero |}.
Lemma adsb_emission_ends_witness : exists bs, emit_aircraft 120 7 (of_Z 60) reporting = inl bs /\
  Forall (report_of reporting 0x3c6444 60) bs /\ (length bs <= 120)%nat.
Proof.
  apply (adsb_emission_ends 120 7 60 reporting 0x3c6444);
    [reflexivity|reflexivity|lia|split; [vm_compute; discriminate|vm_compute; reflexivity]|by intros|vm_compute; discriminate].
Defined.
End Low.

(** A negative rate passes the checks, and its loop goes back in time for ever. *)
Example negative_rate_runs_on :
  let ac := {| a_icao := "3C6444"; a_kind := KindModesOnly; a_traj := still; pos_rate_hz := of_Z 2; df11_rate_hz := of_Z (-1); df4_rate_hz := of_Z 4; nav_error_m := fzero |} in
  validate (scenario_of None [ac]) = None /\ emit_aircraft 1000 7 (of_Z 60) ac = inr GenFuel.
Proof. split; vm_compute; reflexivity. Qed.
(** A position rate of zero passes them too, and panics. *)
Example zero_rate_panics :
  let ac := {| a_icao := "3C6444"; a_kind := KindAdsb; a_traj := still; pos_rate_hz := fzero; df11_rate_hz := of_Z 1; df4_rate_hz := of_Z 4; nav_error_m := fzero |} in
  validate (scenario_of None [ac]) = None /\ emit_aircraft 1000 7 (of_Z 60) ac = inr GenPanic.
Proof. split; vm_compute; reflexivity. Qed.
End Sample.
