(* ===== verification/Replay.v ===== *)
(** * Replaying a capture (crates/mlat-bench/src/runcmd.rs, and the time mapping of scorecmd.rs)

    A client's stream is fed to a server: the handshake, the check of the reply, then the
    client's records at their times divided by the speed.  The server's lines are logged, and
    its heartbeats choose the anchor that maps its clock to the simulation's.  Containers,
    sockets and the files of a run are not modelled. *)
From S2P Require Import Prelude F64 F64Int F64Bound Num Text Decimal Results Geo Metrics Proto Capture.
Local Open Scope Z_scope.

(** [Duration::from_secs_f64] in nanoseconds, to the nearest; [None]: it panics. *)
Definition duration_from_secs (x : f64) : option Z :=
  match x with
  | S754_zero _ => Some 0
  | S754_finite false m e =>
      let n := round_even (Zpos m * 1000000000) e in
      if n <? 2 ^ 64 * 1000000000 then Some n else None
  | _ => None
  end.

(** ** The anchor between the two clocks, over any arithmetic *)
Section Anchor.
Context {F : Type} `{Num F}.
(** A heartbeat as read: the local time and the server's. *)
Definition hb_better (speed : F) (a : option (F * F)) (now st : F) : bool :=
  match a with
  | None => true
  | Some (pa, ph) => (st - speed * now >? ph - speed * pa)%num
  end.
Definition hb_anchor (speed : F) (a : option (F * F)) (hb : F * F) : option (F * F) :=
  if hb_better speed a hb.1 hb.2 then Some hb else a.
(** What the scorer takes for the start of the run in the server's clock; [None]: it gives up. *)
Definition score_wall_t0 (anchor : option (F * F)) (speed wall_t0 : F) : option F :=
  match anchor with
  | Some (r, h) => Some (h - (r - wall_t0) * speed)%num
  | None => if (speed >? nZ 1)%num then None else Some wall_t0
  end.
End Anchor.

(** ** Feeding a client *)
Section Code.
Context `{Codec, Json}.

(** What the network does: whether it connects, the first line back, and which writes fail. *)
Inductive Reply := ReplyLine (l : list Z) | ReplyTimeout | ReplyClosed | ReplyIo.
Record Net := { net_connects : bool; net_reply : Reply; net_fails : nat -> bool }.
Inductive FeedError :=
| FeedReader (e : CaptureError) | FeedEmpty | FeedNotConnect (kind : Z) | FeedConnect | FeedWrite | FeedTimeout | FeedClosed | FeedIo
| FeedReply (e : ProtoError) | FeedCompress (s : string) | FeedFraming (got want : Compress) | FeedDenied (v : Value)
| FeedUnexpected (m : ServerMsg) | FeedPanic.
(** A write, with its deadline in nanoseconds after the start of the run. *)
Record Sent := { sent_at : option Z; sent_bytes : list Z }.

Definition check_reply (entry : ClientEntry) (reply : list Z) : option FeedError :=
  match parse_handshake_reply reply with
  | inr e => Some (FeedReply e)
  | inl (HandshakeAccept compress _ _ _ _) =>
      match compress_of (ce_compress entry) with
      | None => Some (FeedCompress (ce_compress entry))
      | Some want => if decide (compress = want) then None else Some (FeedFraming compress want)
      end
  | inl (Deny d) => Some (FeedDenied d)
  | inl other => Some (FeedUnexpected other)
  end.
Definition feed_deadline (speed : f64) (t_nanos : Z) : option Z :=
  duration_from_secs (of_Z t_nanos / of_Z 1000000000 / speed)%f64.
(** The writes from the [i]th on; a write that fails ends them, whatever it still delivered. *)
Fixpoint feed_records (speed : f64) (fails : nat -> bool) (i : nat) (rs : list Rec) (e : option CaptureError) : list Sent * option FeedError :=
  match rs with
  | [] => ([], FeedReader <$> e)
  | r :: rs =>
      if negb (kind r =? REC_C2S) then feed_records speed fails i rs e
      else
        match feed_deadline speed (t_nanos r) with
        | None => ([], Some FeedPanic)
        | Some d =>
            if fails i then ([], Some FeedWrite)
            else
              let '(sent, x) := feed_records speed fails (S i) rs e in
              ({| sent_at := Some d; sent_bytes := payload r |} :: sent, x)
        end
  end.
Definition feed_client (dir : Dir) (entry : ClientEntry) (speed : f64) (net : Net) : list Sent * option FeedError :=
  match client_records entry dir with
  | inr e => ([], Some (FeedReader e))
  | inl z =>
      match records z with
      | ([], Some e) => ([], Some (FeedReader e))
      | ([], None) => ([], Some FeedEmpty)
      | (first :: rest, e) =>
          if negb (kind first =? REC_CONNECT) then ([], Some (FeedNotConnect (kind first)))
          else if negb (net_connects net) then ([], Some FeedConnect)
          else if net_fails net 0 then ([], Some FeedWrite)
          else
            let hello := {| sent_at := None; sent_bytes := payload first |} in
            match net_reply net with
            | ReplyTimeout => ([hello], Some FeedTimeout)
            | ReplyClosed => ([hello], Some FeedClosed)
            | ReplyIo => ([hello], Some FeedIo)
            | ReplyLine l =>
                match check_reply entry l with
                | Some x => ([hello], Some x)
                | None => let '(sent, x) := feed_records speed (net_fails net) 1 rest e in (hello :: sent, x)
                end
            end
      end
  end.
(** The speeds a run accepts. *)
Definition speed_ok (speed : f64) : bool := fin_range (of_Z 1) (of_Z 100) speed.

(** ** The server's lines *)
(** What the readers of all clients share, and the log of each. *)
Record RunLog := { rl_count : Z; rl_anchor : option (f64 * f64); rl_out : gmap string (list Z) }.
Definition RunLog_new : RunLog := {| rl_count := 0; rl_anchor := None; rl_out := ∅ |}.
Definition log_entry (now : f64) (line : list Z) : list Z :=
  bytes_of (sconcat ["{"; char_text QUOTE; "t"; char_text QUOTE; ":"; fmt_fixed 3 now; ","; char_text QUOTE; "msg"; char_text QUOTE; ":"])%string
  ++ line ++ bytes_of "}" ++ [10].
Definition heartbeat_of (now : f64) (line : list Z) : option (f64 * f64) :=
  match parse_line line with inl (ServerHeartbeat (Some st)) => Some (now, st) | _ => None end.
Definition is_result (line : list Z) : bool := match parse_line line with inl (Result _) => true | _ => false end.
(** A line read by the reader of a client. *)
Definition reader_line (speed : f64) (log : RunLog) (ev : string * f64 * list Z) : RunLog :=
  let '(id, now, line) := ev in
  {| rl_count := if is_result line then u64 (rl_count log + 1) else rl_count log;
     rl_anchor := match heartbeat_of now line with Some hb => hb_anchor speed (rl_anchor log) hb | None => rl_anchor log end;
     rl_out := <[id := default [] (rl_out log !! id) ++ log_entry now line]> (rl_out log) |}.
End Code.

(** ** Deadlines are durations *)
Section Deadlines.
Lemma duration_bounded K x : bounded_by K x -> 0 <= K <= 63 -> is_Some (duration_from_secs x).
Proof.
  intros Hx HK. destruct x as [[]| | |[] m e]; try done. cbn [duration_from_secs]. destruct Hx as [He [_ Hm]].
  assert (round_even (Zpos m * 1000000000) e <= 2 ^ K * 1000000000 + 1) as Hr.
  { unfold round_even. destruct (Z.leb_spec 0 e) as [He0|He0].
    - rewrite Z.shiftl_mul_pow2 by done. assert (2 ^ (K - e) * 2 ^ e = 2 ^ K) as Ep by (rewrite <- Z.pow_add_r by lia; f_equal; lia).
      pose proof (Z.pow_pos_nonneg 2 e). nia.
    - assert (Zpos m * 1000000000 / 2 ^ (- e) <= 2 ^ K * 1000000000) as Hq.
      { apply Z.lt_le_incl, Z.div_lt_upper_bound; [apply Z.pow_pos_nonneg; lia|].
        assert (2 ^ (- e) * 2 ^ K = 2 ^ (K - e)) as Ep by (rewrite <- Z.pow_add_r by lia; f_equal; lia). nia. }
      destruct (_ || _); lia. }
  pose proof (Z.pow_le_mono_r 2 K 63 ltac:(lia) ltac:(lia)). rewrite (proj2 (Z.ltb_lt _ _)) by lia. by eexists.
Qed.
(** A speed a run accepts: a number from 1 to 100 (every number of the program is valid). *)
Definition accepted_speed (speed : f64) : Prop := speed_ok speed = true /\ SpecFloat.valid_binary 53 1024 speed = true.
Lemma accepted_above speed : accepted_speed speed -> exists m e, speed = S754_finite false m e /\ e <= 0 /\ 2 ^ (- e) <= Zpos m.
Proof.
  intros [Hs Hv]. apply andb_true_iff in Hs as [Hlo Hhi].
  change (of_Z 1) with (S754_finite false 4503599627370496 (-52)) in Hlo. change (of_Z 100) with (S754_finite false 7036874417766400 (-46)) in Hhi.
  rewrite fle_key in Hlo, Hhi. destruct speed as [[]|[]| |[] m e]; try done. exists m, e. cbn in Hlo, Hhi.
  assert (e <= -46) as He by (destruct (Z.ltb_spec e (-46)), (Z.eqb_spec e (-46)); lia). split; [done|]. split; [lia|].
  apply andb_true_iff in Hv as [Hc _]. unfold canonical_mantissa in Hc. apply Z.eqb_eq in Hc. unfold fexp, emin in Hc.
  destruct (Z.eq_dec e (-52)) as [->|]; [change (2 ^ (- -52)) with 4503599627370496; lia|].
  change (Zpos (digits2_pos m)) with (digits m) in Hc. rewrite digits_log2 in Hc.
  assert (2 ^ Z.log2 (Zpos m) <= Zpos m) as Hl by (apply Z.log2_spec; lia).
  etransitivity; [|exact Hl]. apply Z.pow_le_mono_r; lia.
Qed.
Lemma deadline_some speed t : accepted_speed speed -> 0 <= t < 2 ^ 64 -> is_Some (feed_deadline speed t).
Proof.
  intros (m & e & -> & He & Hm)%accepted_above Ht. unfold feed_deadline. apply (duration_bounded 38); [|lia].
  change (of_Z 1000000000) with (S754_finite false 8388608000000000 (-23)).
  apply (div_bounded 37 0); [|done|by rewrite Z.sub_0_l|lia]. apply (div_bounded 65 29); [|lia|vm_compute; discriminate|lia].
  by apply (of_Z_bounded t 64).
Qed.
End Deadlines.

(** ** The anchor has the least delay *)
Section Delays.
Local Open Scope R_scope.
(** A heartbeat sent [s] after the start, read [d] later, by a server whose clock runs [speed]
    times as fast and shows [origin] at the start. *)
Definition observed (speed wall_t0 origin : R) (sd : R * R) : R * R :=
  (wall_t0 + sd.1 + sd.2, origin + speed * sd.1).
Definition anchor_of (speed : R) (hbs : list (R * R)) : option (R * R) := fold_left (hb_anchor speed) hbs None.
Lemma fold_anchor {F} `{Num F} (speed : F) hbs a :
  fold_left (hb_anchor speed) hbs (Some a)
  = Some (fold_left (fun best y => if hb_better speed (Some best) y.1 y.2 then y else best) hbs a).
Proof.
  revert a. induction hbs as [|hb hbs IH]; intros a; [done|]. cbn [fold_left]. unfold hb_anchor at 2.
  by destruct (hb_better speed (Some a) hb.1 hb.2).
Qed.

(** The heartbeat kept as the anchor is one that was read with the least delay: when the
    server's clock runs at the replay's speed, the start the scorer computes is the server's
    reading at the start, less the speed times the least of all delays, whatever the order in
    which the clients read their heartbeats; without any heartbeat an accelerated run is not
    scored, and one in real time is scored by the local clock. *)
Theorem anchor_least_delay (speed wall_t0 origin : R) (hbs : list (R * R)) : 1 <= speed ->
  match score_wall_t0 (anchor_of speed (observed speed wall_t0 origin <$> hbs)) speed wall_t0 with
  | Some t0 => hbs = [] /\ speed = 1 /\ t0 = wall_t0 \/
      exists sd, sd ∈ hbs /\ (forall sd', sd' ∈ hbs -> sd.2 <= sd'.2) /\ t0 = origin - speed * sd.2
  | None => hbs = [] /\ 1 < speed
  end.
Proof.
  intros Hs. destruct hbs as [|sd hbs]; cbn [fmap list_fmap anchor_of fold_left].
  - cbn. real_ops. destruct (Rltb_spec 1 speed) as [Hlt|Hge]; [done|]. left. split_and!; [done|lra|done].
  - unfold anchor_of. cbn [fold_left]. change (hb_anchor speed None ?a) with (Some a). rewrite fold_anchor.
    set (better := fun b y : R * R => hb_better speed (Some b) y.1 y.2).
    pose proof (fold_best better (fun x y => x.2 - speed * x.1 <= y.2 - speed * y.1) (fun x => Rle_refl _)
      (fun x y z => Rle_trans _ _ _)) as Hbest.
    destruct (Hbest) with (l := observed speed wall_t0 origin <$> hbs) (x := observed speed wall_t0 origin sd) as [Hin Hle].
    { intros b y. unfold better, hb_better. destruct b as [pa ph], y as [n st]. cbn [fst snd]. real_ops.
      destruct (Rltb_spec (ph - speed * pa) (st - speed * n)); lra. }
    unfold better in Hin, Hle. set (m := fold_left _ _ _) in *.
    assert (m ∈ observed speed wall_t0 origin <$> (sd :: hbs)) as (best & Em & Hb)%list_elem_of_fmap by done.
    rewrite Em. unfold observed. cbn [score_wall_t0]. real_ops. right. exists best. split_and!; [done| |lra].
    intros sd' Hsd'. specialize (Hle (observed speed wall_t0 origin sd')).
    rewrite Em in Hle. unfold observed in Hle at 2 3. cbn [fst snd] in Hle.
    assert (observed speed wall_t0 origin sd' ∈ observed speed wall_t0 origin <$> (sd :: hbs)) as Hf by (apply list_elem_of_fmap; by exists sd').
    specialize (Hle Hf). unfold observed in Hle. cbn [fst snd] in Hle. nra.
Qed.
End Delays.

(** ** What a client is fed *)
Section Feeding.
Context `{Codec, Json}.

Definition c2s (rs : list Rec) : list Rec := filter (fun r => kind r = REC_C2S) rs.
Definition scheduled (speed : f64) (r : Rec) : Sent := {| sent_at := feed_deadline speed (t_nanos r); sent_bytes := payload r |}.
(** Why the records after the handshake end: all [n] that are left were sent, or one failed. *)
Definition feed_end (speed : f64) (fails : nat -> bool) (rs : list Rec) (e : option CaptureError) (n : nat) (x : option FeedError) : Prop :=
  match x with
  | None => (length rs <= n)%nat /\ e = None
  | Some (FeedReader e') => (length rs <= n)%nat /\ e = Some e'
  | Some FeedWrite => (n < length rs)%nat /\ fails n = true
  | Some FeedPanic => exists r, rs !! n = Some r /\ feed_deadline speed (t_nanos r) = None
  | _ => False
  end.
Lemma feed_records_spec speed fails i rs e :
  exists n, (feed_records speed fails i rs e).1 = scheduled speed <$> take n (c2s rs) /\
    feed_end speed (fun k => fails (i + k)%nat) (c2s rs) e n (feed_records speed fails i rs e).2.
Proof.
  revert i. induction rs as [|r rs IH]; intros i; cbn [feed_records].
  - exists O. split; [done|]. destruct e; cbn; split; done || lia.
  - unfold c2s. destruct (Z.eqb_spec (kind r) REC_C2S) as [Hk|Hk]; cbn [negb].
    + rewrite list.filter_cons_True by done. fold (c2s rs). destruct (feed_deadline speed (t_nanos r)) as [d|] eqn:Ed.
      * destruct (fails i) eqn:Ei.
        -- exists O. cbn. rewrite Nat.add_0_r. split_and!; [done|lia|done].
        -- destruct (IH (S i)) as (n & E1 & E2). destruct (feed_records speed fails (S i) rs e) as [sent x]. cbn [fst snd] in *.
           exists (S n). cbn [take fmap list_fmap]. split; [rewrite E1; unfold scheduled at 2; by rewrite Ed|].
           unfold feed_end in *. rewrite Nat.add_succ_r. cbn [length lookup list_lookup].
           destruct x as [[]|]; try done; destruct E2; split; done || lia.
      * exists O. split; [done|]. by exists r.
    + rewrite list.filter_cons_False by done. apply IH.
Qed.

(** The record streams that are sent: a handshake first, then the client's records. *)
Definition to_send (speed : f64) (first : Rec) (rest : list Rec) : list Sent :=
  {| sent_at := None; sent_bytes := payload first |} :: (scheduled speed <$> c2s rest).
Lemma c2s_deadlines speed rs : accepted_speed speed -> Forall (fun r => 0 <= t_nanos r < 2 ^ 64) rs ->
  Forall (fun r => is_Some (feed_deadline speed (t_nanos r))) (c2s rs).
Proof.
  intros Hs Hr. unfold c2s. rewrite list.Forall_forall in Hr |- *. intros r [_ Hin]%list_elem_of_filter.
  by apply deadline_some, Hr.
Qed.
(** A server that accepts, over a network that never fails, is sent everything. *)
Lemma feed_accepted dir entry speed net z first rest e l :
  client_records entry dir = inl z -> records z = (first :: rest, e) -> kind first = REC_CONNECT -> net_connects net = true ->
  (forall i, net_fails net i = false) -> net_reply net = ReplyLine l -> check_reply entry l = None ->
  Forall (fun r => is_Some (feed_deadline speed (t_nanos r))) (c2s rest) ->
  feed_client dir entry speed net = (to_send speed first rest, FeedReader <$> e).
Proof.
  intros Hz Hr Hk Hc Hf Hl Hch Hd. unfold feed_client. rewrite Hz, Hr, (proj2 (Z.eqb_eq _ _) Hk), Hc, Hf, Hl, Hch. cbn [negb].
  destruct (feed_records_spec speed (net_fails net) 1 rest e) as (n & E1 & E2).
  destruct (feed_records speed (net_fails net) 1 rest e) as [sent x]. cbn [fst snd] in *. subst sent.
  destruct x as [[]|]; try done; cbn in E2.
  - destruct E2 as [Hn ->]. by rewrite take_ge.
  - destruct E2 as [_ E2]. by rewrite Hf in E2.
  - destruct E2 as (r & Hlk & Hnone). rewrite list.Forall_lookup in Hd. destruct (Hd _ _ Hlk). congruence.
  - destruct E2 as [Hn ->]. by rewrite take_ge.
Qed.
(** What is sent in any case, and why it ends. *)
Lemma feed_client_shape dir entry speed net z first rest e : client_records entry dir = inl z -> records z = (first :: rest, e) ->
  let '(sent, x) := feed_client dir entry speed net in
  sent `prefix_of` to_send speed first rest /\
  ((1 < length sent)%nat -> exists l c m h r v, net_reply net = ReplyLine l /\
    parse_handshake_reply l = inl (HandshakeAccept c m h r v) /\ compress_of (ce_compress entry) = Some c) /\
  (x = None -> sent = to_send speed first rest /\ e = None /\ kind first = REC_CONNECT).
Proof.
  intros Hz Hr. unfold feed_client. rewrite Hz, Hr.
  destruct (Z.eqb_spec (kind first) REC_CONNECT) as [Hk|Hk]; cbn [negb]; [|split_and!; try done; [apply prefix_nil|cbn; lia]].
  destruct (net_connects net); cbn [negb]; [|split_and!; try done; [apply prefix_nil|cbn; lia]].
  destruct (net_fails net 0) eqn:Ef; [split_and!; try done; [apply prefix_nil|cbn; lia]|].
  assert ([{| sent_at := None; sent_bytes := payload first |}] `prefix_of` to_send speed first rest) as Hpre
    by (by exists (scheduled speed <$> c2s rest)).
  destruct (net_reply net) as [l| | |] eqn:El; [|split_and!; [done|cbn; lia|done]..].
  destruct (check_reply entry l) as [x|] eqn:Ec; [split_and!; [done|cbn; lia|done]|].
  destruct (feed_records_spec speed (net_fails net) 1 rest e) as (n & E1 & E2).
  destruct (feed_records speed (net_fails net) 1 rest e) as [sent x]. cbn [fst snd] in *. subst sent.
  split_and!.
  - unfold to_send. apply prefix_cons. rewrite <- (take_drop n (c2s rest)) at 2. rewrite fmap_app. by eexists.
  - intros _. unfold check_reply in Ec. destruct (parse_handshake_reply l) as [[]|] eqn:Ep; try done.
    destruct (compress_of (ce_compress entry)) as [want|] eqn:Ew; [|done].
    destruct (decide (compress = want)) as [->|]; [|done]. by eexists _, _, _, _, _, _.
  - intros ->. destruct E2 as [Hn ->]. by rewrite take_ge.
Qed.

(** C27: a replayed client is sent its recorded handshake, at once, and then, only if the server
    accepts it with the framing of the capture, the client's records and no others, each at
    its recorded time divided by the speed, in order and up to the first failure; at a speed
    a run accepts no deadline panics, and without a failure all of them are sent. *)
Theorem replay_sends dir entry speed net z first rest e :
  client_records entry dir = inl z -> records z = (first :: rest, e) ->
  let '(sent, x) := feed_client dir entry speed net in
  sent `prefix_of` to_send speed first rest /\
  ((1 < length sent)%nat -> exists l c m h r v, net_reply net = ReplyLine l /\
    parse_handshake_reply l = inl (HandshakeAccept c m h r v) /\ compress_of (ce_compress entry) = Some c) /\
  (x = None -> sent = to_send speed first rest /\ e = None /\ kind first = REC_CONNECT) /\
  (kind first = REC_CONNECT -> net_connects net = true -> (forall i, net_fails net i = false) ->
   (exists l, net_reply net = ReplyLine l /\ check_reply entry l = None) ->
   accepted_speed speed -> Forall (fun r => 0 <= t_nanos r < 2 ^ 64) rest ->
   sent = to_send speed first rest /\ x = FeedReader <$> e).
Proof.
  intros Hz Hr. pose proof (feed_client_shape dir entry speed net z first rest e Hz Hr) as Hs.
  destruct (feed_client dir entry speed net) as [sent x] eqn:Efc. destruct Hs as (? & ? & ?). split_and!; try done.
  intros Hk Hc Hf (l & Hl & Hch) Hsp Hd. apply (c2s_deadlines _ _ Hsp) in Hd.
  rewrite (feed_accepted dir entry speed net z first rest e l Hz Hr Hk Hc Hf Hl Hch Hd) in Efc. by injection Efc as <- <-.
Qed.
End Feeding.

(** ** A short replay *)
Section Sample.
#[local] Existing Instance codec_stored.
(** Every line is a reply that chooses no compression. *)
#[local] Instance json_accepting : Json := json_with (fun _ => Some (TObj [("compress", TStr "none")])%string).
Definition sample_rec : Rec := {| t_nanos := 0; kind := REC_CONNECT; payload := [] |}.
Definition replay_recs : list Rec :=
  [{| t_nanos := 0; kind := REC_CONNECT; payload := [72; 10] |}; {| t_nanos := 1000000000; kind := REC_C2S; payload := [1] |};
   {| t_nanos := 1500000000; kind := REC_S2C; payload := [2] |}; {| t_nanos := 3000000000; kind := REC_C2S; payload := [3] |}].
Definition replay_dir : Dir := Some (<[ce_file sample_entry := MBC_MAGIC ++ [10] ++ stream_bytes replay_recs]> ∅).
(** A network whose third write fails. *)
Definition flaky : Net := {| net_connects := true; net_reply := ReplyLine [123; 125]; net_fails i := (2 <=? i)%nat |}.
Example second_record_lost : feed_client replay_dir sample_entry (of_Z 4) flaky
  = ([{| sent_at := None; sent_bytes := [72; 10] |}; {| sent_at := Some 250000000; sent_bytes := [1] |}], Some FeedWrite).
Proof. vm_compute. reflexivity. Qed.
Lemma replay_sends_witness : (feed_client replay_dir sample_entry (of_Z 4) flaky).1 `prefix_of` to_send (of_Z 4) (hd sample_rec replay_recs) (tl replay_recs).
Proof.
  pose proof (replay_sends replay_dir sample_entry (of_Z 4) flaky {| st_bytes := stream_bytes replay_recs; st_end := None |}
    (hd sample_rec replay_recs) (tl replay_recs) None) as Hs.
  destruct (feed_client replay_dir sample_entry (of_Z 4) flaky) as [sent x].
  apply Hs; vm_compute; reflexivity.
Defined.
End Sample.

Section Heartbeats.
Local Open Scope R_scope.
(** The second heartbeat was read one second late, the first two: at four times the speed the
    start is taken four seconds early. *)
Lemma anchor_least_delay_witness :
  score_wall_t0 (anchor_of 4 (observed 4 1000 7000 <$> [(5, 2); (35, 1)])) 4 1000 = Some 6996.
Proof.
  pose proof (anchor_least_delay 4 1000 7000 [(5, 2); (35, 1)] ltac:(lra)) as Ha.
  destruct (score_wall_t0 _ 4 1000) as [t|]; [|destruct Ha as [Ha _]; discriminate Ha].
  destruct Ha as [[Ha _]|(sd & Hin & Hle & ->)]; [discriminate Ha|]. f_equal.
  assert (sd.2 <= 1) as H1' by (apply (Hle (35, 1)); right; left).
  apply elem_of_cons in Hin as [->|Hin]; [cbn in H1'; lra|]. apply list_elem_of_singleton in Hin as ->. cbn. lra.
Defined.
End Heartbeats.
