(* ===== verification/Tap.v ===== *)
(** * Recording through a proxy (crates/mlat-bench/src/recordcmd.rs)

    Every accepted connection is a tap: a state machine over what its two copying loops read,
    with the capture's writer they share.  The taps run interleaved; at the deadline they are
    cut and the manifest is written.  What the sockets do is an event. *)
From S2P Require Import Prelude F64 Text Decimal Metrics Proto Capture Replay.
Local Open Scope Z_scope.

Section Code.
Context `{Codec, Json}.

(** ** One connection *)
(** A copying loop awaits a read, writes what is left of the bytes it has read and recorded,
    has ended at the end of its input, or has failed, with what it had not written. *)
Inductive Loop := Running | Writing (todo : list Z) | Ended | Failed (todo : list Z).
#[export] Instance Loop_eq_dec : EqDecision Loop.
Proof. solve_decision. Defined.
Definition over (l : Loop) : bool := match l with Ended | Failed _ => true | Running | Writing _ => false end.
(** A direction: its loop, and what was written to the other side. *)
Record Side := { sd_loop : Loop; sd_passed : list Z }.
Record Tap := { tp_writer : ClientWriter; tp_up : Side; tp_down : Side; tp_joined : bool }.
(** A read that returned (no byte: the end of the stream) or failed; some bytes written, or a
    write that failed; both loops joined. *)
Inductive LoopEvent := Read (now : Z) (bytes : list Z) | ReadFailed | Wrote (n : nat) | WriteFailed.
Inductive TapEvent := ClientLoop (ev : LoopEvent) | ServerLoop (ev : LoopEvent) | Joined (now : Z).
Definition tap_record (now knd : Z) (p : list Z) (w : ClientWriter) : ClientWriter :=
  record {| t_nanos := now; kind := knd; payload := p |} w.
Definition at_loop (l : Loop) (sd : Side) : Side := {| sd_loop := l; sd_passed := sd_passed sd |}.
(** One step of a loop, which records what it reads as [knd]. *)
Definition loop_step (knd : Z) (w : ClientWriter) (sd : Side) (ev : LoopEvent) : ClientWriter * Side :=
  match sd_loop sd, ev with
  | Running, Read now [] => (w, at_loop Ended sd)
  | Running, Read now bytes => (tap_record now knd bytes w, at_loop (Writing bytes) sd)
  | Running, ReadFailed => (w, at_loop (Failed []) sd)
  | Writing todo, Wrote n =>
      let rest := drop n todo in
      (w, {| sd_loop := if bool_decide (rest = []) then Running else Writing rest; sd_passed := sd_passed sd ++ take n todo |})
  | Writing todo, WriteFailed => (w, at_loop (Failed todo) sd)
  | _, _ => (w, sd)
  end.
Definition tap_step (t : Tap) (ev : TapEvent) : Tap :=
  match ev with
  | ClientLoop ev =>
      let '(w, up) := loop_step REC_C2S (tp_writer t) (tp_up t) ev in
      {| tp_writer := w; tp_up := up; tp_down := tp_down t; tp_joined := tp_joined t |}
  | ServerLoop ev =>
      let '(w, down) := loop_step REC_S2C (tp_writer t) (tp_down t) ev in
      {| tp_writer := w; tp_up := tp_up t; tp_down := down; tp_joined := tp_joined t |}
  | Joined now =>
      if over (sd_loop (tp_up t)) && over (sd_loop (tp_down t)) && negb (tp_joined t)
      then {| tp_writer := tap_record now REC_DISCONNECT [] (tp_writer t); tp_up := tp_up t; tp_down := tp_down t; tp_joined := true |}
      else t
  end.
(** The tap of a connection whose handshake was sent on. *)
Definition tap_new (w : ClientWriter) (hs : list Z) : Tap := {|
  tp_writer := w; tp_up := {| sd_loop := Running; sd_passed := hs |}; tp_down := {| sd_loop := Running; sd_passed := [] |}; tp_joined := false |}.

(** The manifest's entry, from the handshake line, which need not be JSON. *)
Definition tap_entry (id : string) (hs : list Z) : ClientEntry :=
  let get (k : string) : option Value := from_slice hs ≫= (fun v => jget v k) in
  let num (k : string) : f64 := default fzero (get k ≫= as_f64) in
  {| ce_id := id; ce_file := client_file id; ce_clock_type := default "unknown"%string (get "clock_type"%string ≫= as_str);
     ce_compress := default "unknown"%string (v ← get "compress"%string; a ← as_array v; c ← head a; as_str c);
     ce_lat := num "lat"%string; ce_lon := num "lon"%string; ce_alt_m := num "alt"%string |}.

(** ** All of them *)
Definition conn_id (i : nat) : string := String.append "conn-" (fmt_0n 3 (u32 (Z.of_nat i))).
(** A connection waits for its first line, writes it to the server, awaits the lock of the
    manifest's entries, runs, or is over: refused without a first line, or with a first line
    that could not be sent on, whose file is left. *)
Inductive Conn := Waiting | Greeting (w : ClientWriter) (hs : list Z) | Greeted (t : Tap) (hs : list Z) | Tapping (t : Tap)
  | Refused | Orphan (w : ClientWriter).
Record Proxy := { px_conns : list Conn; px_entries : list ClientEntry }.
Inductive ProxyEvent :=
| Accepted (upstream : bool)
| Hello (i : nat) (now : Z) (hs : list Z)
| Forwarded (i : nat) (ok : bool)
| Listed (i : nat)
| OnTap (i : nat) (ev : TapEvent).
Definition set_conn (i : nat) (c : Conn) (p : Proxy) : Proxy := {| px_conns := <[i := c]> (px_conns p); px_entries := px_entries p |}.
Definition proxy_step (p : Proxy) (ev : ProxyEvent) : Proxy :=
  match ev with
  | Accepted upstream => {| px_conns := px_conns p ++ [if upstream then Waiting else Refused]; px_entries := px_entries p |}
  | Hello i now hs =>
      match px_conns p !! i with
      | Some Waiting =>
          match hs with
          | [] => set_conn i Refused p
          | _ => set_conn i (Greeting (tap_record now REC_CONNECT hs (client_writer (conn_id i))) hs) p
          end
      | _ => p
      end
  | Forwarded i ok =>
      match px_conns p !! i with
      | Some (Greeting w hs) => set_conn i (if ok then Greeted (tap_new w hs) hs else Orphan w) p
      | _ => p
      end
  | Listed i =>
      match px_conns p !! i with
      | Some (Greeted t hs) => {| px_conns := <[i := Tapping t]> (px_conns p); px_entries := px_entries p ++ [tap_entry (conn_id i) hs] |}
      | _ => p
      end
  | OnTap i ev =>
      match px_conns p !! i with
      | Some (Tapping t) => set_conn i (Tapping (tap_step t ev)) p
      | _ => p
      end
  end.
Definition Proxy_new : Proxy := {| px_conns := []; px_entries := [] |}.
Definition proxy_run (evs : list ProxyEvent) : Proxy := fold_left proxy_step evs Proxy_new.
Definition conn_writer (c : Conn) : option ClientWriter :=
  match c with Greeted t _ | Tapping t => Some (tp_writer t) | Greeting w _ | Orphan w => Some w | Waiting | Refused => None end.
Definition recording_manifest (duration_s : Z) (p : Proxy) : Manifest :=
  {| m_format := "mbc"; m_version := 1; m_name := "recording"; m_seed := 0; m_duration_s := duration_s;
     m_scenario_sha256 := EmptyString; m_clients := px_entries p |}.
(** The directory once the deadline has cut the taps. *)
Definition record_cmd (evs : list ProxyEvent) (duration_s : Z) (dir : Dir) : Dir + CaptureError :=
  match create dir with
  | inr e => inr e
  | inl d =>
      let p := proxy_run evs in
      inl (write_manifest (recording_manifest duration_s p)
        (fold_left (fun d w => finish w d) (omap conn_writer (px_conns p)) d))
  end.
End Code.

(** ** What a tap records *)
Section Recorded.
Context `{Codec, Json}.

Definition payloads_of (k : Z) (rs : list Rec) : list Z := rs ≫= (fun r => if kind r =? k then payload r else []).
Lemma payloads_of_snoc k rs r : payloads_of k (rs ++ [r]) = payloads_of k rs ++ (if kind r =? k then payload r else []).
Proof. unfold payloads_of. rewrite bind_app. cbn. by rewrite app_nil_r. Qed.
Lemma payloads_c2s rs : payloads_of REC_C2S rs = concat (payload <$> c2s rs).
Proof.
  unfold c2s. induction rs as [|r rs IH]; [done|]. unfold payloads_of in *. cbn [mbind list_bind].
  destruct (Z.eqb_spec (kind r) REC_C2S) as [E|E]; [rewrite list.filter_cons_True by done|rewrite list.filter_cons_False by done];
    cbn [fmap list_fmap concat]; by rewrite <- IH.
Qed.
Lemma tap_record_bytes now k p id rs :
  tap_record now k p (client_bytes id rs) = client_bytes id (rs ++ [{| t_nanos := now; kind := k; payload := p |}]).
Proof. unfold client_bytes. by rewrite fold_left_snoc. Qed.

(** What a loop has read and recorded but not written. *)
Definition pending (l : Loop) : list Z := match l with Writing todo | Failed todo => todo | Running | Ended => [] end.
(** The events a loop sees: reads of at most 2^32 bytes, at times of 64 bits. *)
Definition loop_event_ok (ev : LoopEvent) : Prop :=
  match ev with Read now b => 0 <= now < 2 ^ 64 /\ Z.of_nat (length b) < 2 ^ 32 | _ => True end.
Definition event_ok (ev : TapEvent) : Prop :=
  match ev with ClientLoop ev | ServerLoop ev => loop_event_ok ev | Joined now => 0 <= now < 2 ^ 64 end.
#[export] Instance loop_event_ok_dec ev : Decision (loop_event_ok ev).
Proof. destruct ev; unfold loop_event_ok; apply _. Defined.
#[export] Instance event_ok_dec ev : Decision (event_ok ev).
Proof. destruct ev; unfold event_ok; apply _. Defined.
Record tap_ok (id : string) (first : Rec) (t : Tap) (rs : list Rec) : Prop := {
  to_writer : tp_writer t = client_bytes id (first :: rs);
  to_recs : Forall rec_ok rs;
  to_up : payload first ++ payloads_of REC_C2S rs = sd_passed (tp_up t) ++ pending (sd_loop (tp_up t));
  to_down : payloads_of REC_S2C rs = sd_passed (tp_down t) ++ pending (sd_loop (tp_down t))
}.
Lemma take_drop_pending n (todo : list Z) : pending (if bool_decide (drop n todo = []) then Running else Writing (drop n todo)) = drop n todo.
Proof. by case_bool_decide as E. Qed.
(** A step of a loop: its records grow by what it reads, which it holds until it is written. *)
Lemma loop_step_ok knd id rs sd ev w' sd' : Forall rec_ok rs -> loop_event_ok ev -> loop_step knd (client_bytes id rs) sd ev = (w', sd') ->
  exists new, w' = client_bytes id (rs ++ new) /\ Forall rec_ok new /\ Forall (fun r => kind r = knd) new /\
    sd_passed sd' ++ pending (sd_loop sd') = (sd_passed sd ++ pending (sd_loop sd)) ++ concat (payload <$> new).
Proof.
  intros Hr He. assert (forall sd1, (client_bytes id rs, sd1) = (w', sd') -> sd_passed sd1 ++ pending (sd_loop sd1) = sd_passed sd ++ pending (sd_loop sd) ->
    exists new, w' = client_bytes id (rs ++ new) /\ Forall rec_ok new /\ Forall (fun r => kind r = knd) new /\
      sd_passed sd' ++ pending (sd_loop sd') = (sd_passed sd ++ pending (sd_loop sd)) ++ concat (payload <$> new)) as Hsame.
  { intros sd1 E Ep. injection E as <- <-. exists []. cbn. rewrite !app_nil_r. by split_and!. }
  unfold loop_step. destruct (sd_loop sd) as [|todo| |todo] eqn:El, ev as [now [|b l]| |n|]; try (intros E; apply (Hsame _ E); cbn [at_loop sd_passed sd_loop]; rewrite ?El; done).
  - intros [= <- <-]. exists [{| t_nanos := now; kind := knd; payload := b :: l |}]. rewrite tap_record_bytes.
    cbn [loop_event_ok] in He. split_and!; [done|apply list.Forall_singleton; split; cbn [t_nanos payload]; [apply He|apply He]|by apply list.Forall_singleton|].
    cbn [at_loop sd_passed sd_loop pending fmap list_fmap concat payload]. by rewrite !app_nil_r.
  - intros E. apply (Hsame _ E). cbn [sd_passed sd_loop]. rewrite take_drop_pending, <- app_assoc, take_drop. done.
Qed.
Lemma payloads_app k rs rs' : payloads_of k (rs ++ rs') = payloads_of k rs ++ payloads_of k rs'.
Proof. unfold payloads_of. by rewrite bind_app. Qed.
Lemma payloads_kind k k' rs : Forall (fun r => kind r = k') rs -> payloads_of k rs = if k' =? k then concat (payload <$> rs) else [].
Proof.
  induction 1 as [|r rs Hr _ IH]; [by destruct (k' =? k)|]. unfold payloads_of in *. cbn [mbind list_bind]. rewrite IH, Hr. by destruct (k' =? k).
Qed.
Lemma tap_step_ok id first t rs ev : rec_ok first -> tap_ok id first t rs -> event_ok ev -> exists rs', tap_ok id first (tap_step t ev) rs'.
Proof.
  intros Hf [Hw Hr Hu Hd] He. assert (Forall rec_ok (first :: rs)) as Hall by by constructor. destruct ev as [ev|ev|now]; cbn [tap_step event_ok] in *.
  - rewrite Hw. destruct (loop_step _ _ _ _) as [w' up] eqn:E. destruct (loop_step_ok _ _ _ _ _ _ _ Hall He E) as (new & -> & Hn & Hk & Ep).
    exists (rs ++ new). split; cbn [tp_writer tp_up tp_down]; [done|by apply list.Forall_app| |]; rewrite payloads_app, (payloads_kind _ _ _ Hk).
    + rewrite app_assoc, Hu. by rewrite Ep.
    + by rewrite app_nil_r.
  - rewrite Hw. destruct (loop_step _ _ _ _) as [w' down] eqn:E. destruct (loop_step_ok _ _ _ _ _ _ _ Hall He E) as (new & -> & Hn & Hk & Ep).
    exists (rs ++ new). split; cbn [tp_writer tp_up tp_down]; [done|by apply list.Forall_app| |]; rewrite payloads_app, (payloads_kind _ _ _ Hk).
    + by rewrite app_nil_r.
    + rewrite Hd. by rewrite Ep.
  - destruct (_ && _); [|by exists rs]. exists (rs ++ [{| t_nanos := now; kind := REC_DISCONNECT; payload := [] |}]).
    split; cbn [tp_writer tp_up tp_down]; [by rewrite Hw, tap_record_bytes| | |].
    + apply list.Forall_app. split; [done|]. apply list.Forall_singleton. split; cbn; lia.
    + rewrite payloads_of_snoc. cbn [kind payload]. by rewrite app_nil_r.
    + rewrite payloads_of_snoc. cbn [kind payload]. by rewrite app_nil_r.
Qed.
End Recorded.

(** ** The recording as a whole *)
Section Recording.
Context `{Codec, !CodecLaws, Json}.

Definition hello (now : Z) (hs : list Z) : Rec := {| t_nanos := now; kind := REC_CONNECT; payload := hs |}.
(** The tap of a connection with handshake [hs], and what it has recorded since. *)
Definition tapped (i : nat) (hs : list Z) (t : Tap) : Prop :=
  exists now rs, rec_ok (hello now hs) /\ tap_ok (conn_id i) (hello now hs) t rs.
Definition greeted (i : nat) (hs : list Z) (w : ClientWriter) : Prop :=
  exists now, rec_ok (hello now hs) /\ w = client_bytes (conn_id i) [hello now hs].
Definition conn_good (i : nat) (c : Conn) : Prop :=
  match c with
  | Tapping t => exists hs, tapped i hs t
  | Greeted t hs => exists w, greeted i hs w /\ t = tap_new w hs
  | Greeting w hs => greeted i hs w
  | Orphan w => exists hs, greeted i hs w
  | Waiting | Refused => True
  end.
Definition entry_good (p : Proxy) (e : ClientEntry) : Prop :=
  exists i t hs, px_conns p !! i = Some (Tapping t) /\ tapped i hs t /\ e = tap_entry (conn_id i) hs.
Record proxy_ok (p : Proxy) : Prop := {
  po_conns : forall i c, px_conns p !! i = Some c -> conn_good i c;
  po_entries : Forall (entry_good p) (px_entries p);
  po_listed : forall i t, px_conns p !! i = Some (Tapping t) -> exists hs, tap_entry (conn_id i) hs ∈ px_entries p
}.
Definition proxy_event_ok (ev : ProxyEvent) : Prop :=
  match ev with
  | Hello _ now hs => 0 <= now < 2 ^ 64 /\ Z.of_nat (length hs) < 2 ^ 32
  | OnTap _ ev => event_ok ev
  | Accepted _ | Forwarded _ _ | Listed _ => True
  end.
#[export] Instance proxy_event_ok_dec ev : Decision (proxy_event_ok ev).
Proof. destruct ev; unfold proxy_event_ok; apply _. Defined.
Lemma tapped_step i hs t ev : tapped i hs t -> event_ok ev -> tapped i hs (tap_step t ev).
Proof. intros (now & rs & Hr & Ht) He. destruct (tap_step_ok _ _ _ _ _ Hr Ht He) as [rs' ?]. by exists now, rs'. Qed.
Lemma tapped_new i hs w : greeted i hs w -> tapped i hs (tap_new w hs).
Proof. intros (now & Hr & ->). exists now, []. split; [done|]. by split; cbn; rewrite ?app_nil_r. Qed.
(** A connection that changes: the others keep what they have. *)
Lemma proxy_ok_insert p i c : proxy_ok p -> conn_good i c ->
  (forall t hs, px_conns p !! i = Some (Tapping t) -> tapped i hs t -> exists t', c = Tapping t' /\ tapped i hs t') ->
  (forall t, c = Tapping t -> exists t', px_conns p !! i = Some (Tapping t')) -> proxy_ok (set_conn i c p).
Proof.
  intros [Hc He Hl] Hg Hk Ht. split; cbn [set_conn px_conns px_entries].
  - intros j c'. rewrite list_lookup_insert_Some. intros [(<- & <- & _)|[_ ?]]; [done|by apply Hc].
  - eapply list.Forall_impl; [exact He|]. intros e (j & t & hs & Hj & Htp & ->). cbn.
    destruct (decide (i = j)) as [<-|Hij].
    + destruct (Hk t hs Hj Htp) as (t' & -> & Ht'). exists i, t', hs. split_and!; [|done|done].
      cbn. apply list_lookup_insert_eq. by eapply lookup_lt_Some.
    + exists j, t, hs. cbn. by rewrite list_lookup_insert_ne.
  - intros j t. rewrite list_lookup_insert_Some. intros [(<- & -> & _)|[_ Hj]]; [|by eapply Hl].
    destruct (Ht t eq_refl) as [t' Ht']. by eapply Hl.
Qed.
Lemma proxy_listed_ok p i t hs : proxy_ok p -> px_conns p !! i = Some (Greeted t hs) -> tapped i hs t ->
  proxy_ok {| px_conns := <[i := Tapping t]> (px_conns p); px_entries := px_entries p ++ [tap_entry (conn_id i) hs] |}.
Proof.
  intros [Hc He Hl] Hi Ht. split; cbn [px_conns px_entries].
  - intros j c'. rewrite list_lookup_insert_Some. intros [(<- & <- & _)|[_ ?]]; [by exists hs|by apply Hc].
  - apply list.Forall_app. split.
    + eapply list.Forall_impl; [exact He|]. intros e (j & t' & hs' & Hj & Ht' & ->). exists j, t', hs'. cbn.
      rewrite list_lookup_insert_ne by congruence. by split_and!.
    + apply list.Forall_singleton. exists i, t, hs. cbn. rewrite list_lookup_insert_eq by (by eapply lookup_lt_Some). by split_and!.
  - intros j t'. rewrite list_lookup_insert_Some. intros [(<- & _ & _)|[_ Hj]].
    + exists hs. apply elem_of_app. right. by apply list_elem_of_singleton.
    + destruct (Hl j t' Hj) as [hs' ?]. exists hs'. apply elem_of_app. by left.
Qed.
Lemma proxy_step_ok p ev : proxy_ok p -> proxy_event_ok ev -> proxy_ok (proxy_step p ev).
Proof.
  intros Hp He. destruct ev as [up|i now hs|i ok|i|i ev]; cbn [proxy_step proxy_event_ok] in *.
  - destruct Hp as [Hc Hen Hl]. split; cbn [px_conns px_entries].
    + intros i c [?|[_ [_ <-]%list_lookup_singleton_Some]]%lookup_app_Some; [by apply Hc|]. by destruct up.
    + eapply list.Forall_impl; [exact Hen|]. intros e (i & t & hs & Hi & Ht & ->). exists i, t, hs. split_and!; [|done|done].
      cbn. by apply lookup_app_l_Some.
    + intros i t. intros [Hi|[_ [_ Ht]%list_lookup_singleton_Some]]%lookup_app_Some; [by eapply Hl|]. by destruct up.
  - destruct (px_conns p !! i) as [[| | | | |]|] eqn:Ei; try done.
    destruct hs as [|b hs]; apply proxy_ok_insert; try done; try congruence.
    exists now. split; [split; cbn in *; lia|done].
  - destruct (px_conns p !! i) as [[|w hs| | | |]|] eqn:Ei; try done. pose proof (po_conns _ Hp _ _ Ei) as Hg. cbn [conn_good] in Hg.
    apply proxy_ok_insert; [done| |congruence|by destruct ok]. destruct ok; [by exists w|by exists hs].
  - destruct (px_conns p !! i) as [[| |t hs| | |]|] eqn:Ei; try done. apply proxy_listed_ok; [done|done|].
    destruct (po_conns _ Hp _ _ Ei) as (w & Hg & ->). by apply tapped_new.
  - destruct (px_conns p !! i) as [[| | |t| |]|] eqn:Ei; try done. apply proxy_ok_insert; [done| | |by intros _ _; exists t].
    + destruct (po_conns p Hp i (Tapping t) Ei) as [hs Ht]. exists hs. by apply tapped_step.
    + intros t' hs Et Ht. rewrite Ei in Et. injection Et as <-. exists (tap_step t ev). split; [done|]. by apply tapped_step.
Qed.
Lemma proxy_run_ok evs : Forall proxy_event_ok evs -> proxy_ok (proxy_run evs).
Proof.
  intros He. unfold proxy_run. assert (proxy_ok Proxy_new) as Hp by (split; [by intros [|i] c|constructor|by intros [|i] c]).
  revert Hp. generalize Proxy_new. induction He as [|ev evs Hev He IH]; intros p Hp; [done|]. cbn [fold_left]. apply IH.
  by apply proxy_step_ok.
Qed.

Lemma conn_id_inj i j : Z.of_nat i < 2 ^ 32 -> Z.of_nat j < 2 ^ 32 -> conn_id i = conn_id j -> i = j.
Proof.
  intros Hi Hj E%append_inj_l. apply fmt_0n_inj in E; [|apply wrap_range; lia..].
  rewrite !wrap_small in E by lia. lia.
Qed.
(** The writers of the connections, as those of record lists under distinct names. *)
Lemma writers_of conns k : (forall i c, conns !! i = Some c -> conn_good (k + i) c) -> Z.of_nat (k + length conns) <= 2 ^ 32 ->
  exists cs, omap conn_writer conns = (fun c => client_bytes c.1 c.2) <$> cs /\ Forall (fun c => Forall rec_ok c.2) cs /\
    (forall c, c ∈ cs -> exists i, (k <= i < k + length conns)%nat /\ c.1 = conn_id i) /\ base.NoDup cs.*1.
Proof.
  revert k. induction conns as [|c conns IH]; intros k Hg Hk.
  - exists []. split_and!; [done|constructor| |constructor]. intros c Hc. by apply elem_of_nil in Hc.
  - destruct (IH (S k)) as (cs & E & Hr & Hids & Hnd); [|cbn [length] in Hk; lia|].
    { intros i c' Hi. rewrite Nat.add_succ_l, <- Nat.add_succ_r. by apply Hg. }
    assert (forall rs, Forall rec_ok rs ->
      conn_writer c = Some (client_bytes (conn_id k) rs) -> exists cs, omap conn_writer (c :: conns) = (fun c => client_bytes c.1 c.2) <$> cs /\
      Forall (fun c => Forall rec_ok c.2) cs /\ (forall c', c' ∈ cs -> exists i, (k <= i < k + length (c :: conns))%nat /\ c'.1 = conn_id i) /\
      base.NoDup cs.*1) as Hcons.
    { intros rs Hrs Hw. exists ((conn_id k, rs) :: cs). split_and!.
      - cbn. by rewrite Hw, E.
      - by constructor.
      - intros c' [->|Hc']%elem_of_cons; [exists k; cbn; split; [lia|done]|].
        destruct (Hids c' Hc') as (i & Hi & ?). exists i. cbn [length]. split; [lia|done].
      - cbn. apply list.NoDup_cons. split; [|done]. intros (c' & Ec & Hc')%list_elem_of_fmap.
        destruct (Hids c' Hc') as (i & Hi & Ei). rewrite Ei in Ec. cbn [length] in Hk. apply conn_id_inj in Ec; lia. }
    assert (exists cs, omap conn_writer conns = (fun c => client_bytes c.1 c.2) <$> cs /\ Forall (fun c => Forall rec_ok c.2) cs /\
      (forall c', c' ∈ cs -> exists i, (k <= i < k + length (c :: conns))%nat /\ c'.1 = conn_id i) /\ base.NoDup cs.*1) as Hskip.
    { exists cs. split_and!; [done|done| |done]. intros c' Hc. destruct (Hids c' Hc) as (i & Hi & ?). exists i. cbn [length]. split; [lia|done]. }
    specialize (Hg O c eq_refl). rewrite Nat.add_0_r in Hg. destruct c as [|w hs|t hs|t| |w]; cbn [conn_good] in Hg; try exact Hskip.
    + destruct Hg as (now & Hr0 & ->). apply (Hcons [hello now hs]); [by apply list.Forall_singleton|done].
    + destruct Hg as (w & (now & Hr0 & ->) & ->). apply (Hcons [hello now hs]); [by apply list.Forall_singleton|done].
    + destruct Hg as (hs & now & rs & Hr0 & Ht). apply (Hcons (hello now hs :: rs)); [by constructor; [|apply Ht]|]. cbn. f_equal. apply Ht.
    + destruct Hg as (hs & now & Hr0 & ->). apply (Hcons [hello now hs]); [by apply list.Forall_singleton|done].
Qed.
Lemma client_bytes_inj id rs id' rs' : Forall rec_ok rs -> Forall rec_ok rs' ->
  client_bytes id rs = client_bytes id' rs' -> id = id' /\ rs = rs'.
Proof.
  intros Hr Hr'. rewrite !client_bytes_eq. intros E.
  assert (id = id') as <- by (apply client_file_inj; exact (f_equal w_file E)). split; [done|].
  apply (f_equal w_bytes) in E. cbn [w_bytes] in E. apply app_inv_head in E. apply app_inv_head in E. injection E as E.
  pose proof (records_whole rs Hr) as E1. rewrite E, records_whole in E1 by done. by injection E1 as <-.
Qed.
Lemma finish_all cs d : fold_left (fun d w => finish w d) ((fun c => client_bytes c.1 c.2) <$> cs) d = write_clients cs d.
Proof. unfold write_clients. revert d. induction cs as [|c cs IH]; intros d; [done|]. cbn [fmap list_fmap fold_left]. by rewrite IH. Qed.

(** C22: the proxy is transparent and its recording replays: whatever the clients and servers
    send and however connections interleave, fail or are cut, the capture lists every
    connection whose registration was reached, its stream holds in each direction the bytes
    passed on and then those the loop had read but not written when it failed or was cut, and
    replaying the entry against a server that accepts sends it exactly the client's: the bytes
    the proxy had passed on, all of them and no others when the loop had nothing left to write. *)
Theorem recording_transparent evs duration_s m dir :
  Forall proxy_event_ok evs -> Z.of_nat (length (px_conns (proxy_run evs))) <= 2 ^ 32 ->
  reread_manifest (recording_manifest duration_s (proxy_run evs)) = Some m ->
  record_cmd evs duration_s None = inl dir ->
  open dir = inl m /\
    (forall i t, px_conns (proxy_run evs) !! i = Some (Tapping t) -> exists hs entry,
       reread_entry (tap_entry (conn_id i) hs) = Some entry /\ entry ∈ m_clients m) /\
    forall entry, entry ∈ m_clients m -> exists i t hs z first rest,
      px_conns (proxy_run evs) !! i = Some (Tapping t) /\ reread_entry (tap_entry (conn_id i) hs) = Some entry /\
      client_records entry dir = inl z /\ records z = (first :: rest, None) /\ payload first = hs /\
      hs ++ payloads_of REC_C2S rest = sd_passed (tp_up t) ++ pending (sd_loop (tp_up t)) /\
      payloads_of REC_S2C rest = sd_passed (tp_down t) ++ pending (sd_loop (tp_down t)) /\
      forall speed net l, net_connects net = true -> (forall k, net_fails net k = false) -> net_reply net = ReplyLine l ->
        check_reply entry l = None -> accepted_speed speed ->
        exists sent, feed_client dir entry speed net = (sent, None) /\
          concat (sent_bytes <$> sent) = sd_passed (tp_up t) ++ pending (sd_loop (tp_up t)) /\
          (pending (sd_loop (tp_up t)) = [] -> concat (sent_bytes <$> sent) = sd_passed (tp_up t)).
Proof.
  intros He Hlen Hm. unfold record_cmd. cbn [create]. intros [= <-]. set (p := proxy_run evs) in *.
  destruct (proxy_run_ok evs He) as [Hc Hen Hl]. fold p in Hc, Hen, Hl.
  destruct (writers_of (px_conns p) 0) as (cs & E & Hr & Hids & Hnd); [done|done|].
  rewrite E, finish_all.
  destruct (written_clients cs (recording_manifest duration_s p) m ∅ Hnd Hr eq_refl eq_refl Hm) as (Ho & Hrec & _ & _).
  split_and!; [exact Ho| |].
  { intros i t Hi. destruct (Hl i t Hi) as (hs & (k & Hk)%list_elem_of_lookup_1). destruct (entries_reread _ _ _ _ Hm Hk) as (entry & Hk' & Ee).
    exists hs, entry. split; [done|]. by eapply list_elem_of_lookup_2. }
  intros entry (k & Hk)%list_elem_of_lookup_1. destruct (reread_entries _ _ _ _ Hm Hk) as (e & Hin%list_elem_of_lookup_2 & Ee).
  cbn [m_clients recording_manifest] in Hin.
  rewrite list.Forall_forall in Hen. destruct (Hen _ Hin) as (i & t & hs & Hi & (now & rs & Hr0 & Ht) & ->).
  assert ((conn_id i, hello now hs :: rs) ∈ cs) as Hcs.
  { assert (tp_writer t ∈ omap conn_writer (px_conns p)) as Hw
      by (apply list_elem_of_omap; exists (Tapping t); split; [by eapply list_elem_of_lookup_2|done]).
    rewrite E, list_elem_of_fmap in Hw. destruct Hw as ([id l] & Ew & Hl'). rewrite (to_writer _ _ _ _ Ht) in Ew. cbn [fst snd] in Ew.
    rewrite list.Forall_forall in Hr. apply client_bytes_inj in Ew as [-> ->]; [done|by constructor; [|apply Ht]|by apply (Hr _ Hl')]. }
  destruct (reread_entry_same _ _ Ee) as (_ & Hfile & _).
  destruct (Hrec _ entry Hcs) as (z & Hz & Hz'); [by rewrite Hfile|].
  exists i, t, hs, z, (hello now hs), rs. split_and!; try done; [apply Ht|apply Ht|].
  intros speed net l Hnc Hnf Hnl Hch Hsp.
  assert (Forall (fun r => is_Some (feed_deadline speed (t_nanos r))) (c2s rs)) as Hd
    by (apply c2s_deadlines; [done|]; eapply list.Forall_impl; [apply Ht|]; by intros ? [? _]).
  assert (concat (sent_bytes <$> to_send speed (hello now hs) rs) = sd_passed (tp_up t) ++ pending (sd_loop (tp_up t))) as Es.
  { unfold to_send. cbn [fmap list_fmap concat sent_bytes]. rewrite <- list_fmap_compose.
    change (sent_bytes ∘ scheduled speed) with payload. rewrite <- payloads_c2s. apply Ht. }
  eexists. split_and!; [by eapply (feed_accepted _ _ _ _ _ (hello now hs) rs None l)|exact Es|]. intros Hp. by rewrite Es, Hp, app_nil_r.
Qed.
End Recording.

(** ** A short recording *)
Section Sample.
Definition hs_line : list Z := bytes_of "{..}" ++ [10].
(** The handshake offers zlib2; any other line is the server's choice of it. *)
#[local] Instance json_recorded : Json := json_with (fun l =>
  if decide (l = hs_line)
  then Some (TObj [("compress", TArr [TStr "zlib2"; TStr "none"]); ("clock_type", TStr "dump1090"); ("lat", TNum (inl 47))])%string
  else Some (TObj [("compress", TStr "zlib2")])%string).
Definition proxy_events : list ProxyEvent :=
  let up ev := OnTap 0 (ClientLoop ev) in let down ev := OnTap 0 (ServerLoop ev) in
  [Accepted true; Accepted false; Hello 0 5 hs_line; Forwarded 0 true; Listed 0; up (Read 7 [1; 2]); Accepted true; up (Wrote 1); down (Read 8 [9]);
   Hello 2 9 hs_line; up (Wrote 1); Forwarded 2 true; down (Wrote 1); up (Read 10 [3]); down (Read 11 [8; 7]); up (Wrote 1); down (Wrote 1);
   down WriteFailed; up (Read 12 []); OnTap 0 (Joined 13)].
Definition proxy_entry : ClientEntry := tap_entry (conn_id 0) hs_line.
Definition proxy_manifest : Manifest :=
  {| m_format := "mbc"; m_version := 1; m_name := "recording"; m_seed := 0; m_duration_s := 60;
     m_scenario_sha256 := EmptyString; m_clients := [proxy_entry] |}.
#[local] Existing Instance codec_stored.
#[local] Existing Instance codec_stored_laws.
(** The first connection runs and ends, the second has no server, and the third is cut before it is listed. *)
Example proxied : (fun c => match c with Tapping t => Some (tp_up t, tp_down t, tp_joined t) | _ => None end)
    <$> px_conns (proxy_run proxy_events)
  = [Some ({| sd_loop := Ended; sd_passed := hs_line ++ [1; 2; 3] |}, {| sd_loop := Failed [7]; sd_passed := [9; 8] |}, true); None; None] /\
  length (px_entries (proxy_run proxy_events)) = 1%nat.
Proof. split; vm_compute; reflexivity. Qed.
Definition good_net (l : list Z) : Net := {| net_connects := true; net_reply := ReplyLine l; net_fails _ := false |}.

Lemma recording_transparent_witness : exists dir i t sent, record_cmd proxy_events 60 None = inl dir /\ open dir = inl proxy_manifest /\
  px_conns (proxy_run proxy_events) !! i = Some (Tapping t) /\
  feed_client dir proxy_entry (of_Z 2) (good_net [1]) = (sent, None) /\
  concat (sent_bytes <$> sent) = sd_passed (tp_up t) ++ pending (sd_loop (tp_up t)).
Proof.
  destruct (record_cmd proxy_events 60 None) as [dir|e] eqn:E; [|vm_compute in E; discriminate E].
  destruct (recording_transparent proxy_events 60 proxy_manifest dir) as (Ho & _ & Hm).
  - apply (bool_decide_unpack _). vm_compute. reflexivity.
  - vm_compute. discriminate.
  - vm_compute. reflexivity.
  - exact E.
  - destruct (Hm proxy_entry) as (i & t & hs & z & first & rest & Hi & He & Hz & Hr & Hp & _ & _ & Hf); [left|].
    destruct (Hf (of_Z 2) (good_net [1]) [1]) as (sent & Es & Hpass & _); [reflexivity|reflexivity|reflexivity|vm_compute; reflexivity| |].
    + split; vm_compute; reflexivity.
    + exists dir, i, t, sent. split; [reflexivity|]. split; [exact Ho|]. split; [exact Hi|]. split; [exact Es|exact Hpass].
Defined.
End Sample.
