(* ===== verification/GenCmd.v ===== *)
(** * From a scenario to a capture on disk (crates/mlat-bench/src/gencmd.rs)

    The composition of the generator and the capture writer, and of the result with the
    replay: what a server is sent is what was generated. *)
From S2P Require Import Prelude F64 Num Text Results Metrics Geo Proto Framing Capture Replay SimClock Scenario Gen.
Local Open Scope Z_scope.

Section Code.
Context `{Codec, Json, Hex, Flate, Rand, Elem f64, Ln f64}.
Context (msg_line : ClientMsg -> list Z) (hs_line : Handshake -> list Z) (program : string).
(** The [toml] crate, and the JSON of an audibility row. *)
Context (toml_parse : list Z -> option Scenario) (row_json : AudibilityRow -> list Z).

Definition from_toml (text : list Z) : option Scenario := expand_generate <$> toml_parse text.
Inductive GenError := GenUtf8 | GenToml | GenGenerate (e : Failure) | GenCapture (e : CaptureError).

Definition send_rec (r : SendRecord) : Rec := {| t_nanos := sr_t r; kind := REC_C2S; payload := sr_bytes r |}.
Definition client_recs (c : ClientStream) : list Rec :=
  {| t_nanos := 0; kind := REC_CONNECT; payload := cs_handshake_line c |} :: (send_rec <$> cs_records c).
Definition gen_entry (c : ClientStream) (spec : ReceiverSpec) : ClientEntry :=
  {| ce_id := cs_id c; ce_file := client_file (cs_id c); ce_clock_type := cs_clock_type c; ce_compress := cs_compress c;
     ce_lat := r_lat spec; ce_lon := r_lon spec; ce_alt_m := r_alt_m spec |}.
(** The writer of a client, its records in order, and its entry. *)
Definition write_client (d : Dir * list ClientEntry) (cr : ClientStream * ReceiverSpec) : Dir * list ClientEntry :=
  let cw := fold_left (fun w r => record r w) (client_recs cr.1) (client_writer (cs_id cr.1)) in
  (finish cw d.1, d.2 ++ [gen_entry cr.1 cr.2]).
Definition gen_manifest (sc : Scenario) (sha : string) (entries : list ClientEntry) : Manifest :=
  {| m_format := "mbc"; m_version := 1; m_name := name (meta sc); m_seed := seed (meta sc); m_duration_s := duration_s (meta sc);
     m_scenario_sha256 := sha; m_clients := entries |}.
Definition gen_cmd (fuel : nat) (toml_text : list Z) (out : Dir) : Dir + GenError :=
  if negb (utf8_valid toml_text) then inr GenUtf8
  else
    match from_toml toml_text with
    | None => inr GenToml
    | Some sc =>
        match generate msg_line hs_line program fuel sc with
        | inr e => inr (GenGenerate e)
        | inl cap =>
            match create out with
            | inr e => inr (GenCapture e)
            | inl d =>
                let '(d, sha) := write_scenario_toml toml_text d in
                let d := write_truth (Gen.truth cap) d in
                let d := write_audibility row_json (audibility cap) d in
                let '(d, entries) := fold_left write_client (zip (clients cap) (receivers sc)) (d, []) in
                inl (write_manifest (gen_manifest sc sha entries) d)
            end
        end
    end.

(** [inspect]: of one client, how many records of each kind, their bytes, and the last time. *)
Record Summary := { sm_counts : gmap Z Z; sm_bytes : Z; sm_last : Z }.
Definition Summary_new : Summary := {| sm_counts := ∅; sm_bytes := 0; sm_last := 0 |}.
Definition count_record (s : Summary) (r : Rec) : Summary :=
  {| sm_counts := <[kind r := default 0 (sm_counts s !! kind r) + 1]> (sm_counts s);
     sm_bytes := sm_bytes s + Z.of_nat (length (payload r)); sm_last := Z.max (sm_last s) (t_nanos r) |}.
Definition inspect_client (dir : Dir) (entry : ClientEntry) : Summary + CaptureError :=
  match client_records entry dir with
  | inr e => inr e
  | inl z => match records z with
             | (rs, None) => inl (fold_left count_record rs Summary_new)
             | (_, Some e) => inr e
             end
  end.
End Code.

(** ** What was generated is what is sent *)
Section Replayed.
Context `{Codec, !CodecLaws, Json, Hex, Flate, Rand, Elem f64, Ln f64}.
Context (msg_line : ClientMsg -> list Z) (hs_line : Handshake -> list Z) (program : string).
Context (toml_parse : list Z -> option Scenario) (row_json : AudibilityRow -> list Z).

Lemma gen_each_all {A B} (f : A -> Gen B) l bs : gen_each f l = inl bs -> Forall2 (fun a b => f a = inl b) l bs.
Proof.
  revert bs. induction l as [|a l IH]; intros bs; cbn [gen_each]; [intros [= <-]; constructor|].
  destruct (f a) as [b|e] eqn:E; [|done]. cbn [mbind gen_bind]. destruct (gen_each f l) as [bs'|e] eqn:E'; [|done].
  intros [= <-]. constructor; [done|by apply IH].
Qed.
Lemma build_client_id fuel sc rx bs c : build_client msg_line hs_line program fuel sc rx bs = inl c -> cs_id c = r_id rx.
Proof.
  unfold build_client. destruct (compress_of _); [|done]. destruct (draw_incl _ _ _) as [[lat rng]|]; [|done]. cbn [mbind gen_bind].
  destruct (reported_pos rx rng) as [[? ?] ?]. destruct (receive_all _ _ _ _ _); [|done]. cbn [mbind gen_bind].
  destruct (frame_lines _ _ _ _ _ _); [|done]. by intros [= <-].
Qed.
Lemma generate_ids fuel sc cap : generate msg_line hs_line program fuel sc = inl cap ->
  cs_id <$> clients cap = r_id <$> receivers sc /\ base.NoDup (r_id <$> receivers sc).
Proof.
  unfold generate. destruct (validate sc) eqn:Ev; [done|].
  destruct (gen_each _ (aircraft sc)) as [emitted|]; [|done]. cbn [mbind gen_bind].
  destruct (gen_each _ (receivers sc)) as [cs|] eqn:Ec; [|done]. intros [= <-]. cbn [clients]. split.
  - apply gen_each_all in Ec. induction Ec as [|rx c rxs cs Hc _ IH]; [done|]. cbn. rewrite IH. f_equal. by eapply build_client_id.
  - by apply validate_iff in Ev as (_ & _ & _ & ? & _).
Qed.
(** The times of the records are 64-bit integers. *)
Definition timed (l : list SendRecord) : Prop := Forall (fun r => 0 <= sr_t r < 2 ^ 64) l.
Lemma to_nanos_range lat jit t rng : 0 <= (to_nanos lat jit t rng).1 < 2 ^ 64.
Proof.
  unfold to_nanos. destruct (if (jit >? fzero)%f64 then _ else _) as [j rng']. cbn [fst].
  pose proof (fcast_range 0 (2 ^ 64 - 1) (fmax (fround ((t + lat + j) * of_Z 1000000000)%f64) fzero)). unfold F64.as_u64. lia.
Qed.
Lemma flush_window_timed fuel lat jit w w' : flush_window fuel lat jit w = inl w' -> timed (w_out w) -> timed (w_out w').
Proof.
  unfold flush_window. destruct (w_batch w); [by intros [= <-]|]. pose proof (to_nanos_range lat jit (w_end w) (w_rng w)).
  destruct (to_nanos _ _ _ _) as [n rng]. destruct (gen_frame _ _ _) as [[enc f]|]; [|done]. intros [= <-] Ht. cbn [w_out].
  apply list.Forall_app. split; [done|]. by constructor; [|constructor].
Qed.
Lemma advance_window_timed fuel lat jit t w w' : advance_window fuel lat jit t w = inl w' -> timed (w_out w) -> timed (w_out w').
Proof.
  revert w. induction fuel as [|fuel IH]; intros w; cbn [advance_window]; destruct (_ >=? _)%f64; [done|by intros [= <-]| |by intros [= <-]].
  destruct (flush_window (S fuel) lat jit w) as [w1|] eqn:E; [|done]. cbn [mbind gen_bind]. intros Hw Ht.
  eapply IH; [exact Hw|]. cbn [w_out]. by eapply flush_window_timed.
Qed.
Lemma window_lines_timed fuel lat jit lines w w' : window_lines fuel lat jit w lines = inl w' -> timed (w_out w) -> timed (w_out w').
Proof.
  revert w. induction lines as [|tl lines IH]; intros w; cbn [window_lines]; [by intros [= <-]|]. unfold window_line.
  destruct (advance_window fuel lat jit tl.1 w) as [w1|] eqn:E; [|done]. cbn [mbind gen_bind mret gen_ret]. intros Hw Ht.
  eapply IH; [exact Hw|]. cbn [w_out]. by eapply advance_window_timed.
Qed.
Lemma frame_lines_timed fuel lines compress lat jit rng out : frame_lines fuel lines compress lat jit rng = inl out -> timed out.
Proof.
  destruct compress; cbn [frame_lines].
  - intros [= <-]. revert rng. induction lines as [|[t l] lines IH]; intros rng; [constructor|]. cbn [plain_records].
    pose proof (to_nanos_range lat jit t rng). destruct (to_nanos _ _ _ _) as [n rng']. apply list.Forall_cons. split; [done|apply IH].
  - generalize comp_new. revert rng out. induction lines as [|[t l] lines IH]; intros rng out enc; cbn [line_frames mret gen_ret]; [intros [= <-]; constructor|].
    pose proof (to_nanos_range lat jit t rng). destruct (to_nanos _ _ _ _) as [n rng'].
    destruct (gen_frame _ _ _) as [[enc' f]|]; [|done]. cbn [mbind gen_bind].
    destruct (line_frames _ _ _ _ _ _) as [rest|] eqn:E; [|done]. intros [= <-]. apply list.Forall_cons. split; [done|by eapply IH].
  - destruct lines as [|[t l] lines]; [intros [= <-]; constructor|].
    destruct (window_lines _ _ _ _ _) as [w|] eqn:E; [|done]. cbn [mbind gen_bind].
    destruct (flush_window _ _ _ w) as [w'|] eqn:E'; [|done]. intros [= <-].
    eapply flush_window_timed; [exact E'|]. eapply window_lines_timed; [exact E|]. constructor.
Qed.
Lemma generate_timed fuel sc cap : generate msg_line hs_line program fuel sc = inl cap -> Forall (fun c => timed (cs_records c)) (clients cap).
Proof.
  unfold generate. destruct (validate sc); [done|]. destruct (gen_each _ (aircraft sc)) as [emitted|]; [|done]. cbn [mbind gen_bind].
  destruct (gen_each _ (receivers sc)) as [cs|] eqn:Ec; [|done]. intros [= <-]. cbn [clients].
  apply gen_each_all in Ec. induction Ec as [|rx c rxs cs Hc _ IH]; [constructor|]. constructor; [|done]. revert Hc. unfold build_client.
  destruct (compress_of _); [|done]. destruct (draw_incl _ _ _) as [[lat rng]|]; [|done]. cbn [mbind gen_bind].
  destruct (reported_pos rx rng) as [[? ?] ?]. destruct (receive_all _ _ _ _ _); [|done]. cbn [mbind gen_bind].
  destruct (frame_lines _ _ _ _ _ _) eqn:Ef; [|done]. intros [= <-]. cbn [cs_records]. by eapply frame_lines_timed.
Qed.

Lemma write_all_clients cs rxs d es : length cs = length rxs ->
  fold_left write_client (zip cs rxs) (d, es)
  = (write_clients ((fun c => (cs_id c, client_recs c)) <$> cs) d, es ++ zip_with gen_entry cs rxs).
Proof.
  revert rxs d es. induction cs as [|c cs IH]; intros [|rx rxs] d es Hl; try done; [by rewrite app_nil_r|].
  cbn [zip_with fold_left]. unfold write_client at 2. cbn [fst snd]. rewrite IH by (by injection Hl).
  f_equal. by rewrite <- app_assoc.
Qed.
Definition sized (c : ClientStream) : Prop :=
  Forall (fun l => Z.of_nat (length l) < 2 ^ 32) (cs_handshake_line c :: (sr_bytes <$> cs_records c)).
Lemma client_recs_ok c : sized c -> timed (cs_records c) -> Forall rec_ok (client_recs c).
Proof.
  intros [Hh Hs]%list.Forall_cons Ht. constructor; [by split; cbn; lia|]. rewrite list.Forall_fmap in Hs. apply list.Forall_fmap.
  unfold timed in Ht. rewrite list.Forall_forall in Hs, Ht |- *. intros r Hr. split; cbn; [by apply Ht|by apply Hs].
Qed.
Lemma c2s_client c : c2s (send_rec <$> cs_records c) = send_rec <$> cs_records c.
Proof. unfold c2s. induction (cs_records c) as [|r l IH]; [done|]. cbn [fmap list_fmap]. rewrite list.filter_cons_True by done. by f_equal. Qed.

(** What the written capture holds. *)
Lemma gen_cmd_contents fuel text sc cap points m' dir :
  from_toml toml_parse text = Some sc -> generate msg_line hs_line program fuel sc = inl cap ->
  gen_cmd msg_line hs_line program toml_parse row_json fuel text None = inl dir ->
  Forall sized (clients cap) -> mapM reread_point (Gen.truth cap) = Some points ->
  let m := gen_manifest sc (sha256_hex text) (zip_with gen_entry (clients cap) (receivers sc)) in
  reread_manifest m = Some m' ->
  open dir = inl m' /\ scenario_toml dir = inl text /\ Capture.truth dir = inl points /\
  file "audibility.jsonl.zst" dir = inl (zstd (json_lines row_json (audibility cap))) /\
  forall c entry, c ∈ clients cap -> ce_file entry = client_file (cs_id c) ->
    exists z, client_records entry dir = inl z /\ records z = (client_recs c, None).
Proof.
  intros Hsc Hcap. unfold gen_cmd. rewrite Hsc, Hcap. destruct (utf8_valid text) eqn:Hu; [|done]. cbn [negb create].
  unfold write_scenario_toml. intros Hdir Hsz Htr. set (m := gen_manifest _ _ _). intros Hm.
  destruct (generate_ids fuel sc cap Hcap) as [Hids Hnd]. pose proof (generate_timed fuel sc cap Hcap) as Ht.
  rewrite write_all_clients in Hdir by (apply (f_equal length) in Hids; by rewrite !length_fmap in Hids).
  remember (write_audibility row_json (audibility cap) _) as d1 eqn:E0 in Hdir. change ([] ++ ?l) with l in Hdir. fold m in Hdir.
  assert (exists m1, d1 = Some m1) as [m1 E1] by (rewrite E0; by eexists). rewrite E1 in Hdir. injection Hdir as <-.
  set (cs := (fun c => (cs_id c, client_recs c)) <$> clients cap).
  destruct (written_clients cs m m' m1) as (Ho & Hrec & Hother & _); [|..]; try done.
  { unfold cs. rewrite <- list_fmap_compose. change (fst ∘ _) with cs_id. by rewrite Hids. }
  { unfold cs. apply list.Forall_fmap. rewrite list.Forall_forall in Hsz, Ht |- *. intros c Hc. cbn. apply client_recs_ok; [by apply Hsz|by apply Ht]. }
  split_and!; [done|..].
  - unfold scenario_toml. rewrite Hother, <- E1, E0 by done. unfold write_audibility, write_truth, put, file.
    cbn [fmap option_fmap option_map mbind option_bind]. by rewrite !lookup_insert_ne, lookup_insert_eq, Hu by done.
  - unfold Capture.truth, read_json_lines. rewrite Hother, <- E1, E0 by done. unfold write_audibility, write_truth, put, file.
    cbn [fmap option_fmap option_map mbind option_bind]. rewrite lookup_insert_ne, lookup_insert_eq, unzstd_zstd by done.
    apply truth_lines_read; [done|apply json_lines_length].
  - rewrite Hother, <- E1, E0 by done. unfold write_audibility, write_truth, put, file.
    cbn [fmap option_fmap option_map mbind option_bind]. by rewrite lookup_insert_eq.
  - intros c entry Hc He. apply (Hrec (cs_id c, client_recs c)); [|done]. apply list_elem_of_fmap. by exists c.
Qed.

(** C26: a generated capture replays as it was generated: the directory opens with the scenario's
    name, seed and duration, its text and the truth, one entry per receiver in the scenario's
    order, the floats of truth and entries as JSON gives them back; and replaying an entry
    against a server that accepts sends it exactly the handshake and the records generated for
    that receiver. *)
Theorem generated_capture_replays fuel text sc cap points m' dir :
  from_toml toml_parse text = Some sc -> generate msg_line hs_line program fuel sc = inl cap ->
  gen_cmd msg_line hs_line program toml_parse row_json fuel text None = inl dir ->
  Forall sized (clients cap) -> mapM reread_point (Gen.truth cap) = Some points ->
  let m := gen_manifest sc (sha256_hex text) (zip_with gen_entry (clients cap) (receivers sc)) in
  reread_manifest m = Some m' ->
  open dir = inl m' /\ scenario_toml dir = inl text /\ Capture.truth dir = inl points /\
  forall i c rx, clients cap !! i = Some c -> receivers sc !! i = Some rx ->
    exists entry, m_clients m' !! i = Some entry /\ reread_entry (gen_entry c rx) = Some entry /\
    forall speed net l, net_connects net = true -> (forall k, net_fails net k = false) -> net_reply net = ReplyLine l ->
      check_reply entry l = None -> accepted_speed speed ->
      exists sent, feed_client dir entry speed net = (sent, None) /\
        sent_bytes <$> sent = cs_handshake_line c :: (sr_bytes <$> cs_records c).
Proof.
  intros Hsc Hcap Hdir Hsz Htr m Hm.
  destruct (gen_cmd_contents fuel text sc cap points m' dir Hsc Hcap Hdir Hsz Htr Hm) as (Ho & Htoml & Htruth & _ & Hrec). split_and!; [done..|].
  intros i c rx Hc Hrx. assert (m_clients m !! i = Some (gen_entry c rx)) as Hi by (apply lookup_zip_with_Some; by exists c, rx).
  destruct (entries_reread _ _ _ _ Hm Hi) as (entry & Hi' & He). exists entry. split_and!; [done..|].
  destruct (reread_entry_same _ _ He) as (_ & Hfile & _).
  intros speed net l Hnc Hnf Hnl Hch Hsp. pose proof (generate_timed fuel sc cap Hcap) as Ht. rewrite list.Forall_lookup in Ht.
  destruct (Hrec c entry) as (z & Hz & Hz'); [by eapply list_elem_of_lookup_2|by rewrite Hfile|]. eexists. split.
  - eapply (feed_accepted _ _ _ _ z _ (send_rec <$> cs_records c) None l); try done. apply c2s_deadlines; [done|]. apply list.Forall_fmap. exact (Ht i c Hc).
  - unfold to_send. rewrite c2s_client. cbn [fmap list_fmap sent_bytes payload]. f_equal. rewrite <- !list_fmap_compose. done.
Qed.
End Replayed.

#[export] Instance sized_dec c : Decision (sized c).
Proof. unfold sized. apply _. Defined.

(** ** A small capture *)
Section Sample.
#[local] Instance json_unframed : Json := json_with (fun _ => Some (TObj [("compress", TStr "none")])%string).
#[local] Existing Instance hex_tree.
#[local] Existing Instance flate_stored.
#[local] Existing Instance rand_script.
#[local] Existing Instance elem_taylor.
#[local] Existing Instance ln_taylor.
(** One second of one aircraft over one station. *)
Definition second : Scenario :=
  {| meta := {| name := "t"; seed := 7; duration_s := 1 |};
     network := {| latency_ms_min := of_Z 5; latency_ms_max := of_Z 40; jitter_ms := fzero |};
     generate_spec := None; receivers := [station];
     aircraft := [{| a_icao := "3C6444"; a_kind := KindAdsb; a_traj := still; pos_rate_hz := of_Z 4; df11_rate_hz := of_Z 1;
                     df4_rate_hz := of_Z 4; nav_error_m := fzero |}] |}.
Definition line_of (m : ClientMsg) : list Z := match m with Sync _ _ _ _ => [83; 10] | _ => [65; 10] end.
Definition hello_of (_ : Handshake) : list Z := [72; 10].
Definition second_of (_ : list Z) : option Scenario := Some second.
Definition no_row (_ : AudibilityRow) : list Z := [].
Definition nothing : GeneratedCapture := {| Gen.truth := []; audibility := []; clients := [] |}.
Definition second_capture : GeneratedCapture :=
  Eval vm_compute in match generate line_of hello_of "p" 20 second with inl c => c | inr _ => nothing end.
Definition second_entries : list ClientEntry := Eval vm_compute in zip_with gen_entry (clients second_capture) [station].
#[local] Existing Instance codec_stored.
#[local] Existing Instance codec_stored_laws.
Definition second_points : list TruthPoint := Eval vm_compute in default [] (mapM reread_point (Gen.truth second_capture)).
Definition second_manifest : Manifest := gen_manifest second EmptyString second_entries.
Definition second_read : Manifest := Eval vm_compute in default second_manifest (reread_manifest second_manifest).
Definition second_net : Net := {| net_connects := true; net_reply := ReplyLine []; net_fails _ := false |}.

Lemma generated_capture_replays_witness : exists dir entry sent, gen_cmd line_of hello_of "p" second_of no_row 20 [] None = inl dir /\
  feed_client dir entry (of_Z 4) second_net = (sent, None) /\ sent_bytes <$> sent = [[72; 10]; [65; 10]; [65; 10]; [83; 10]].
Proof.
  assert (match gen_cmd line_of hello_of "p" second_of no_row 20 [] None with inl _ => true | inr _ => false end = true) as Hd by (vm_compute; reflexivity).
  destruct (gen_cmd line_of hello_of "p" second_of no_row 20 [] None) as [dir|e] eqn:Ed; [|discriminate Hd].
  destruct (generated_capture_replays line_of hello_of "p" second_of no_row 20 [] second second_capture second_points second_read dir) as (_ & _ & _ & Hall).
  - reflexivity.
  - vm_compute. reflexivity.
  - exact Ed.
  - apply (bool_decide_unpack _). vm_compute. reflexivity.
  - vm_compute. reflexivity.
  - vm_compute. reflexivity.
  - destruct (Hall 0%nat _ station eq_refl eq_refl) as (entry & Hi & _ & Hf). injection Hi as <-.
    destruct (Hf (of_Z 4) second_net []) as (sent & Es & Eb); [reflexivity|reflexivity|reflexivity|vm_compute; reflexivity| |].
    + split; vm_compute; reflexivity.
    + exists dir. eexists _, sent. split; [reflexivity|]. split; [exact Es|exact Eb].
Defined.
End Sample.
