(* ===== verification/BeastServe.v ===== *)
(** * Serving a capture as a Beast stream (crates/mlat-bench/src/beastcmd.rs)

    The receptions in a client's recorded lines, in the order of their counters, on the wire
    format that [Beast] decodes. *)
From S2P Require Import Prelude F64 Num Text Crc Beast Proto Capture Replay.
Local Open Scope Z_scope.

Record ServedReception := { t_record_nanos : Z; served_counts : Z; served_frame : list Z }.

Section Code.
Context `{Codec, Json, Hex}.

(** The frequency of a clock type, and the scale to 12 MHz. *)
Definition serve_freq (clock_type : string) : f64 :=
  if (clock_type =? "radarcape_gps")%string then of_Z 1000000000
  else if (clock_type =? "sbs")%string then of_Z 20000000 else of_Z 12000000.
Definition serve_scale (clock_type : string) : f64 := (of_Z 12000000 / serve_freq clock_type)%f64.
Definition serve_counts (scale t : f64) : Z :=
  Z.land (F64.as_u64 (fmax (fround (t * scale)%f64) fzero)) 0xFFFFFFFFFFFF.
Definition push_reception (scale : f64) (t_nanos : Z) (t : option f64) (m : option string) : list ServedReception :=
  match t, m with
  | Some t, Some m =>
      match hex_decode m with
      | Some frame => [{| t_record_nanos := t_nanos; served_counts := serve_counts scale t; served_frame := frame |}]
      | None => []
      end
  | _, _ => []
  end.
(** The receptions of a record: a sync line holds two, an mlat line one. *)
Definition record_receptions (scale : f64) (r : Rec) : list ServedReception :=
  if negb (kind r =? REC_C2S) then []
  else
    match from_slice (payload r) with
    | None => []
    | Some v =>
        match jget v "sync" with
        | Some sy => push_reception scale (t_nanos r) (jget sy "et" ≫= as_f64) (jget sy "em" ≫= as_str)
                     ++ push_reception scale (t_nanos r) (jget sy "ot" ≫= as_f64) (jget sy "om" ≫= as_str)
        | None =>
            match jget v "mlat" with
            | Some ml => push_reception scale (t_nanos r) (jget ml "t" ≫= as_f64) (jget ml "m" ≫= as_str)
            | None => []
            end
        end
    end.
Definition counts_le (a b : ServedReception) : bool := served_counts a <=? served_counts b.
Inductive ServeError := ServeCapture (e : CaptureError) | ServeNoClient | ServeCompressed.
(** What will be served, in order. *)
Definition serve_list (dir : Dir) (client_id : string) : list ServedReception + ServeError :=
  match open dir with
  | inr e => inr (ServeCapture e)
  | inl m =>
      match list_find (fun c => ce_id c = client_id) (m_clients m) with
      | None => inr ServeNoClient
      | Some (_, entry) =>
          if negb (ce_compress entry =? "none")%string then inr ServeCompressed
          else
            match client_records entry dir with
            | inr e => inr (ServeCapture e)
            | inl z =>
                match records z with
                | (_, Some e) => inr (ServeCapture e)
                | (rs, None) => inl (stable_sort counts_le (rs ≫= record_receptions (serve_scale (ce_clock_type entry))))
                end
            end
      end
  end.
(** A message: the counter's low six bytes, a constant signal level and the frame, escaped. *)
Definition serve_bytes (r : ServedReception) : list Z :=
  0x1a :: (if (length (served_frame r) =? 7)%nat then 0x32 else 0x33)
  :: escape (be48_bytes (served_counts r) ++ [0xA0] ++ served_frame r).
(** The writes on the connection, with their deadlines, up to the first that fails ([fails] of
    its number) or a deadline that is not a duration, which panics. *)
Fixpoint serve_stream (speed : f64) (fails : nat -> bool) (i : nat) (rs : list ServedReception) : list Sent * bool :=
  match rs with
  | [] => ([], true)
  | r :: rs =>
      match feed_deadline speed (t_record_nanos r) with
      | None => ([], false)
      | Some d =>
          if fails i then ([], true)
          else let '(sent, ok) := serve_stream speed fails (S i) rs in ({| sent_at := Some d; sent_bytes := serve_bytes r |} :: sent, ok)
      end
  end.
End Code.

(** ** What a client decodes *)
Section Served.
Context `{Codec, Json, Hex}.
Context (hex_bytes : forall m f, hex_decode m = Some f -> bytes_ok f).

Definition served_message (r : ServedReception) : Message :=
  {| noise := []; counts := served_counts r; signal := 0xA0; body := served_frame r |}.
Lemma serve_stream_all speed rs : Forall (fun r => is_Some (feed_deadline speed (t_record_nanos r))) rs ->
  forall i, serve_stream speed (fun _ => false) i rs
    = ((fun r => {| sent_at := feed_deadline speed (t_record_nanos r); sent_bytes := serve_bytes r |}) <$> rs, true).
Proof.
  induction 1 as [|r rs [d Hd] _ IH]; intros i; [done|]. cbn [serve_stream fmap list_fmap]. by rewrite Hd, IH.
Qed.
Lemma serve_counts_range scale t : 0 <= serve_counts scale t < 2 ^ 48.
Proof. unfold serve_counts. change 0xFFFFFFFFFFFF with (Z.ones 48). rewrite Z.land_ones by lia. by apply Z.mod_pos_bound. Qed.
Lemma record_receptions_ok scale r : Forall (fun x => 0 <= served_counts x < 2 ^ 48 /\ bytes_ok (served_frame x)) (record_receptions scale r).
Proof.
  assert (forall n t m, Forall (fun x => 0 <= served_counts x < 2 ^ 48 /\ bytes_ok (served_frame x)) (push_reception scale n t m)) as Hp.
  { intros n [t|] [m|]; try constructor. cbn. destruct (hex_decode m) as [f|] eqn:E; constructor; [|constructor].
    split; [apply serve_counts_range|by eapply hex_bytes]. }
  unfold record_receptions. destruct (negb _); [constructor|]. destruct (from_slice _) as [v|]; [|constructor].
  destruct (jget v "sync"); [apply list.Forall_app; split; apply Hp|]. destruct (jget v "mlat"); [apply Hp|constructor].
Qed.

(** The stream served is the capture's receptions for any Beast client: when the frames
    recorded have 7 or 14 bytes, a decoder fed the bytes in any chunks gets exactly the
    receptions of the recorded lines, as 48-bit counts of a 12 MHz clock, sorted by count. *)
Theorem served_stream_decodes dir client_id entry i m z rs speed chunks :
  open dir = inl m -> list_find (fun c => ce_id c = client_id) (m_clients m) = Some (i, entry) -> ce_compress entry = "none"%string ->
  client_records entry dir = inl z -> records z = (rs, None) ->
  let heard := rs ≫= record_receptions (serve_scale (ce_clock_type entry)) in
  Forall (fun r => length (served_frame r) = 7%nat \/ length (served_frame r) = 14%nat) heard ->
  Forall (fun r => is_Some (feed_deadline speed (t_record_nanos r))) heard ->
  exists out, serve_list dir client_id = inl out /\ out ≡ₚ heard /\ StronglySorted (fun a b => counts_le a b = true) out /\
    (concat chunks = concat (sent_bytes <$> (serve_stream speed (fun _ => false) 0 out).1) ->
     feed_all {| buf := [] |} chunks
     = ({| buf := [] |}, (fun r => {| Beast.counts_12mhz := served_counts r; Beast.frame := served_frame r |}) <$> out)).
Proof.
  intros Ho Hf Hc Hz Hr heard Hlen Hd. unfold serve_list. rewrite Ho, Hf, Hc, Hz, Hr. cbn [negb]. fold heard.
  assert (stable_sort counts_le heard ≡ₚ heard) as Hperm by apply stable_sort_perm.
  eexists. split; [reflexivity|]. split; [done|]. split.
  { apply stable_sort_sorted; unfold counts_le; intros *; rewrite ?Z.leb_le; lia. }
  rewrite serve_stream_all by (by rewrite Hperm). intros E. cbn [fst] in E.
  set (l := stable_sort counts_le heard) in *.
  assert (concat chunks = (served_message <$> l) ≫= wire) as E'.
  { rewrite E. clear. induction l as [|r l IH]; [done|]. cbn. by rewrite IH. }
  rewrite feed_all_scan, feed_scan, E' by done. cbn [buf app].
  rewrite scan_all_wire, <- list_fmap_compose; [done|]. apply list.Forall_fmap. rewrite Hperm.
  assert (Forall (fun x => 0 <= served_counts x < 2 ^ 48 /\ bytes_ok (served_frame x)) heard) as Hok.
  { apply list.Forall_forall. intros x (r & Hx & _)%list_elem_of_bind.
    pose proof (record_receptions_ok (serve_scale (ce_clock_type entry)) r) as Hall. rewrite list.Forall_forall in Hall. by apply Hall. }
  rewrite list.Forall_forall in Hok, Hlen |- *. intros r Hr'. destruct (Hok r Hr'). split_and!; cbn; try done; try lia; by apply Hlen.
Qed.
End Served.

(** ** A served capture *)
Section Sample.
#[local] Existing Instance hex_tree.
Lemma unhex_bytes m f : hex_decode m = Some f -> bytes_ok f.
Proof.
  cbn. assert (forall c x, digit_val c = Some x -> 0 <= x < 16) as Hd.
  { intros c x. unfold digit_val. cbv zeta. repeat case_match; intros [= <-]; lia. }
  assert (forall n m f, (String.length m <= n)%nat -> unhex m = Some f -> bytes_ok f) as Hall.
  { clear m f. induction n as [|n IH]; intros [|c [|d m]] f Hn; cbn [unhex String.length] in *; try (intros [= <-]; constructor); try done; try lia.
    destruct (digit_val c) as [x|] eqn:Ex; [|done]. destruct (digit_val d) as [y|] eqn:Ey; [|done].
    destruct (unhex m) as [l|] eqn:El; [|done]. intros [= <-]. apply Hd in Ex, Ey. constructor; [unfold byte_ok; lia|].
    apply (IH m); [lia|done]. }
  by apply (Hall (String.length m)).
Qed.
(** A sync line, an mlat line whose count is the earliest, and a line that is not JSON. *)
#[local] Instance json_lines_of : Json := json_with (fun l =>
  match l with
  | [1] => Some (TObj [("sync", TObj [("et", TNum (inl 500)); ("em", TStr "8d1a0000000000000000000000aa"); ("ot", TNum (inl 300)); ("om", TStr "5d3c64441a1a1a")])])%string
  | [2] => Some (TObj [("mlat", TObj [("t", TNum (inl 100)); ("m", TStr "02e1983803aaaa")])])%string
  | _ => None
  end).
Definition served_recs : list Rec :=
  [{| t_nanos := 0; kind := REC_CONNECT; payload := [] |}; {| t_nanos := 1000000000; kind := REC_C2S; payload := [1] |};
   {| t_nanos := 1500000000; kind := REC_C2S; payload := [3] |}; {| t_nanos := 2000000000; kind := REC_C2S; payload := [2] |}].
#[local] Existing Instance codec_stored.
Definition served_dir : Dir :=
  Some (<["manifest.json"%string := manifest_json sample_manifest]> (<[ce_file sample_entry := MBC_MAGIC ++ [10] ++ stream_bytes served_recs]> ∅)).
Definition served_list : list ServedReception :=
  match serve_list served_dir "rx-000" with inl l => l | inr _ => [] end.
Example served_order : (fun r => (served_counts r, t_record_nanos r)) <$> served_list = [(100, 2000000000); (300, 1000000000); (500, 1000000000)].
Proof. vm_compute. reflexivity. Qed.
Lemma served_stream_decodes_witness : exists out, serve_list served_dir "rx-000" = inl out /\
  (feed_all {| buf := [] |} ((fun b => [b]) <$> concat (sent_bytes <$> (serve_stream (of_Z 2) (fun _ => false) 0 out).1))).2
  = (fun r => {| Beast.counts_12mhz := served_counts r; Beast.frame := served_frame r |}) <$> out.
Proof.
  destruct (served_stream_decodes unhex_bytes served_dir "rx-000" sample_entry 0%nat sample_manifest
    {| st_bytes := stream_bytes served_recs; st_end := None |} served_recs (of_Z 2)
    ((fun b => [b]) <$> concat (sent_bytes <$> (serve_stream (of_Z 2) (fun _ => false) 0 served_list).1))) as (out & Eo & _ & _ & Hd).
  - vm_compute. reflexivity.
  - vm_compute. reflexivity.
  - reflexivity.
  - vm_compute. reflexivity.
  - vm_compute. reflexivity.
  - apply (bool_decide_unpack _). vm_compute. reflexivity.
  - apply (bool_decide_unpack _). vm_compute. reflexivity.
  - exists out. split; [exact Eo|]. assert (served_list = out) as El by (unfold served_list; rewrite Eo; reflexivity).
    rewrite El in Hd. rewrite Hd; [reflexivity|]. generalize (concat (sent_bytes <$> (serve_stream (of_Z 2) (fun _ => false) 0 out).1)).
    intros l. induction l as [|b l IH]; [reflexivity|]. cbn. f_equal. exact IH.
Defined.
(** A frame of any other length goes out under the type of a long one, and a client takes the
    first fourteen bytes of what follows: a shorter frame is lost with whatever it borrows, a
    longer one arrives as a message that was never received. *)
Example odd_frame_misread :
  let sent n := serve_bytes {| t_record_nanos := 0; served_counts := 9; served_frame := repeat 5 n |} in
  (feed_all {| buf := [] |} [sent 3%nat ++ sent 7%nat]).2 = [{| Beast.counts_12mhz := 9; Beast.frame := repeat 5 7 |}]
  /\ (feed_all {| buf := [] |} [sent 16%nat ++ sent 7%nat]).2
     = [{| Beast.counts_12mhz := 9; Beast.frame := repeat 5 14 |}; {| Beast.counts_12mhz := 9; Beast.frame := repeat 5 7 |}].
Proof. split; vm_compute; reflexivity. Qed.
End Sample.
