(* ===== verification/Fuzz.v ===== *)
(** * Moving the receivers of a capture (crates/mlat-bench/src/fuzzcmd.rs)

    A capture is copied with every receiver displaced by a seeded draw, in the manifest and in
    the recorded handshakes.  Changing a key of a JSON object and writing it are interfaces. *)
From S2P Require Import Prelude F64 Num Text Geo Metrics Proto Capture SimClock Scenario.
Local Open Scope Z_scope.

(** ** The displacement, over any arithmetic *)
Section Displace.
Context {F : Type} `{Num F, Elem F}.
(** North by the distance and angle drawn, and up. *)
Definition fuzz_dist (radius_km u : F) : F := (radius_km * #1000 * nsqrt u)%num.
Definition fuzz_dlat (radius_km theta u : F) : F := (fuzz_dist radius_km u * ecos theta / #111320)%num.
Definition fuzz_dlon (radius_km theta u lat : F) : F :=
  (fuzz_dist radius_km u * esin theta / (#111320 * nmax (ecos (to_rad lat)) (nlit 5 100)))%num.
Definition round5 (x : F) : F := (nround (x * #100000) / #100000)%num.
End Displace.

Section Code.
Context `{Codec, Json, Rand, Elem f64}.
(** [as_object_mut] and [insert] (nothing for what is no object), the numbers put in, and [to_vec]. *)
Context (obj_insert : Value -> string -> Value -> option Value) (f64_value : f64 -> Value) (to_vec : Value -> list Z).

Inductive FuzzError := FuzzCapture (e : CaptureError) | FuzzHandshake | FuzzNotObject.
(** Where a receiver is moved to. *)
Definition fuzz_position (radius_km : f64) (seed : Z) (entry : ClientEntry) : f64 * f64 * f64 :=
  let rng := rng_for seed (String.append "fuzz/" (ce_id entry)) in
  let '(theta, rng) := gen_range fzero TAU rng in
  let '(u, rng) := gen_range fzero (of_Z 1) rng in
  let '(dalt, _) := gen_range (of_Z (-30)) (of_Z 30) rng in
  ((ce_lat entry + fuzz_dlat radius_km theta u)%f64, (ce_lon entry + fuzz_dlon radius_km theta u (ce_lat entry))%f64,
   (ce_alt_m entry + dalt)%f64).
Definition fuzz_entry (pos : f64 * f64 * f64) (entry : ClientEntry) : ClientEntry :=
  let '(lat, lon, alt) := pos in
  {| ce_id := ce_id entry; ce_file := ce_file entry; ce_clock_type := ce_clock_type entry; ce_compress := ce_compress entry;
     ce_lat := round5 lat; ce_lon := round5 lon; ce_alt_m := fround alt |}.
(** The handshake line with its position replaced. *)
Definition fuzz_handshake (pos : f64 * f64 * f64) (line : list Z) : list Z + FuzzError :=
  let '(lat, lon, alt) := pos in
  match from_slice line with
  | None => inr FuzzHandshake
  | Some v =>
      match (v ← obj_insert v "lat" (f64_value (round5 lat)); v ← obj_insert v "lon" (f64_value (round5 lon));
             obj_insert v "alt" (f64_value (fround alt))) with
      | None => inr FuzzNotObject
      | Some v => inl (to_vec v ++ [10])
      end
  end.
Definition fuzz_rec (pos : f64 * f64 * f64) (r : Rec) : Rec + FuzzError :=
  if kind r =? 3 then
    match fuzz_handshake pos (payload r) with
    | inl line => inl {| t_nanos := t_nanos r; kind := kind r; payload := line |}
    | inr e => inr e
    end
  else inl r.
(** The records of a client, copied into its writer. *)
Fixpoint fuzz_recs (pos : f64 * f64 * f64) (rs : list Rec) (w : ClientWriter) : ClientWriter + FuzzError :=
  match rs with
  | [] => inl w
  | r :: rs => match fuzz_rec pos r with inl r => fuzz_recs pos rs (record r w) | inr e => inr e end
  end.
Definition fuzz_client (radius_km : f64) (seed : Z) (dir : Dir) (entry : ClientEntry) (out : Dir) : (Dir * ClientEntry) + FuzzError :=
  let pos := fuzz_position radius_km seed entry in
  match client_records entry dir with
  | inr e => inr (FuzzCapture e)
  | inl z =>
      let '(rs, e) := records z in
      match fuzz_recs pos rs (client_writer (ce_id entry)), e with
      | inr e, _ => inr e
      | inl _, Some e => inr (FuzzCapture e)
      | inl w, None => inl (finish w out, fuzz_entry pos entry)
      end
  end.
Fixpoint fuzz_clients (radius_km : f64) (seed : Z) (dir : Dir) (entries : list ClientEntry) (out : Dir) : (Dir * list ClientEntry) + FuzzError :=
  match entries with
  | [] => inl (out, [])
  | entry :: entries =>
      match fuzz_client radius_km seed dir entry out with
      | inr e => inr e
      | inl (out, entry) =>
          match fuzz_clients radius_km seed dir entries out with
          | inr e => inr e
          | inl (out, entries) => inl (out, entry :: entries)
          end
      end
  end.
(** The side files are copied when they exist; audibility rows are JSON values. *)
Definition has_file (name : string) (dir : Dir) : bool := match file name dir with inl _ => true | inr _ => false end.
Definition copy_sides (dir out : Dir) : Dir + FuzzError :=
  match (if has_file "scenario.toml" dir then match scenario_toml dir with inl t => inl (write_scenario_toml t out).1 | inr e => inr (FuzzCapture e) end else inl out) with
  | inr e => inr e
  | inl out =>
      match (if has_file "truth.jsonl.zst" dir then match truth dir with inl l => inl (write_truth l out) | inr e => inr (FuzzCapture e) end else inl out) with
      | inr e => inr e
      | inl out =>
          if has_file "audibility.jsonl.zst" dir then
            match audibility_raw from_slice dir with inl l => inl (write_audibility to_vec l out) | inr e => inr (FuzzCapture e) end
          else inl out
      end
  end.
Definition fuzz_manifest (m : Manifest) (entries : list ClientEntry) : Manifest :=
  {| m_format := m_format m; m_version := m_version m; m_name := String.append (m_name m) "-fuzzed"; m_seed := m_seed m;
     m_duration_s := m_duration_s m; m_scenario_sha256 := m_scenario_sha256 m; m_clients := entries |}.
Definition fuzz (dir out : Dir) (radius_km : f64) (seed : Z) : Dir + FuzzError :=
  match open dir with
  | inr e => inr (FuzzCapture e)
  | inl m =>
      match create out with
      | inr e => inr (FuzzCapture e)
      | inl out =>
          match copy_sides dir out with
          | inr e => inr e
          | inl out =>
              match fuzz_clients radius_km seed dir (m_clients m) out with
              | inr e => inr e
              | inl (out, entries) => inl (write_manifest (fuzz_manifest m entries) out)
              end
          end
      end
  end.
End Code.

(** ** What the copy keeps *)
Section Copied.
Context `{Codec, !CodecLaws, Json, Rand, Elem f64}.
Context (obj_insert : Value -> string -> Value -> option Value) (f64_value : f64 -> Value) (to_vec : Value -> list Z).
(** JSON: a key that is set, the other keys, and a line read back. *)
Hypothesis insert_get : forall v k x v' k', obj_insert v k x = Some v' -> jget v' k' = if decide (k = k') then Some x else jget v k'.
Hypothesis line_back : forall v, from_slice (to_vec v ++ [10]) = Some v.

Definition moved_key (k : string) : Prop := k = "lat"%string \/ k = "lon"%string \/ k = "alt"%string.
(** A copied record: unchanged, but for the position in a handshake, which is that of the entry. *)
Record copied (entry : ClientEntry) (r r' : Rec) : Prop := {
  cp_time : t_nanos r' = t_nanos r;
  cp_kind : kind r' = kind r;
  cp_same : kind r <> REC_CONNECT -> payload r' = payload r;
  cp_hello : kind r = REC_CONNECT -> exists v v', from_slice (payload r) = Some v /\ from_slice (payload r') = Some v' /\
    jget v' "lat" = Some (f64_value (ce_lat entry)) /\ jget v' "lon" = Some (f64_value (ce_lon entry)) /\
    jget v' "alt" = Some (f64_value (ce_alt_m entry)) /\ forall k, ~ moved_key k -> jget v' k = jget v k
}.
Abbreviation moved_line := (fuzz_handshake obj_insert f64_value to_vec).
Abbreviation moved_rec := (fuzz_rec obj_insert f64_value to_vec).
Lemma fuzz_handshake_ok pos line line' : moved_line pos line = inl line' -> exists v v', from_slice line = Some v /\
  from_slice line' = Some v' /\ jget v' "lat" = Some (f64_value (round5 pos.1.1)) /\ jget v' "lon" = Some (f64_value (round5 pos.1.2)) /\
  jget v' "alt" = Some (f64_value (fround pos.2)) /\ forall k, ~ moved_key k -> jget v' k = jget v k.
Proof.
  destruct pos as [[lat lon] alt]. unfold fuzz_handshake. destruct (from_slice line) as [v|]; [|done].
  destruct (obj_insert v "lat" _) as [v1|] eqn:E1; [|done]. cbn [mbind option_bind].
  destruct (obj_insert v1 "lon" _) as [v2|] eqn:E2; [|done]. cbn [mbind option_bind].
  destruct (obj_insert v2 "alt" _) as [v3|] eqn:E3; [|done]. intros [= <-]. exists v, v3.
  pose proof (fun k => insert_get _ _ _ _ k E1) as G1. pose proof (fun k => insert_get _ _ _ _ k E2) as G2.
  pose proof (fun k => insert_get _ _ _ _ k E3) as G3. cbn [fst snd]. split_and!; [done|apply line_back|..]; rewrite ?G3, ?G2, ?G1; [done..|].
  intros k Hk. unfold moved_key in Hk. rewrite G3, G2, G1. by repeat case_decide; subst; try tauto.
Qed.
Lemma fuzz_rec_ok pos entry r r' : moved_rec pos r = inl r' -> copied (fuzz_entry pos entry) r r'.
Proof.
  unfold fuzz_rec. change 3 with REC_CONNECT. destruct (Z.eqb_spec (kind r) REC_CONNECT) as [Hk|Hk]; [|by intros [= <-]].
  destruct (moved_line pos (payload r)) as [line|] eqn:E; [|done]. intros [= <-]. split; cbn; try done.
  intros _. apply fuzz_handshake_ok in E. by destruct pos as [[? ?] ?].
Qed.
Lemma fuzz_recs_ok pos rs rs' w : Forall2 (fun r r' => moved_rec pos r = inl r') rs rs' ->
  fuzz_recs obj_insert f64_value to_vec pos rs w = inl (fold_left (fun w r => record r w) rs' w).
Proof. intros Hrs. revert w. induction Hrs as [|r r' rs rs' Hr _ IH]; intros w; [done|]. cbn [fuzz_recs fold_left]. by rewrite Hr, IH. Qed.

(** A client whose records are read whole and copied. *)
Definition fuzzable (radius_km : f64) (seed : Z) (dir : Dir) (entry : ClientEntry) (rs' : list Rec) : Prop :=
  ce_file entry = client_file (ce_id entry) /\ Forall rec_ok rs' /\
  exists z rs, client_records entry dir = inl z /\ records z = (rs, None) /\
    Forall2 (fun r r' => moved_rec (fuzz_position radius_km seed entry) r = inl r') rs rs'.
Lemma fuzz_clients_ok radius_km seed dir entries cs out : Forall2 (fuzzable radius_km seed dir) entries cs ->
  fuzz_clients obj_insert f64_value to_vec radius_km seed dir entries out
  = inl (write_clients (zip (ce_id <$> entries) cs) out, (fun e => fuzz_entry (fuzz_position radius_km seed e) e) <$> entries).
Proof.
  intros Hall. revert out. induction Hall as [|entry rs' entries cs (_ & _ & z & rs & Hz & Hr & Hrs) _ IH]; intros out; [done|].
  cbn [fuzz_clients fmap list_fmap zip_with]. unfold fuzz_client. rewrite Hz, Hr, (fuzz_recs_ok _ _ _ _ Hrs), IH. done.
Qed.
Lemma copy_sides_some dir m1 d : copy_sides to_vec dir (Some m1) = inl d -> exists m2, d = Some m2.
Proof.
  unfold copy_sides. destruct (if has_file "scenario.toml" dir then _ else _) as [d1|] eqn:E1; [|done].
  assert (exists m2, d1 = Some m2) as [m2 ->].
  { revert E1. destruct (has_file _ _); [|intros [= <-]; by eexists]. destruct (scenario_toml dir); [|done]. intros [= <-]. by eexists. }
  clear E1. destruct (if has_file "truth.jsonl.zst" dir then _ else _) as [d1|] eqn:E1; [|done].
  assert (exists m3, d1 = Some m3) as [m3 ->].
  { revert E1. destruct (has_file _ _); [|intros [= <-]; by eexists]. destruct (truth dir); [|done]. intros [= <-]. by eexists. }
  clear E1. destruct (has_file _ _); [|intros [= <-]; by eexists]. destruct (audibility_raw _ _); [|done]. intros [= <-]. by eexists.
Qed.

(** A fuzzed capture still replays: when the clients of a capture can be read and their
    handshakes are JSON objects, the copy succeeds, opens with the same clients in the same
    order, and every client's stream has the same records at the same times; all of them
    are unchanged but for the position in the handshake, which is the one written to the
    copy's manifest, its other keys untouched. *)
Theorem fuzz_copies dir m radius_km seed cs out m'' :
  open dir = inl m -> base.NoDup (ce_id <$> m_clients m) -> Forall2 (fuzzable radius_km seed dir) (m_clients m) cs ->
  copy_sides to_vec dir (Some ∅) = inl out ->
  let m' := fuzz_manifest m ((fun e => fuzz_entry (fuzz_position radius_km seed e) e) <$> m_clients m) in
  reread_manifest m' = Some m'' ->
  exists dir', fuzz obj_insert f64_value to_vec dir None radius_km seed = inl dir' /\ open dir' = inl m'' /\
    forall i entry, m_clients m !! i = Some entry -> exists entry' rs rs' z z',
      m_clients m'' !! i = Some entry' /\ reread_entry (fuzz_entry (fuzz_position radius_km seed entry) entry) = Some entry' /\ ce_id entry' = ce_id entry /\ ce_clock_type entry' = ce_clock_type entry /\
      ce_compress entry' = ce_compress entry /\ client_records entry dir = inl z /\ records z = (rs, None) /\
      client_records entry' dir' = inl z' /\ records z' = (rs', None) /\ Forall2 (copied (fuzz_entry (fuzz_position radius_km seed entry) entry)) rs rs'.
Proof.
  intros Ho Hnd Hall Hside m' Hm. unfold fuzz. rewrite Ho. cbn [create]. rewrite Hside, (fuzz_clients_ok _ _ _ _ _ _ Hall).
  destruct (copy_sides_some _ _ _ Hside) as [m1 ->]. fold m'. set (ws := zip (ce_id <$> m_clients m) cs).
  destruct (open_format _ _ Ho) as [Hf Hv].
  assert (length (m_clients m) = length cs) as Hlen by (by eapply Forall2_length).
  destruct (written_clients ws m' m'' m1) as (Ho' & Hrec & _); try done.
  { unfold ws. rewrite fst_zip; [done|]. by rewrite length_fmap, Hlen. }
  { unfold ws. clear - Hall. induction Hall as [|e c es cs (_ & Hr & _) _ IH]; [constructor|]. by constructor. }
  eexists. split; [reflexivity|]. split; [exact Ho'|]. intros i entry Hi.
  destruct (Forall2_lookup_l _ _ _ _ _ Hall Hi) as (rs' & Hi' & Hfile & _ & z & rs & Hz & Hr & Hrs).
  set (moved := fuzz_entry (fuzz_position radius_km seed entry) entry).
  assert (ce_id moved = ce_id entry /\ ce_file moved = ce_file entry /\ ce_clock_type moved = ce_clock_type entry /\ ce_compress moved = ce_compress entry)
    as (Ei & Ef & Ect & Eco) by (unfold moved, fuzz_entry; by destruct (fuzz_position _ _ _) as [[? ?] ?]).
  destruct (entries_reread m' m'' i moved Hm) as (entry' & Hie & He); [cbn; by rewrite list_lookup_fmap, Hi|].
  destruct (reread_entry_same _ _ He) as (Ei' & Ef' & Ect' & Eco').
  destruct (Hrec (ce_id entry, rs') entry') as (z' & Hz' & Hr').
  - unfold ws. eapply list_elem_of_lookup_2, lookup_zip_with_Some. eexists (ce_id entry), rs'. split_and!; [done| |exact Hi'].
    rewrite list_lookup_fmap, Hi. done.
  - cbn [fst]. congruence.
  - exists entry', rs, rs', z, z'. split_and!; try done; try congruence.
    clear - Hrs insert_get line_back. induction Hrs as [|r r' l l' Hr _ IH]; [constructor|constructor; [by apply fuzz_rec_ok|exact IH]].
Qed.
End Copied.

(** ** What is published gives the position away to who has the seed *)
Section Undone.
Local Open Scope R_scope.
Lemma round5_error (x : R) : Rabs (round5 x - x) <= 5 / 1000000.
Proof.
  unfold round5. real_ops. change (nround (x * 100000)) with (IZR (Rround (x * 100000))).
  set (y := x * 100000). assert (Rabs (IZR (Rround y) - y) <= 1 / 2) as Hy.
  { unfold Rround. destruct (Rlt_dec y 0).
    - rewrite opp_IZR. pose proof (Zfloor_bounds (- y + 1 / 2)). apply Rabs_le. lra.
    - pose proof (Zfloor_bounds (y + 1 / 2)). apply Rabs_le. lra. }
  replace (IZR (Rround y) / 100000 - x) with ((IZR (Rround y) - y) / 100000) by (unfold y; field).
  unfold Rdiv. rewrite Rabs_mult, (Rabs_right (/ 100000)) by lra. lra.
Qed.
(** The latitude that the seed and the radius give back from the published one is the true one
    to half a metre, and so is the longitude once the latitude is known; the draws depend on
    nothing but the seed and the client's name, which the copy keeps, and the program's own
    default seed is a constant. *)
Theorem fuzz_undone (radius_km theta u lat lon : R) :
  let lat' := round5 (lat + fuzz_dlat radius_km theta u) in
  let lon' := round5 (lon + fuzz_dlon radius_km theta u lat) in
  Rabs (lat' - fuzz_dlat radius_km theta u - lat) <= 5 / 1000000 /\
  Rabs (lon' - fuzz_dlon radius_km theta u lat - lon) <= 5 / 1000000.
Proof.
  cbv zeta. pose proof (round5_error (lat + fuzz_dlat radius_km theta u)) as H1. pose proof (round5_error (lon + fuzz_dlon radius_km theta u lat)) as H2.
  split; [eapply Rle_trans, H1|eapply Rle_trans, H2]; right; f_equal; ring.
Qed.
End Undone.

(** ** A fuzzed capture *)
Section Sample.
#[local] Existing Instance rand_script.
#[local] Existing Instance elem_taylor.
(** Objects with the three numbers of a position, and lines that end in a line feed. *)
Definition flat_get (v : list Z) (k : string) : option (list Z) :=
  match v with
  | [a; b; c] => if (k =? "lat")%string then Some [a] else if (k =? "lon")%string then Some [b] else if (k =? "alt")%string then Some [c] else None
  | _ => None
  end.
Definition flat_insert (v : list Z) (k : string) (x : list Z) : option (list Z) :=
  match v, x with
  | [a; b; c], [n] => if (k =? "lat")%string then Some [n; b; c] else if (k =? "lon")%string then Some [a; n; c]
                      else if (k =? "alt")%string then Some [a; b; n] else None
  | _, _ => None
  end.
#[local] Instance json_flat : Json := {|
  Value := list Z; Number := Z; from_slice l := if decide (list.last l = Some 10) then Some (removelast l) else None;
  is_object v := (length v =? 3)%nat; jget := flat_get; as_str _ := None; as_bool _ := None; as_f64 _ := None; as_u64 _ := None;
  as_i64 _ := None; as_array _ := None; object_keys _ := None; num_of_u64 z := z; num_of_f64 _ := None; vnum z := [z]; vstr _ := [];
  vbool _ := []; vobject _ := [] |}.
Definition flat_obj_insert (v : Value) (k : string) (x : Value) : option Value := flat_insert v k x.
Definition flat_bytes (v : Value) : list Z := v.
Definition flat_number (x : f64) : Value := [round_Z (x * of_Z 100000)%f64].
Lemma flat_insert_get v k x v' k' : flat_obj_insert v k x = Some v' -> jget v' k' = if decide (k = k') then Some x else jget v k'.
Proof.
  unfold flat_obj_insert, flat_insert. cbn [jget json_flat]. destruct v as [|a [|b [|c [|]]]]; try done. destruct x as [|n [|]]; try done.
  destruct (String.eqb_spec k "lat") as [E1|E1]; [|destruct (String.eqb_spec k "lon") as [E2|E2]; [|destruct (String.eqb_spec k "alt") as [E3|E3]; [|done]]];
    intros [= <-]; subst k; cbn; case_decide as E; subst; try done;
    destruct (String.eqb_spec k' "lat"), (String.eqb_spec k' "lon"), (String.eqb_spec k' "alt"); congruence.
Qed.
Lemma flat_line v : from_slice (flat_bytes v ++ [10]) = Some v.
Proof. unfold flat_bytes, from_slice, json_flat. rewrite last_snoc, removelast_last. by case_decide. Qed.
Definition flat_entry : ClientEntry := Eval vm_compute in fuzz_entry (fuzz_position (of_Z 5) 42 sample_entry) sample_entry.
#[local] Existing Instance codec_stored.
#[local] Existing Instance codec_stored_laws.
Definition flat_read : Manifest := Eval vm_compute in default sample_manifest (reread_manifest (fuzz_manifest sample_manifest [flat_entry])).
Definition flat_recs : list Rec :=
  [{| t_nanos := 0; kind := REC_CONNECT; payload := [47; -1; 40; 10] |}; {| t_nanos := 5; kind := REC_C2S; payload := [1; 2] |}].
Definition flat_recs' : list Rec :=
  Eval vm_compute in omap (fun r => match fuzz_rec flat_obj_insert flat_number flat_bytes (fuzz_position (of_Z 5) 42 sample_entry) r with inl r => Some r | inr _ => None end) flat_recs.
Definition flat_dir : Dir := write_manifest sample_manifest (write_clients [("rx-000"%string, flat_recs)] (Some ∅)).
Lemma fuzz_copies_witness : exists dir', fuzz flat_obj_insert flat_number flat_bytes flat_dir None (of_Z 5) 42 = inl dir' /\
  open dir' = inl flat_read.
Proof.
  destruct (fuzz_copies flat_obj_insert flat_number flat_bytes flat_insert_get flat_line flat_dir sample_manifest (of_Z 5) 42 [flat_recs'] (Some ∅) flat_read)
    as (dir' & E & Eo & _).
  - vm_compute. reflexivity.
  - apply (bool_decide_unpack _). vm_compute. reflexivity.
  - constructor; [|constructor]. split; [reflexivity|]. split; [repeat constructor; cbn; lia|].
    exists {| st_bytes := stream_bytes flat_recs; st_end := None |}, flat_recs.
    split; [vm_compute; reflexivity|]. split; [vm_compute; reflexivity|]. repeat constructor.
  - vm_compute. reflexivity.
  - vm_compute. reflexivity.
  - exists dir'. split; [exact E|exact Eo].
Defined.
End Sample.
