(* ===== verification/Locards.v ===== *)
(** * Importing LocaRDS sets (crates/mlat-bench/src/locards.rs)

    Rows of received positions become client streams: a held-out part of the aircraft speaks
    only in altitude replies, the others in position frames that each client pairs.  The csv
    and serde_json crates, the shortest decimal form of a float, and the order of hash maps
    are interfaces. *)
From Stdlib Require Import Ascii.
From S2P Require Import Prelude F64 Num Text Decimal Results Metrics Geo Alt Frames Proto Capture SimClock Gen.
Local Open Scope Z_scope.

Definition M_TO_FT : f64 := lit 3280839895 1000000000.
Record Sensor := { s_geo : Geodetic f64; s_user : string }.
(** The stream of a sensor so far: the lines with their times, the position frame that awaits
    its partner per aircraft (parity, time, raw nanoseconds, hex), the aircraft announced. *)
Record ClientAcc := { acc_lines : list (f64 * string); acc_pending : gmap Z (bool * f64 * f64 * string); acc_seen : gset Z }.
Definition ClientAcc_default : ClientAcc := {| acc_lines := []; acc_pending := ∅; acc_seen := ∅ |}.

(** The lines of the client protocol, as text. *)
Definition jtext (s : string) : string := sconcat [char_text QUOTE; s; char_text QUOTE]%string.
Definition seen_line (icao : Z) : string := sconcat ["{"; jkey "seen"; "["; jtext (to_hex icao); "]}"]%string.
Definition mlat_line (counts : Z) (m : string) : string :=
  sconcat ["{"; jkey "mlat"; "{"; jkey "t"; fmt_nat counts; ","; jkey "m"; jtext m; "}}"]%string.
Definition sync_line (et : Z) (em : string) (ot : Z) (om : string) : string :=
  sconcat ["{"; jkey "sync"; "{"; jkey "et"; fmt_nat et; ","; jkey "em"; jtext em; ","; jkey "ot"; fmt_nat ot; ",";
    jkey "om"; jtext om; "}}"]%string.

Section Code.
Context `{Json, Hex, Rand, Elem f64, !HashIter Z bool, !HashIter Z ClientAcc, Codec}.
(** [Display] of a float, and the JSON of an audibility row. *)
Context (fmt_float : f64 -> string) (row_json : AudibilityRow -> list Z).

(** Why an import fails: the csv crate's error, a number that does not parse, a missing field
    (a panic), the capture. *)
Inductive ImportError := ImportCsv | ImportNumber | ImportPanic | ImportCapture (e : CaptureError).
Definition Import (A : Type) : Type := A + ImportError.
#[export] Instance import_ret : MRet Import := fun A a => inl a.
#[export] Instance import_bind : MBind Import := fun A B f m => match m with inl a => f a | inr e => inr e end.
Definition need {A} (e : ImportError) (o : option A) : Import A := match o with Some a => inl a | None => inr e end.
(** A field of a record, and a number in it. *)
Definition field (i : nat) (r : list string) : Import string := need ImportPanic (r !! i).
Definition u64_field (i : nat) (r : list string) : Import Z := s ← field i r; need ImportNumber (parse_unsigned (2 ^ 64 - 1) s).
Definition u32_field (i : nat) (r : list string) : Import Z := s ← field i r; need ImportNumber (parse_unsigned (2 ^ 32 - 1) s).
Definition f64_field (i : nat) (r : list string) : Import f64 := s ← field i r; need ImportNumber (parse_f64 s).

(** ** Sensors *)
Definition sensor_row (r : list string) : Import (Z * Sensor) :=
  serial ← u64_field 0 r;
  lat ← f64_field 1 r;
  lon ← f64_field 2 r;
  h ← field 3 r;
  mret (serial, {| s_geo := {| lat_deg := lat; lon_deg := lon; alt_m := fclamp (default fzero (parse_f64 h)) (of_Z (-1000)) (of_Z 10000) |};
                   s_user := String.append "os-" (fmt_nat serial) |}).
(** The records of a csv file: a record, or the reader's error. *)
Fixpoint read_sensors (rows : list (option (list string))) (m : gmap Z Sensor) : Import (gmap Z Sensor) :=
  match rows with
  | [] => mret m
  | row :: rows => r ← need ImportCsv row; '(serial, s) ← sensor_row r; read_sensors rows (<[serial := s]> m)
  end.

(** ** Rows *)
Definition measurements (s : string) : list (Z * f64) :=
  let l := default [] (v ← from_slice (bytes_of s); as_array v) in
  omap (fun m => a ← as_array m; x ← a !! 0%nat; n ← as_u64 x; y ← a !! 1%nat; t ← as_f64 y; Some (n, t)) l.
Record ImportState := {
  is_clients : gmap Z ClientAcc; is_truth : list TruthPoint; is_audibility : list AudibilityRow; is_holdout : gmap Z bool;
  is_parity : gmap Z bool; is_rng : Stream; rows_used : Z; rows_no_truth : Z
}.
Definition import_icao (ac_id : Z) : Z := u32 (0x100000 + ac_id).
(** Whether an aircraft is held out, drawn at its first row. *)
Definition holdout_of (frac : f64) (ac : Z) (st : ImportState) : bool * gmap Z bool * Stream :=
  match is_holdout st !! ac with
  | Some h => (h, is_holdout st, is_rng st)
  | None => let '(u, rng) := gen_range fzero (of_Z 1) (is_rng st) in ((u <? frac)%f64, <[ac := (u <? frac)%f64]> (is_holdout st), rng)
  end.
Definition wire_counts (ns : f64) : Z := F64.as_u64 (fmax (fround (ns * lit 12 1000)%f64) fzero).
Definition push_line (t : f64) (l : string) (acc : ClientAcc) : ClientAcc :=
  {| acc_lines := acc_lines acc ++ [(t, l)]; acc_pending := acc_pending acc; acc_seen := acc_seen acc |}.
Definition set_pending (p : gmap Z (bool * f64 * f64 * string)) (acc : ClientAcc) : ClientAcc :=
  {| acc_lines := acc_lines acc; acc_pending := p; acc_seen := acc_seen acc |}.
Definition announce (t : f64) (icao : Z) (acc : ClientAcc) : ClientAcc :=
  if decide (icao ∈ acc_seen acc) then acc
  else push_line t (seen_line icao) {| acc_lines := acc_lines acc; acc_pending := acc_pending acc; acc_seen := {[icao]} ∪ acc_seen acc |}.
(** A position frame of the given parity: paired with the one that waits, or put to wait. *)
Definition pair_frame (t : f64) (icao : Z) (this_odd : bool) (ns : f64) (frame_hex : string) (acc : ClientAcc) : ClientAcc :=
  let counts := wire_counts ns in
  let wait := set_pending (<[icao := (this_odd, t, ns, frame_hex)]> (acc_pending acc)) acc in
  match acc_pending acc !! icao with
  | Some (podd, pt, pns, phex) =>
      if negb (Bool.eqb podd this_odd) && (t - pt <? of_Z 2)%f64 then
        let acc := set_pending (delete icao (acc_pending acc)) acc in
        let pcounts := wire_counts pns in
        push_line t (if this_odd then sync_line pcounts phex counts frame_hex else sync_line counts frame_hex pcounts phex) acc
      else wait
  | None => wait
  end.
(** One measurement of a transmission. *)
Definition measure (sensors : gmap Z Sensor) (t : f64) (icao : Z) (frame : option bool) (frame_hex : string)
    (clients : gmap Z ClientAcc) (m : Z * f64) : gmap Z ClientAcc :=
  match sensors !! m.1 with
  | None => clients
  | Some _ =>
      let acc := announce t icao (default ClientAcc_default (clients !! m.1)) in
      <[m.1 := match frame with
               | None => push_line t (mlat_line (wire_counts m.2) frame_hex) acc
               | Some this_odd => pair_frame t icao this_odd m.2 frame_hex acc
               end]> clients
  end.
(** The frame of a transmission and its parity, none for an altitude reply; [None]: not encodable. *)
Definition import_frame (is_held : bool) (icao alt_ft : Z) (lat lon : f64) (odd : bool) : option (option bool * string) :=
  if is_held then (fun f => (None, hex_encode f)) <$> df4 icao 0 alt_ft
  else (fun f => (Some odd, hex_encode f)) <$> df17_airborne_position icao 5 11 alt_ft lat lon odd.
(** A row with its position and measurements. *)
Definition transmission (frac : f64) (sensors : gmap Z Sensor) (t : f64) (ac : Z) (lat lon baro_m : f64) (meas : list (Z * f64))
    (st : ImportState) : ImportState :=
  let icao := import_icao ac in
  let '(held, holdout, rng) := holdout_of frac ac st in
  let alt_ft := quantize_25ft (baro_m * M_TO_FT)%f64 in
  let truth := if held then is_truth st ++ [{| tp_t := F64.as_u64 (t * of_Z 1000000000)%f64; tp_icao := icao;
                                               tp_pos := {| lat_deg := lat; lon_deg := lon; alt_m := baro_m |};
                                               Metrics.gs_mps := fzero; Metrics.vrate_mps := fzero |}] else is_truth st in
  let audibility := if held then is_audibility st ++ [{| row_t_s := F64.as_u64 t; row_icao := icao;
                                                         row_receivers := (fun m => String.append "os-" (fmt_nat m.1)) <$> meas |}]
                    else is_audibility st in
  let odd := negb (default false (is_parity st !! ac)) in
  let parity := if held then is_parity st else <[ac := odd]> (is_parity st) in
  match import_frame held icao alt_ft lat lon odd with
  | None => {| is_clients := is_clients st; is_truth := truth; is_audibility := audibility; is_holdout := holdout; is_parity := parity;
               is_rng := rng; rows_used := rows_used st; rows_no_truth := rows_no_truth st |}
  | Some (frame, frame_hex) =>
      {| is_clients := fold_left (measure sensors t icao frame frame_hex) meas (is_clients st); is_truth := truth;
         is_audibility := audibility; is_holdout := holdout; is_parity := parity; is_rng := rng; rows_used := rows_used st + 1;
         rows_no_truth := rows_no_truth st |}
  end.
(** A row: [None] when it is past the duration and the reading stops. *)
Definition import_row (frac : f64) (duration_s : Z) (sensors : gmap Z Sensor) (r : list string) (st : ImportState) : Import (option ImportState) :=
  t ← f64_field 1 r;
  if (t >? of_Z duration_s)%f64 then mret None
  else
    ac ← u32_field 2 r;
    lat ← field 3 r; lon ← field 4 r; baro ← field 5 r;
    match parse_f64 lat, parse_f64 lon, parse_f64 baro with
    | Some lat, Some lon, Some baro_m =>
        m ← field 8 r;
        let meas := measurements m in
        mret (Some (if (length meas <? 2)%nat then st else transmission frac sensors t ac lat lon baro_m meas st))
    | _, _, _ =>
        mret (Some {| is_clients := is_clients st; is_truth := is_truth st; is_audibility := is_audibility st; is_holdout := is_holdout st;
                      is_parity := is_parity st; is_rng := is_rng st; rows_used := rows_used st; rows_no_truth := rows_no_truth st + 1 |})
    end.
Fixpoint import_rows (frac : f64) (duration_s : Z) (sensors : gmap Z Sensor) (rows : list (option (list string))) (st : ImportState) : Import ImportState :=
  match rows with
  | [] => mret st
  | row :: rows =>
      r ← need ImportCsv row;
      o ← import_row frac duration_s sensors r st;
      match o with None => mret st | Some st => import_rows frac duration_s sensors rows st end
  end.
Definition ImportState_new (seed : Z) : ImportState :=
  {| is_clients := ∅; is_truth := []; is_audibility := []; is_holdout := ∅; is_parity := ∅; is_rng := rng_for seed "locards/holdout";
     rows_used := 0; rows_no_truth := 0 |}.

(** ** Writing the capture *)
Definition scenario_aircraft (ah : Z * bool) : string :=
  sconcat ["[[aircraft]]"; char_text NEWLINE; "icao = "; jtext (to_uppercase (to_hex (import_icao ah.1))); char_text NEWLINE;
    "kind = "; jtext (if ah.2 then "modes_only" else "adsb"); char_text NEWLINE; "traj = { type = "; jtext "great_circle";
    ", from = [0,0,10000], to = [0,1,10000], gs_kts = 400 }"; char_text NEWLINE]%string.
Definition import_scenario (seed duration_s : Z) (holdout : gmap Z bool) : string :=
  sconcat (["# synthesized by import-locards "; "— targets only, no physics"; char_text NEWLINE; "[meta]"; char_text NEWLINE;
    "name = "; jtext "locards"; char_text NEWLINE; "seed = "; fmt_nat seed; char_text NEWLINE; "duration_s = "; fmt_nat duration_s;
    char_text NEWLINE]%string ++ (scenario_aircraft <$> hash_iter holdout)).
Definition import_handshake (s : Sensor) : string :=
  sconcat ["{"; jkey "version"; "3,"; jkey "user"; jtext (s_user s); ","; jkey "compress"; "["; jtext "none"; "],"; jkey "lat";
    fmt_float (lat_deg (s_geo s)); ","; jkey "lon"; fmt_float (lon_deg (s_geo s)); ","; jkey "alt"; fmt_float (alt_m (s_geo s)); ",";
    jkey "clock_type"; jtext "dump1090"; ","; jkey "return_results"; "false}"; char_text NEWLINE]%string.
Definition line_nanos (t latency : f64) : Z := F64.as_u64 (fmax (fround ((t + latency) * of_Z 1000000000)%f64) fzero).
Definition line_rec (latency : f64) (tl : f64 * string) : Rec :=
  {| t_nanos := line_nanos tl.1 latency; kind := REC_C2S; payload := bytes_of (String.append tl.2 (char_text NEWLINE)) |}.
Definition acc_le (a b : f64 * string) : bool := total_le a.1 b.1.
Definition import_recs (s : Sensor) (latency : f64) (acc : ClientAcc) : list Rec :=
  {| t_nanos := 0; kind := REC_CONNECT; payload := bytes_of (import_handshake s) |} :: (line_rec latency <$> stable_sort acc_le (acc_lines acc)).
Definition import_entry (s : Sensor) : ClientEntry :=
  {| ce_id := s_user s; ce_file := client_file (s_user s); ce_clock_type := "dump1090"; ce_compress := "none";
     ce_lat := lat_deg (s_geo s); ce_lon := lon_deg (s_geo s); ce_alt_m := alt_m (s_geo s) |}.
(** The clients in the order of the map, each with a latency of its own. *)
Fixpoint write_accs (sensors : gmap Z Sensor) (l : list (Z * ClientAcc)) (rng : Stream) (dir : Dir) : Import (Dir * list ClientEntry) :=
  match l with
  | [] => mret (dir, [])
  | (serial, acc) :: l =>
      s ← need ImportPanic (sensors !! serial);
      let '(latency, rng) := gen_range (lit 1 100) (lit 5 100) rng in
      let cw := fold_left (fun w r => record r w) (import_recs s latency acc) (client_writer (s_user s)) in
      '(dir, entries) ← write_accs sensors l rng (finish cw dir);
      mret (dir, import_entry s :: entries)
  end.
Definition import_manifest (seed duration_s : Z) (sha : string) (entries : list ClientEntry) : Manifest :=
  {| m_format := "mbc"; m_version := 1; m_name := "locards"; m_seed := seed; m_duration_s := duration_s; m_scenario_sha256 := sha; m_clients := entries |}.
Definition import (set_csv sensors_csv : list (option (list string))) (out : Dir) (duration_s : Z) (holdout_frac : f64) (seed : Z) : Import Dir :=
  sensors ← read_sensors sensors_csv ∅;
  st ← import_rows holdout_frac duration_s sensors set_csv (ImportState_new seed);
  match create out with
  | inr e => inr (ImportCapture e)
  | inl d =>
      let '(d, sha) := write_scenario_toml (bytes_of (import_scenario seed duration_s (is_holdout st))) d in
      let d := write_audibility row_json (is_audibility st) (write_truth (is_truth st) d) in
      '(d, entries) ← write_accs sensors (hash_iter (is_clients st)) (rng_for seed "locards/net") d;
      mret (write_manifest (import_manifest seed duration_s sha entries) d)
  end.
End Code.

(** ** What the streams give away *)
Section Separated.
Context `{Json, Hex, Rand, Elem f64, !HashIter Z bool, !HashIter Z ClientAcc, Codec}.
Context (fmt_float : f64 -> string) (row_json : AudibilityRow -> list Z).

(** Frames in hexadecimal, of aircraft that are not held out and of those that are. *)
Definition position_hex (ho : gmap Z bool) (icao : Z) (odd : bool) (h : string) : Prop :=
  exists ac alt (lat lon : f64) f, ho !! ac = Some false /\ icao = import_icao ac /\
    df17_airborne_position icao 5 11 alt lat lon odd = Some f /\ h = hex_encode f.
Definition reply_hex (ho : gmap Z bool) (icao : Z) (h : string) : Prop :=
  exists ac alt f, ho !! ac = Some true /\ icao = import_icao ac /\ df4 icao 0 alt = Some f /\ h = hex_encode f.
(** An aircraft of the set. *)
Definition known_icao (ho : gmap Z bool) (icao : Z) : Prop := exists ac held, ho !! ac = Some held /\ icao = import_icao ac.
(** A line announces one address of the set, is an altitude reply of an aircraft held out, or a
    pair of positions of one that is not. *)
Definition good_line (ho : gmap Z bool) (l : string) : Prop :=
  (exists icao, known_icao ho icao /\ l = seen_line icao) \/ (exists icao c h, reply_hex ho icao h /\ l = mlat_line c h) \/
  (exists icao et em ot om, position_hex ho icao false em /\ position_hex ho icao true om /\ l = sync_line et em ot om).
Record acc_ok (ho : gmap Z bool) (acc : ClientAcc) : Prop := {
  ao_lines : Forall (fun tl => good_line ho tl.2) (acc_lines acc);
  ao_pending : forall icao odd t ns h, acc_pending acc !! icao = Some (odd, t, ns, h) -> position_hex ho icao odd h
}.
Definition held_truth (ho : gmap Z bool) (p : TruthPoint) : Prop := exists ac, ho !! ac = Some true /\ tp_icao p = import_icao ac.
Record import_ok (sensors : gmap Z Sensor) (st : ImportState) : Prop := {
  io_clients : forall s acc, is_clients st !! s = Some acc -> is_Some (sensors !! s) /\ acc_ok (is_holdout st) acc;
  io_truth : Forall (held_truth (is_holdout st)) (is_truth st)
}.

Lemma good_line_mono ho ho' l : ho ⊆ ho' -> good_line ho l -> good_line ho' l.
Proof.
  intros Hs [(icao & (ac & held & Ha & Hi) & ->)|[(icao & c & h & (ac & alt & f & Ha & Hf) & ->)|(icao & et & em & ot & om & He & Ho & ->)]].
  - left. exists icao. split; [|done]. exists ac, held. split; [by eapply lookup_weaken|done].
  - right; left. exists icao, c, h. split; [|done]. exists ac, alt, f. split; [by eapply lookup_weaken|done].
  - assert (forall odd h, position_hex ho icao odd h -> position_hex ho' icao odd h) as Hp.
    { intros odd h (ac & alt & lat & lon & f & Ha & Hf). exists ac, alt, lat, lon, f. split; [by eapply lookup_weaken|done]. }
    right; right. exists icao, et, em, ot, om. split_and!; [by apply Hp|by apply Hp|done].
Qed.
Lemma acc_ok_mono ho ho' acc : ho ⊆ ho' -> acc_ok ho acc -> acc_ok ho' acc.
Proof.
  intros Hs [Hl Hp]. split.
  - eapply list.Forall_impl; [exact Hl|]. intros tl. by apply good_line_mono.
  - intros icao odd t ns h Hi. destruct (Hp _ _ _ _ _ Hi) as (ac & alt & lat & lon & f & Ha & Hf).
    exists ac, alt, lat, lon, f. split; [by eapply lookup_weaken|done].
Qed.
Lemma acc_ok_push ho t l acc : acc_ok ho acc -> good_line ho l -> acc_ok ho (push_line t l acc).
Proof. intros [Hl Hp] Hg. split; [|done]. cbn. apply list.Forall_app. split; [done|]. by constructor; [|constructor]. Qed.
Lemma acc_ok_announce ho t icao acc : acc_ok ho acc -> known_icao ho icao -> acc_ok ho (announce t icao acc).
Proof. intros [Hl Hp] Hk. unfold announce. case_decide; [done|]. apply acc_ok_push; [by split|]. left. by exists icao. Qed.
Lemma acc_ok_pair ho t icao odd ns h acc : acc_ok ho acc -> position_hex ho icao odd h -> acc_ok ho (pair_frame t icao odd ns h acc).
Proof.
  intros Ha Hh. assert (acc_ok ho (set_pending (<[icao := (odd, t, ns, h)]> (acc_pending acc)) acc)) as Hwait.
  { destruct Ha as [Hl Hp]. split; [done|]. intros i o t' n' h'. cbn. destruct (decide (icao = i)) as [<-|Hi].
    - rewrite lookup_insert_eq. by intros [= <- <- <- <-].
    - rewrite lookup_insert_ne by done. apply Hp. }
  unfold pair_frame. destruct (acc_pending acc !! icao) as [[[[podd pt] pns] phex]|] eqn:Ep; [|done].
  destruct (negb (Bool.eqb podd odd) && _) eqn:E; [|done]. apply andb_true_iff in E as [E _].
  pose proof (ao_pending _ _ Ha _ _ _ _ _ Ep) as Hph. apply acc_ok_push.
  - destruct Ha as [Hl Hp]. split; [done|]. intros i o t' n' h'. cbn. intros [_ Hi]%lookup_delete_Some. by eapply Hp.
  - right; right. exists icao. destruct odd, podd; try done.
    + by exists (wire_counts pns), phex, (wire_counts ns), h.
    + by exists (wire_counts ns), h, (wire_counts pns), phex.
Qed.
(** A frame is a position of an aircraft that is not held out or a reply of one that is. *)
Definition frame_ok (ho : gmap Z bool) (icao : Z) (frame : option bool) (h : string) : Prop :=
  match frame with None => reply_hex ho icao h | Some odd => position_hex ho icao odd h end.
Lemma frame_known ho icao frame h : frame_ok ho icao frame h -> known_icao ho icao.
Proof.
  destruct frame as [odd|]; cbn [frame_ok].
  - intros (ac & alt & lat & lon & f & Ha & Hi & _). by exists ac, false.
  - intros (ac & alt & f & Ha & Hi & _). by exists ac, true.
Qed.
Definition clients_ok (sensors : gmap Z Sensor) (ho : gmap Z bool) (clients : gmap Z ClientAcc) : Prop :=
  forall s acc, clients !! s = Some acc -> is_Some (sensors !! s) /\ acc_ok ho acc.
Lemma measure_ok sensors ho t icao frame h clients m : clients_ok sensors ho clients -> frame_ok ho icao frame h ->
  clients_ok sensors ho (measure sensors t icao frame h clients m).
Proof.
  intros Hc Hf. unfold measure. destruct (sensors !! m.1) as [se|] eqn:Es; [|done]. intros s acc.
  destruct (decide (m.1 = s)) as [<-|Hs]; [|rewrite lookup_insert_ne by done; apply Hc].
  rewrite lookup_insert_eq. intros [= <-]. split; [by rewrite Es|].
  assert (acc_ok ho (default ClientAcc_default (clients !! m.1))) as Ha.
  { destruct (clients !! m.1) as [acc|] eqn:Ec; [by apply (Hc _ _ Ec)|]. split; [constructor|]. intros *. cbn. by rewrite lookup_empty. }
  apply (acc_ok_announce ho t icao) in Ha; [|by eapply frame_known]. destruct frame as [odd|]; [by apply acc_ok_pair|].
  apply acc_ok_push; [done|]. right; left. by exists icao, (wire_counts m.2), h.
Qed.
Lemma measures_ok sensors ho t icao frame h meas clients : clients_ok sensors ho clients -> frame_ok ho icao frame h ->
  clients_ok sensors ho (fold_left (measure sensors t icao frame h) meas clients).
Proof. intros Hc Hf. revert clients Hc. induction meas as [|m meas IH]; intros clients Hc; [done|]. cbn. by apply IH, measure_ok. Qed.
Lemma holdout_of_spec frac ac st : let '(held, ho, _) := holdout_of frac ac st in is_holdout st ⊆ ho /\ ho !! ac = Some held.
Proof.
  unfold holdout_of. destruct (is_holdout st !! ac) as [h|] eqn:E; [done|]. destruct (gen_range _ _ _) as [u rng].
  split; [by apply insert_subseteq|by rewrite lookup_insert_eq].
Qed.
Lemma transmission_ok frac sensors t ac lat lon baro meas st :
  import_ok sensors st -> import_ok sensors (transmission frac sensors t ac lat lon baro meas st).
Proof.
  intros [Hc Ht]. unfold transmission. pose proof (holdout_of_spec frac ac st) as Hs.
  destruct (holdout_of frac ac st) as [[held ho] rng]. destruct Hs as [Hsub Hac].
  assert (clients_ok sensors ho (is_clients st)) as Hc' by (intros s acc Hs; destruct (Hc s acc Hs); split; [done|by eapply acc_ok_mono]).
  set (truth := if held then _ else _). assert (Forall (held_truth ho) truth) as Ht'.
  { assert (Forall (held_truth ho) (is_truth st)) as Hold.
    { eapply list.Forall_impl; [exact Ht|]. intros p (a & Ha & Hp). exists a. split; [by eapply lookup_weaken|done]. }
    unfold truth. destruct held; [|done]. apply list.Forall_app. split; [done|]. constructor; [by exists ac|constructor]. }
  destruct (import_frame _ _ _ _ _ _) as [[frame h]|] eqn:Ef; split; cbn [is_clients is_holdout is_truth]; try done.
  apply measures_ok; [done|]. revert Ef. unfold import_frame. destruct held.
  - destruct (df4 _ _ _) as [f|] eqn:E; [|done]. intros [= <- <-]. by eexists ac, _, f.
  - destruct (df17_airborne_position _ _ _ _ _ _ _) as [f|] eqn:E; [|done]. intros [= <- <-]. by eexists ac, _, lat, lon, f.
Qed.
(** What every transmission keeps, and a row that is only counted, the rows keep. *)
Lemma import_rows_inv (P : ImportState -> Prop) frac duration_s sensors rows st st' :
  (forall t ac lat lon baro meas st, P st -> P (transmission frac sensors t ac lat lon baro meas st)) ->
  (forall st n k, P st -> P {| is_clients := is_clients st; is_truth := is_truth st; is_audibility := is_audibility st; is_holdout := is_holdout st;
    is_parity := is_parity st; is_rng := is_rng st; rows_used := n; rows_no_truth := k |}) ->
  import_rows frac duration_s sensors rows st = inl st' -> P st -> P st'.
Proof.
  intros Htrans Hcount. revert st. induction rows as [|row rows IH]; intros st; cbn [import_rows]; [by intros [= <-]|].
  destruct row as [r|]; [|done]. cbn [need mbind import_bind]. destruct (import_row _ _ _ _ _) as [o|] eqn:Er; [|done]. cbn [mbind import_bind].
  destruct o as [st1|]; [|by intros [= <-]]. intros Hrows Hst. eapply IH; [exact Hrows|]. revert Er. unfold import_row.
  destruct (f64_field 1 r) as [t|]; [|done]. cbn [mbind import_bind]. destruct (t >? _)%f64; [done|].
  destruct (u32_field 2 r) as [ac|]; [|done]. cbn [mbind import_bind]. destruct (field 3 r) as [la|]; [|done]. cbn [mbind import_bind].
  destruct (field 4 r) as [lo|]; [|done]. cbn [mbind import_bind]. destruct (field 5 r) as [ba|]; [|done]. cbn [mbind import_bind].
  destruct (parse_f64 la), (parse_f64 lo), (parse_f64 ba); try (intros [= <-]; by apply Hcount).
  destruct (field 8 r) as [m|]; [|done]. intros [= <-]. destruct (_ <? 2)%nat; [done|]. by apply Htrans.
Qed.
Lemma import_rows_ok frac duration_s sensors rows st st' : import_rows frac duration_s sensors rows st = inl st' ->
  import_ok sensors st -> import_ok sensors st'.
Proof. apply import_rows_inv; [intros; by apply transmission_ok|intros ? ? ? []; by split]. Qed.

(** A client's records: its handshake and then good lines. *)
Definition good_recs (ho : gmap Z bool) (rs : list Rec) : Prop :=
  exists hello rest, rs = hello :: rest /\ kind hello = REC_CONNECT /\
    Forall (fun r => kind r = REC_C2S /\ exists l, good_line ho l /\ payload r = bytes_of (String.append l (char_text NEWLINE))) rest.
Lemma import_recs_good ho s latency acc : acc_ok ho acc -> good_recs ho (import_recs fmt_float s latency acc).
Proof.
  intros [Hl _]. eexists _, _. split; [reflexivity|]. split; [done|]. apply list.Forall_fmap.
  assert (Forall (fun tl => good_line ho tl.2) (stable_sort acc_le (acc_lines acc))) as Hs by (by rewrite stable_sort_perm).
  eapply list.Forall_impl; [exact Hs|]. intros tl Hg. split; [done|]. by exists tl.2.
Qed.
(** No client is without its sensor: the writing never panics. *)
(** The manifest's entries are those of sensors. *)
Definition sensor_entry (sensors : gmap Z Sensor) (e : ClientEntry) : Prop := exists serial s, sensors !! serial = Some s /\ e = import_entry s.
Lemma write_accs_ok ho sensors l rng dir : Forall (fun sa => is_Some (sensors !! sa.1) /\ acc_ok ho sa.2) l ->
  exists cs es, write_accs fmt_float sensors l rng dir = inl (write_clients cs dir, es) /\ Forall (fun c => good_recs ho c.2) cs /\
    ce_id <$> es = cs.*1 /\ length cs = length l /\ Forall (sensor_entry sensors) es.
Proof.
  intros Hl. revert rng dir. induction Hl as [|[serial acc] l [[s Hs] Ha] _ IH]; intros rng dir; [by exists [], []|].
  cbn [write_accs fst snd] in *. rewrite Hs. cbn [need mbind import_bind]. destruct (gen_range _ _ rng) as [latency rng'].
  destruct (IH rng' (finish (client_bytes (s_user s) (import_recs fmt_float s latency acc)) dir)) as (cs & es & E & Hg & Hid & Hlen & Hes).
  exists ((s_user s, import_recs fmt_float s latency acc) :: cs), (import_entry s :: es). unfold client_bytes in E. rewrite E.
  split_and!; [done| |cbn; by rewrite Hid|cbn; by rewrite Hlen|].
  - constructor; [by apply import_recs_good|done].
  - constructor; [by exists serial, s|done].
Qed.

(** What an import writes once its two files are read. *)
Lemma import_written set_csv sensors_csv duration_s frac seed sensors st :
  read_sensors sensors_csv ∅ = inl sensors ->
  import_rows frac duration_s sensors set_csv (ImportState_new seed) = inl st ->
  exists es cs, let text := bytes_of (import_scenario seed duration_s (is_holdout st)) in
    import fmt_float row_json set_csv sensors_csv None duration_s frac seed
      = inl (write_manifest (import_manifest seed duration_s (sha256_hex text) es) (write_clients cs
          (write_audibility row_json (is_audibility st) (write_truth (is_truth st) (put "scenario.toml" text (Some ∅)))))) /\
    ce_id <$> es = cs.*1 /\ length cs = size (is_clients st) /\ Forall (fun c => good_recs (is_holdout st) c.2) cs /\ import_ok sensors st /\
    Forall (sensor_entry sensors) es.
Proof.
  intros Hs Hr. unfold import. rewrite Hs. cbn [mbind import_bind]. rewrite Hr. cbn [mbind import_bind create].
  assert (import_ok sensors (ImportState_new seed)) as H0' by (split; [intros s acc; cbn; by rewrite lookup_empty|constructor]).
  pose proof (import_rows_ok _ _ _ _ _ _ Hr H0') as Hok. unfold write_scenario_toml. set (d1 := write_audibility row_json _ _).
  destruct (write_accs_ok (is_holdout st) sensors (hash_iter (is_clients st)) (rng_for seed "locards/net") d1) as (cs & es & E & Hg & Hid & Hlen & Hes).
  { apply list.Forall_forall. intros [s acc] Hsa%elem_of_hash_iter. by apply (io_clients _ _ Hok). }
  rewrite E. exists es, cs. cbv zeta. split; [reflexivity|]. split_and!; [done| |done|done|done].
  by rewrite Hlen, (Permutation_length (hash_iter_perm _)), length_map_to_list.
Qed.

(** C29: an import never gives the position of a held-out aircraft away: once its two files are
    read the import succeeds, with a stream per sensor that measured anything; every line of a
    stream announces the address of one aircraft of the set, held out or not, is an altitude
    reply of a held-out aircraft, or is a pair of an even and an odd position of one aircraft
    that is not held out; and the truth is of held-out aircraft only. *)
Theorem import_separates set_csv sensors_csv duration_s frac seed sensors st :
  read_sensors sensors_csv ∅ = inl sensors ->
  import_rows frac duration_s sensors set_csv (ImportState_new seed) = inl st ->
  exists m cs d, import fmt_float row_json set_csv sensors_csv None duration_s frac seed
      = inl (write_manifest m (write_clients cs (write_audibility row_json (is_audibility st) (write_truth (is_truth st) d)))) /\
    ce_id <$> m_clients m = cs.*1 /\ length cs = size (is_clients st) /\
    Forall (fun c => good_recs (is_holdout st) c.2) cs /\ Forall (held_truth (is_holdout st)) (is_truth st).
Proof.
  intros Hs Hr. destruct (import_written _ _ _ _ _ _ _ Hs Hr) as (es & cs & E & Hid & Hlen & Hg & Hok & _).
  eexists _, cs, _. split; [exact E|]. split_and!; [exact Hid|exact Hlen|exact Hg|apply (io_truth _ _ Hok)].
Qed.
(** Every aircraft held out has a truth point. *)
Definition held_known (st : ImportState) : Prop := forall ac, is_holdout st !! ac = Some true -> exists p, p ∈ is_truth st /\ tp_icao p = import_icao ac.
Lemma transmission_known frac sensors t ac lat lon baro meas st : held_known st -> held_known (transmission frac sensors t ac lat lon baro meas st).
Proof.
  intros Hk. unfold transmission. destruct (holdout_of frac ac st) as [[held ho] rng] eqn:Eh.
  set (truth := if held then _ else _). assert (forall ac', ho !! ac' = Some true -> exists p, p ∈ truth /\ tp_icao p = import_icao ac') as Hall.
  { intros ac' Ha. assert (is_holdout st !! ac' = Some true \/ (ac' = ac /\ held = true)) as [Hold|[-> ->]].
    - revert Eh. unfold holdout_of. destruct (is_holdout st !! ac) as [h|] eqn:E; [intros [= <- <- _]; by left|].
      destruct (gen_range _ _ _) as [u r]. intros [= <- <- _]. destruct (decide (ac = ac')) as [<-|Hne].
      + rewrite lookup_insert_eq in Ha. injection Ha as ->. by right.
      + rewrite lookup_insert_ne in Ha by done. by left.
    - destruct (Hk _ Hold) as (p & Hp & Ep). exists p. split; [|done]. unfold truth. destruct held; [apply elem_of_app; by left|done].
    - eexists. split; [apply elem_of_app; right; by left|done]. }
  by destruct (import_frame _ _ _ _ _ _) as [[frame h]|].
Qed.
Lemma import_rows_known frac duration_s sensors rows st st' : import_rows frac duration_s sensors rows st = inl st' -> held_known st -> held_known st'.
Proof. apply import_rows_inv; [intros; by apply transmission_known|done]. Qed.
End Separated.

(** ** A short import *)
Section Sample.
#[local] Existing Instance hex_tree.
#[local] Existing Instance rand_script.
#[local] Existing Instance elem_taylor.
#[local] Existing Instance codec_stored.
#[local] Instance holdout_order : HashIter Z bool := hash_iter_list Z bool.
#[local] Instance acc_order : HashIter Z ClientAcc := hash_iter_list Z ClientAcc.
(** Two measurements at two times. *)
#[local] Instance json_meas : Json := json_with (fun l =>
  let at_time t := Some (TArr [TArr [TNum (inl 1); TNum (inl t)]; TArr [TNum (inl 9); TNum (inl (t + 500))]; TArr [TNum (inl 2); TNum (inl (t + 1000))]]) in
  if decide (l = bytes_of "a") then at_time 1000000 else if decide (l = bytes_of "b") then at_time 501000000 else None).
Definition set_rows : list (option (list string)) :=
  [Some ["1"; "1.0"; "7"; "47.1"; "-1.2"; "6000"; ""; "3"; "a"]; Some ["2"; "1.5"; "7"; "47.1"; "-1.2"; "6000"; ""; "3"; "b"];
   Some ["3"; "1.6"; "8"; ""; ""; "6000"; ""; "3"; "b"]; Some ["4"; "99"; "7"; "47.1"; "-1.2"; "6000"; ""; "3"; "b"]]%string.
Definition sensor_rows : list (option (list string)) := [Some ["1"; "47"; "-1"; "30"]; Some ["2"; "47.5"; "-1"; "x"]]%string.
Definition seen7 : string := Eval vm_compute in String.substring 0 7 (seen_line 0).
Definition mlat7 : string := Eval vm_compute in String.substring 0 7 (mlat_line 0 EmptyString).
Definition sync7 : string := Eval vm_compute in String.substring 0 7 (sync_line 0 EmptyString 0 EmptyString).
Definition sample_state (frac : f64) : Import ImportState :=
  sensors ← read_sensors sensor_rows ∅; import_rows frac 60 sensors set_rows (ImportState_new 42).
(** With no aircraft held out the second row pairs the first; with all held out both are replies. *)
Definition lines_of (frac : f64) : list (Z * list string) :=
  match sample_state frac with
  | inl st => (fun sa => (sa.1, (fun tl => String.substring 0 7 tl.2) <$> acc_lines sa.2)) <$> map_to_list (is_clients st)
  | inr _ => []
  end.
Example paired_rows : lines_of fzero = [(2, [seen7; sync7]); (1, [seen7; sync7])].
Proof. vm_compute. reflexivity. Qed.
Example held_rows : lines_of (of_Z 1) = [(2, [seen7; mlat7; mlat7]); (1, [seen7; mlat7; mlat7])].
Proof. vm_compute. reflexivity. Qed.
(** A measuring sensor that the sensor file lacks has no stream, but counts as hearing the aircraft. *)
Example unknown_sensor_hears :
  match sample_state (of_Z 1) with inl st => (row_receivers <$> is_audibility st, size (is_clients st)) | inr _ => ([], O) end
  = ([["os-1"; "os-9"; "os-2"]; ["os-1"; "os-9"; "os-2"]]%string, 2%nat).
Proof. vm_compute. reflexivity. Qed.
Definition no_json (_ : AudibilityRow) : list Z := [].
Lemma import_separates_witness : exists st dir, sample_state (of_Z 1) = inl st /\
  import (fmt_fixed 5) no_json set_rows sensor_rows None 60 (of_Z 1) 42 = inl dir /\ Forall (held_truth (is_holdout st)) (is_truth st).
Proof.
  assert (match read_sensors sensor_rows ∅, sample_state (of_Z 1) with inl _, inl _ => true | _, _ => false end = true) as Hok by (vm_compute; reflexivity).
  destruct (read_sensors sensor_rows ∅) as [sensors|e] eqn:Es; [|discriminate Hok].
  destruct (sample_state (of_Z 1)) as [st|e] eqn:Er; [|discriminate Hok].
  assert (Er' := Er). unfold sample_state in Er'. rewrite Es in Er'. cbn [mbind import_bind] in Er'.
  destruct (import_separates (fmt_fixed 5) no_json set_rows sensor_rows 60 (of_Z 1) 42 sensors st Es Er') as (m & cs & d & E & _ & _ & _ & Ht).
  exists st. eexists. split; [reflexivity|]. split; [exact E|exact Ht].
Defined.
End Sample.
