(* ===== verification/Sampling.v ===== *)
(** * Resource samples of a run (crates/mlat-bench/src/runcmd.rs, sample_proc and sample_resources)

    What is read from the texts of /proc and of the control group; the loops that write the
    samples are in RunCmd. *)
From Stdlib Require Import Ascii.
From S2P Require Import Prelude F64 Text Decimal Results Metrics.
Local Open Scope Z_scope.

(** [split_whitespace]: the non-empty pieces. *)
Fixpoint words_from (cur s : string) : list string :=
  match s with
  | EmptyString => match cur with EmptyString => [] | _ => [cur] end
  | String c s =>
      if is_space c then match cur with EmptyString => words_from EmptyString s | _ => cur :: words_from EmptyString s end
      else words_from (String.append cur (char_text c)) s
  end.
Definition split_whitespace (s : string) : list string := words_from EmptyString s.
(** [national_paren] and [rsplit_once] at it: around its last occurrence. *)
Definition national_paren : string := ") ".
Fixpoint rsplit_paren (s : string) : option (string * string) :=
  match s with
  | EmptyString => None
  | String c s' =>
      match rsplit_paren s' with
      | Some (a, b) => Some (String c a, b)
      | None => if String.prefix national_paren s then Some (EmptyString, String.substring 1 (String.length s' - 1) s') else None
      end
  end.
(** A tick in microseconds, at 100 a second. *)
Definition TICK_USEC : Z := 1000000 / 100.
Definition u64_text (s : string) : option Z := parse_unsigned (2 ^ 64 - 1) s.
(** The processor time in /proc/pid/stat: the 14th and 15th fields. *)
Definition stat_cpu_usec (s : string) : option Z :=
  '(_, rest) ← rsplit_paren s;
  let f := split_whitespace (trim rest) in
  ut ← f !! 11%nat; ut ← u64_text ut;
  st ← f !! 12%nat; st ← u64_text st;
  Some (u64 (u64 (ut + st) * TICK_USEC)).
(** The second word of the first line that starts with a key. *)
Definition keyed_u64 (key s : string) : option Z :=
  l ← head (filter (fun l => String.prefix key l = true) (lines s));
  w ← split_whitespace l !! 1%nat;
  u64_text w.
Definition status_mem_bytes (s : string) : option Z := (fun kb => u64 (kb * 1024)) <$> keyed_u64 "VmRSS:" s.
Definition cgroup_cpu_usec (s : string) : option Z := keyed_u64 "usage_usec" s.
Definition cgroup_mem (s : string) : option Z := u64_text (trim s).
(** A sample of the process: files that cannot be read give nothing. *)
Definition proc_sample (now : f64) (stat status : option string) : ResourceSample :=
  {| rs_t_wall := now; cpu_usec := stat ≫= stat_cpu_usec; mem_bytes := status ≫= status_mem_bytes |}.
Definition cgroup_sample (now : f64) (cpu mem : option string) : ResourceSample :=
  {| rs_t_wall := now; cpu_usec := cpu ≫= cgroup_cpu_usec; mem_bytes := mem ≫= cgroup_mem |}.

(** ** The name of a process cannot confuse the sampler *)
Section Stat.
(** A field: not empty, without white space or closing parenthesis. *)
Definition field_ok (s : string) : Prop := s <> EmptyString /\ sall (fun c => negb (is_space c) && negb (byte_of c =? 41)) s = true.
Definition no_paren (s : string) : Prop := sall (fun c => negb (byte_of c =? 41)) s = true.

Lemma words_from_word cur w s : sall (fun c => negb (is_space c)) w = true ->
  words_from cur (String.append w s) = words_from (String.append cur w) s.
Proof.
  revert cur. induction w as [|c w IH]; intros cur Hw; [by rewrite sapp_nil, sapp_nil_r|]. cbn [sall] in Hw.
  apply andb_true_iff in Hw as [Hc Hw]. rewrite sapp_cons. cbn [words_from]. rewrite (proj1 (negb_true_iff _) Hc), IH by done.
  f_equal. unfold char_text. by rewrite sapp_assoc, sapp_cons, sapp_nil.
Qed.
Lemma words_trim_start s : split_whitespace (trim_start s) = split_whitespace s.
Proof. unfold split_whitespace. induction s as [|c s IH]; [done|]. cbn [trim_start]. destruct (is_space c) eqn:Ec; [|done]. cbn [words_from]. by rewrite Ec. Qed.
Lemma words_spaces cur s : trim_end s = EmptyString -> words_from cur s = words_from cur EmptyString.
Proof.
  revert cur. induction s as [|c s IH]; intros cur; [done|]. cbn [trim_end]. destruct (trim_end s) eqn:E; [|done].
  destruct (is_space c) eqn:Ec; [|done]. intros _. cbn [words_from]. rewrite Ec. destruct cur; by rewrite IH.
Qed.
Lemma words_trim_end cur s : words_from cur (trim_end s) = words_from cur s.
Proof.
  revert cur. induction s as [|c s IH]; intros cur; [done|]. cbn [trim_end]. destruct (trim_end s) as [|d t] eqn:E.
  - destruct (is_space c) eqn:Ec; cbn [words_from]; rewrite Ec; [|by rewrite (words_spaces _ s)].
    destruct cur; by rewrite (words_spaces _ s).
  - cbn [words_from]. destruct (is_space c); [destruct cur|]; by rewrite <- IH.
Qed.
Lemma words_trim s : split_whitespace (trim s) = split_whitespace s.
Proof. unfold trim, split_whitespace. rewrite words_trim_end. apply words_trim_start. Qed.

(** Fields separated by spaces, and what ends the line. *)
Fixpoint joined (fields : list string) (tail : string) : string :=
  match fields with [] => tail | f :: fields => String.append f (String " " (joined fields tail)) end.
Lemma words_joined fields : Forall field_ok fields -> split_whitespace (joined fields EmptyString) = fields.
Proof.
  unfold split_whitespace. induction 1 as [|f fields [Hne Hf] _ IH]; [done|]. cbn [joined]. rewrite words_from_word.
  - rewrite sapp_nil. cbn [words_from]. change (is_space " ") with true. cbv iota. rewrite IH. by destruct f.
  - clear Hne. induction f as [|c f IHf]; [done|]. cbn [sall] in *. apply andb_true_iff in Hf as [Hc Hf]. apply andb_true_iff in Hc as [Hc _].
    by rewrite Hc, IHf.
Qed.
Lemma joined_no_paren fields : Forall field_ok fields -> no_paren (joined fields EmptyString).
Proof.
  induction 1 as [|f fields [_ Hf] _ IH]; [done|]. cbn [joined]. unfold no_paren in *. rewrite sall_app.
  apply andb_true_iff. split; [|done]. clear IH. induction f as [|c f IHf]; [done|]. cbn [sall] in *.
  apply andb_true_iff in Hf as [Hc Hf]. apply andb_true_iff in Hc as [_ Hc]. by rewrite Hc, IHf.
Qed.
Lemma rsplit_none s : no_paren s -> rsplit_paren s = None.
Proof.
  unfold no_paren. induction s as [|c s IH]; [done|]. cbn [sall rsplit_paren]. intros [Hc Hs]%andb_true_iff. rewrite IH by done.
  unfold national_paren. cbn [String.prefix]. destruct (ascii_dec ")" c) as [<-|]; [done|done].
Qed.
Lemma substring_whole b : String.substring 0 (String.length b) b = b.
Proof. induction b as [|c b IH]; [done|]. cbn. by rewrite IH. Qed.
Lemma rsplit_last a b : no_paren b -> rsplit_paren (String.append a (String.append national_paren b)) = Some (a, b).
Proof.
  intros Hb. induction a as [|c a IH].
  - rewrite sapp_nil. unfold national_paren at 1. rewrite !sapp_cons, sapp_nil. cbn [rsplit_paren].
    rewrite rsplit_none by done. change (String.prefix national_paren (String " " b)) with false. cbv iota.
    assert (String.prefix national_paren (String ")" (String " " b)) = true) as -> by (by destruct b). do 2 f_equal.
    cbn [String.length Nat.sub String.substring]. rewrite Nat.sub_0_r. apply substring_whole.
  - rewrite sapp_cons. cbn [rsplit_paren]. by rewrite IH.
Qed.

(** A process's name cannot confuse the sampler: whatever characters it has, parentheses and
    spaces included, the processor time read from its line in /proc is the sum of the 12th
    and 13th fields after the name, in microseconds; without them there is no sample. *)
Theorem stat_cpu_of_fields (pid comm : string) (fields : list string) : Forall field_ok fields ->
  stat_cpu_usec (sconcat [pid; " ("; comm; ") "; joined fields EmptyString])
  = match fields !! 11%nat ≫= u64_text, fields !! 12%nat ≫= u64_text with
    | Some ut, Some st => Some (u64 (u64 (ut + st) * 10000))
    | _, _ => None
    end.
Proof.
  intros Hf. unfold stat_cpu_usec.
  assert (sconcat [pid; " ("; comm; ") "; joined fields EmptyString]%string
    = String.append (sconcat [pid; " ("; comm]%string) (String.append national_paren (joined fields EmptyString))) as ->.
  { cbn [sconcat]. by rewrite !sapp_assoc, sapp_nil_r, !sapp_nil. }
  rewrite rsplit_last by (by apply joined_no_paren). cbn [mbind option_bind]. rewrite words_trim, words_joined by done.
  destruct (fields !! 11%nat) as [a|]; [|done]. cbn [mbind option_bind]. destruct (u64_text a) as [ut|]; [|done]. cbn [mbind option_bind].
  destruct (fields !! 12%nat) as [b|]; [|done]. cbn [mbind option_bind]. by destruct (u64_text b).
Qed.
End Stat.

(** ** A sample *)
Section Sample.
Definition stat_fields : list string :=
  ["S"; "1"; "4711"; "4711"; "0"; "-1"; "4194560"; "25"; "0"; "0"; "0"; "150"; "20"; "0"]%string.
Lemma stat_cpu_of_fields_witness :
  stat_cpu_usec (sconcat ["4711"; " ("; "a) b (c) "; ") "; joined stat_fields EmptyString])%string = Some 1700000.
Proof.
  rewrite (stat_cpu_of_fields "4711" "a) b (c) " stat_fields); [vm_compute; reflexivity|].
  repeat (constructor; [split; [discriminate|reflexivity]|]). constructor.
Defined.
Example cgroup_texts :
  proc_sample fzero None (Some (sconcat ["Name:	x"; char_text NEWLINE; "VmRSS:	  2048 kB"; char_text NEWLINE]%string))
  = {| rs_t_wall := fzero; cpu_usec := None; mem_bytes := Some 2097152 |}
  /\ cgroup_sample fzero (Some (sconcat ["usage_usec 77"; char_text NEWLINE; "user_usec 5"]%string)) (Some (sconcat [" 4096"; char_text NEWLINE]%string))
     = {| rs_t_wall := fzero; cpu_usec := Some 77; mem_bytes := Some 4096 |}.
Proof. split; vm_compute; reflexivity. Qed.
End Sample.
