(* ===== verification/ScoreCmd.v ===== *)
(** * Scoring a run (crates/mlat-bench/src/scorecmd.rs)

    What the score command reads from a run and its capture, and hands to the scorer.  The
    texts of the run's files are arguments; the report and the comparison of two runs are
    [Report]. *)
From S2P Require Import Prelude F64 Num Text Decimal Results Geo Metrics Proto Framing Capture Replay Trajectory SimClock Scenario Gen GenCmd.
Local Open Scope Z_scope.

Section Code.
Context `{Codec, Json, Elem f64, !HashIter Z (list Z), Rand}.
Context (toml_parse : list Z -> option Scenario).

Inductive ScoreError := ScoreNoStart | ScoreNoAnchor | ScoreCapture (e : CaptureError) | ScoreScenario.
(** [a.first()?.as_f64()?, a.get(1)?.as_f64()?] of the anchor. *)
Definition run_anchor (run : Value) : option (f64 * f64) :=
  v ← jget run "hb_anchor"; a ← as_array v; x ← a !! 0%nat; r ← as_f64 x; y ← a !! 1%nat; h ← as_f64 y; Some (r, h).
(** The start of the run in the clock of the results. *)
Definition run_wall_t0 (run : Value) : f64 + ScoreError :=
  match jget run "wall_t0" ≫= as_f64 with
  | None => inr ScoreNoStart
  | Some wall_t0 =>
      match score_wall_t0 (run_anchor run) (default (of_Z 1) (jget run "speed" ≫= as_f64)) wall_t0 with
      | Some t => inl t
      | None => inr ScoreNoAnchor
      end
  end.
Definition audibility_second (v : Value) : option AudibilitySecond :=
  t ← jget v "t_s"; t_s ← as_u64 t; i ← jget v "icao"; icao ← as_u64 i; r ← jget v "receivers"; l ← as_array r;
  Some {| au_t_s := t_s; au_icao := u32 icao; au_n_receivers := length l |}.
Definition is_modes_only (a : AircraftSpec) : bool := match a_kind a with KindModesOnly => true | KindAdsb => false end.
(** The addresses of the aircraft to be located, and of those that only exist. *)
Definition mlat_targets (sc : Scenario) : gset Z :=
  list_to_set (omap (fun a => from_hex (a_icao a)) (filter (fun a => is_modes_only a = true) (aircraft sc))).
Definition known_untruthed (sc : Scenario) : gset Z :=
  list_to_set (omap (fun a => from_hex (a_icao a)) (filter (fun a => is_modes_only a = false) (aircraft sc))).
Definition resource_line (l : string) : option ResourceSample :=
  v ← from_slice (bytes_of l); tv ← jget v "t"; t ← as_f64 tv;
  Some {| rs_t_wall := t; cpu_usec := jget v "cpu_usec" ≫= as_u64; mem_bytes := jget v "mem_bytes" ≫= as_u64 |}.
Definition score_cmd (run : Value) (dir : Dir) (csv resource_log : option string) : Metrics + ScoreError :=
  match run_wall_t0 run with
  | inr e => inr e
  | inl wall_t0 =>
      match open dir with
      | inr e => inr (ScoreCapture e)
      | inl _ =>
          match Capture.truth dir with
          | inr e => inr (ScoreCapture e)
          | inl points =>
              match audibility_raw from_slice dir with
              | inr e => inr (ScoreCapture e)
              | inl rows =>
                  match scenario_toml dir with
                  | inr e => inr (ScoreCapture e)
                  | inl text =>
                      match from_toml toml_parse text with
                      | None => inr ScoreScenario
                      | Some sc =>
                          inl (score (build points) (parse_results_csv (default EmptyString csv)) wall_t0 (omap audibility_second rows)
                                 (mlat_targets sc) (known_untruthed sc) (omap resource_line (lines (default EmptyString resource_log))))
                      end
                  end
              end
          end
      end
  end.

(** The self-truth summary: the number of errors and three quantiles, if there is any. *)
Definition self_truth_errors (text : string) : list f64 :=
  sort_total (omap (fun l => f ← split_on COMMA l !! 2%nat; parse_f64 f) (lines text)).
Definition self_truth_summary (text : string) : option (nat * f64 * f64 * f64) :=
  match self_truth_errors text with
  | [] => None
  | errs => Some (length errs, quantile errs (lit 5 10), quantile errs (lit 9 10), quantile errs (lit 99 100))
  end.
(** [diff]: a number at a path of keys in a run's metrics. *)
Definition metric_at (m : Value) (path : list string) : option f64 :=
  v ← foldl (fun v k => v ≫= (fun v => jget v k)) (Some m) path; as_f64 v.
End Code.

(** ** Scoring a generated capture *)
Section Generated.
Context `{Codec, !CodecLaws, Json, Hex, Flate, Rand, Elem f64, Ln f64, !HashIter Z (list Z)}.
Context (msg_line : ClientMsg -> list Z) (hs_line : Handshake -> list Z) (program : string).
Context (toml_parse : list Z -> option Scenario) (row_json : AudibilityRow -> list Z).
(** An audibility row is one line of JSON that reads back as its second. *)
Definition row_second (r : AudibilityRow) : AudibilitySecond :=
  {| au_t_s := row_t_s r; au_icao := row_icao r; au_n_receivers := length (row_receivers r) |}.
Definition row_reads (r : AudibilityRow) : Prop :=
  one_line (row_json r) /\ exists v, from_slice (row_json r) = Some v /\ audibility_second v = Some (row_second r).

Lemma generate_truth fuel sc cap : generate msg_line hs_line program fuel sc = inl cap ->
  Gen.truth cap = aircraft sc ≫= (fun ac => truth_of ac (default 0 (from_hex (a_icao ac))) <$> seconds sc) /\
  Forall (fun a => is_Some (from_hex (a_icao a))) (aircraft sc).
Proof.
  unfold generate. destruct (validate sc) eqn:Ev; [done|]. destruct (gen_each _ (aircraft sc)) as [em|]; [|done]. cbn [mbind gen_bind].
  destruct (gen_each _ (receivers sc)) as [cs|]; [|done]. intros [= <-]. split; [done|]. by apply validate_iff in Ev as (_ & _ & _ & _ & ? & _).
Qed.
(** An aircraft of the scenario. *)
Definition flies (sc : Scenario) (icao : Z) : Prop := exists a, a ∈ aircraft sc /\ from_hex (a_icao a) = Some icao.
Lemma truth_of_flying fuel sc cap icao : generate msg_line hs_line program fuel sc = inl cap -> 1 <= duration_s (meta sc) ->
  is_Some (build (Gen.truth cap) !! icao) <-> flies sc icao.
Proof.
  intros Hg Hd. destruct (generate_truth _ _ _ Hg) as [-> Hhex]. rewrite truth_points. split.
  - intros (p & (a & (t & -> & _)%list_elem_of_fmap & Ha)%list_elem_of_bind & Hp).
    exists a. split; [done|]. rewrite list.Forall_forall in Hhex. destruct (Hhex a Ha) as [i Ei]. rewrite Ei in Hp. cbn in Hp. by subst i.
  - intros (a & Ha & Ei). eexists. split; [apply list_elem_of_bind; exists a; split; [|exact Ha]; apply list_elem_of_fmap; exists 0; split; [done|]|].
    + unfold seconds. apply elem_of_seqZ. lia.
    + cbn. by rewrite Ei.
Qed.
Lemma untruthed_flies sc icao : icao ∈ known_untruthed sc -> flies sc icao.
Proof.
  unfold known_untruthed. intros (a & Ha & Ei)%elem_of_list_to_set%list_elem_of_omap. apply list_elem_of_filter in Ha as [_ Ha]. by exists a.
Qed.
(** The rows of aircraft that are not in the scenario. *)
Definition strangers (sc : Scenario) (rows : list CsvRow) : nat :=
  length (filter (fun r => Forall (fun a => from_hex (a_icao a) <> Some (cr_icao r)) (aircraft sc)) rows).

(** The unknown ghosts are the rows of addresses without truth that are not known either. *)
Lemma unknown_ghosts truth rows t0 aud targets known samples : ghosts_unknown_icao (score truth rows t0 aud targets known samples)
  = length (filter (fun r => ~ (is_Some (truth !! cr_icao r) \/ cr_icao r ∈ known)) rows).
Proof.
  unfold score. destruct (tally_spec truth t0 known rows) as [_ _ Hunk _ _ _ _ _ _].
  destruct (fold_left _ _ _) as [secs pa]. cbn [ghosts_unknown_icao]. rewrite Hunk. unfold count. f_equal.
  apply list_filter_iff. intros r. unfold verdict. case_decide as Hk.
  - destruct (pos_at _ _ _) as [tp|]; [destruct (_ >? _)%f64|]; (split; [done|intros Hn; destruct Hn; by left]).
  - case_decide as Hu; [split; [done|intros Hn; destruct Hn; by right]|]. split; [by intros _ [?|?]|done].
Qed.
(** The audible seconds that are read back are those that were written. *)
Lemma rows_read (l : list AudibilityRow) dir : file "audibility.jsonl.zst" dir = inl (zstd (json_lines row_json l)) -> Forall row_reads l ->
  exists vs, audibility_raw from_slice dir = inl vs /\ omap audibility_second vs = row_second <$> l.
Proof.
  intros Hfile Hrows. unfold audibility_raw, read_json_lines. rewrite Hfile. cbv zeta. rewrite unzstd_zstd. assert (exists g : AudibilityRow -> Value, forall r, r ∈ l -> one_line (row_json r) /\ from_slice (row_json r) = Some (g r) /\
    audibility_second (g r) = Some (row_second r)) as [g Hg].
  { exists (fun r => default (vbool false) (from_slice (row_json r))). intros r Hr. rewrite list.Forall_forall in Hrows.
    destruct (Hrows r Hr) as (Hl & v & Ev & Es). by rewrite Ev. }
  exists (g <$> l). split; [apply parse_json_values; [|apply json_lines_length]; intros r Hr; by destruct (Hg r Hr) as (? & ? & _)|].
  clear - Hg. induction l as [|r l IH]; [done|]. cbn [fmap list_fmap omap list_omap].
  destruct (Hg r ltac:(by left)) as (_ & _ & ->). f_equal. apply IH. intros r' Hr'. apply Hg. by right.
Qed.

(** A run on a generated capture is scored against what was generated: the truth, its floats
    as JSON gives them back, the audible seconds and the targets, with the run's anchored start; and an aircraft of the
    scenario is never taken for a ghost: the unknown ghosts are exactly the rows of addresses
    that the scenario does not have. *)
Theorem generated_run_scored fuel text sc cap points m' dir run t0 csv log :
  from_toml toml_parse text = Some sc -> generate msg_line hs_line program fuel sc = inl cap ->
  gen_cmd msg_line hs_line program toml_parse row_json fuel text None = inl dir ->
  Forall sized (clients cap) -> mapM reread_point (Gen.truth cap) = Some points ->
  Forall row_reads (audibility cap) ->
  let m := gen_manifest sc (sha256_hex text) (zip_with gen_entry (clients cap) (receivers sc)) in
  reread_manifest m = Some m' -> 1 <= duration_s (meta sc) -> run_wall_t0 run = inl t0 ->
  let rows := parse_results_csv (default EmptyString csv) in
  let scored := score (build points) rows t0 (row_second <$> audibility cap) (mlat_targets sc) (known_untruthed sc)
                  (omap resource_line (lines (default EmptyString log))) in
  score_cmd toml_parse run dir csv log = inl scored /\ ghosts_unknown_icao scored = strangers sc rows.
Proof.
  intros Hsc Hcap Hdir Hsz Htr Hrows m Hm Hdur Hrun rows scored.
  destruct (gen_cmd_contents msg_line hs_line program toml_parse row_json fuel text sc cap points m' dir Hsc Hcap Hdir Hsz Htr Hm)
    as (Ho & Htoml & Htruth & Haud & _). split.
  - unfold score_cmd. rewrite Hrun, Ho, Htruth, Htoml, Hsc.
    destruct (rows_read _ _ Haud Hrows) as (vs & -> & Evs). by rewrite Evs.
  - unfold scored. rewrite unknown_ghosts. unfold strangers. f_equal. apply list_filter_iff. intros r.
    pose proof (truth_of_flying fuel sc cap (cr_icao r) Hcap Hdur) as Hfly. rewrite <- (truth_reread _ _ _ Htr) in Hfly. pose proof (untruthed_flies sc (cr_icao r)) as Hu.
    assert (flies sc (cr_icao r) -> is_Some (build points !! cr_icao r) \/ cr_icao r ∈ known_untruthed sc) as Hf by (intros Hf; left; by apply Hfly).
    rewrite list.Forall_forall. unfold flies in *. naive_solver.
Qed.
End Generated.

(** ** A scored run *)
Section Sample.
Definition one_value : Tree :=
  TObj [("t_s", TNum (inl 0)); ("icao", TNum (inl 0x3C6444)); ("receivers", TArr [TStr "rx-000"])]%string.
Definition beat : Tree := TObj [("heartbeat", TObj [("server_time", TNum (inl 5003))])]%string.
#[local] Instance json_scored : Json := json_with (fun l => if decide (l = [82]) then Some one_value else if decide (l = [72]) then Some beat else None).
#[local] Existing Instance hex_tree.
#[local] Existing Instance flate_stored.
#[local] Existing Instance rand_script.
#[local] Existing Instance elem_taylor.
#[local] Existing Instance ln_taylor.
#[local] Existing Instance codec_stored.
#[local] Existing Instance codec_stored_laws.
#[local] Instance seconds_order : HashIter Z (list Z) := hash_iter_list Z (list Z).
Definition text_of (m : ClientMsg) : list Z := match m with Sync _ _ _ _ => [83; 10] | _ => [65; 10] end.
Definition one_row (_ : AudibilityRow) : list Z := [82].
(** A run at four times the speed, with its anchor, and one at that speed without. *)
Definition fast_run : Value :=
  TObj [("wall_t0", TNum (inl 1000)); ("speed", TNum (inl 4)); ("hb_anchor", TArr [TNum (inl 1001); TNum (inl 5003)])]%string.
Definition adrift_run : Value := TObj [("wall_t0", TNum (inl 1000)); ("speed", TNum (inl 4))]%string.
(** A stranger, an aircraft of the scenario, and a line that is no row. *)
Definition csv_text : string :=
  sconcat ["4999.5,abcdef,,,47.0,-1.0,20000,85.2,5,5"; char_text NEWLINE; "4999.5,3c6444,,,47.0,-1.0,20000,85.2,5,5"; char_text NEWLINE; "x"]%string.
Example anchored_start : run_wall_t0 fast_run = inl (of_Z 4999) /\ run_wall_t0 adrift_run = inr ScoreNoAnchor.
Proof. split; vm_compute; reflexivity. Qed.
Example self_truth_quantiles :
  (fun s => (s.1.1.1, s.1.1.2)) <$> self_truth_summary (sconcat ["1,a,30"; char_text NEWLINE; "1,a,10,2"; char_text NEWLINE; "1,a"; char_text NEWLINE; "1,a,20"]%string)
  = Some (3%nat, of_Z 20).
Proof. vm_compute. reflexivity. Qed.
Lemma generated_run_scored_witness : exists dir scored, gen_cmd text_of hello_of "p" second_of one_row 20 [] None = inl dir /\
  score_cmd second_of fast_run dir (Some csv_text) None = inl scored /\ ghosts_unknown_icao scored = 1%nat.
Proof.
  assert (match gen_cmd text_of hello_of "p" second_of one_row 20 [] None with inl _ => true | inr _ => false end = true) as Hd by (vm_compute; reflexivity).
  destruct (gen_cmd text_of hello_of "p" second_of one_row 20 [] None) as [dir|e] eqn:Ed; [|discriminate Hd].
  destruct (generated_run_scored text_of hello_of "p" second_of one_row 20 [] second second_capture second_points second_read dir fast_run (of_Z 4999) (Some csv_text) None) as [E En].
  - reflexivity.
  - vm_compute. reflexivity.
  - exact Ed.
  - apply (bool_decide_unpack _). vm_compute. reflexivity.
  - vm_compute. reflexivity.
  - constructor; [|constructor]. split; [split_and!; [reflexivity|reflexivity|discriminate]|].
    exists one_value. split; vm_compute; reflexivity.
  - vm_compute. reflexivity.
  - vm_compute. discriminate.
  - vm_compute. reflexivity.
  - exists dir. eexists. split; [reflexivity|]. split; [exact E|]. rewrite En. vm_compute. reflexivity.
Defined.
End Sample.
