(* ===== verification/ScenarioToml.v ===== *)
(** * Scenario files (crates/mb-sim/src/scenario.rs: the fields and their serde attributes)

    What a TOML document says as a scenario: which fields are required, the defaults of the
    others, the names of the variants.  The parser of documents and the reading of numbers,
    strings and arrays are an interface.  The scenario that import-locards writes is read back,
    and a score of the imported capture looks for exactly the aircraft that were held out. *)
From Stdlib Require Import Ascii.
From S2P Require Import Prelude F64 Num Text Decimal Wire Results Metrics Geo Proto Framing Capture Replay Trajectory SimClock Scenario.
From S2P Require Import Gen GenCmd Locards ScoreCmd.
Local Open Scope Z_scope.

(** ** The toml crate and the primitive types of serde *)
Class Toml := {
  TValue : Type;
  document : list Z -> option TValue;                    (** the document of a text *)
  as_struct : list string -> TValue -> option (string -> option TValue);  (** a struct of these fields: those that are there *)
  as_tagged : string -> TValue -> option (string * TValue);               (** the tag of a variant, and its fields *)
  as_unit_variant : TValue -> option string;
  de_f64 : TValue -> option f64;
  de_u64 : TValue -> option Z;
  de_u32 : TValue -> option Z;
  de_bool : TValue -> option bool;
  de_string : TValue -> option string;
  de_vec : TValue -> option (list TValue);
  de_array : nat -> TValue -> option (list TValue)       (** an array of this length *)
}.

(** ** Reading a scenario *)
Section Read.
Context `{Toml}.
Abbreviation Fields := (string -> option TValue).
Definition required {A} (get : Fields) (k : string) (de : TValue -> option A) : option A := v ← get k; de v.
(** [#[serde(default)]]. *)
Definition defaulted {A} (get : Fields) (k : string) (de : TValue -> option A) (d : A) : option A := match get k with Some v => de v | None => Some d end.
Definition optional {A} (get : Fields) (k : string) (de : TValue -> option A) : option (option A) := defaulted get k (fun v => Some <$> de v) None.
Definition de_list {A} (de : TValue -> option A) (v : TValue) : option (list A) := l ← de_vec v; mapM de l.

Definition default_gps_fraction : f64 := lit 1 10.
Definition de_generate_spec (v : TValue) : option GenerateSpec :=
  get ← as_struct ["receivers"; "aircraft_adsb"; "aircraft_modes"; "center"; "radius_km"; "gps_fraction"]%string v;
  rxs ← required get "receivers" de_u32; adsb ← required get "aircraft_adsb" de_u32; modes ← required get "aircraft_modes" de_u32;
  center ← required get "center" (fun v => l ← de_array 2 v; mapM de_f64 l); radius ← required get "radius_km" de_f64;
  gps ← defaulted get "gps_fraction" de_f64 default_gps_fraction;
  match center with
  | [lat; lon] => Some {| g_receivers := rxs; g_aircraft_adsb := adsb; g_aircraft_modes := modes; g_center := (lat, lon); g_radius_km := radius; g_gps_fraction := gps |}
  | _ => None
  end.
Definition de_meta (v : TValue) : option Meta :=
  get ← as_struct ["name"; "seed"; "duration_s"]%string v;
  n ← required get "name" de_string; s ← required get "seed" de_u64; d ← required get "duration_s" de_u64;
  Some {| name := n; seed := s; duration_s := d |}.
Definition Network_default : Network := {| latency_ms_min := of_Z 5; latency_ms_max := of_Z 40; jitter_ms := fzero |}.
Definition de_network (v : TValue) : option Network :=
  get ← as_struct ["latency_ms_min"; "latency_ms_max"; "jitter_ms"]%string v;
  lo ← required get "latency_ms_min" de_f64; hi ← required get "latency_ms_max" de_f64; j ← defaulted get "jitter_ms" de_f64 fzero;
  Some {| latency_ms_min := lo; latency_ms_max := hi; jitter_ms := j |}.
Definition default_jitter_dump1090 : f64 := of_Z 40.
Definition default_jitter_gps : f64 := of_Z 10.
Definition de_clock (v : TValue) : option ClockSpec :=
  '(tag, v) ← as_tagged "type" v;
  if (tag =? "dump1090")%string then
    get ← as_struct ["offset_ppm"; "drift_ppm_per_hr"; "jitter_ns"; "start_count"; "wander_ppm_sqrt_hr"; "jump_prob_per_min"]%string v;
    offset ← defaulted get "offset_ppm" de_f64 fzero; drift ← defaulted get "drift_ppm_per_hr" de_f64 fzero;
    jitter ← defaulted get "jitter_ns" de_f64 default_jitter_dump1090; start ← defaulted get "start_count" de_u64 0;
    wander ← defaulted get "wander_ppm_sqrt_hr" de_f64 fzero; jump ← defaulted get "jump_prob_per_min" de_f64 fzero;
    Some (SpecDump1090 offset drift jitter start wander jump)
  else if (tag =? "radarcape_gps")%string then
    get ← as_struct ["jitter_ns"]%string v;
    jitter ← defaulted get "jitter_ns" de_f64 default_jitter_gps;
    Some (SpecRadarcapeGps jitter)
  else None.
Definition default_loss : f64 := lit 2 100.
Definition default_compress : string := "none".
Definition de_receiver (v : TValue) : option ReceiverSpec :=
  get ← as_struct ["id"; "lat"; "lon"; "alt_m"; "clock"; "loss_prob"; "max_range_km"; "reported_pos_error_m"; "multipath_prob"; "compress"]%string v;
  id ← required get "id" de_string; lat ← required get "lat" de_f64; lon ← required get "lon" de_f64; alt ← required get "alt_m" de_f64;
  clock ← required get "clock" de_clock; loss ← defaulted get "loss_prob" de_f64 default_loss; range ← optional get "max_range_km" de_f64;
  err ← defaulted get "reported_pos_error_m" de_f64 fzero; mp ← defaulted get "multipath_prob" de_f64 fzero;
  compress ← defaulted get "compress" de_string default_compress;
  Some {| r_id := id; r_lat := lat; r_lon := lon; r_alt_m := alt; r_clock := clock; loss_prob := loss; max_range_km := range;
          reported_pos_error_m := err; multipath_prob := mp; r_compress := compress |}.
Definition de_kind (v : TValue) : option AircraftKind :=
  n ← as_unit_variant v;
  if (n =? "adsb")%string then Some KindAdsb else if (n =? "modes_only")%string then Some KindModesOnly else None.
(** [[lat_deg, lon_deg, alt_ft]]. *)
Definition de_waypoint (v : TValue) : option (Waypoint f64) :=
  l ← de_array 3 v; l ← mapM de_f64 l;
  match l with [lat; lon; alt] => Some (mkWaypoint lat lon alt) | _ => None end.
Definition de_trajectory (v : TValue) : option (Trajectory f64) :=
  '(tag, v) ← as_tagged "type" v;
  if (tag =? "great_circle")%string then
    get ← as_struct ["from"; "to"; "gs_kts"]%string v;
    from ← required get "from" de_waypoint; to ← required get "to" de_waypoint; gs ← required get "gs_kts" de_f64;
    Some (GreatCircle from to gs)
  else if (tag =? "orbit")%string then
    get ← as_struct ["center"; "radius_m"; "gs_kts"; "clockwise"]%string v;
    center ← required get "center" de_waypoint; radius ← required get "radius_m" de_f64; gs ← required get "gs_kts" de_f64;
    cw ← defaulted get "clockwise" de_bool false;
    Some (Orbit center radius gs cw)
  else None.
Definition default_pos_rate : f64 := of_Z 2.
Definition default_df11_rate : f64 := of_Z 1.
Definition default_df4_rate : f64 := of_Z 4.
Definition de_aircraft (v : TValue) : option AircraftSpec :=
  get ← as_struct ["icao"; "kind"; "traj"; "pos_rate_hz"; "df11_rate_hz"; "df4_rate_hz"; "nav_error_m"]%string v;
  icao ← required get "icao" de_string; k ← required get "kind" de_kind; traj ← required get "traj" de_trajectory;
  pos ← defaulted get "pos_rate_hz" de_f64 default_pos_rate; df11 ← defaulted get "df11_rate_hz" de_f64 default_df11_rate;
  df4 ← defaulted get "df4_rate_hz" de_f64 default_df4_rate; nav ← defaulted get "nav_error_m" de_f64 fzero;
  Some {| a_icao := icao; a_kind := k; a_traj := traj; pos_rate_hz := pos; df11_rate_hz := df11; df4_rate_hz := df4; nav_error_m := nav |}.
Definition de_scenario (v : TValue) : option Scenario :=
  get ← as_struct ["meta"; "network"; "generate"; "receivers"; "aircraft"]%string v;
  m ← required get "meta" de_meta; net ← defaulted get "network" de_network Network_default;
  g ← optional get "generate" de_generate_spec; rxs ← defaulted get "receivers" (de_list de_receiver) [];
  acs ← defaulted get "aircraft" (de_list de_aircraft) [];
  Some {| meta := m; network := net; generate_spec := g; receivers := rxs; aircraft := acs |}.
(** [toml::from_str]. *)
Definition read_scenario (text : list Z) : option Scenario := v ← document text; de_scenario v.
End Read.

(** ** Documents: the values the crate makes of their text *)
Class TomlWrite `{Toml} := {
  t_int : Z -> TValue; t_str : string -> TValue; t_arr : list TValue -> TValue; t_table : list (string * TValue) -> TValue
}.
(** The value of a key. *)
Fixpoint entry {A} (l : list (string * A)) (k : string) : option A :=
  match l with [] => None | (k', v) :: l => if (k' =? k)%string then Some v else entry l k end.
(** An integer is a signed 64-bit one, and stands for a float where one is wanted. *)
Class TomlLaws `{TomlWrite} := {
  struct_table names l : NoDup l.*1 -> exists get, as_struct names (t_table l) = Some get /\ forall k, k ∈ names -> get k = entry l k;
  tagged_table tag n l : NoDup (tag :: l.*1) -> as_tagged tag (t_table ((tag, t_str n) :: l)) = Some (n, t_table l);
  unit_variant_str n : as_unit_variant (t_str n) = Some n;
  f64_int z : - 2 ^ 63 <= z < 2 ^ 63 -> de_f64 (t_int z) = Some (of_Z z);
  u64_int z : 0 <= z < 2 ^ 63 -> de_u64 (t_int z) = Some z;
  string_str s : de_string (t_str s) = Some s;
  vec_arr l : de_vec (t_arr l) = Some l;
  array_arr l : de_array (length l) (t_arr l) = Some l
}.

(** ** The scenario of an import *)
Section Imported.
Context `{TomlLaws}.

(** The document import-locards writes. *)
Definition target_value (ah : Z * bool) : TValue :=
  t_table [("icao", t_str (to_uppercase (to_hex (import_icao ah.1)))); ("kind", t_str (if ah.2 then "modes_only" else "adsb"));
    ("traj", t_table [("type", t_str "great_circle"); ("from", t_arr [t_int 0; t_int 0; t_int 10000]); ("to", t_arr [t_int 0; t_int 1; t_int 10000]);
      ("gs_kts", t_int 400)])]%string.
Definition import_value (seed duration_s : Z) (holdout : list (Z * bool)) : TValue :=
  t_table ((("meta", t_table [("name", t_str "locards"); ("seed", t_int seed); ("duration_s", t_int duration_s)]) ::
    match holdout with [] => [] | _ => [("aircraft", t_arr (target_value <$> holdout))] end)%string).
(** And what it means. *)
Definition target (ah : Z * bool) : AircraftSpec :=
  {| a_icao := to_uppercase (to_hex (import_icao ah.1)); a_kind := if ah.2 then KindModesOnly else KindAdsb;
     a_traj := GreatCircle (mkWaypoint (of_Z 0) (of_Z 0) (of_Z 10000)) (mkWaypoint (of_Z 0) (of_Z 1) (of_Z 10000)) (of_Z 400);
     pos_rate_hz := default_pos_rate; df11_rate_hz := default_df11_rate; df4_rate_hz := default_df4_rate; nav_error_m := fzero |}.
Definition imported (seed duration_s : Z) (holdout : list (Z * bool)) : Scenario :=
  {| meta := {| name := "locards"; Scenario.seed := seed; duration_s := duration_s |}; network := Network_default; generate_spec := None;
     receivers := []; aircraft := target <$> holdout |}.

#[local] Ltac keys := apply (bool_decide_unpack _); vm_compute; reflexivity.
(** Read the fields of a table one by one. *)
#[local] Ltac table names l :=
  let get := fresh "get" in let E := fresh in let Hget := fresh "Hget" in
  destruct (struct_table names l) as (get & E & Hget); [keys|]; rewrite E; cbn [mbind option_bind];
  unfold optional, required, defaulted; rewrite !Hget by keys; clear E Hget; cbn [entry String.eqb Ascii.eqb Bool.eqb mbind option_bind].
Lemma waypoint_read a b c : - 2 ^ 63 <= a < 2 ^ 63 -> - 2 ^ 63 <= b < 2 ^ 63 -> - 2 ^ 63 <= c < 2 ^ 63 ->
  de_waypoint (t_arr [t_int a; t_int b; t_int c]) = Some (mkWaypoint (of_Z a) (of_Z b) (of_Z c)).
Proof.
  intros Ha Hb Hc. unfold de_waypoint. rewrite (array_arr [t_int a; t_int b; t_int c]). cbn [mbind option_bind mapM].
  by rewrite !f64_int by done.
Qed.
Lemma target_read ah : de_aircraft (target_value ah) = Some (target ah).
Proof.
  unfold de_aircraft, target_value.
  match goal with |- context [as_struct ?n (t_table ?l)] => table n l end.
  rewrite !string_str. cbn [mbind option_bind]. unfold de_kind at 1. rewrite unit_variant_str. cbn [mbind option_bind].
  unfold de_trajectory. rewrite tagged_table by keys. cbn [mbind option_bind String.eqb Ascii.eqb Bool.eqb].
  match goal with |- context [as_struct ?n (t_table ?l)] => table n l end.
  rewrite !waypoint_read by lia. cbn [mbind option_bind]. rewrite f64_int by lia. by destruct ah as [ac []].
Qed.
Lemma import_read seed duration_s holdout : 0 <= seed < 2 ^ 63 -> 0 <= duration_s < 2 ^ 63 ->
  de_scenario (import_value seed duration_s holdout) = Some (imported seed duration_s holdout).
Proof.
  intros Hs Hd. assert (forall l, mapM de_aircraft (target_value <$> l) = Some (target <$> l)) as Hall.
  { intros l. induction l as [|ah l IH]; [done|]. cbn [fmap list_fmap mapM]. rewrite target_read. cbn [mbind option_bind]. by rewrite IH. }
  unfold de_scenario, import_value. destruct holdout as [|ah l].
  - match goal with |- context [as_struct ?n (t_table ?l)] => table n l end. unfold de_meta.
    match goal with |- context [as_struct ?n (t_table ?l)] => table n l end. rewrite string_str, !u64_int by done. done.
  - set (acs := t_arr _). match goal with |- context [as_struct ?n (t_table ?l)] => table n l end. unfold de_meta.
    match goal with |- context [as_struct ?n (t_table ?l)] => table n l end. rewrite string_str, !u64_int by done. cbn [mbind option_bind].
    unfold de_list, acs. rewrite vec_arr. cbn [mbind option_bind]. by rewrite Hall.
Qed.
End Imported.

(** ** Scoring an imported capture *)
Section Scored.
Context `{Codec, !CodecLaws, Json, TomlLaws, Hex, Rand, Elem f64, !HashIter Z bool, !HashIter Z ClientAcc, !HashIter Z (list Z)}.
Context (fmt_float : f64 -> string) (row_json : AudibilityRow -> list Z).

(** The addresses of the aircraft held out, or shown. *)
Definition addresses (b : bool) (ho : gmap Z bool) : gset Z := list_to_set ((fun ah => import_icao ah.1) <$> filter (fun ah => ah.2 = b) (map_to_list ho)).
Lemma elem_of_addresses b ho i : i ∈ addresses b ho <-> exists ac, ho !! ac = Some b /\ i = import_icao ac.
Proof.
  unfold addresses. rewrite elem_of_list_to_set, list_elem_of_fmap. split.
  - intros ([ac b'] & -> & [Hb Hin]%list_elem_of_filter). cbn in Hb. subst b'. exists ac. split; [by apply elem_of_map_to_list|done].
  - intros (ac & Hac & ->). exists (ac, b). split; [done|]. apply list_elem_of_filter. split; [done|by apply elem_of_map_to_list].
Qed.
Lemma from_hex_upper x : 0 <= x < 2 ^ 24 -> from_hex (to_uppercase (to_hex x)) = Some x.
Proof.
  intros Hx. unfold from_hex. rewrite trim_plain by apply plain_upper, plain_to_hex. unfold to_hex.
  replace (Z.land x 0xFFFFFF) with x by (change 0xFFFFFF with (Z.ones 24); rewrite Z.land_ones, Z.mod_small by lia; lia).
  assert (from_str_radix16 (to_uppercase (fmt_06x x)) = Some x) as ->; [|cbn [mbind option_bind]; by destruct (Z.leb_spec x 0xFFFFFF); [|lia]].
  unfold fmt_06x. rewrite (proj2 (Z.ltb_lt x (16 ^ 6))) by lia. change (Nat.max 6 0) with 6%nat.
  transitivity (parse_hex (to_uppercase (hex_digits 6 x)) 0).
  - assert (exists d s, hex_digits 6 x = String (hex_digit d) s /\ 0 <= d < 16) as (d & s & -> & Hd)
      by (eexists _, _; split; [reflexivity|apply Z.mod_pos_bound; lia]).
    change (to_uppercase (String (hex_digit d) s)) with (String (upper (hex_digit d)) (to_uppercase s)). unfold from_str_radix16. cbv beta iota.
    pose proof (range_forallb (fun d => negb (byte_of (upper (hex_digit d)) =? 43)) 16 ltac:(vm_compute; reflexivity) d Hd) as Hn.
    apply negb_true_iff in Hn. by rewrite Hn.
  - rewrite parse_hex_upper, parse_hex_digits by (cbn; lia). f_equal. apply Z.mod_small. done.
Qed.
Lemma target_address ho ah : map_Forall (fun ac _ => import_icao ac < 2 ^ 24) ho -> ah ∈ hash_iter ho -> from_hex (a_icao (target ah)) = Some (import_icao ah.1).
Proof.
  intros Hall Hin. cbn [target a_icao]. apply from_hex_upper. destruct ah as [ac b]. apply elem_of_hash_iter in Hin.
  pose proof (Hall _ _ Hin) as Hlt. cbn in *. split; [|done]. unfold import_icao. apply (wrap_range 32); done.
Qed.
Lemma imported_targets seed duration_s ho : map_Forall (fun ac _ => import_icao ac < 2 ^ 24) ho ->
  mlat_targets (imported seed duration_s (hash_iter ho)) = addresses true ho /\
  known_untruthed (imported seed duration_s (hash_iter ho)) = addresses false ho.
Proof.
  intros Hall. assert (forall b i, i ∈ (list_to_set (omap (fun a => from_hex (a_icao a)) (filter (fun a => is_modes_only a = b) (target <$> hash_iter ho))) : gset Z)
    <-> i ∈ addresses b ho) as Hb; [|split; apply set_eq; intros i; apply Hb].
  intros b i. rewrite elem_of_list_to_set, elem_of_addresses. split.
  - intros (a & [Hk Ha]%list_elem_of_filter & Ei)%list_elem_of_omap. apply list_elem_of_fmap in Ha as (ah & -> & Hin).
    rewrite (target_address ho) in Ei by done. injection Ei as <-. destruct ah as [ac b']. apply elem_of_hash_iter in Hin. exists ac. split; [|done].
    by destruct b', b.
  - intros (ac & Hac & ->). assert ((ac, b) ∈ hash_iter ho) as Hin by by apply elem_of_hash_iter. apply list_elem_of_omap. exists (target (ac, b)).
    split; [|by apply (target_address ho (ac, b))]. apply list_elem_of_filter. split; [by destruct b|]. by apply list_elem_of_fmap_2.
Qed.
Lemma bytes_of_app s t : bytes_of (String.append s t) = bytes_of s ++ bytes_of t.
Proof. induction s as [|c s IH]; [done|]. change (byte_of c :: bytes_of (String.append s t) = byte_of c :: (bytes_of s ++ bytes_of t)). by rewrite IH. Qed.
Lemma bytes_of_sconcat l : bytes_of (sconcat l) = concat (bytes_of <$> l).
Proof. induction l as [|s l IH]; [done|]. cbn [sconcat fmap list_fmap concat]. by rewrite bytes_of_app, IH. Qed.
Lemma utf8_sconcat l : Forall (fun s => utf8_valid (bytes_of s) = true) l -> utf8_valid (bytes_of (sconcat l)) = true.
Proof. intros Hl. rewrite bytes_of_sconcat. apply utf8_concat. by apply list.Forall_fmap. Qed.
Lemma utf8_small (P : ascii -> bool) s : (forall c, P c = true -> byte_of c < 128) -> sall P s = true -> utf8_valid (bytes_of s) = true.
Proof.
  intros HP Hs. apply utf8_ascii. unfold bytes_of. induction s as [|c s IH]; [constructor|]. cbn [sall] in Hs. apply andb_prop in Hs as [Hc Hs].
  constructor; [by apply HP|by apply IH].
Qed.
Lemma utf8_nat z : utf8_valid (bytes_of (fmt_nat z)) = true.
Proof.
  apply (utf8_small (fun c => byte_of c <? 128)); [intros c; apply Z.ltb_lt|]. unfold fmt_nat. generalize (dec_len z). intros n.
  induction n as [|n IH]; [done|]. cbn [dec_fixed sall]. rewrite IH, andb_true_r.
  apply (range_forallb (fun d => byte_of (hex_digit d) <? 128) 16 ltac:(vm_compute; reflexivity)). pose proof (mod10 (z / 10 ^ Z.of_nat n)). lia.
Qed.
Lemma utf8_upper_hex x : utf8_valid (bytes_of (to_uppercase (to_hex x))) = true.
Proof.
  apply (utf8_small (fun c => byte_of c <? 128)); [intros c; apply Z.ltb_lt|]. unfold to_hex, fmt_06x. generalize (Z.land x 0xFFFFFF). intros y.
  generalize (Nat.max 6 (if y <? 16 ^ 6 then 0 else if y <? 16 ^ 7 then 7 else 8)). intros n. unfold to_uppercase.
  induction n as [|n IH]; [done|]. cbn [hex_digits smap sall]. rewrite IH, andb_true_r.
  apply (range_forallb (fun d => byte_of (upper (hex_digit d)) <? 128) 16 ltac:(vm_compute; reflexivity)). apply Z.mod_pos_bound. lia.
Qed.
#[local] Ltac utf8 := repeat apply list.Forall_cons_2; try apply list.Forall_nil_2;
  lazymatch goal with
  | |- context [fmt_nat _] => apply utf8_nat
  | |- context [to_hex _] => try apply utf8_upper_hex
  | |- context [if ?b then _ else _] => destruct b; vm_compute; reflexivity
  | |- _ => vm_compute; reflexivity
  end.
Lemma utf8_jtext s : utf8_valid (bytes_of s) = true -> utf8_valid (bytes_of (jtext s)) = true.
Proof. intros Hs. unfold jtext. apply utf8_sconcat. repeat apply list.Forall_cons_2; try apply list.Forall_nil_2; [by vm_compute|done|by vm_compute]. Qed.
Lemma import_text seed duration_s ho : utf8_valid (bytes_of (import_scenario seed duration_s ho)) = true.
Proof.
  unfold import_scenario. apply utf8_sconcat. apply list.Forall_app. split; [utf8|].
  apply list.Forall_fmap, list.Forall_true. intros ah. unfold scenario_aircraft. apply utf8_sconcat. utf8. apply utf8_jtext, utf8_upper_hex.
Qed.

(** The rows of addresses that no row of the imported set had. *)
Definition unseen (ho : gmap Z bool) (rows : list CsvRow) : nat :=
  length (filter (fun r => cr_icao r ∉ addresses true ho ∪ addresses false ho) rows).
Lemma truth_addresses frac duration_s sensors rows seed st icao : import_rows frac duration_s sensors rows (ImportState_new seed) = inl st ->
  is_Some (build (is_truth st) !! icao) <-> icao ∈ addresses true (is_holdout st).
Proof.
  intros Hr. assert (import_ok sensors st) as [_ Ht].
  { apply (import_rows_ok _ _ _ _ _ _ Hr). split; [intros s acc; cbn; by rewrite lookup_empty|constructor]. }
  assert (held_known st) as Hk by (apply (import_rows_known _ _ _ _ _ _ Hr); intros ac; cbn; by rewrite lookup_empty).
  rewrite elem_of_addresses, truth_points. split.
  - intros (p & Hp & <-). rewrite list.Forall_forall in Ht. destruct (Ht p Hp) as (ac & Hac & E). by exists ac.
  - intros (ac & Hac & ->). apply (Hk ac Hac).
Qed.

(** C30: an imported set is scored against what was held out of it.  Once its two files are read,
    with addresses of 24 bits and a seed and duration that TOML can write, the import makes a
    capture; a run of it whose start is known is scored against the positions held out, as JSON
    gives them back, over their audible seconds, with the aircraft held out as the targets; and
    the unknown ghosts are exactly the rows of addresses that no aircraft of the set has. *)
Theorem imported_scored set_csv sensors_csv duration_s frac seed sensors st points :
  read_sensors sensors_csv ∅ = inl sensors -> import_rows frac duration_s sensors set_csv (ImportState_new seed) = inl st ->
  0 <= seed < 2 ^ 63 -> 0 <= duration_s < 2 ^ 63 -> map_Forall (fun ac _ => import_icao ac < 2 ^ 24) (is_holdout st) ->
  document (bytes_of (import_scenario seed duration_s (is_holdout st))) = Some (import_value seed duration_s (hash_iter (is_holdout st))) ->
  mapM reread_point (is_truth st) = Some points -> Forall (row_reads row_json) (is_audibility st) ->
  map_Forall (fun _ s => is_Some (reread_entry (import_entry s))) sensors ->
  exists dir, import fmt_float row_json set_csv sensors_csv None duration_s frac seed = inl dir /\
  forall run t0 csv log, run_wall_t0 run = inl t0 ->
    let rows := parse_results_csv (default EmptyString csv) in
    let scored := score (build points) rows t0 (row_second <$> is_audibility st) (addresses true (is_holdout st)) (addresses false (is_holdout st))
                    (omap resource_line (lines (default EmptyString log))) in
    score_cmd read_scenario run dir csv log = inl scored /\ ghosts_unknown_icao scored = unseen (is_holdout st) rows.
Proof.
  intros Hs Hr Hseed Hdur Haddr Hdoc Htr Hrows Hm. destruct (import_written fmt_float row_json _ _ _ _ _ _ _ Hs Hr) as (es & cs & E & _ & _ & _ & _ & Hes). cbv zeta in E.
  eexists. split; [exact E|]. clear E. set (text := bytes_of _). set (m1 := write_audibility _ _ _). assert (exists m, m1 = Some m) as [m Em] by by eexists.
  assert (exists m', reread_manifest (import_manifest seed duration_s (sha256_hex text) es) = Some m') as [m' Hread].
  { unfold reread_manifest. cbn [m_clients import_manifest]. assert (is_Some (mapM reread_entry es)) as [es' ->]; [|by eexists].
    apply mapM_is_Some. eapply list.Forall_impl; [exact Hes|]. intros e (serial & s & Hse & ->). by apply (Hm serial). }
  destruct (written_sides cs (import_manifest seed duration_s (sha256_hex text) es) m' m eq_refl eq_refl Hread) as (Ho & Hfile & _).
  rewrite <- Em in Ho, Hfile. intros run t0 csv log Hrun rows scored. set (dir := write_manifest _ _) in *. split.
  - unfold score_cmd. rewrite Hrun, Ho. unfold Capture.truth, read_json_lines. rewrite Hfile by done.
    replace (file "truth.jsonl.zst" m1) with (inl (B := CaptureError) (zstd (json_lines truth_json (is_truth st)))).
    2:{ unfold m1, write_audibility, write_truth, put, file. cbn [fmap option_fmap option_map mbind option_bind]. by rewrite lookup_insert_ne, lookup_insert_eq by done. }
    cbv zeta. rewrite unzstd_zstd, (truth_lines_read _ _ _ Htr) by apply json_lines_length.
    destruct (rows_read row_json (is_audibility st) dir) as (vs & -> & Evs); [|done|].
    { rewrite Hfile by done. unfold m1, write_audibility, write_truth, put, file. cbn [fmap option_fmap option_map mbind option_bind]. by rewrite lookup_insert_eq. }
    unfold scenario_toml. rewrite Hfile by done.
    replace (file "scenario.toml" m1) with (inl (B := CaptureError) text).
    2:{ unfold m1, write_audibility, write_truth, put, file. cbn [fmap option_fmap option_map mbind option_bind]. by rewrite !lookup_insert_ne, lookup_insert_eq by done. }
    unfold text at 1. rewrite import_text. unfold from_toml, read_scenario, text. rewrite Hdoc. cbn [mbind option_bind].
    rewrite import_read by done. cbn [fmap option_fmap option_map]. change (expand_generate (imported ?s ?d ?h)) with (imported s d h).
    destruct (imported_targets seed duration_s (is_holdout st) Haddr) as [-> ->]. by rewrite Evs.
  - unfold scored. rewrite unknown_ghosts. unfold unseen. f_equal. apply list_filter_iff. intros r.
    rewrite (truth_reread _ _ _ Htr), (truth_addresses _ _ _ _ _ _ (cr_icao r) Hr). set_solver.
Qed.
End Scored.

(** ** A concrete reading of documents, and of the texts of a capture *)
Section Trees.
Definition signed64 (z : Z) : bool := (- 2 ^ 63 <=? z) && (z <? 2 ^ 63).
Definition toml_with (doc : list Z -> option Tree) : Toml := {|
  TValue := Tree; document := doc;
  as_struct names v := match v with
    | TObj l => Some (fun k => entry l k)
    | TArr l => Some (fun k => i ← list_find (fun n => n = k) names; l !! i.1)
    | _ => None
    end;
  as_tagged tag v := match v with
    | TObj l => match entry l tag with Some (TStr n) => Some (n, TObj (filter (fun kv => kv.1 <> tag) l)) | _ => None end
    | _ => None
    end;
  as_unit_variant v := match v with TStr n => Some n | _ => None end;
  de_f64 v := match v with TNum (inl z) => if signed64 z then Some (of_Z z) else None | TNum (inr x) => Some x | _ => None end;
  de_u64 v := match v with TNum (inl z) => if (0 <=? z) && (z <? 2 ^ 63) then Some z else None | _ => None end;
  de_u32 v := match v with TNum (inl z) => if (0 <=? z) && (z <? 2 ^ 32) then Some z else None | _ => None end;
  de_bool v := match v with TBool b => Some b | _ => None end;
  de_string v := match v with TStr s => Some s | _ => None end;
  de_vec v := match v with TArr l => Some l | _ => None end;
  de_array n v := match v with TArr l => if (length l =? n)%nat then Some l else None | _ => None end |}.
Definition toml_write doc : @TomlWrite (toml_with doc) := @Build_TomlWrite (toml_with doc) (fun z => TNum (inl z)) TStr TArr TObj.
Lemma toml_laws doc : @TomlLaws (toml_with doc) (toml_write doc).
Proof.
  split; try done.
  - intros names l _. by eexists.
  - intros tag n l [Hn _]%list.NoDup_cons. cbn [as_tagged toml_with t_table toml_write t_str entry]. rewrite String.eqb_refl. do 3 f_equal. rewrite list.filter_cons_False by (intros []; done).
    induction l as [|[k v] l IH]; [done|]. cbn [fmap list_fmap fst] in Hn. apply not_elem_of_cons in Hn as [Hk Hn].
    rewrite list.filter_cons_True by (cbn; congruence). f_equal. by apply IH.
  - intros z Hz. cbn. unfold signed64. by rewrite (proj2 (Z.leb_le _ _)), (proj2 (Z.ltb_lt _ _)) by lia.
  - intros z Hz. cbn. by rewrite (proj2 (Z.leb_le _ _)), (proj2 (Z.ltb_lt _ _)) by lia.
  - intros l. cbn. by rewrite Nat.eqb_refl.
Qed.
(** The defaults, on a document that leaves out what may be left out. *)
Definition sparse : Tree := TObj [
  ("meta", TObj [("name", TStr "m"); ("seed", TNum (inl 7)); ("duration_s", TNum (inl 60))]);
  ("receivers", TArr [TObj [("id", TStr "r"); ("lat", TNum (inl 47)); ("lon", TNum (inr (of_Z (-1)))); ("alt_m", TNum (inl 30)); ("clock", TObj [("type", TStr "dump1090")])];
                      TObj [("id", TStr "g"); ("lat", TNum (inl 47)); ("lon", TNum (inl 0)); ("alt_m", TNum (inl 30)); ("clock", TObj [("type", TStr "radarcape_gps")]);
                            ("compress", TStr "zlib2"); ("unknown", TNull)]]);
  ("aircraft", TArr [TObj [("icao", TStr "3C6444"); ("kind", TStr "modes_only");
    ("traj", TObj [("type", TStr "orbit"); ("center", TArr [TNum (inl 47); TNum (inl 0); TNum (inl 9000)]); ("radius_m", TNum (inl 800)); ("gs_kts", TNum (inl 90))])]])]%string.
Example sparse_read : @de_scenario (toml_with (fun _ => None)) sparse = Some {|
  meta := {| name := "m"; seed := 7; duration_s := 60 |}; network := {| latency_ms_min := of_Z 5; latency_ms_max := of_Z 40; jitter_ms := fzero |};
  generate_spec := None;
  receivers := [
    {| r_id := "r"; r_lat := of_Z 47; r_lon := of_Z (-1); r_alt_m := of_Z 30; r_clock := SpecDump1090 fzero fzero (of_Z 40) 0 fzero fzero;
       loss_prob := lit 2 100; max_range_km := None; reported_pos_error_m := fzero; multipath_prob := fzero; r_compress := "none" |};
    {| r_id := "g"; r_lat := of_Z 47; r_lon := of_Z 0; r_alt_m := of_Z 30; r_clock := SpecRadarcapeGps (of_Z 10);
       loss_prob := lit 2 100; max_range_km := None; reported_pos_error_m := fzero; multipath_prob := fzero; r_compress := "zlib2" |}];
  aircraft := [{| a_icao := "3C6444"; a_kind := KindModesOnly; a_traj := Orbit (mkWaypoint (of_Z 47) (of_Z 0) (of_Z 9000)) (of_Z 800) (of_Z 90) false;
                  pos_rate_hz := of_Z 2; df11_rate_hz := of_Z 1; df4_rate_hz := of_Z 4; nav_error_m := fzero |}] |}%string.
Proof. vm_compute. reflexivity. Qed.
(** A seed past the signed integers, which the command accepts, makes a scenario no score can read. *)
Example seed_unread : @de_scenario (toml_with (fun _ => None)) (@import_value _ (toml_write (fun _ => None)) (2 ^ 63) 60 []) = None.
Proof. vm_compute. reflexivity. Qed.
End Trees.

(** ** An import of two rows, scored *)
Section Sample.
#[local] Existing Instance codec_stored.
#[local] Existing Instance codec_stored_laws.
(** The measurements of the rows, and an audibility row. *)
#[local] Instance json_imported : Json := json_with (fun l =>
  let at_time t := Some (TArr [TArr [TNum (inl 1); TNum (inl t)]; TArr [TNum (inl 9); TNum (inl (t + 500))]; TArr [TNum (inl 2); TNum (inl (t + 1000))]]) in
  if decide (l = bytes_of "a") then at_time 1000000 else if decide (l = bytes_of "b") then at_time 501000000
  else if decide (l = [82]) then
    Some (TObj [("t_s", TNum (inl 1)); ("icao", TNum (inl 0x100007)); ("receivers", TArr [TStr "os-1"; TStr "os-9"; TStr "os-2"])])%string
  else None).
#[local] Existing Instance hex_tree.
#[local] Existing Instance rand_script.
#[local] Existing Instance elem_taylor.
#[local] Existing Instance holdout_order.
#[local] Existing Instance acc_order.
#[local] Existing Instance seconds_order.
Definition import_document (l : list Z) : option Tree :=
  if decide (l = bytes_of (import_scenario 42 60 {[7 := true]})) then Some (@import_value _ (toml_write (fun _ => None)) 42 60 [(7, true)]) else None.
#[local] Instance toml_imported : Toml := toml_with import_document.
#[local] Instance write_imported : TomlWrite := toml_write import_document.
#[local] Instance imported_laws : TomlLaws := toml_laws import_document.
Definition row82 (_ : AudibilityRow) : list Z := [82].
Definition imported_run : Value := TObj [("wall_t0", TNum (inl 1000)); ("speed", TNum (inl 1)); ("hb_anchor", TArr [TNum (inl 1001); TNum (inl 5003)])]%string.
Lemma imported_scored_witness : exists dir scored, import (fmt_fixed 5) row82 set_rows sensor_rows None 60 (of_Z 1) 42 = inl dir /\
  score_cmd read_scenario imported_run dir (Some csv_text) None = inl scored /\ ghosts_unknown_icao scored = 2%nat.
Proof.
  assert (match read_sensors sensor_rows ∅ with
          | inl sensors => match import_rows (of_Z 1) 60 sensors set_rows (ImportState_new 42) with
                           | inl st => bool_decide (is_holdout st = {[7 := true]}) && bool_decide (Forall (fun r => row_t_s r = 1 /\ row_icao r = 0x100007 /\ length (row_receivers r) = 3%nat) (is_audibility st))
                               && (bool_decide (map_Forall (fun _ s => is_Some (reread_entry (import_entry s))) sensors) && bool_decide (is_Some (mapM reread_point (is_truth st))))
                           | inr _ => false end
          | inr _ => false end = true) as Hok by (vm_compute; reflexivity).
  destruct (read_sensors sensor_rows ∅) as [sensors|e] eqn:Es; [|discriminate Hok].
  destruct (import_rows (of_Z 1) 60 sensors set_rows (ImportState_new 42)) as [st|e] eqn:Er; [|discriminate Hok].
  apply andb_prop in Hok as [Hok [Hsens Hpts%bool_decide_eq_true]%andb_prop].
  apply andb_prop in Hok as [Hho%bool_decide_eq_true Haud%bool_decide_eq_true].
  destruct (mapM reread_point (is_truth st)) as [points|] eqn:Ep; [|destruct Hpts; discriminate].
  destruct (imported_scored (fmt_fixed 5) row82 set_rows sensor_rows 60 (of_Z 1) 42 sensors st points Es Er) as (dir & E & Hsc).
  - lia.
  - lia.
  - rewrite Hho. apply map_Forall_singleton. vm_compute. reflexivity.
  - rewrite Hho. cbn [document toml_imported toml_with]. unfold import_document. rewrite decide_True by done. vm_compute. reflexivity.
  - exact Ep.
  - eapply list.Forall_impl; [exact Haud|]. intros [t i rs] (Ht & Hi & Hrs). cbn in Ht, Hi, Hrs. split; [split_and!; [reflexivity|reflexivity|discriminate]|].
    eexists. split; [vm_compute; reflexivity|]. unfold row_second. cbn [row_t_s row_icao row_receivers]. rewrite Ht, Hi, Hrs. vm_compute. reflexivity.
  - apply bool_decide_eq_true in Hsens. exact Hsens.
  - destruct (Hsc imported_run (of_Z 4999 + of_Z 3)%f64 (Some csv_text) None) as [Es' Eg]; [vm_compute; reflexivity|].
    eexists dir, _. split; [exact E|]. split; [exact Es'|]. rewrite Eg, Hho. vm_compute. reflexivity.
Defined.
End Sample.
