(* ===== verification/Served.v ===== *)
(** * A generated client at the server

    What the server's connection (crates/mlatd/src/main.rs) makes of the streams the simulator
    frames (crates/mb-sim/src/gen.rs): plain lines or compressed frames, however the network
    cuts them. *)
From S2P Require Import Prelude F64 Num Text Decimal Results Metrics Geo Proto Framing ServerState Shard Router Session Wire SimClock Scenario Gen.
Local Open Scope Z_scope.

(** ** A connection reads units *)
Section Units.
Context `{Json, JsonText, Flate}.
Context (fuel : nat) (hb_real : Z) (wants_stats : bool) (rx : RxRef).

(** A line, or a frame under the connection's decompressor. *)
Inductive Wire := Plain | Framed (d : Decomp).
Definition reader_of (w : Wire) (got : list Z) : Reader :=
  match w, got with
  | Plain, _ => ReadLine got
  | Framed d, hi :: lo :: _ => ReadBody (Z.to_nat (256 * hi + lo)) got d
  | Framed d, _ => ReadLen got d
  end.
Definition unit_full (w : Wire) (got : list Z) : bool :=
  match w, got with
  | Plain, _ => bool_decide (list.last got = Some 10)
  | Framed _, hi :: lo :: body => (length body =? Z.to_nat (256 * hi + lo))%nat
  | Framed _, _ => false
  end.
Definition unit_lines (w : Wire) (u : list Z) : option (Wire * list (list Z)) :=
  match w with
  | Plain => Some (Plain, [u])
  | Framed d =>
      match decode_frame fuel d u with
      | Some (d, inl chunk) => Some (Framed d, chunk_lines chunk)
      | _ => None
      end
  end.
Definition fits (w : Wire) (got : list Z) : bool := match w with Plain => Z.of_nat (length got) <? LINE_LIMIT | Framed _ => true end.

(** A byte, read at a time of the output clock; [None]: the connection ends. *)
Definition unit_byte (st : Wire * list Z * list (f64 * list Z)) (cb : f64 * Z) : option (Wire * list Z * list (f64 * list Z)) :=
  let '(w, got, out) := st in
  let got := got ++ [cb.2] in
  if unit_full w got then wl ← unit_lines w got; Some (wl.1, [], out ++ (pair cb.1 <$> wl.2))
  else if fits w got then Some (w, got, out) else None.
Fixpoint unit_bytes (st : Wire * list Z * list (f64 * list Z)) (cbs : list (f64 * Z)) : option (Wire * list Z * list (f64 * list Z)) :=
  match cbs with [] => Some st | cb :: cbs => st ← unit_byte st cb; unit_bytes st cbs end.

(** The bytes of a run, and that timers tick only between units and nothing ends it. *)
Definition data_of (ev : SEvent) : list (f64 * Z) := match ev with Data bs at_scaled => pair at_scaled <$> bs | _ => [] end.
Fixpoint undisturbed (st : Wire * list Z * list (f64 * list Z)) (evs : list (Z * SEvent)) : bool :=
  match evs with
  | [] => true
  | (_, Data bs at_scaled) :: evs =>
      match unit_bytes st (pair at_scaled <$> bs) with Some st => undisturbed st evs | None => true end
  | (_, (HbTick _ | StatsTick _)) :: evs => bool_decide (st.1.2 = []) && undisturbed st evs
  | (_, (Eof | ReadError | IdleTimeout)) :: _ => false
  | (_, (WriterTakes | ResultLine _)) :: evs => undisturbed st evs
  end.

Definition acc_of (s : Sess) : gset string * list ShardMsg := (s_requested s, s_sent s).
Definition all_said (acc : gset string * list ShardMsg) (ls : list (f64 * list Z)) : gset string * list ShardMsg :=
  fold_left (fun acc l => said rx l.1 acc l.2) ls acc.
(** The session has read the lines [out] since [acc], and part of a unit. *)
Definition reads (acc : gset string * list ShardMsg) (st : Wire * list Z * list (f64 * list Z)) (s : Sess) : Prop :=
  s_status s = Running /\ s_reader s = reader_of st.1.1 st.1.2 /\ acc_of s = all_said acc st.2 /\ unit_full st.1.1 st.1.2 = false.

Lemma process_lines_said at_scaled ls s : s_status s = Running ->
  s_status (fold_left (process_line_tx rx at_scaled) ls s) = Running /\
  acc_of (fold_left (process_line_tx rx at_scaled) ls s) = all_said (acc_of s) (pair at_scaled <$> ls).
Proof.
  revert s. induction ls as [|l ls IH]; intros s Hs; [done|]. destruct (process_line_said rx at_scaled s l) as (E & _ & Est).
  cbn [fold_left fmap list_fmap]. destruct (IH (process_line_tx rx at_scaled s l)) as [Hs' E']; [by rewrite Est|].
  split; [done|]. rewrite E'. unfold all_said. cbn [fold_left fst snd]. unfold acc_of at 1. by rewrite E.
Qed.

Lemma unit_reads now at_scaled s w ls acc out : s_status s = Running -> acc_of s = all_said acc out ->
  reads acc (w, [], out ++ (pair at_scaled <$> ls))
    (next_iteration now (with_reader (reader_of w []) (fold_left (process_line_tx rx at_scaled) ls s))).
Proof.
  intros Hs Ha. destruct (process_lines_said at_scaled ls s Hs) as [Hs' Ha']. split_and!; [exact Hs'|done| |by destruct w].
  cbn [snd]. unfold all_said. rewrite fold_left_app. fold (all_said acc out). rewrite <- Ha. exact Ha'.
Qed.
Lemma read_byte_reads now at_scaled s b st st' acc : reads acc st s -> unit_byte st (at_scaled, b) = Some st' ->
  exists s', read_byte fuel rx now at_scaled s b = Some s' /\ reads acc st' s'.
Proof.
  destruct st as [[w got] out]. intros (Hs & Hr & Ha & Hf) E. cbn [fst snd] in *. unfold unit_byte in E. cbn [fst snd] in E.
  unfold read_byte. rewrite Hs, Hr. destruct w as [|d].
  - cbn [reader_of]. unfold unit_full in E. rewrite last_snoc in E. destruct (Z.eqb_spec b 10) as [->|Hb].
    + rewrite bool_decide_eq_true_2 in E by done. cbn [unit_lines mbind option_bind] in E. injection E as <-.
      eexists. split; [reflexivity|]. exact (unit_reads now at_scaled s Plain [got ++ [10]] acc out Hs Ha).
    + rewrite bool_decide_eq_false_2 in E by congruence. cbn [fits] in E. rewrite Z.leb_antisym.
      destruct (_ <? LINE_LIMIT); [|done]. injection E as <-. eexists. split; [reflexivity|]. split_and!; [done|done|done|].
      cbn. rewrite last_snoc. apply bool_decide_eq_false_2. congruence.
  - assert (forall frame, unit_lines (Framed d) frame ≫= (fun wl => Some (wl.1, [], out ++ (pair at_scaled <$> wl.2))) = Some st' ->
      exists s', frame_done fuel rx now at_scaled s d frame = Some s' /\ reads acc st' s') as Hdone.
    { intros frame Ef. unfold unit_lines in Ef. unfold frame_done. destruct (decode_frame fuel d frame) as [[d' [chunk|e]]|]; [|done..].
      cbn [mbind option_bind fst snd] in *. injection Ef as <-. eexists. split; [reflexivity|].
      exact (unit_reads now at_scaled s (Framed d') (chunk_lines chunk) acc out Hs Ha). }
    cbn [fits] in E. destruct got as [|hi [|lo got]]; cbn [reader_of app unit_full length] in *.
    + injection E as <-. eexists. split; [reflexivity|]. by split_and!.
    + rewrite (Nat.eqb_sym 0) in E. destruct (Z.to_nat (256 * hi + b) =? 0)%nat eqn:Ew; [by apply Hdone|].
      injection E as <-. eexists. split; [reflexivity|]. split_and!; [done..|]. cbn [fst snd unit_full length]. by rewrite Nat.eqb_sym.
    + clear Hf. rewrite length_app in E |- *. cbn [length] in E |- *.
      change (S (S (length got + 1)) =? 2 + Z.to_nat (256 * hi + lo))%nat with (length got + 1 =? Z.to_nat (256 * hi + lo))%nat.
      destruct (_ =? _)%nat eqn:Ew; [by apply Hdone|].
      injection E as <-. eexists. split; [reflexivity|]. split_and!; [done..|]. cbn [fst snd unit_full]. by rewrite length_app.
Qed.
Lemma read_bytes_reads now at_scaled bs s st st' acc : reads acc st s -> unit_bytes st (pair at_scaled <$> bs) = Some st' ->
  exists s', read_bytes fuel rx now at_scaled s bs = Some s' /\ reads acc st' s'.
Proof.
  revert s st. induction bs as [|b bs IH]; intros s st Hr; cbn [fmap list_fmap unit_bytes read_bytes].
  - intros [= <-]. by exists s.
  - destruct (unit_byte st (at_scaled, b)) as [st1|] eqn:E; [|done]. cbn [mbind option_bind]. intros E'.
    destruct (read_byte_reads now _ _ _ _ _ _ Hr E) as (s1 & -> & Hr1). by apply (IH s1 st1).
Qed.
Lemma unit_bytes_app st cbs cbs' : unit_bytes st (cbs ++ cbs') = st ← unit_bytes st cbs; unit_bytes st cbs'.
Proof. revert st. induction cbs as [|cb cbs IH]; intros st; [done|]. cbn [app unit_bytes]. destruct (unit_byte st cb); [apply IH|done]. Qed.

(** A run that is not disturbed has read the units of its bytes. *)
Lemma run_reads evs s st st' s' acc : reads acc st s -> undisturbed st evs = true -> unit_bytes st (evs.*2 ≫= data_of) = Some st' ->
  run_session fuel hb_real wants_stats rx s evs = Some s' -> reads acc st' s'.
Proof.
  revert s st. induction evs as [|[now ev] evs IH]; intros s st Hr Hu Hb; cbn [run_session].
  { intros [= <-]. by injection Hb as <-. }
  unfold step. pose proof Hr as (Hs & Hrd & Ha & Hf). rewrite Hs. cbn [undisturbed fmap list_fmap mbind list_bind snd] in *.
  assert (st.1.2 = [] -> exists rd, drop_read (s_reader s) = Some rd /\ rd = s_reader s) as Hdrop.
  { intros Eg. rewrite Hrd, Eg. destruct st.1.1; by eexists. }
  destruct ev as [bs at_scaled| | |t|reply| | |line]; cbn [data_of] in *; try done.
  - rewrite unit_bytes_app in Hb. destruct (unit_bytes st _) as [st1|] eqn:E; [|done]. intros Hrun.
    destruct (read_bytes_reads now _ _ _ _ _ _ Hr E) as (s1 & E1 & Hr1). rewrite E1 in Hrun. by eapply IH.
  - apply andb_true_iff in Hu as [Eg%bool_decide_eq_true Hu]. destruct (Hdrop Eg) as (rd & -> & ->). cbn [mbind option_bind].
    destruct (_ && _); [|done]. intros Hrun. eapply (IH _ st); [|exact Hu|exact Hb|exact Hrun]. exact Hr.
  - apply andb_true_iff in Hu as [Eg%bool_decide_eq_true Hu]. destruct (Hdrop Eg) as (rd & -> & ->). cbn [mbind option_bind].
    destruct (_ && _); [|done]. intros Hrun. eapply (IH _ st); [|exact Hu|exact Hb|exact Hrun]. exact Hr.
  - intros Hrun. eapply (IH _ st); [|exact Hu|exact Hb|exact Hrun]. exact Hr.
  - destruct (_ <? _)%nat; [|done]. intros Hrun. eapply (IH _ st); [|exact Hu|exact Hb|exact Hrun]. exact Hr.
Qed.

(** ** A stream of units *)
(** A unit that is complete at its last byte and not before. *)
Definition single (w : Wire) (u : list Z) : Prop :=
  unit_full w u = true /\ forall a b, u = a ++ b -> b <> [] -> unit_full w a = false /\ fits w a = true.
Fixpoint stream_lines (w : Wire) (us : list (list Z)) : option (list (list Z)) :=
  match us with
  | [] => Some []
  | u :: us => wl ← unit_lines w u; ls ← stream_lines wl.1 us; Some (wl.2 ++ ls)
  end.
Lemma unit_whole w got cbs wl out : single w (got ++ cbs.*2) -> cbs <> [] -> unit_lines w (got ++ cbs.*2) = Some wl ->
  exists t, t ∈ cbs.*1 /\ unit_bytes (w, got, out) cbs = Some (wl.1, [], out ++ (pair t <$> wl.2)).
Proof.
  revert got. induction cbs as [|[t b] cbs IH]; intros got Hs Hne Hl; [done|]. cbn [fmap list_fmap fst snd] in *. cbn [unit_bytes].
  unfold unit_byte at 1. cbn [snd fst]. rewrite cons_middle, app_assoc in Hs, Hl. destruct cbs as [|cb cbs].
  - cbn [fmap list_fmap] in *. rewrite app_nil_r in Hs, Hl. rewrite (proj1 Hs), Hl. cbn [mbind option_bind unit_bytes].
    exists t. split; [left|done].
  - destruct (proj2 Hs (got ++ [b]) (snd <$> cb :: cbs) eq_refl) as [-> ->]; [done|]. cbn [mbind option_bind].
    destruct (IH (got ++ [b]) Hs ltac:(done) Hl) as (t' & Ht' & E). exists t'. split; [by right|done].
Qed.
Lemma unit_lines_same w u wl : unit_lines w u = Some wl -> forall x, single w x -> single wl.1 x.
Proof.
  unfold unit_lines. destruct w as [|d]; [by intros [= <-]|]. destruct (decode_frame fuel d u) as [[d' [chunk|]]|]; [|done..]. by intros [= <-].
Qed.
Lemma stream_reads w us ls cbs out : stream_lines w us = Some ls -> Forall (single w) us -> cbs.*2 = concat us ->
  exists w' out', unit_bytes (w, [], out) cbs = Some (w', [], out ++ out') /\ out'.*2 = ls /\ (forall t, t ∈ out'.*1 -> t ∈ cbs.*1).
Proof.
  revert w ls cbs out. induction us as [|u us IH]; intros w ls cbs out E Hs Hc; cbn [stream_lines concat] in *.
  - injection E as <-. apply fmap_nil_inv in Hc as ->. exists w, []. by rewrite app_nil_r.
  - apply list.Forall_cons in Hs as [Hu Hs]. destruct (unit_lines w u) as [wl|] eqn:El; [|done]. cbn [mbind option_bind] in E.
    destruct (stream_lines wl.1 us) as [ls'|] eqn:E'; [|done]. injection E as <-.
    apply fmap_app_inv in Hc as (c1 & c2 & -> & Hc2 & ->).
    destruct (unit_whole w [] c1 wl out) as (t & Ht & E1); [done| |done|].
    { intros ->. destruct Hu as [Hu _]. by destruct w. }
    rewrite unit_bytes_app, E1. cbn [mbind option_bind].
    destruct (IH wl.1 ls' c2 (out ++ (pair t <$> wl.2)) E') as (w' & out' & -> & Eo & Ht'); [|done|].
    { eapply list.Forall_impl; [exact Hs|]. by apply (unit_lines_same _ _ _ El). }
    exists w', ((pair t <$> wl.2) ++ out'). rewrite app_assoc. split_and!; [done| |].
    + rewrite fmap_app, <- list_fmap_compose. f_equal; [|done]. by rewrite list_fmap_id.
    + intros t'. rewrite !fmap_app, !elem_of_app. intros [Hin|?]; [left|right; by apply Ht'].
      apply list_elem_of_fmap in Hin as (x & -> & (l & -> & _)%list_elem_of_fmap). done.
Qed.

(** Plain lines, and frames that a decoder follows. *)
Lemma plain_single body : 10 ∉ body -> Z.of_nat (length body) < LINE_LIMIT -> single Plain (body ++ [10]).
Proof.
  intros Hb Hl. split; [cbn; rewrite last_snoc; by apply bool_decide_eq_true_2|]. intros a b E Hne.
  destruct b as [|x b _] using rev_ind; [done|]. rewrite app_assoc in E. apply app_inj_tail in E as [-> _]. cbn [unit_full fits]. split.
  - apply bool_decide_eq_false_2. intros (a' & ->)%last_Some. apply Hb. rewrite !elem_of_app. left. right. by left.
  - rewrite length_app in Hl. lia.
Qed.
Lemma plain_stream us : stream_lines Plain us = Some us.
Proof. induction us as [|u us IH]; [done|]. cbn [stream_lines unit_lines mbind option_bind fst snd]. by rewrite IH. Qed.
Lemma framed_single d d' u chunk : decode_frame fuel d u = Some (d', inl chunk) -> single (Framed d) u.
Proof.
  destruct u as [|hi [|lo body]]; cbn [decode_frame]; [done..|].
  destruct (Z.eqb_spec (Z.of_nat (length body)) (256 * hi + lo)) as [E|]; [|done]. intros _. split.
  - cbn. apply Nat.eqb_eq. lia.
  - intros a b Eu Hne. split; [|done]. destruct a as [|hi' [|lo' a]]; [done..|]. injection Eu as <- <- ->. cbn. apply Nat.eqb_neq.
    rewrite length_app in E. destruct b; [done|]. cbn [length] in E. lia.
Qed.
Lemma framed_stream d fs batches : decode_all 0 d fs = Some batches ->
  stream_lines (Framed d) fs = Some (batches ≫= chunk_lines) /\ Forall (single (Framed d)) fs.
Proof.
  revert d batches. induction fs as [|f fs IH]; intros d batches; cbn [decode_all stream_lines]; [by intros [= <-]|].
  destruct (decode_frame 0 d f) as [[d' [chunk|]]|] eqn:E; cbn [mbind option_bind]; [|done..].
  destruct (decode_all 0 d' fs) as [bs|] eqn:E'; [|done]. intros [= <-]. destruct (IH _ _ E') as [Es Hs].
  apply (decode_frame_fuel fuel) in E. unfold unit_lines. rewrite E. cbn [mbind option_bind fst snd]. rewrite Es. split; [done|].
  constructor; [by eapply framed_single|exact Hs].
Qed.
End Units.

(** ** The lines of a chunk *)
Section Chunks.
Lemma split_lines_line body rest : 10 ∉ body -> split_lines (body ++ 10 :: rest) = body :: split_lines rest.
Proof.
  induction body as [|b body IH]; intros Hb; cbn; [done|]. apply not_elem_of_cons in Hb as [Hb Hbody].
  destruct (Z.eqb_spec b 10); [congruence|]. by rewrite IH.
Qed.
Lemma chunk_lines_all texts : Forall text_ok texts -> chunk_lines (concat ((fun t => t ++ [10]) <$> texts)) = texts.
Proof.
  unfold chunk_lines. induction 1 as [|t texts [Hne Ht] _ IH]; [done|]. cbn [fmap list_fmap concat]. rewrite <- app_assoc.
  cbn [app]. rewrite split_lines_line by done. rewrite list.filter_cons_True by done. by f_equal.
Qed.
Lemma chunk_groups groups texts : Forall text_ok texts -> concat groups = (fun t => t ++ [10]) <$> texts ->
  ((fun ls => concat ls) <$> groups) ≫= chunk_lines = texts.
Proof.
  revert texts. induction groups as [|g groups IH]; intros texts Ht E; cbn [concat fmap list_fmap mbind list_bind] in *.
  - symmetry in E. by apply fmap_nil_inv in E as ->.
  - symmetry in E. apply fmap_app_inv in E as (t1 & t2 & -> & E & ->). apply list.Forall_app in Ht as [Ht1 Ht2].
    rewrite chunk_lines_all by done. f_equal. by apply IH.
Qed.
End Chunks.

(** ** A stream of messages *)
Section Messages.
Context `{JsonWriteLaws, JsonText, Hex, Elem f64, Flate}.
Context (fuel : nat) (hb_real : Z) (wants_stats : bool) (rx : RxRef).
Definition msg_text (m : ClientMsg) : list Z := to_vec (msg_value m).
Lemma texts_ok ms : Forall text_ok (msg_text <$> ms).
Proof. apply list.Forall_fmap, list.Forall_true. intros m. apply to_vec_text. Qed.
Lemma lines_texts (ms : list ClientMsg) : to_line <$> ms = (fun t => t ++ [10]) <$> (msg_text <$> ms).
Proof. by rewrite <- list_fmap_compose. Qed.

(** What the server accepts and how it reads. *)
Definition wire_of (c : Compress) : Wire := match c with CNone => Plain | _ => Framed decomp_new end.
Lemma session_starts now negotiated c : compress_of negotiated = Some c ->
  reads rx (∅, []) (wire_of c, [], []) (Sess_new hb_real now negotiated).
Proof.
  unfold compress_of, Sess_new. destruct (String.eqb_spec negotiated "none") as [->|]; [by intros [= <-]|].
  destruct (_ =? _)%string; [by intros [= <-]|]. destruct (_ =? _)%string; [by intros [= <-]|done].
Qed.

(** The units are the lines of the messages, or frames of whole lines. *)
Definition carries_messages (w : Wire) (us : list (list Z)) (ms : list ClientMsg) : Prop :=
  exists ls, stream_lines fuel w us = Some ls /\ Forall (single w) us /\ (ls = to_line <$> ms \/ ls = msg_text <$> ms).
Lemma plain_carries ms : Forall (fun m => Z.of_nat (length (to_line m)) <= LINE_LIMIT) ms -> carries_messages Plain (to_line <$> ms) ms.
Proof.
  intros Hl. eexists. split; [apply plain_stream|]. split; [|by left]. apply list.Forall_fmap. eapply list.Forall_impl; [exact Hl|].
  intros m Hm. cbn beta in *. destruct (to_vec_text (msg_value m)) as [_ Hn]. apply plain_single; [done|].
  unfold to_line in Hm. rewrite length_app in Hm. cbn [length] in Hm. lia.
Qed.
Lemma framed_carries fs groups ms : decode_all 0 decomp_new fs = Some ((fun ls => concat ls) <$> groups) -> concat groups = to_line <$> ms ->
  carries_messages (Framed decomp_new) fs ms.
Proof.
  intros Hd Hg. destruct (framed_stream fuel _ _ _ Hd) as [Es Hs]. exists (msg_text <$> ms). split_and!; [|done|by right].
  rewrite Es. f_equal. apply chunk_groups; [apply texts_ok|]. by rewrite Hg, lines_texts.
Qed.

Lemma said_messages acc ats ms : Forall msg_ok ms -> length ats = length ms -> forall ls, ls = to_line <$> ms \/ ls = msg_text <$> ms ->
  all_said rx acc (zip ats ls) = fold_left (fun acc tm => understood rx tm.1 acc tm.2) (zip ats ms) acc.
Proof.
  intros Hok. revert acc ats. induction Hok as [|m ms Hm _ IH]; intros acc [|t ats] Hl ls Hls; try done.
  assert (exists l ls', ls = l :: ls' /\ said rx t acc l = understood rx t acc m /\ (ls' = to_line <$> ms \/ ls' = msg_text <$> ms)) as (l & ls' & -> & El & Hls').
  { destruct Hls as [->| ->]; eexists _, _; (split; [reflexivity|]); (split; [|by auto]); [by apply line_understood|by apply message_understood]. }
  unfold all_said. cbn [zip_with fold_left fst snd]. rewrite El. apply IH; [by injection Hl|done].
Qed.
(** What a run of a connection from its start has made of the messages [ms]: what they make the
    server request and pass on, each once and in order, at times their bytes arrived; and while
    the writer's queue has room, the lines it is given ask for exactly the aircraft requested. *)
Definition heard_all (now : Z) (negotiated : string) (evs : list (Z * SEvent)) (s' : Sess) (ms : list ClientMsg) : Prop :=
  (exists ats, length ats = length ms /\ (forall t, t ∈ ats -> t ∈ (evs.*2 ≫= data_of).*1) /\
    (s_requested s', s_sent s') = fold_left (fun acc tm => understood rx tm.1 acc tm.2) (zip ats ms) (∅, [])) /\
  (roomy fuel hb_real wants_stats rx (Sess_new hb_real now negotiated) evs = true -> exists asked,
    requests_queued fuel hb_real wants_stats rx (Sess_new hb_real now negotiated) evs = start_sending_line <$> asked /\
    NoDup (concat asked) /\ s_requested s' = list_to_set (concat asked)).
(** However the bytes of such a stream arrive, the connection has understood its messages,
    each once and in order, at times its bytes arrived. *)
Lemma messages_heard now negotiated c us ms evs s' : compress_of negotiated = Some c -> carries_messages (wire_of c) us ms -> Forall msg_ok ms ->
  (evs.*2 ≫= data_of).*2 = concat us -> undisturbed fuel (wire_of c, [], []) evs = true ->
  run_session fuel hb_real wants_stats rx (Sess_new hb_real now negotiated) evs = Some s' ->
  s_status s' = Running /\ heard_all now negotiated evs s' ms.
Proof.
  intros Hc (ls & Els & Hsingle & Hls) Hok Hdata Hu Hrun.
  destruct (stream_reads fuel (wire_of c) _ ls (evs.*2 ≫= data_of) [] Els Hsingle Hdata) as (w' & out & Eb & Eo & Ht).
  destruct (run_reads fuel hb_real wants_stats rx evs _ _ _ _ _ (session_starts now _ _ Hc) Hu Eb Hrun) as (Hs' & _ & Ha & _).
  assert (length out.*1 = length ms) as Hlen.
  { assert (length ls = length ms) as El by (destruct Hls as [->| ->]; by rewrite length_fmap).
    apply (f_equal length) in Eo. rewrite length_fmap, El in Eo. by rewrite length_fmap. }
  split; [done|]. split; [|intros Hroom; destruct (requests_complete _ _ _ _ _ _ _ Hrun Hroom) as (asked & Eq & Hn & _ & Er); exists asked;
    split_and!; [done|done|]; rewrite Er; set_solver].
  exists out.*1. split_and!; [done|done|]. rewrite <- (said_messages _ _ _ Hok Hlen ls Hls).
  change (acc_of s' = all_said rx (∅, []) (zip out.*1 ls)). rewrite Ha. cbn [snd app]. f_equal. rewrite <- Eo. clear.
  induction out as [|[t l] out IH]; [done|]. cbn. by f_equal.
Qed.
End Messages.

(** ** A simulated client *)
Section Client.
Context `{JsonWriteLaws, JsonText, Hex, Flate, !FlateLaws, Rand, Elem f64, Ln f64}.
Context (program : string).

(** The position a client reports. *)
Definition reported_at (sc : Scenario) (rx : ReceiverSpec) : option (f64 * f64) :=
  match draw_incl (latency_ms_min (network sc)) (latency_ms_max (network sc)) (rng_for (seed (meta sc)) (String.append "net/" (r_id rx))) with
  | inl (_, rng) => Some (reported_pos rx rng).1
  | inr _ => None
  end.
(** Every message it sends is one the server understands. *)
Lemma heartbeats_said fuel t s s' : heartbeats fuel t s = inl s' -> Forall (fun tm => msg_ok tm.2) (k_lines s) -> Forall (fun tm => msg_ok tm.2) (k_lines s').
Proof.
  revert s. induction fuel as [|fuel IH]; intros s; cbn [heartbeats]; (destruct (_ <? _)%f64; [|by intros [= <-]]); [done|].
  intros E Hs. apply (IH _ E). cbn. by apply list.Forall_app_2, list.Forall_singleton.
Qed.
Lemma report_said b t n s : Forall (fun tm => msg_ok tm.2) (k_lines s) -> Forall (fun tm => msg_ok tm.2) (k_lines (report b t n s)).
Proof.
  intros Hs. unfold report. destruct (b_kind b) as [odd| |]; [|by apply list.Forall_app_2, list.Forall_singleton..].
  destruct (k_pending s !! b_icao b) as [p|]; [|done]. destruct (_ && _); [|done].
  destruct odd; by apply list.Forall_app_2, list.Forall_singleton.
Qed.
Lemma receive_said fuel seed rx s b s' : receive fuel seed rx s b = inl s' ->
  Forall (fun tm => msg_ok tm.2) (k_lines s) -> Forall (fun tm => msg_ok tm.2) (k_lines s').
Proof.
  unfold receive. destruct (negb (audible _ _)); [by intros [= <-]|]. destruct (hears _ _ _ _) as [h losses]. destruct (negb h); [by intros [= <-]|].
  destruct (arrival _ _ _) as [t mp]. destruct (heartbeats _ _ _) as [s1|e] eqn:Eh; [|done]. cbn [mbind gen_bind]. intros E Hs.
  apply (heartbeats_said _ _ _ _ Eh) in Hs. clear Eh. destruct (count_at_hostile _ _ _) as [[[count jumped] clock] jit]. injection E as <-. apply report_said.
  assert (Forall (fun tm => msg_ok tm.2) (k_lines (if jumped then say t (ClockJump "jump") (with_streams clock (<[b_icao b := jit]> (k_jit s1)) (k_loss s1) (k_mp s1) s1)
    else with_streams clock (<[b_icao b := jit]> (k_jit s1)) (k_loss s1) (k_mp s1) s1))) as Hj
    by (destruct jumped; [by apply list.Forall_app_2, list.Forall_singleton|done]).
  case_decide; [done|]. by apply list.Forall_app_2, list.Forall_singleton.
Qed.
Lemma receive_all_said fuel seed rx bs s s' : receive_all fuel seed rx s bs = inl s' ->
  Forall (fun tm => msg_ok tm.2) (k_lines s) -> Forall (fun tm => msg_ok tm.2) (k_lines s').
Proof.
  revert s. induction bs as [|b bs IH]; intros s; cbn [receive_all]; [by intros [= <-]|].
  destruct (receive _ _ _ _ _) as [s1|e] eqn:E; [|done]. cbn [mbind gen_bind]. intros E' Hs. by eapply IH, receive_said.
Qed.
Lemma client_says fuel seed rx bs s : receive_all fuel seed rx (CState_new seed rx) bs = inl s -> Forall (fun tm => msg_ok tm.2) (k_lines s).
Proof. intros E. apply (receive_all_said _ _ _ _ _ _ E). by apply list.Forall_singleton. Qed.

(** The messages of a client in the order they are sent, and their lines. *)
Definition message_le (a b : f64 * ClientMsg) : bool := total_le a.1 b.1.
Definition sent_messages (s : CState) : list (f64 * ClientMsg) := stable_sort message_le (k_lines s).
Definition sent_lines (s : CState) : list (f64 * list Z) := (fun tm => (tm.1, to_line tm.2)) <$> sent_messages s.
(** What a second of them may take: a frame is sent with the lines of a second at most. *)
Record paced (n k0 : Z) (s : CState) : Prop := {
  pc_times : Forall (fun tm => (of_Z (k0 - 1) <=? tm.1)%f64 = true /\ (tm.1 <? of_Z n)%f64 = true) (k_lines s);
  pc_first : forall tm rest, sent_messages s = tm :: rest -> (ffloor tm.1 + of_Z 1)%f64 = of_Z k0;
  pc_bytes : forall k, Z.of_nat (second_bytes k (sent_lines s)) <= 64511;
  pc_line : Forall (fun tm => Z.of_nat (length (to_line tm.2)) <= 64511) (k_lines s);
  pc_range : 0 < k0 <= n /\ n < 2 ^ 52
}.
Lemma paced_timed n k0 s : paced n k0 s -> timed_lines n k0 (sent_lines s) /\
  Forall (fun tl => tl.2 <> [] /\ Z.of_nat (length tl.2) <= 64511) (sent_lines s).
Proof.
  intros [Ht _ Hb Hl Hr]. assert (sent_messages s ≡ₚ k_lines s) as Hp by apply stable_sort_perm.
  rewrite <- Hp in Ht, Hl. split; [split; [|by apply list.Forall_fmap|done|done]|].
  - unfold sent_lines. assert (StronglySorted (fun a b => message_le a b = true) (sent_messages s)) as Hs
      by (apply stable_sort_sorted; unfold message_le; intros *; [apply total_le_total|apply total_le_trans]).
    clear Hp Hb. induction Hs as [|tm l Hs IH Hle]; [constructor|]. cbn [fmap list_fmap]. apply list.Forall_cons in Ht as [_ Ht].
    apply list.Forall_cons in Hl as [_ Hl]. constructor; [by apply IH|]. apply list.Forall_fmap.
    rewrite list.Forall_forall in Hle, Ht |- *. intros tm' Hin. cbn [fst]. apply total_le_fle; [exact (Hle _ Hin)|].
    apply (flt_not_nan _ _ (proj2 (Ht _ Hin))).
  - apply list.Forall_fmap. eapply list.Forall_impl; [exact Hl|]. intros tm Hlen. cbn [fst snd]. split; [|done].
    unfold to_line. by destruct (to_vec (msg_value tm.2)).
Qed.

Lemma second_bytes_le k lines : (second_bytes k lines <= length (line_bytes lines))%nat.
Proof.
  unfold second_bytes, line_bytes. induction lines as [|[t l] lines IH]; [done|]. rewrite list.filter_cons. cbn [fmap list_fmap concat snd].
  rewrite length_app. case_decide; cbn [fmap list_fmap concat snd]; rewrite ?length_app; lia.
Qed.
Lemma handshake_agreed rx w lat lon : compress_of (r_compress rx) = Some w -> is_finite lat = true -> is_finite lon = true -> is_finite (r_alt_m rx) = true ->
  exists v a, from_slice (handshake_line (sim_handshake program rx w lat lon)) = Some v /\ accept_handshake v = inl a /\
    ac_negotiated a = r_compress rx /\ ri_user (ac_info a) = r_id rx /\ ac_results a = false.
Proof.
  intros Ew Hlat Hlon Halt. destruct (handshake_understood (sim_handshake program rx w lat lon)) as (v & Ev & Ea).
  exists v. rewrite Ea. unfold handshake_meaning. cbn [sim_handshake Proto.compress user return_results return_stats hs_lat hs_lon hs_alt].
  rewrite Hlat, Hlon, Halt. cbn [andb].
  assert (r_compress rx = compress_name w) as ->; [|destruct w; by eexists].
  unfold compress_of in Ew. destruct (String.eqb_spec (r_compress rx) "none"); [by injection Ew as <-|].
  destruct (String.eqb_spec (r_compress rx) "zlib"); [by injection Ew as <-|].
  destruct (String.eqb_spec (r_compress rx) "zlib2"); [by injection Ew as <-|done].
Qed.

(** C14: the server hears what was simulated: it accepts a simulated client whose reported
    position is finite, under its name and with the compression its scenario asks for, and
    then understands the client's messages (at most 64511 bytes a line, and in any second),
    framed so and cut into reads in any way: it requests the aircraft they announce and
    passes on their syncs and mlats, each once, in the order of their times, and while its
    writer's queue has room its start_sending lines name exactly those aircraft, each once;
    all as long as its timers do not tick in the middle of a line or of a frame; the
    connection is open at the end. *)
Theorem simulated_client_heard gfuel n k0 sc rx bs c s :
  build_client to_line handshake_line program gfuel sc rx bs = inl c ->
  (forall lat lon, reported_at sc rx = Some (lat, lon) -> is_finite lat = true /\ is_finite lon = true) -> is_finite (r_alt_m rx) = true ->
  receive_all gfuel (seed (meta sc)) rx (CState_new (seed (meta sc)) rx) bs = inl s -> paced n k0 s -> n < Z.of_nat gfuel ->
  (exists v a, from_slice (cs_handshake_line c) = Some v /\ accept_handshake v = inl a /\ ac_negotiated a = cs_compress c /\
    ri_user (ac_info a) = r_id rx /\ ac_results a = false) /\
  forall fuel hb_real now wants_stats ref evs s', (evs.*2 ≫= data_of).*2 = concat (sr_bytes <$> cs_records c) ->
  (forall w, compress_of (cs_compress c) = Some w -> undisturbed fuel (wire_of w, [], []) evs = true) ->
  run_session fuel hb_real wants_stats ref (Sess_new hb_real now (cs_compress c)) evs = Some s' ->
  s_status s' = Running /\ heard_all fuel hb_real wants_stats ref now (cs_compress c) evs s' (sent_messages s).*2.
Proof.
  unfold build_client, reported_at. destruct (compress_of (r_compress rx)) as [w|] eqn:Ew; [|done]. intros Hb Hfin Halt Hrec Hp Hn.
  destruct (draw_incl _ _ _) as [[latency net]|]; [|done]. cbn [mbind gen_bind] in Hb. destruct (reported_pos rx net) as [[rlat rlon] net'].
  destruct (Hfin rlat rlon eq_refl) as [Hlat Hlon]. rewrite Hrec in Hb. cbn [mbind gen_bind] in Hb.
  rewrite (stable_sort_fmap (fun tm => (tm.1, to_line tm.2)) message_le line_le) in Hb by done.
  destruct (paced_timed _ _ _ Hp) as [Htl Hlen].
  destruct (records_carry_lines gfuel n k0 (sent_lines s) w (latency / of_Z 1000)%f64 (jitter_ms (network sc) / of_Z 1000)%f64 net')
    as (records & Er & Hc); [done|done| |done|].
  { intros t l rest E. destruct (sent_messages s) as [|tm ms] eqn:Em; unfold sent_lines in E; rewrite Em in E; [done|].
    injection E as <- _ _. by apply (pc_first _ _ _ Hp _ _ Em). }
  unfold sent_lines, sent_messages in Er. rewrite Er in Hb. cbn [mbind gen_bind mret gen_ret] in Hb. injection Hb as <-. cbn [cs_compress cs_records cs_handshake_line].
  split; [by apply handshake_agreed|]. intros fuel hb_real now wants_stats ref evs s' Hdata Hu Hrun. specialize (Hu w Ew).
  assert ((sent_lines s).*2 = to_line <$> (sent_messages s).*2) as Elines by (unfold sent_lines; by rewrite <- !list_fmap_compose).
  assert (sent_messages s ≡ₚ k_lines s) as Hperm by apply stable_sort_perm.
  assert (Forall msg_ok (sent_messages s).*2) as Hok by (apply list.Forall_fmap; rewrite Hperm; by eapply client_says).
  apply (messages_heard fuel hb_real wants_stats ref now (r_compress rx) w (sr_bytes <$> records)); try done.
  assert (w <> CNone -> exists groups, decode_all 0 decomp_new (sr_bytes <$> records) = Some ((fun ls => concat ls) <$> groups) /\
    concat groups = (sent_lines s).*2) as Hgroups by (by destruct w).
  destruct (decide (w = CNone)) as [->|Hw].
  - rewrite Hc, Elines. apply plain_carries. apply list.Forall_fmap. rewrite Hperm. eapply list.Forall_impl; [exact (pc_line _ _ _ Hp)|].
    intros tm Htm. cbn in *. unfold LINE_LIMIT. lia.
  - destruct (Hgroups Hw) as (groups & Ed & Eg). replace (wire_of w) with (Framed decomp_new) by by destruct w.
    eapply framed_carries; [exact Ed|]. by rewrite Eg.
Qed.
End Client.

(** ** A client with one frame per second *)
Section Sample.
#[local] Existing Instance json_coded.
#[local] Existing Instance write_coded.
#[local] Existing Instance write_coded_laws.
#[local] Instance text_heard : JsonText := {| strings_json l := sconcat ["["; String.concat "," l; "]"]%string |}.
#[local] Existing Instance hex_tree.
#[local] Existing Instance flate_stored.
#[local] Existing Instance stored_laws.
#[local] Existing Instance rand_script.
#[local] Existing Instance elem_taylor.
#[local] Existing Instance ln_taylor.
Definition batched : ReceiverSpec :=
  {| r_id := "rx-000"; r_lat := of_Z 47; r_lon := of_Z (-1); r_alt_m := of_Z 40; r_clock := SpecRadarcapeGps (of_Z 10); loss_prob := fzero;
     max_range_km := None; reported_pos_error_m := fzero; multipath_prob := fzero; r_compress := "zlib2" |}.
Definition batched_scenario : Scenario := scenario_of None [].
Definition batched_client : option ClientStream :=
  match build_client to_line handshake_line "p" 61 batched_scenario batched sky_broadcasts with inl c => Some c | inr _ => None end.
Definition batched_wire : list Z := match batched_client with Some c => concat (sr_bytes <$> cs_records c) | None => [] end.
(** Two reads that cut a frame. *)
Definition heard_events : list (Z * SEvent) := [(1, Data (take 5 batched_wire) (of_Z 1)); (2, Data (drop 5 batched_wire) (of_Z 2))].
Definition heard_rx : RxRef := {| rx_idx := 0; rx_gen := 0 |}.
Definition heard_state_ok : bool :=
  match receive_all 61 7 batched (CState_new 7 batched) sky_broadcasts with
  | inl s =>
      forallb (fun tm => (fzero <=? tm.1)%f64 && (tm.1 <? of_Z 60)%f64 && (Z.of_nat (length (to_line tm.2)) <=? 64511)) (k_lines s)
      && match sent_messages s with tm :: _ => bool_decide ((ffloor tm.1 + of_Z 1)%f64 = of_Z 1) | [] => true end
      && (Z.of_nat (length (line_bytes (sent_lines s))) <=? 64511) && (length (k_lines s) =? 6)%nat
  | inr _ => false
  end.
Lemma simulated_client_heard_witness : exists s s',
  receive_all 61 7 batched (CState_new 7 batched) sky_broadcasts = inl s /\ length (k_lines s) = 6%nat /\
  run_session 10 (30 * 10 ^ 9) false heard_rx (Sess_new (30 * 10 ^ 9) 0 "zlib2") heard_events = Some s' /\ s_status s' = Running /\
  heard_all 10 (30 * 10 ^ 9) false heard_rx 0 "zlib2" heard_events s' (sent_messages s).*2 /\
  requests_queued 10 (30 * 10 ^ 9) false heard_rx (Sess_new (30 * 10 ^ 9) 0 "zlib2") heard_events = [start_sending_line ["3c6444"]%string].
Proof.
  assert (heard_state_ok = true) as Hok by (vm_compute; reflexivity). unfold heard_state_ok in Hok.
  destruct (receive_all 61 7 batched (CState_new 7 batched) sky_broadcasts) as [s|e] eqn:Es; [|discriminate Hok].
  apply andb_true_iff in Hok as [Hok Hlen]. apply andb_true_iff in Hok as [Hok Hbytes]. apply andb_true_iff in Hok as [Hall Hfirst].
  rewrite forallb_forall in Hall.
  assert (paced 60 1 s) as Hp.
  { split.
    - apply list.Forall_forall. intros tm Hin. apply list_elem_of_In, Hall in Hin. apply andb_true_iff in Hin as [Hin _]. by apply andb_true_iff in Hin.
    - intros tm rest E. rewrite E in Hfirst. by apply bool_decide_eq_true in Hfirst.
    - intros k. apply Z.leb_le in Hbytes. etransitivity; [|exact Hbytes]. apply inj_le. apply second_bytes_le.
    - apply list.Forall_forall. intros tm Hin. apply list_elem_of_In, Hall in Hin. apply andb_true_iff in Hin as [_ Hin]. by apply Z.leb_le.
    - lia. }
  assert (match batched_client with Some c => (cs_compress c =? "zlib2")%string && undisturbed 10 (wire_of CZlib2, [], []) heard_events | None => false end = true) as Hb
    by (vm_compute; reflexivity).
  unfold batched_client in Hb.
  destruct (build_client to_line handshake_line "p" 61 batched_scenario batched sky_broadcasts) as [c|e] eqn:Ec; [|discriminate Hb].
  apply andb_true_iff in Hb as [Hz%String.eqb_eq Hu].
  assert (match run_session 10 (30 * 10 ^ 9) false heard_rx (Sess_new (30 * 10 ^ 9) 0 "zlib2") heard_events with Some _ => true | None => false end = true) as Hrun
    by (vm_compute; reflexivity).
  destruct (run_session _ _ _ _ _ heard_events) as [s'|] eqn:Er; [|discriminate Hrun].
  destruct (simulated_client_heard "p" 61 60 1 batched_scenario batched sky_broadcasts c s Ec) as [_ Hh]; [|reflexivity|exact Es|exact Hp|lia|].
  { intros lat lon E. vm_compute in E. injection E as <- <-. split; reflexivity. }
  destruct (Hh 10%nat (30 * 10 ^ 9) 0 false heard_rx heard_events s') as (Hs & Hall').
  - unfold heard_events, batched_wire, batched_client. rewrite Ec. generalize (concat (sr_bytes <$> cs_records c)). intros l.
    cbn [fmap list_fmap mbind list_bind snd data_of]. rewrite app_nil_r, fmap_app, <- !list_fmap_compose.
    rewrite <- (take_drop 5 l) at 3. f_equal; apply list_fmap_id.
  - rewrite Hz. by intros w [= <-].
  - rewrite Hz. exact Er.
  - exists s, s'. apply Nat.eqb_eq in Hlen. rewrite Hz in Hall'. split_and!; [reflexivity|exact Hlen|reflexivity|exact Hs|exact Hall'|vm_compute; reflexivity].
Defined.
End Sample.
