(* ===== verification/Link.v ===== *)
(** * A client at the server (crates/mlatc/src/main.rs: server_session; crates/mlatd/src/main.rs: handle_client)

    A session of mlatc with a connection of mlatd: each accepts the other's first line, the
    server understands everything the engine offers, whatever the network does to the bytes,
    and everything the engine offers is of the kind the server understands. *)
From S2P Require Import Prelude F64 Num Text Decimal Results Metrics Geo Proto Framing Beast Engine Frames.
From S2P Require Import ServerState Shard Router Session Wire Client Served.
Local Open Scope Z_scope.

(** ** What the engine says *)
Section Says.
Context `{JsonWriteLaws, Hex, Elem f64, !HashIter Z Aircraft}.
Definition all_ok (out : list Outbound) : Prop := Forall (fun sm => msg_ok sm.2) out.

Lemma to_all_ok (m : ClientMsg) l : msg_ok m -> all_ok ((fun s => (s, m)) <$> l : list Outbound).
Proof. intros Hm. apply list.Forall_fmap, list.Forall_true. by intros. Qed.
Lemma send_where_ok p m l : msg_ok m -> all_ok (send_where p m l).
Proof. intros Hm. apply list.Forall_forall. intros [s m'] [-> _]%elem_of_send_where. done. Qed.
Lemma reception_ok e r now : all_ok (on_reception e r now).2.
Proof.
  unfold on_reception. destruct (check_counter e r) as [e1 out] eqn:Ec.
  assert (all_ok out) as Ho.
  { unfold check_counter in Ec. destruct (last_counter e) as [c|]; [destruct (clock_restarted _ _)|]; injection Ec as _ <-;
      first [by apply to_all_ok|constructor]. }
  destruct (df_of _) as [df|]; [|done]. destruct (df =? 17).
  - destruct (negb _); [done|]. destruct (parse_df17_airborne _) as [d|]; [|done].
    destruct (pair_sync _ _ _ _ _) as [e2 out2] eqn:Ep. apply list.Forall_app_2; [done|]. unfold pair_sync in Ep.
    destruct (aircraft _ !! _) as [a|]; [|injection Ep as _ <-; constructor].
    destruct (even_msg _), (odd_msg _); try (injection Ep as _ <-; constructor; fail).
    destruct (_ >? _)%f64; injection Ep as _ <-; [constructor|]. by apply send_where_ok.
  - destruct (mlat_address _ _ _ _) as [[addr e2]|]; [|done]. destruct (aircraft _ !! _); [|done].
    apply list.Forall_app_2; [done|]. by apply send_where_ok.
Qed.
Lemma tick_says e now : all_ok (tick e now).2.
Proof.
  unfold tick. cbv zeta. set (out := announcements _ _ _). assert (all_ok out) as Ho.
  { apply list.Forall_forall. intros [s m] (s' & Hin & _)%list_elem_of_bind. unfold told_lists in Hin. apply elem_of_app in Hin as [Hin|Hin];
      destruct (_ !!! _); [by apply elem_of_nil in Hin|by apply list_elem_of_singleton in Hin as [= _ ->]..|by apply elem_of_nil in Hin|by apply list_elem_of_singleton in Hin as [= _ ->]]. }
  destruct (_ >=? _)%f64; [|done]. case_bool_decide; [done|]. apply list.Forall_app_2; [done|]. apply to_all_ok. cbn [msg_ok].
  generalize (hash_iter (aircraft (set_aircraft (kept (sweep now (n_servers e) (hash_iter (aircraft e)))) e))). intros l.
  assert (forall rates, map_Forall (fun (_ : string) v => leaf v) rates ->
    map_Forall (fun (_ : string) v => leaf v) (fold_left (rate_entry (as_secs_f64 (duration_since now (last_rate_report e)))) l rates)) as Hall.
  { induction l as [|[addr a] l IH]; intros rates Hr; [done|]. cbn [fold_left]. apply IH. unfold rate_entry.
    destruct (num_of_f64 _); [|done]. apply map_Forall_insert_2; [constructor|done]. }
  apply Hall, map_Forall_empty.
Qed.
(** Every message the engine's task offers to the servers. *)
Lemma engine_says n eng ev now : all_ok (engine_event n eng ev now).2.
Proof.
  destruct ev as [[rs| | | | |]|]; cbn [engine_event snd]; try constructor; [|by apply to_all_ok..|apply tick_says].
  unfold on_receptions. assert (forall acc, all_ok acc.2 -> all_ok (fold_left (fun acc r => let '(e, out) := on_reception acc.1 r now in (e, acc.2 ++ out)) rs acc).2) as Hall.
  { induction rs as [|r rs IH]; intros acc Ha; [done|]. cbn [fold_left]. apply IH. pose proof (reception_ok acc.1 r now) as Hr.
    destruct (on_reception _ _ _). by apply list.Forall_app_2. }
  apply Hall. constructor.
Qed.
End Says.

(** ** A session *)
Section Session.
Context `{JsonWriteLaws, JsonText, Hex, Flate, !FlateLaws, Elem f64, !HashIter Z Aircraft}.
Context (program : string).
(** The text of the server's reply is JSON with its fields. *)
Hypothesis reply_reads : forall a, ac_negotiated a ∈ ["zlib2"; "zlib"; "none"]%string -> exists v,
  from_slice (bytes_of (reply_line a)) = Some v /\ jget v "deny" = None /\ jget v "compress" ≫= as_str = Some (ac_negotiated a).

(** An event of a session: its message, if it has one, is of the engine's kind and fits. *)
Definition sendable (ev : CEvent) : Prop := forall m, up_message ev = Some m -> msg_ok m /\ Z.of_nat (length (to_line m)) <= LINE_MAX.
(** At a finite position the server accepts the handshake, and the client the reply. *)
Lemma session_opens user_name uid lat lon alt clk want_results stats : is_finite lat = true -> is_finite lon = true -> is_finite alt = true ->
  exists v a, from_slice (handshake_line (client_handshake user_name uid lat lon alt clk want_results stats program)) = Some v /\
    accept_handshake v = inl a /\ ri_user (ac_info a) = user_name /\ ri_freq_hz (ac_info a) = freq_hz clk /\
    ri_geo (ac_info a) = {| lat_deg := float_value lat; lon_deg := float_value lon; alt_m := float_value alt |} /\
    ri_gps (ac_info a) = bool_decide (clk = RadarcapeGps) /\ ac_results a = want_results /\ ac_stats a = stats /\ ac_negotiated a = "zlib2"%string /\
    session_open (bytes_of (reply_line a)) = inl (CSess_new CZlib2).
Proof.
  intros Hlat Hlon Halt.
  destruct (handshake_understood (client_handshake user_name uid lat lon alt clk want_results stats program)) as (v & Ev & Ea).
  exists v. rewrite Ea. unfold handshake_meaning. cbn [client_handshake Proto.compress user return_results return_stats clock_type hs_lat hs_lon hs_alt].
  rewrite Hlat, Hlon, Halt. cbn [andb].
  eexists. split; [done|]. split; [reflexivity|]. cbn [ac_info ri_user ri_freq_hz ac_results ac_stats ac_negotiated default].
  split_and!; try done; [by destruct stats|]. set (a := {| ac_info := _ |}).
  destruct (reply_reads a) as (r & Er & Ed & Ecomp); [by left|]. 
  assert (exists b l, bytes_of (reply_line a) = b :: l) as (b & l & El) by (eexists _, _; reflexivity).
  unfold session_open, parse_handshake_reply. rewrite Er, Ed, Ecomp, El. done.
Qed.

(** C3: a session of mlatc with a connection of mlatd. At a finite position the server accepts
    the handshake with the client's name and the results and statistics it asks for, the
    compression is zlib2, and the client accepts the reply with it. Then, whatever messages the
    engine offers (of at most 31742 bytes of JSON), timers and lines of the server, with a
    message or a flush between two heartbeats, what a flush of the session has sent, cut into
    reads in any way, makes the server request and pass on exactly what the messages say, each
    once and in order, and while its writer's queue has room its start_sending lines name exactly
    the aircraft announced, each once; as long as its timers do not tick in the middle of a
    frame; the connection is open at the end. *)
Theorem client_meets_server user_name uid lat lon alt clk want_results stats : is_finite lat = true -> is_finite lon = true -> is_finite alt = true ->
  (exists v a, from_slice (handshake_line (client_handshake user_name uid lat lon alt clk want_results stats program)) = Some v /\
    accept_handshake v = inl a /\ ri_user (ac_info a) = user_name /\ ri_freq_hz (ac_info a) = freq_hz clk /\
    ac_results a = want_results /\ ac_stats a = stats /\ ac_negotiated a = "zlib2"%string /\
    session_open (bytes_of (reply_line a)) = inl (CSess_new CZlib2)) /\
  forall fuel idx evs now s, Forall sendable evs.*2 ->
  spaced false evs.*2 = true ->
  c_run to_line fuel idx stats (CSess_new CZlib2) (evs ++ [(now, CFlush)]) = Some (inl s) ->
  forall fuel' hb_real start wants_stats ref evs' s', (evs'.*2 ≫= data_of).*2 = concat (c_wire s) ->
  undisturbed fuel' (Framed decomp_new, [], []) evs' = true ->
  run_session fuel' hb_real wants_stats ref (Sess_new hb_real start "zlib2") evs' = Some s' ->
  s_status s' = Running /\ heard_all fuel' hb_real wants_stats ref start "zlib2" evs' s' (omap up_message evs.*2).
Proof.
  intros Hlat Hlon Halt. split.
  - destruct (session_opens user_name uid lat lon alt clk want_results stats Hlat Hlon Halt) as (v & a & ? & ? & ? & ? & _ & _ & ? & ? & ? & ?). by exists v, a.
  - intros fuel idx evs now s Hev Hsp Hrun fuel' hb_real start wants_stats ref evs' s' Hdata Hu Hrun'.
    assert ((evs.*2 ≫= up_lines to_line) = to_line <$> omap up_message evs.*2) as Elines.
    { clear. induction evs.*2 as [|ev l IH]; [done|]. cbn [mbind list_bind omap list_omap]. rewrite IH. unfold up_lines. by destruct (up_message ev). }
    assert (Forall msg_ok (omap up_message evs.*2)) as Hok.
    { apply list.Forall_forall. intros m (ev & Hin & Em)%list_elem_of_omap. rewrite list.Forall_forall in Hev. by apply (Hev ev Hin). }
    apply (messages_heard fuel' hb_real wants_stats ref start "zlib2" CZlib2 (c_wire s)); try done.
    destruct (uplink_delivers to_line CZlib2 fuel idx stats evs now) as [Hgo _]; [|done|].
    { eapply list.Forall_impl; [exact Hev|]. intros ev Hm. unfold sendable in Hm. unfold up_lines. destruct (up_message ev) as [m|] eqn:Em; cbn; [|constructor].
      apply list.Forall_singleton. split; [|by apply (Hm m)]. unfold to_line. by destruct (to_vec (msg_value m)). }
    destruct (Hgo s Hrun) as (groups & Hd & Hg). eapply framed_carries; [exact Hd|]. by rewrite Hg.
Qed.
End Session.

(** ** A session that announces an aircraft and sends a frame of it *)
Section Sample.
#[local] Existing Instance flate_stored.
#[local] Existing Instance stored_laws.
#[local] Existing Instance elem_taylor.
#[local] Existing Instance hex_tree.
#[local] Instance text_linked : JsonText := {| strings_json l := sconcat ["["; String.concat "," l; "]"]%string |}.
#[local] Instance aircraft_order : HashIter Z Aircraft := hash_iter_list Z Aircraft.
(** The replies, as JSON. *)
Definition reply_of (n : string) (results stats : bool) : Accepted :=
  let geo := {| lat_deg := fzero; lon_deg := fzero; alt_m := fzero |} in
  {| ac_info := {| ri_user := EmptyString; ri_ecef := to_ecef geo; ri_geo := geo; ri_freq_hz := fzero; ri_gps := false; ri_jitter_s := fzero |};
     ac_negotiated := n; ac_results := results; ac_stats := stats |}.
Definition replies : list Accepted :=
  n ← ["zlib2"; "zlib"; "none"]%string; results ← [true; false]; stats ← [true; false]; [reply_of n results stats].
Definition reply_table (l : list Z) : option Tree :=
  head (omap (fun a => if decide (l = stripped (bytes_of (reply_line a))) then Some (TObj [("compress"%string, TStr (ac_negotiated a))]) else None) replies).
#[local] Instance json_linked : Json := json_coding reply_table.
#[local] Instance write_linked : JsonWrite := write_coding reply_table.
#[local] Instance linked_laws : JsonWriteLaws := coding_laws reply_table.
Lemma linked_replies a : ac_negotiated a ∈ ["zlib2"; "zlib"; "none"]%string -> exists v,
  from_slice (bytes_of (reply_line a)) = Some v /\ jget v "deny" = None /\ jget v "compress" ≫= as_str = Some (ac_negotiated a).
Proof.
  destruct a as [info n results stats]. cbn [ac_negotiated]. intros Hn. rewrite !elem_of_cons, elem_of_nil in Hn.
  change (reply_line {| ac_info := info; ac_negotiated := n; ac_results := results; ac_stats := stats |}) with (reply_line (reply_of n results stats)).
  destruct Hn as [->|[->|[->|[]]]]; destruct results, stats; (eexists; split; [vm_compute; reflexivity|split; reflexivity]).
Qed.
Definition link_events : list (Z * CEvent) :=
  [(1, CUp (Seen ["3C6444"]%string)); (2, CFlush); (3, CHeartbeat); (4, CUp (Mlat (inl 5) "8d"%string))].
Definition link_session : option CSess := match c_run to_line 10 0 true (CSess_new CZlib2) (link_events ++ [(5, CFlush)]) with Some (inl s) => Some s | _ => None end.
Definition link_wire : list Z := match link_session with Some s => concat (c_wire s) | None => [] end.
(** Two reads that cut a frame. *)
Definition link_reads : list (Z * SEvent) := [(1, Data (take 7 link_wire) (of_Z 1)); (2, Data (drop 7 link_wire) (of_Z 2))].
Definition link_ref : RxRef := {| rx_idx := 0; rx_gen := 0 |}.
Lemma client_meets_server_witness : exists s s',
  c_run to_line 10 0 true (CSess_new CZlib2) (link_events ++ [(5, CFlush)]) = Some (inl s) /\
  run_session 10 (30 * 10 ^ 9) false link_ref (Sess_new (30 * 10 ^ 9) 0 "zlib2") link_reads = Some s' /\ s_status s' = Running /\
  heard_all 10 (30 * 10 ^ 9) false link_ref 0 "zlib2" link_reads s' [Seen ["3C6444"]; heartbeat_now; Mlat (inl 5) "8d"]%string /\
  requests_queued 10 (30 * 10 ^ 9) false link_ref (Sess_new (30 * 10 ^ 9) 0 "zlib2") link_reads = [start_sending_line ["3c6444"]%string].
Proof.
  assert (match link_session with Some _ => undisturbed 10 (Framed decomp_new, [], []) link_reads | None => false end = true) as Hs by (vm_compute; reflexivity).
  assert (match run_session 10 (30 * 10 ^ 9) false link_ref (Sess_new (30 * 10 ^ 9) 0 "zlib2") link_reads with Some _ => true | None => false end = true) as Hr
    by (vm_compute; reflexivity).
  destruct (run_session _ _ _ _ _ link_reads) as [s'|] eqn:Er; [|discriminate Hr].
  unfold link_session in Hs. destruct (c_run _ _ _ _ _ _) as [[s|e]|] eqn:Ec; [|discriminate Hs..].
  destruct (client_meets_server "mlatc" linked_replies "u" None (of_Z 47) (of_Z (-1)) (of_Z 40) Dump1090 true true eq_refl eq_refl eq_refl) as [_ Hh].
  destruct (Hh 10%nat 0%nat link_events 5 s) with (fuel' := 10%nat) (hb_real := 30 * 10 ^ 9) (start := 0) (wants_stats := false) (ref := link_ref)
    (evs' := link_reads) (s' := s') as (Hrun & Ha).
  - apply list.Forall_forall. intros ev Hin m Hm. unfold link_events in Hin. cbn in Hin. rewrite !elem_of_cons, elem_of_nil in Hin.
    destruct Hin as [->|[->|[->|[->|[]]]]]; try discriminate Hm; injection Hm as <-; (split; [done|vm_compute; discriminate]).
  - reflexivity.
  - exact Ec.
  - unfold link_reads, link_wire, link_session. rewrite Ec. generalize (concat (c_wire s)). intros l. cbn [fmap list_fmap mbind list_bind snd data_of].
    rewrite app_nil_r, fmap_app, <- !list_fmap_compose. rewrite <- (take_drop 7 l) at 3. f_equal; apply list_fmap_id.
  - exact Hs.
  - exact Er.
  - exists s, s'. split_and!; [reflexivity|reflexivity|exact Hrun|exact Ha|vm_compute; reflexivity].
Defined.
End Sample.
