(* ===== verification/Run.v ===== *)
(** * A run (crates/mlat-bench/src/runcmd.rs: run, replay_capture, drive)

    A capture is opened, every client fed by a task of its own, the server's lines logged, the
    run's file written and, if nothing failed, the run scored.  The container of the server,
    the collectors of its files and the directories are the environment: what they leave is
    an argument. *)
From S2P Require Import Prelude F64 F64Int F64Bound Num Text Decimal Results Metrics Geo.
From S2P Require Import Proto Framing Capture Replay Trajectory SimClock Scenario Gen GenCmd ScoreCmd.
Local Open Scope Z_scope.

Definition DRAIN_S : Z := 30.
(** How long after its start a run ends, in nanoseconds; [None]: a panic. *)
Definition stop_after (speed : f64) (duration_s : Z) : option Z := duration_from_secs (of_Z (u64 (duration_s + DRAIN_S)) / speed)%f64.

Section Code.
Context `{Codec, Json, Elem f64, !HashIter Z (list Z), Rand}.
Context (toml_parse : list Z -> option Scenario).
(** JSON of a float, of an array and of nothing, and [Display] of a float. *)
Context (num : f64 -> Value) (arr : list Value -> Value) (null : Value) (fmt_float : f64 -> string).

Definition format_speed (speed : f64) : string :=
  if (fabs (speed - fround speed) <? lit 1 1000000000)%f64 then fmt_nat (F64.as_u64 (fround speed)) else fmt_float speed.

(** Awaiting the clients' tasks: the failures are counted; a task that panicked ends the run. *)
Fixpoint await_clients (failed : Z) (ends : list (option FeedError)) : option Z :=
  match ends with
  | [] => Some failed
  | Some FeedPanic :: _ => None
  | Some _ :: ends => await_clients (u32 (failed + 1)) ends
  | None :: ends => await_clients failed ends
  end.
(** What the tasks sent and how many failed. *)
Definition drive (dir : Dir) (m : Manifest) (speed : f64) (nets : list Net) : list (list Sent) * option Z :=
  let fed := zip_with (fun entry net => feed_client dir entry speed net) (m_clients m) nets in
  (fed.*1, await_clients 0 fed.*2).

(** The run's file. *)
Definition status_text (ok : bool) : string := if ok then "ok" else "failed".
Definition anchor_json (a : option (f64 * f64)) : Value := match a with Some (r, h) => arr [num r; num h] | None => null end.
Definition run_file (ok : bool) (capture : string) (duration_s : Z) (wall_t0 speed : f64) (anchor : option (f64 * f64)) : Value :=
  vobject [("status", vstr (status_text ok)); ("capture", vstr capture); ("duration_s", vnum (num_of_u64 duration_s)); ("wall_t0", num wall_t0);
    ("speed", num speed); ("hb_anchor", anchor_json anchor)]%string.

Inductive RunError := RunSpeed | RunCapture (e : CaptureError) | RunOracle | RunPanic.
(** The outcome of a run: its file and, when no task panicked, its score. *)
Definition replay_capture (dir : Dir) (capture : string) (speed : f64) (oracle_up : bool) (wall_t0 : f64) (nets : list Net)
    (evs : list (string * f64 * list Z)) (csv resource_log : option string) : (Value * option (Metrics + ScoreError)) + RunError :=
  if negb (speed_ok speed) then inr RunSpeed
  else
    match open dir with
    | inr e => inr (RunCapture e)
    | inl m =>
        if negb oracle_up then inr RunOracle
        else
          match stop_after speed (m_duration_s m) with
          | None => inr RunPanic
          | Some _ =>
              let '(_, result) := drive dir m speed nets in
              let log := fold_left (reader_line speed) evs RunLog_new in
              let ok := match result with Some _ => true | None => false end in
              let file := run_file ok capture (m_duration_s m) wall_t0 speed (rl_anchor log) in
              inl (file, if ok then Some (score_cmd toml_parse file dir csv resource_log) else None)
          end
    end.
End Code.

(** ** The log of the server's lines *)
Section Log.
Context `{Json}.
Definition lines_of (id : string) (evs : list (string * f64 * list Z)) : list (f64 * list Z) :=
  omap (fun ev => if decide (ev.1.1 = id) then Some (ev.1.2, ev.2) else None) evs.
(** Whatever the interleaving, the log of a client has its lines in order, the counter is that
    of all results and the anchor is chosen among the heartbeats of all clients. *)
Theorem run_log speed evs : let log := fold_left (reader_line speed) evs RunLog_new in
  (forall id, default [] (rl_out log !! id) = lines_of id evs ≫= (fun tl => log_entry tl.1 tl.2)) /\
  rl_count log = u64 (Z.of_nat (length (filter (fun ev => is_result ev.2 = true) evs))) /\
  rl_anchor log = fold_left (hb_anchor speed) (omap (fun ev => heartbeat_of ev.1.2 ev.2) evs) None.
Proof.
  cbv zeta. induction evs as [|[[id0 now] line] evs IH] using rev_ind; [split_and!; [intros id; cbn [fold_left RunLog_new rl_out]; by rewrite lookup_empty|done|done]|].
  rewrite fold_left_snoc. destruct IH as (Ho & Hc & Ha). set (log := fold_left (reader_line speed) evs RunLog_new) in *.
  unfold lines_of. cbn [reader_line rl_out rl_count rl_anchor]. split_and!.
  - intros id. rewrite omap_app, bind_app. fold (lines_of id evs). rewrite <- Ho. cbn [omap list_omap fst snd].
    case_decide as Hid; [subst id0; rewrite lookup_insert_eq; cbn; by rewrite app_nil_r|].
    rewrite lookup_insert_ne by done. cbn. by rewrite app_nil_r.
  - rewrite list.filter_app, length_app, Hc. rewrite list.filter_cons. cbn [snd]. destruct (is_result line).
    + rewrite decide_True by done. cbn [length filter list_filter]. unfold wrap. rewrite Zplus_mod_idemp_l. f_equal. lia.
    + rewrite decide_False by done. cbn [length filter list_filter]. f_equal. lia.
  - rewrite omap_app, fold_left_app, <- Ha. cbn [omap list_omap fst snd]. by destruct (heartbeat_of now line).
Qed.
(** A heartbeat read with the least delay: no other has a later server time for the local
    time it was read at, the run's speed being that of the server's clock. *)
Definition least_delayed (speed : f64) (hbs : list (f64 * f64)) (a : option (f64 * f64)) : Prop :=
  match a with
  | None => hbs = []
  | Some x => x ∈ hbs /\ forall y, y ∈ hbs -> (y.2 - speed * y.1 >? x.2 - speed * x.1)%f64 = false
  end.
Lemma anchor_least (speed : f64) hbs : least_delayed speed hbs (fold_left (hb_anchor speed) hbs None).
Proof.
  induction hbs as [|hb hbs IH] using rev_ind; [done|]. rewrite fold_left_snoc. destruct (fold_left _ hbs None) as [x|]; cbn [least_delayed] in IH.
  - destruct IH as [Hx Hmax]. unfold hb_anchor, hb_better. destruct x as [pa ph]. cbn [fst snd] in Hmax.
    destruct (_ >? _)%num eqn:Eb; cbn [least_delayed].
    + split; [set_solver|]. intros y [Hy| ->%list_elem_of_singleton]%elem_of_app; [|by apply flt_irrefl].
      specialize (Hmax y Hy). apply not_true_iff_false. intros Hc. apply not_true_iff_false in Hmax. apply Hmax. eapply flt_trans; [exact Eb|exact Hc].
    + split; [set_solver|]. intros y [Hy| ->%list_elem_of_singleton]%elem_of_app; [by apply Hmax|exact Eb].
  - subst hbs. cbn. split; [by left|]. intros y ->%list_elem_of_singleton. by apply flt_irrefl.
Qed.
End Log.

(** ** A run of a generated capture *)
Section Generated.
Context `{Codec, !CodecLaws, Json, Hex, Flate, Rand, Elem f64, Ln f64, !HashIter Z (list Z)}.
Context (msg_line : ClientMsg -> list Z) (hs_line : Handshake -> list Z) (program : string).
Context (toml_parse : list Z -> option Scenario) (row_json : AudibilityRow -> list Z).
Context (num : f64 -> Value) (arr : list Value -> Value) (null : Value).
(** JSON: the keys of an object, the elements of an array, and a float. *)
Hypothesis object_get : forall (l : list (string * Value)) k v, list_find (fun kv => kv.1 = k) l = Some v -> jget (vobject l) k = Some v.2.2.
Hypothesis array_get : forall l, as_array (arr l) = Some l.
Hypothesis null_array : as_array null = None.
Hypothesis num_get : forall x y, json_f64 x = Some y -> as_f64 (num x) = Some y.

Lemma feed_no_panic dir entry speed net z rs e : client_records entry dir = inl z -> records z = (rs, e) -> accepted_speed speed ->
  Forall (fun r => 0 <= t_nanos r < 2 ^ 64) rs -> (feed_client dir entry speed net).2 <> Some FeedPanic.
Proof.
  intros Hz Hr Hs Ht. unfold feed_client. rewrite Hz, Hr. destruct rs as [|first rest]; [by destruct e|].
  destruct (negb _); [done|]. destruct (negb _); [done|]. destruct (net_fails net 0); [done|]. destruct (net_reply net) as [l| | |]; [|done..].
  destruct (check_reply entry l) as [x|] eqn:Ec.
  { intros [= ->]. unfold check_reply in Ec. destruct (parse_handshake_reply l) as [[]|]; try done. destruct (compress_of _); [|done]. by case_decide. }
  apply list.Forall_cons in Ht as [_ Ht]. apply (c2s_deadlines _ _ Hs) in Ht. rewrite list.Forall_lookup in Ht.
  destruct (feed_records_spec speed (net_fails net) 1 rest e) as (n & _ & E2).
  destruct (feed_records _ _ _ _ _) as [sent x]. cbn [snd] in *. intros ->. destruct E2 as (r & Hlk & Hnone).
  destruct (Ht n r Hlk) as [d Hd]. congruence.
Qed.
Lemma await_some failed ends : Some FeedPanic ∉ ends -> is_Some (await_clients failed ends).
Proof.
  revert failed. induction ends as [|x ends IH]; intros failed Hn; [by eexists|]. apply not_elem_of_cons in Hn as [Hx Hn].
  cbn [await_clients]. destruct x as [[]|]; try (by apply IH). done.
Qed.
Lemma stop_some speed d : accepted_speed speed -> 0 <= d < 2 ^ 60 -> is_Some (stop_after speed d).
Proof.
  intros (m & e & -> & He & Hm)%accepted_above Hd. unfold stop_after, DRAIN_S. rewrite wrap_small by lia.
  apply (duration_bounded 63); [|lia]. apply (div_bounded 62 0); [|done|by rewrite Z.sub_0_l|lia]. apply (of_Z_bounded _ 61); lia.
Qed.

Definition reread_anchor (a : option (f64 * f64)) : option (option (f64 * f64)) :=
  match a with None => Some None | Some (r, h) => r ← json_f64 r; h ← json_f64 h; Some (Some (r, h)) end.
Lemma file_start ok capture d w s a w' s' a' : json_f64 w = Some w' -> json_f64 s = Some s' -> reread_anchor a = Some a' ->
  run_wall_t0 (run_file num arr null ok capture d w s a)
  = match score_wall_t0 a' s' w' with Some t => inl t | None => inr ScoreNoAnchor end.
Proof.
  intros Hw Hs Ha. unfold run_wall_t0, run_anchor, run_file. set (l := [_; _; _; _; _; _]).
  rewrite (object_get l "wall_t0" (3%nat, ("wall_t0"%string, num w))), (object_get l "speed" (4%nat, ("speed"%string, num s))),
    (object_get l "hb_anchor" (5%nat, ("hb_anchor"%string, anchor_json num arr null a))) by done.
  cbn [mbind option_bind snd default]. rewrite (num_get _ _ Hw), (num_get _ _ Hs). destruct a as [[r h]|]; cbn [anchor_json reread_anchor] in *.
  - destruct (json_f64 r) as [r'|] eqn:Hr; [|done]. destruct (json_f64 h) as [h'|] eqn:Hh; [|done]. injection Ha as <-.
    rewrite array_get. cbn [mbind option_bind lookup list_lookup]. rewrite (num_get _ _ Hr). cbn [mbind option_bind]. by rewrite (num_get _ _ Hh).
  - injection Ha as <-. by rewrite null_array.
Qed.
(** C32: a run of a generated capture is scored whatever the network does to its clients: at a
    speed the command accepts no deadline panics and a client that fails only counts as
    failed; the run's anchor is a heartbeat read with the least delay among all clients', that
    is, one whose server time less its local time at the run's speed no other exceeds, and
    there is one as soon as a heartbeat was read; the score is against what was generated, the
    start mapped through the anchor (unless the run was accelerated and had none), the floats
    of the run's file and of the truth as JSON gives them back; and the unknown ghosts are
    exactly the rows of addresses that the scenario does not have. *)
Theorem run_scored fuel text sc cap points m' dir capture speed wall_t0 nets evs csv log speed' wall' :
  from_toml toml_parse text = Some sc -> generate msg_line hs_line program fuel sc = inl cap ->
  gen_cmd msg_line hs_line program toml_parse row_json fuel text None = inl dir ->
  Forall sized (clients cap) -> mapM reread_point (Gen.truth cap) = Some points ->
  Forall (row_reads row_json) (audibility cap) ->
  let m := gen_manifest sc (sha256_hex text) (zip_with gen_entry (clients cap) (receivers sc)) in
  reread_manifest m = Some m' -> 1 <= duration_s (meta sc) < 2 ^ 60 -> accepted_speed speed ->
  let heartbeats := omap (fun ev => heartbeat_of ev.1.2 ev.2) evs in
  json_f64 speed = Some speed' -> json_f64 wall_t0 = Some wall' ->
  exists anchor, least_delayed speed heartbeats anchor /\
  exists outcome, replay_capture toml_parse num arr null dir capture speed true wall_t0 nets evs csv log
      = inl (run_file num arr null true capture (duration_s (meta sc)) wall_t0 speed anchor, Some outcome) /\
    forall anchor', reread_anchor anchor = Some anchor' ->
    match score_wall_t0 anchor' speed' wall' with
    | None => outcome = inr ScoreNoAnchor
    | Some t0 => let rows := parse_results_csv (default EmptyString csv) in
        exists scored, outcome = inl scored /\ ghosts_unknown_icao scored = strangers sc rows /\
          scored = score (build points) rows t0 (row_second <$> audibility cap) (mlat_targets sc) (known_untruthed sc)
                     (omap resource_line (lines (default EmptyString log)))
    end.
Proof.
  intros Hsc Hcap Hdir Hsz Htr Hrows m Hm Hdur Hsp heartbeats Hs Hw.
  destruct (gen_cmd_contents msg_line hs_line program toml_parse row_json fuel text sc cap points m' dir Hsc Hcap Hdir Hsz Htr Hm) as (Ho & _ & _ & _ & Hrec).
  destruct (run_log speed evs) as (_ & _ & Ha). set (anchor := fold_left (hb_anchor speed) heartbeats None).
  exists anchor. split; [apply anchor_least|].
  assert (m_duration_s m' = duration_s (meta sc)) as Edur by (by apply reread_manifest_some in Hm as (? & _ & ->)).
  assert (is_Some (drive dir m' speed nets).2) as [failed Hdrive].
  { apply await_some. intros ((sent & x) & E & (i & Hi)%list_elem_of_lookup_1)%list_elem_of_fmap.
    apply lookup_zip_with_Some in Hi as (entry' & net & E' & Hi' & _). destruct (reread_entries _ _ _ _ Hm Hi') as (e & Hie & He).
    apply lookup_zip_with_Some in Hie as (c & rx & -> & Hc & Hrx). destruct (reread_entry_same _ _ He) as (_ & Hfile & _).
    destruct (Hrec c entry') as (z & Hz & Hz'); [by eapply list_elem_of_lookup_2|by rewrite Hfile|].
    eapply (feed_no_panic dir entry' speed net z); [exact Hz|exact Hz'|done| |].
    - constructor; [cbn; lia|]. apply list.Forall_fmap. pose proof (generate_timed _ _ _ _ _ _ Hcap) as Ht. rewrite list.Forall_lookup in Ht. exact (Ht i c Hc).
    - rewrite <- E'. by rewrite <- E. }
  destruct (stop_some speed (m_duration_s m') Hsp) as [stop Hstop]; [lia|].
  unfold replay_capture. destruct Hsp as [Hok Hv]. rewrite Hok, Ho. cbn [negb]. rewrite Hstop.
  destruct (drive dir m' speed nets) as [sents result]. cbn [snd] in Hdrive. subst result.
  rewrite Ha, Edur. fold heartbeats anchor. eexists. split; [reflexivity|]. intros anchor' Hr.
  pose proof (file_start true capture (duration_s (meta sc)) wall_t0 speed anchor _ _ _ Hw Hs Hr) as Hfile. set (file := run_file _ _ _ _ _ _ _ _ _) in *.
  destruct (score_wall_t0 _ speed' wall') as [t0|].
  - destruct (generated_run_scored msg_line hs_line program toml_parse row_json fuel text sc cap points m' dir file t0 csv log Hsc Hcap Hdir Hsz Htr Hrows Hm ltac:(lia) Hfile)
      as [Es Eg]. eexists. by rewrite Es.
  - unfold score_cmd. by rewrite Hfile.
Qed.
End Generated.

(** ** A run whose client cannot connect *)
Section Sample.
#[local] Existing Instance json_scored.
#[local] Existing Instance hex_tree.
#[local] Existing Instance flate_stored.
#[local] Existing Instance rand_script.
#[local] Existing Instance elem_taylor.
#[local] Existing Instance ln_taylor.
#[local] Existing Instance codec_stored.
#[local] Existing Instance codec_stored_laws.
#[local] Existing Instance seconds_order.
Definition run_num (x : f64) : Value := TNum (inr x).

Lemma run_object (l : list (string * Value)) k v : list_find (fun kv => kv.1 = k) l = Some v -> jget (vobject l) k = Some v.2.2.
Proof.
  destruct v as [i [k' x]]. intros (Hi & Hk & Hb)%list_find_Some. cbn in *. subst k'. revert i Hi Hb.
  induction l as [|[k1 x1] l IH]; intros i Hi Hb; [done|]. cbn [assoc]. destruct i as [|i]; cbn in Hi.
  - injection Hi as -> ->. by rewrite String.eqb_refl.
  - pose proof (Hb 0%nat (k1, x1) eq_refl ltac:(lia)) as Hne. cbn in Hne. rewrite (proj2 (String.eqb_neq k k1)) by congruence.
    apply (IH i Hi). intros j y Hj Hlt. apply (Hb (S j) y Hj). lia.
Qed.
Definition no_net : Net := {| net_connects := false; net_reply := ReplyClosed; net_fails _ := false |}.
Definition run_heard : list (string * f64 * list Z) := [("rx-000", of_Z 1001, [72]); ("rx-000", of_Z 1002, [1])]%string.
Definition run_dir : Dir := match gen_cmd text_of hello_of "p" second_of one_row 20 [] None with inl d => d | inr _ => None end.
Example run_fails_client : (drive run_dir second_read (of_Z 4) [no_net]).2 = Some 1.
Proof. vm_compute. reflexivity. Qed.
(** A float of the file, as it is read: its last digit is lost. *)
Definition read_num (x : f64) : Value := match json_f64 x with Some y => TNum (inr y) | None => TNull end.
Lemma read_num_get x y : json_f64 x = Some y -> as_f64 (read_num x) = Some y.
Proof. unfold read_num. intros ->. reflexivity. Qed.
Lemma run_scored_witness : exists dir file scored, gen_cmd text_of hello_of "p" second_of one_row 20 [] None = inl dir /\
  replay_capture second_of read_num TArr TNull dir "c" (of_Z 4) true (of_Z 1000) [no_net] run_heard (Some csv_text) None = inl (file, Some (inl scored)) /\
  ghosts_unknown_icao scored = 1%nat.
Proof.
  assert (match gen_cmd text_of hello_of "p" second_of one_row 20 [] None with inl _ => true | inr _ => false end = true) as Hd by (vm_compute; reflexivity).
  destruct (gen_cmd text_of hello_of "p" second_of one_row 20 [] None) as [dir|e] eqn:Ed; [|discriminate Hd].
  destruct (run_scored text_of hello_of "p" second_of one_row read_num TArr TNull run_object (fun _ => eq_refl) eq_refl read_num_get
    20 [] second second_capture second_points second_read dir "c" (of_Z 4) (of_Z 1000) [no_net] run_heard (Some csv_text) None (of_Z 4) (of_Z 1000))
    as (anchor & Hleast & outcome & E & Ho).
  - reflexivity.
  - vm_compute. reflexivity.
  - exact Ed.
  - apply (bool_decide_unpack _). vm_compute. reflexivity.
  - vm_compute. reflexivity.
  - constructor; [|constructor]. split; [split_and!; [reflexivity|reflexivity|discriminate]|].
    exists one_value. split; vm_compute; reflexivity.
  - vm_compute. reflexivity.
  - vm_compute. split; [discriminate|reflexivity].
  - split; vm_compute; reflexivity.
  - vm_compute. reflexivity.
  - vm_compute. reflexivity.
  - destruct anchor as [x|]; [|vm_compute in Hleast; discriminate Hleast].
    assert (x = (of_Z 1001, of_Z 5003)) as -> by (destruct Hleast as [Hx _]; vm_compute in Hx; apply list_elem_of_singleton in Hx; exact Hx).
    specialize (Ho (Some (of_Z 1001, of_Z 5003)) ltac:(vm_compute; reflexivity)).
    set (t := score_wall_t0 _ _ _) in Ho. assert (t = Some (of_Z 4999)) as Et by (unfold t; vm_compute; reflexivity). rewrite Et in Ho.
    destruct Ho as (scored & -> & Eg & _). eexists dir, _, scored. split; [reflexivity|]. split; [exact E|]. rewrite Eg. vm_compute. reflexivity.
Defined.
End Sample.
