(* ===== verification/Server.v ===== *)
(** * The server as a whole (crates/mlatd/src/main.rs, main and handle_client)

    The composition of the router, the shards and their queues, the connections and the
    output task, as one state; an action is a step of one task, and a schedule any sequence
    of them.  A connection takes its steps in the order of [handle_client]; the lines it reads
    and the timers of its loop are in [Session], and are actions here.  The queues to the
    shards are bounded and block their senders; the queue to the output task drops what it has
    no room for, as the schedule decides. *)
From S2P Require Import Prelude F64 Num Text Decimal Frames Proto Geo ClockSync Track Solve ServerState SyncMlat SolveGroup Shard Router.
From S2P Require Import Calendar Results Session Output Replay.
Local Open Scope Z_scope.

(** ** Start-up *)
Record Cli := {
  cli_listen : string; cli_client_listen : option string; cli_write_csv : bool; cli_write_filtered_csv : bool;
  cli_self_truth_csv : bool; cli_group_window_ms : Z; cli_time_scale : f64; cli_shards : Z;
  cli_shard_cell_deg : f64; cli_shard_cap : Z
}.
(** [parallelism]: the cores that are available, if that can be told. *)
Definition n_shards (cli : Cli) (parallelism : option Z) : Z :=
  if cli_shards cli =? 0 then match parallelism with Some n => Z.max (saturating_sub n 2) 1 | None => 1 end
  else cli_shards cli.
Definition COLON : Z := 58.
(** mlat-server's bare-port form is accepted. *)
Definition listen_address (cli : Cli) : string :=
  match cli_client_listen cli with
  | Some s => if bool_decide (COLON ∈ bytes_of s) then s else ("0.0.0.0:" ++ s)%string
  | None => cli_listen cli
  end.
(** [None]: a panic. *)
Definition hb_real (cli : Cli) : option Z := duration_from_secs (of_Z 30 / cli_time_scale cli)%f64.
Definition group_window (cli : Cli) : Z := cli_group_window_ms cli * 1000000.
Definition shard_config (cli : Cli) (epoch : f64 * Z) (i : nat) : Config := {|
  shard_id := i; mlat_adsb := cli_self_truth_csv cli; emit_filtered := cli_write_filtered_csv cli;
  t0_unix := epoch.1; t0_real := epoch.2; time_scale := cli_time_scale cli |}.

(** ** The state *)
Definition MAIL_CAPACITY : nat := Z.to_nat 8192.
(** A message in a shard's queue, with the connection that awaits the answer, if one does. *)
Record Mail := { ml_from : option nat; ml_msg : ShardMsg }.
(** Where a connection is: its shard is claimed; its registration is in the queue; it has the
    answer; it is in its loop; it ended without teardown, because the reply could not be
    written; it has sent its removal; it is over. *)
Inductive Phase := Claimed | Posted | Answered (r : RxRef) | Serving (r : RxRef) | Unanswered (r : RxRef)
  | Removing (r : RxRef) | Gone (r : RxRef).
Record Client_conn := { cn_shard : nat; cn_info : ReceiverInfo; cn_phase : Phase }.
Record Server := {
  sv_router : Router; sv_shards : list State; sv_mail : list (list Mail); sv_conns : gmap nat Client_conn;
  sv_out : list OutMsg; sv_task : OutTask
}.
Definition Server_new (cli : Cli) (parallelism : option Z) (epoch : f64 * Z) : Server :=
  let n := Z.to_nat (n_shards cli parallelism) in {|
  sv_router := Router_new n (cli_shard_cell_deg cli) (cli_shard_cap cli);
  sv_shards := (fun i => set_output (State_new (shard_config cli epoch i))) <$> seq 0 n;
  sv_mail := replicate n []; sv_conns := ∅; sv_out := [];
  sv_task := OutTask_new (cli_write_csv cli) (cli_write_filtered_csv cli) (cli_self_truth_csv cli) |}.

Definition with_router (r : Router) (s : Server) : Server := {|
  sv_router := r; sv_shards := sv_shards s; sv_mail := sv_mail s; sv_conns := sv_conns s; sv_out := sv_out s; sv_task := sv_task s |}.
Definition with_mail (q : list (list Mail)) (s : Server) : Server := {|
  sv_router := sv_router s; sv_shards := sv_shards s; sv_mail := q; sv_conns := sv_conns s; sv_out := sv_out s; sv_task := sv_task s |}.
Definition with_conns (c : gmap nat Client_conn) (s : Server) : Server := {|
  sv_router := sv_router s; sv_shards := sv_shards s; sv_mail := sv_mail s; sv_conns := c; sv_out := sv_out s; sv_task := sv_task s |}.
Definition with_shards (l : list State) (out : list OutMsg) (s : Server) : Server := {|
  sv_router := sv_router s; sv_shards := l; sv_mail := sv_mail s; sv_conns := sv_conns s; sv_out := out; sv_task := sv_task s |}.
Definition with_task (out : list OutMsg) (o : OutTask) (s : Server) : Server := {|
  sv_router := sv_router s; sv_shards := sv_shards s; sv_mail := sv_mail s; sv_conns := sv_conns s; sv_out := out; sv_task := o |}.

Definition at_phase (p : Phase) (cn : Client_conn) : Client_conn := {| cn_shard := cn_shard cn; cn_info := cn_info cn; cn_phase := p |}.
Definition set_phase (c : nat) (p : Phase) (s : Server) : Server := with_conns (alter (at_phase p) c (sv_conns s)) s.
(** [send]: only when there is room; the sender waits otherwise. *)
Definition send_mail (i : nat) (m : Mail) (s : Server) : option Server :=
  q ← sv_mail s !! i;
  if (length q <? MAIL_CAPACITY)%nat then Some (with_mail (<[i := q ++ [m]]> (sv_mail s)) s) else None.

Section Code.
Context `{Json, Elem f64, Hex, !HashIter string Group, !HashIter (nat * nat) (PairModel f64), !HashIter nat nat}.

Inductive Action :=
| AConnect (c : nat) (hs_line : list Z)     (** a handshake line arrives on a new connection *)
| APost (c : nat)                           (** the registration is sent *)
| AReply (c : nat) (ok : bool)              (** the reply is written, or cannot be *)
| ALine (c : nat) (line : list Z) (at_scaled : f64)
| AAskStats (c : nat)
| ALeave (c : nat)                          (** the loop is over: the removal is sent *)
| ARelease (c : nat)                        (** and the shard's count decremented *)
| AShard (i : nat) (tick : bool) (now : Z) (accepted : list bool)
| AProbe (i : nat) (sync_json : bool)       (** the statistics and export tasks *)
| AStoreRate (i : nat) (rate : Z)
| AOutput.

(** What a shard's turn offers to the output task, and what [try_send] took of it. *)
Fixpoint kept (accepted : list bool) (ms : list OutMsg) : list OutMsg :=
  match accepted, ms with
  | true :: bs, m :: ms => m :: kept bs ms
  | false :: bs, _ :: ms => kept bs ms
  | _, _ => []
  end.
(** A shard's turn: a sweep, or the next message of its queue. *)
Definition turn (tick : bool) (q : list Mail) : option (Event * option nat * list Mail) :=
  if tick then Some (Tick, None, q)
  else match q with m :: q => Some (Msg (ml_msg m), ml_from m, q) | [] => None end.
(** The connection that awaits an answer gets it. *)
Definition answered (rep : Shard.Reply) (from : option nat) (conns : gmap nat Client_conn) : gmap nat Client_conn :=
  match rep, from with Issued r, Some c => alter (at_phase (Answered r)) c conns | _, _ => conns end.
Definition shard_turn (window : Z) (i : nat) (tick : bool) (now : Z) (accepted : list bool) (s : Server) : option Server :=
  st ← sv_shards s !! i;
  q ← sv_mail s !! i;
  '(ev, from, q) ← turn tick q;
  '(st', rep) ← handle window st ev now;
  let s := with_shards (<[i := st']> (sv_shards s)) (sv_out s ++ kept accepted (drop (length (emitted st)) (emitted st'))) s in
  let s := with_mail (<[i := q]> (sv_mail s)) s in
  Some (with_conns (answered rep from (sv_conns s)) s).

Definition connect (c : nat) (hs_line : list Z) (s : Server) : option Server :=
  if negb (bool_decide (list.last hs_line = Some 10)) then Some s
  else
    match from_slice hs_line with
    | None => Some s
    | Some hs =>
        match accept_handshake hs with
        | inr _ => Some s
        | inl a =>
            '(r, idx) ← shard_for (sv_router s) (lat_deg (ri_geo (ac_info a))) (lon_deg (ri_geo (ac_info a)));
            Some (with_conns (<[c := {| cn_shard := idx; cn_info := ac_info a; cn_phase := Claimed |}]> (sv_conns s)) (with_router r s))
        end
    end.

(** One action; [None]: the task cannot take this step now. *)
Definition server_step (window : Z) (s : Server) (a : Action) : option Server :=
  match a with
  | AConnect c hs_line => if bool_decide (c ∈ dom (sv_conns s)) then None else connect c hs_line s
  | AShard i tick now accepted => shard_turn window i tick now accepted s
  | AProbe i sync_json => send_mail i {| ml_from := None; ml_msg := if sync_json then SyncJson else Stats |} s
  | AStoreRate i rate => Some (with_router (store_rate (sv_router s) i rate) s)
  | AOutput =>
      match sv_out s with
      | [] => None
      | m :: out => Some (with_task out (handle_out (sv_task s) (sv_router s, m)) s)
      end
  | APost c | AReply c _ | ALine c _ _ | AAskStats c | ALeave c | ARelease c =>
      cn ← sv_conns s !! c;
      let send m := send_mail (cn_shard cn) {| ml_from := Some c; ml_msg := m |} s in
      match a, cn_phase cn with
      | APost _, Claimed => s ← send (AddReceiver (cn_info cn)); Some (set_phase c Posted s)
      | AReply _ ok, Answered r => Some (set_phase c (if ok then Serving r else Unanswered r) s)
      | ALine _ line at_scaled, Serving r =>
          match v ← from_slice line; shard_msg r v at_scaled with Some m => send m | None => Some s end
      | AAskStats _, Serving r => send (ReceiverStats r)
      | ALeave _, Serving r => s ← send (RemoveReceiver r); Some (set_phase c (Removing r) s)
      | ARelease _, Removing r => Some (set_phase c (Gone r) (with_router (release (sv_router s) (cn_shard cn)) s))
      | _, _ => None
      end
  end.
Definition server_run (window : Z) (s : Server) (acts : list Action) : option Server :=
  fold_left (fun os a => s ← os; server_step window s a) acts (Some s).
End Code.

(** ** What a shard emits *)
Section Emits.
Context `{Elem f64, Hex, !HashIter string Group, !HashIter (nat * nat) (PairModel f64)}.

(** A message of shard [i]: its own mark, four to sixteen receivers, an error below the ceiling. *)
Definition own_message (i : nat) (m : OutMsg) : Prop :=
  match m with
  | Fix row => or_shard row = i /\ (4 <= or_n row <= 16)%nat /\ length (or_users row) = or_n row /\
               (or_err_m row >? MAX_ERR_M)%f64 = false
  | SelfTruth _ _ _ _ n => (4 <= n <= 16)%nat
  end.
Record emits (s s' : State) : Prop := {
  em_cfg : cfg s' = cfg s;
  em_new : exists new, emitted s' = emitted s ++ new /\ Forall (own_message (shard_id (cfg s))) new
}.
Lemma emits_none s s' : cfg s' = cfg s -> emitted s' = emitted s -> emits s s'.
Proof. intros Hc He. split; [done|]. exists []. by rewrite app_nil_r. Qed.
#[export] Instance emits_preorder : PreOrder emits.
Proof.
  split; [intros s; by apply emits_none|]. intros s1 s2 s3 [C1 (n1 & E1 & F1)] [C2 (n2 & E2 & F2)]. split; [congruence|].
  exists (n1 ++ n2). rewrite E2, E1, app_assoc. split; [done|]. rewrite C1 in F2. by apply Forall_app.
Qed.
Lemma emits_emit s s1 m : cfg s1 = cfg s -> emitted s1 = emitted s -> own_message (shard_id (cfg s)) m -> emits s (emit m s1).
Proof.
  intros Hc He Hm. split; [done|]. unfold emit. cbn [emitted]. rewrite He. destruct (has_out s1); [exists [m]; by repeat constructor|].
  exists []. by rewrite app_nil_r.
Qed.
Lemma emits_fold {A} (f : State -> A -> State) l s : (forall s x, emits s (f s x)) -> emits s (fold_left f l s).
Proof.
  intros Hf. apply (fold_left_invariant (fun s' => emits s s')); [reflexivity|]. intros s' x Hs _. by transitivity s'.
Qed.

Lemma on_solution_emits s a df17 l track alt now stamp sol : (4 <= length l <= 16)%nat ->
  emits s (on_solution s a df17 l track alt now stamp sol).
Proof.
  intros Hl. unfold on_solution. destruct (_ >? _)%f64 eqn:He; [by apply emits_none|]. cbv zeta.
  destruct (throttled _ _ _); [by apply emits_none|]. destruct (too_fast _ _ _); [by apply emits_none|]. destruct df17.
  - unfold self_truth. rewrite He. cbv zeta. destruct (adsb_pos _ !! a) as [[claimed at_]|]; [|by apply emits_none].
    destruct (fabs _ <? _)%f64; [|by apply emits_none]. apply emits_emit; [done|done|exact Hl].
  - assert (forall s1 f, cfg s1 = cfg s -> emitted s1 = emitted s ->
      emits s (emit (Fix {| or_shard := shard_id (cfg s1); or_pos := sol_pos sol; or_icao := a; or_stamp := stamp; or_alt_ft := alt;
        or_err_m := err_est_m sol; or_n := length l; or_users := users_of s1 l; or_filtered := f |}) s1)) as Hfix.
    { intros s1 f Hc Hem. apply emits_emit; [done..|]. cbn [own_message or_shard or_n or_users or_err_m].
      rewrite Hc. unfold users_of. by rewrite length_fmap. }
    unfold publish, smooth. cbv zeta. destruct (emit_filtered _); [|by apply Hfix].
    destruct (filters _ !! a) as [f|]; [|by apply Hfix]. destruct (update f _ _ _). by apply Hfix.
Qed.
Lemma solve_cluster_emits s a df17 local_ref cluster now : emits s (solve_cluster s a df17 local_ref cluster now).
Proof.
  unfold solve_cluster. cbv zeta. destruct (Nat.ltb_spec (length (collect s [] cluster)) 4) as [|Hn]; [reflexivity|].
  destruct (_ <? RESOLVE_BACKOFF_S)%f64; [by apply emits_none|]. destruct (_ && _); [by apply emits_none|].
  destruct (alts_ft _ !! a) as [alt|]; [|by apply emits_none]. destruct (solve_robust _ _ _ _); [|by apply emits_none].
  etransitivity; [|apply on_solution_emits; destruct (cap_index (collect s [] cluster)) as (idx & -> & _ & _ & Hlen);
    rewrite length_fmap, Hlen; lia]. by apply emits_none.
Qed.
Lemma sweep_emits s window now s' : sweep s window now = Some s' -> emits s s'.
Proof.
  apply (sweep_invariant (fun s' => emits s s')); [by apply emits_none|]. intros s1 key g s2 H1 _.
  unfold solve_group. destruct (group_clusters _ g) as [[local_ref cs]|]; [|done]. intros [= <-]. transitivity s1; [done|].
  etransitivity; [|apply emits_fold; intros; apply solve_cluster_emits]. by apply emits_none.
Qed.
Lemma on_mlat_emits s r t m at_ now : emits s (on_mlat s r t m at_ now).
Proof.
  unfold on_mlat. destruct (live s r); [|reflexivity]. cbn [negb]. destruct (hex_decode m) as [b|]; [|reflexivity].
  destruct (mlat_target _ b) as [[a [alt|]]|]; by apply emits_none.
Qed.
Lemma train_emits rx te to s o : emits s (train rx te to s o).
Proof.
  assert (forall s a b ta tb, emits s (train_pair s a b ta tb)) as Hp.
  { intros s1 a b ta tb. unfold train_pair. destruct (push _ ta tb). cbv zeta. destruct (push _ tb ta). by apply emits_none. }
  destruct o as [[rx2 te2] to2]. unfold train. destruct (_ || _); [reflexivity|]. cbv zeta. etransitivity; apply Hp.
Qed.
Lemma on_sync_emits s r et ot em om at_ now : emits s (on_sync s r et ot em om at_ now).
Proof.
  unfold on_sync. destruct (live s r); [|reflexivity]. cbn [negb]. destruct (sync_event _ _ _ _ _) as [e|]; [|reflexivity]. cbv zeta.
  set (s1 := set_adsb _ _). assert (emits s s1) as H1 by (unfold s1, set_alt; destruct (se_alt e); by apply emits_none).
  set (s2 := if mlat_adsb (cfg s1) then _ else _).
  assert (emits s s2) as H2 by (unfold s2; destruct (mlat_adsb _); [etransitivity; [exact H1|apply on_mlat_emits]|done]).
  destruct (_ <=? _)%nat; [etransitivity; [exact H2|by apply emits_none]|].
  etransitivity; [|apply emits_fold; intros; apply train_emits]. etransitivity; [exact H2|]. by apply emits_none.
Qed.
Lemma remove_receiver_emits s r : emits s (remove_receiver s r).
Proof. unfold remove_receiver. destruct (live s r); by apply emits_none. Qed.
Lemma handle_emits window s ev now s' rep : handle window s ev now = Some (s', rep) -> emits s s'.
Proof.
  destruct ev as [|[info|r|rx et ot em om at_|rx t m at_|r|r| |]]; cbn [handle].
  - destruct (sweep s window now) as [s1|] eqn:E; [|done]. intros [= <- _]. by eapply sweep_emits.
  - rewrite add_receiver_unfold. cbv zeta. destruct (alloc _ _) as [t idx]. intros [= <- _].
    transitivity (without_user s (ri_user info)); [|by apply emits_none].
    unfold without_user. destruct (by_user _ !! _); [apply remove_receiver_emits|reflexivity].
  - intros [= <- _]. apply remove_receiver_emits.
  - intros [= <- _]. apply on_sync_emits.
  - intros [= <- _]. apply on_mlat_emits.
  - intros [= <- _]. unfold clock_reset. destruct (live s r); by apply emits_none.
  - unfold receiver_stats. destruct (live s r); cbn [negb]; [|by intros [= <- _]].
    destruct (rx_sync _ !!! _) as [acc rej]. intros [= <- _]. by apply emits_none.
  - by intros [= <- _].
  - by intros [= <- _].
Qed.
End Emits.

(** ** A shard and the connections it has answered *)
Section Registry.
Context `{Elem f64, Hex, !HashIter string Group, !HashIter (nat * nat) (PairModel f64)}.
(** The connections answered: description, reference, and whether the removal is not yet sent. *)
Abbreviation Registry := (gmap nat (ReceiverInfo * RxRef * bool)).
Implicit Types M : Registry.

Definition removal (c : nat) (r : RxRef) : Mail := {| ml_from := Some c; ml_msg := RemoveReceiver r |}.
Record registry_ok (st : State) (q : list Mail) M : Prop := {
  ro_state : state_ok st;
  ro_remove m r : m ∈ q -> ml_msg m = RemoveReceiver r -> exists c info, m = removal c r /\ M !! c = Some (info, r, false);
  ro_ref c info r o : M !! c = Some (info, r, o) -> exists g, gens (slots st) !! rx_idx r = Some g /\ rx_gen r <= g /\
    (g = rx_gen r -> is_alive st (rx_idx r) -> receivers (slots st) !! rx_idx r = Some info);
  ro_inj c1 c2 i1 i2 r o1 o2 : M !! c1 = Some (i1, r, o1) -> M !! c2 = Some (i2, r, o2) -> c1 = c2;
  ro_slot j : is_alive st j -> exists c info r o, M !! c = Some (info, r, o) /\ rx_idx r = j /\ live st r = true /\
    (o = false -> removal c r ∈ q);
  ro_gens j g : gens (slots st) !! j = Some g -> g < Z.of_nat (size M)
}.

Lemma registry_new c : registry_ok (set_output (State_new c)) [] ∅.
Proof. split; try done; [apply set_output_ok, state_new_ok|by intros m r ?%elem_of_nil]. Qed.

(** A message that is not a removal joins the queue, or leaves it without effect on the slots. *)
Lemma registry_same st st' q q' M : registry_ok st q M -> state_ok st' -> same_slots st st' ->
  (forall m r, m ∈ q' -> ml_msg m = RemoveReceiver r -> m ∈ q) -> (forall c r, removal c r ∈ q -> removal c r ∈ q') ->
  registry_ok st' q' M.
Proof.
  intros [Hs Hrm Href Hinj Hsl Hg] Hs' Hss Hq Hq'. pose proof Hss as [Ha Hr Hge]. split.
  - done.
  - intros m r Hm E. by eapply Hrm; [eapply Hq|].
  - intros c info r o (g & ? & ? & ?)%Href. exists g. unfold is_alive. by rewrite Ha, Hr, Hge.
  - exact Hinj.
  - intros j. unfold is_alive. rewrite Ha. intros (c & info & r & o & ? & ? & ? & Hin)%Hsl. exists c, info, r, o.
    rewrite (same_slots_live _ _ _ Hss). split_and!; try done. intros Ho. by apply Hq', Hin.
  - intros j g. rewrite Hge. apply Hg.
Qed.

(** A connection sends its removal. *)
Lemma registry_leave st q M c info r : registry_ok st q M -> M !! c = Some (info, r, true) ->
  registry_ok st (q ++ [removal c r]) (<[c := (info, r, false)]> M).
Proof.
  intros [Hs Hrm Href Hinj Hsl Hg] Hc.
  assert (forall c' i' r' o', <[c := (info, r, false)]> M !! c' = Some (i', r', o') ->
    exists o'', M !! c' = Some (i', r', o'') /\ (c' <> c -> o'' = o') /\ (c' = c -> o' = false)) as Hback.
  { intros c' i' r' o' [(<- & [= <- <- <-])|(? & ?)]%lookup_insert_Some; [by exists true|by exists o']. }
  split.
  - done.
  - intros m r' [Hm|Hm%list_elem_of_singleton]%elem_of_app E.
    + destruct (Hrm m r' Hm E) as (c' & i' & -> & Hc'). exists c', i'. split; [done|].
      rewrite lookup_insert_ne; [done|]. intros <-. by rewrite Hc in Hc'.
    + subst m. injection E as <-. exists c, info. split; [done|]. apply lookup_insert_eq.
  - intros c' i' r' o' (o'' & ? & _)%Hback. by eapply Href.
  - intros c1 c2 i1 i2 r' o1 o2 (? & ? & _)%Hback (? & ? & _)%Hback. by eapply Hinj.
  - intros j (c' & i' & r' & o' & Hc' & Hj & Hlv & Hin)%Hsl. destruct (decide (c' = c)) as [->|Hne].
    + rewrite Hc in Hc'. injection Hc' as <- <- <-. exists c, info, r, false. rewrite lookup_insert_eq.
      split_and!; try done. intros _. set_solver.
    + exists c', i', r', o'. rewrite lookup_insert_ne by done. split_and!; try done. intros Ho. apply elem_of_app. left. by apply Hin.
  - intros j g Hj. rewrite map_size_insert_Some by by eexists. by eapply Hg.
Qed.

Lemma remove_live st r r' : state_ok st -> live (remove_receiver st r) r' = true <-> live st r' = true /\ r' <> r.
Proof.
  intros Hok. destruct (live st r) eqn:Hl.
  - rewrite !live_lookup by (done || by apply remove_receiver_ok). rewrite (remove_receiver_alive st r _ Hok Hl).
    assert (gens (slots (remove_receiver st r)) = gens (slots st)) as -> by (unfold remove_receiver; by rewrite Hl).
    apply live_lookup in Hl as [_ Hg]; [|done]. split; [intros [[? Hne] ?]; split; [done|congruence]|].
    intros [[? Hg'] Hne]. split_and!; try done. intros E. destruct Hne. destruct r, r'. cbn in *. congruence.
  - unfold remove_receiver. rewrite Hl. cbn [negb]. split; [intros Hr'; split; [done|congruence]|tauto].
Qed.
(** The shard handles a removal. *)
Lemma registry_remove st c r q M : registry_ok st (removal c r :: q) M -> registry_ok (remove_receiver st r) q M.
Proof.
  intros [Hs Hrm Href Hinj Hsl Hg].
  destruct (Hrm (removal c r) r) as (c0 & info & [= <-] & Hc); [by left|done|].
  assert (gens (slots (remove_receiver st r)) = gens (slots st)) as Eg by (unfold remove_receiver; by destruct (live st r)).
  assert (receivers (slots (remove_receiver st r)) = receivers (slots st)) as Er by (unfold remove_receiver; by destruct (live st r)).
  assert (forall j, is_alive (remove_receiver st r) j -> is_alive st j) as Ea.
  { intros j. destruct (live st r) eqn:E; [by intros [? _]%remove_receiver_alive|by unfold remove_receiver; rewrite E]. }
  split.
  - by apply remove_receiver_ok.
  - intros m r' Hm. apply Hrm. by right.
  - intros c' i' r' o' (g & ? & ? & Hi)%Href. exists g. rewrite Eg, Er. split_and!; try done. intros ? ?%Ea. by apply Hi.
  - exact Hinj.
  - intros j Hj. destruct (Hsl j (Ea j Hj)) as (c' & i' & r' & o' & Hc' & Hj' & Hlv & Hin).
    assert (r' <> r) as Hne.
    { intros ->. apply (remove_receiver_alive st r j Hs Hlv) in Hj as [_ Hj]. by destruct Hj. }
    exists c', i', r', o'. rewrite remove_live by done. split_and!; try done. intros [E|]%Hin%elem_of_cons; [|done].
    injection E as _ ->. done.
  - intros j g. rewrite Eg. apply Hg.
Qed.

(** The shard handles the registration of a connection that has no answer yet. *)
Lemma registry_add st st' c info r m q M : registry_ok st (m :: q) M -> ml_msg m = AddReceiver info ->
  state_ok st' -> registered st info st' r -> M !! c = None -> Z.of_nat (size M) < 2 ^ 32 ->
  registry_ok st' q (<[c := (info, r, true)]> M).
Proof.
  intros [Hs Hrm Href Hinj Hsl Hg] Hm Hs' Hr Hc Hn.
  destruct (registered_live _ _ _ _ Hs Hs' Hr) as (Hlr & _ & Hlo).
  assert (forall g, gens (slots st) !! rx_idx r = Some g -> rx_gen r = g + 1 /\ g < Z.of_nat (size M)) as Hnext.
  { intros g Eg. pose proof (Hg _ _ Eg). pose proof (so_range _ (st_slots _ Hs) _ _ Eg). split; [|done].
    rewrite (rg_gen _ _ _ _ Hr), Eg. apply wrap_small. lia. }
  assert (forall c' i' r' o', M !! c' = Some (i', r', o') -> r' <> r) as Hfresh.
  { intros c' i' r' o' Hc' ->. destruct (Href _ _ _ _ Hc') as (g & Eg & ? & _). apply Hnext in Eg. lia. }
  assert (forall c' x, M !! c' = Some x -> c' <> c) as Hcne by (intros c' x Hx ->; by rewrite Hc in Hx).
  split.
  - done.
  - intros m' r' Hm' E. destruct (Hrm m' r') as (c' & i' & -> & Hc'); [by right|done|]. exists c', i'. split; [done|].
    rewrite lookup_insert_ne; [done|]. intros <-. by eapply Hcne.
  - intros c' i' r' o' [(<- & [= <- <- <-])|(_ & Hc')]%lookup_insert_Some.
    { exists (rx_gen r). rewrite (rg_gens _ _ _ _ Hr), (rg_receivers _ _ _ _ Hr), !decide_True by done. split_and!; [done|lia|done]. }
    destruct (Href _ _ _ _ Hc') as (g & Eg & Hle & Hi). rewrite (rg_gens _ _ _ _ Hr), (rg_receivers _ _ _ _ Hr).
    case_decide as E; [|exists g; split_and!; try done; intros ? [?|[? _]]%(rg_alive _ _ _ _ Hr); [done|by apply Hi]].
    rewrite E in Eg. apply Hnext in Eg as [Eg _]. exists (rx_gen r). split_and!; [done|lia|lia].
  - intros c1 c2 i1 i2 r' o1 o2 [(<- & E1)|(_ & H1)]%lookup_insert_Some [(<- & E2)|(_ & H2)]%lookup_insert_Some.
    + done.
    + injection E1 as _ <- _. by apply Hfresh in H2.
    + injection E2 as _ <- _. by apply Hfresh in H1.
    + by eapply Hinj.
  - intros j [->|[Hj Hu]]%(rg_alive _ _ _ _ Hr).
    { exists c, info, r, true. rewrite lookup_insert_eq. by split_and!. }
    destruct (Hsl j Hj) as (c' & i' & r' & o' & Hc' & <- & Hlv & Hin). exists c', i', r', o'.
    rewrite lookup_insert_ne by (intros <-; by eapply Hcne). split_and!; try done.
    + apply Hlo; [by eapply Hfresh|done].
    + intros [<-|]%Hin%elem_of_cons; [|done]. by cbn [removal ml_msg] in Hm.
  - intros j g. rewrite map_size_insert_None by done. rewrite (rg_gens _ _ _ _ Hr). case_decide; [|intros ?%Hg; lia].
    intros [= <-]. destruct (gens (slots st) !! rx_idx r) as [g|] eqn:Eg; [specialize (Hnext g eq_refl); lia|].
    rewrite (rg_gen _ _ _ _ Hr), Eg. lia.
Qed.
End Registry.

(** ** The whole server *)
Section Whole.
Context `{Json, Elem f64, Hex, !HashIter string Group, !HashIter (nat * nat) (PairModel f64), !HashIter nat nat}.
Implicit Types s : Server.

Definition phase_ref (p : Phase) : option RxRef :=
  match p with
  | Claimed | Posted => None
  | Answered r | Serving r | Unanswered r | Removing r | Gone r => Some r
  end.
Definition staying (p : Phase) : bool := match p with Removing _ | Gone _ => false | _ => true end.
Definition counted (p : Phase) : bool := match p with Gone _ => false | _ => true end.
(** What shard [i] has answered, and the connections counted there. *)
Definition view (i : nat) (cn : Client_conn) : option (ReceiverInfo * RxRef * bool) :=
  if decide (cn_shard cn = i) then (fun r => (cn_info cn, r, staying (cn_phase cn))) <$> phase_ref (cn_phase cn) else None.
Definition registry (i : nat) (conns : gmap nat Client_conn) := omap (view i) conns.
Definition head_count (i : nat) (cn : Client_conn) : option unit :=
  if decide (cn_shard cn = i /\ counted (cn_phase cn) = true) then Some tt else None.
Definition counted_on (i : nat) (conns : gmap nat Client_conn) : nat := size (omap (head_count i) conns).

(** The registrations in a queue: each of a connection that waits for it, once. *)
Definition joining (m : Mail) : option (option nat * ReceiverInfo) :=
  match ml_msg m with AddReceiver info => Some (ml_from m, info) | _ => None end.
Definition posted (i : nat) (conns : gmap nat Client_conn) (ci : option nat * ReceiverInfo) : Prop :=
  exists c, ci.1 = Some c /\ conns !! c = Some {| cn_shard := i; cn_info := ci.2; cn_phase := Posted |}.
Record adds_ok (i : nat) (q : list Mail) (conns : gmap nat Client_conn) : Prop := {
  ao_posted : Forall (posted i conns) (omap joining q);
  ao_once : NoDup (omap joining q).*1
}.
(** The fixes marked with shard [i]. *)
Definition fix_of (i : nat) (m : OutMsg) : bool := match m with Fix row => (or_shard row =? i)%nat | SelfTruth _ _ _ _ _ => false end.
Definition fixes_of (i : nat) (l : list OutMsg) : list OutMsg := filter (fun m => fix_of i m = true) l.

Definition marked (n : nat) (m : OutMsg) : Prop := match m with Fix row => (or_shard row < n)%nat | SelfTruth _ _ _ _ _ => True end.
Record shard_ok (conns : gmap nat Client_conn) (i : nat) (st : State) (q : list Mail) : Prop := {
  sh_registry : Z.of_nat (size conns) <= 2 ^ 32 -> registry_ok st q (registry i conns);
  sh_adds : adds_ok i q conns
}.
Record shard_emitted (s : Server) (i : nat) (st : State) : Prop := {
  se_id : shard_id (cfg st) = i;
  se_own : Forall (own_message i) (emitted st);
  se_out : sublist (fixes_of i ((Fix <$> o_published (sv_task s)) ++ sv_out s)) (emitted st)
}.
Record server_ok (n : nat) s : Prop := {
  sk_shards : length (sv_shards s) = n;
  sk_mail : length (sv_mail s) = n;
  sk_router : router_ok (sv_router s);
  sk_handles : length (Router.shards (sv_router s)) = n;
  sk_shard i st q : sv_shards s !! i = Some st -> sv_mail s !! i = Some q -> shard_ok (sv_conns s) i st q;
  sk_emitted i st : sv_shards s !! i = Some st -> shard_emitted s i st;
  sk_conn c cn : sv_conns s !! c = Some cn -> (cn_shard cn < n)%nat;
  sk_count i : (i < n)%nat -> receivers_of (sv_router s) i = u64 (Z.of_nat (counted_on i (sv_conns s)));
  sk_marks : Forall (marked n) ((Fix <$> o_published (sv_task s)) ++ sv_out s)
}.

Lemma n_shards_pos cli parallelism : 0 <= cli_shards cli -> 0 < n_shards cli parallelism.
Proof. intros Hs. unfold n_shards. destruct (Z.eqb_spec (cli_shards cli) 0); [destruct parallelism; lia|lia]. Qed.
Lemma server_new_ok cli parallelism epoch : 0 <= cli_shards cli ->
  server_ok (Z.to_nat (n_shards cli parallelism)) (Server_new cli parallelism epoch).
Proof.
  intros Hn%(n_shards_pos _ parallelism). set (n := Z.to_nat _). assert (0 < n)%nat by (unfold n; lia).
  split; unfold Server_new; fold n; cbn [sv_shards sv_mail sv_router sv_conns sv_task sv_out].
  - by rewrite length_fmap, length_seq.
  - apply length_replicate.
  - by apply router_new_ok.
  - apply length_replicate.
  - intros i st q Hst [-> _]%lookup_replicate. rewrite list_lookup_fmap in Hst.
    destruct (seq 0 n !! i); [|done]. injection Hst as <-. split; [intros _; apply registry_new|by split; constructor].
  - intros i st Hst. rewrite list_lookup_fmap in Hst. destruct (seq 0 n !! i) as [k|] eqn:E; [|done]. injection Hst as <-.
    apply lookup_seq in E as [-> _]. split; [done|constructor|apply sublist_nil_l].
  - done.
  - intros i Hi. unfold receivers_of, Router_new. cbn [Router.shards]. by rewrite lookup_total_replicate_2.
  - constructor.
Qed.

(** *** One connection changes *)
Lemma registry_insert i conns c cn : conns !! c = None -> phase_ref (cn_phase cn) = None -> registry i (<[c := cn]> conns) = registry i conns.
Proof.
  intros Hc Hp. unfold registry. rewrite omap_insert. unfold view at 1. rewrite Hp. cbn [fmap option_fmap option_map].
  assert (omap (view i) conns !! c = None) as Ho by (by rewrite lookup_omap, Hc). destruct (decide _); by rewrite delete_id.
Qed.
Lemma omap_alter_view {B} (f : Client_conn -> option B) (conns : gmap nat Client_conn) c cn p : conns !! c = Some cn ->
  omap f (alter (at_phase p) c conns) = match f (at_phase p cn) with Some v => <[c := v]> (omap f conns) | None => delete c (omap f conns) end.
Proof.
  intros Hc. assert (alter (at_phase p) c conns = <[c := at_phase p cn]> conns) as ->; [|rewrite omap_insert; by destruct (f _)].
  apply map_eq. intros k. destruct (decide (k = c)) as [->|]; [by rewrite lookup_alter_eq, Hc, lookup_insert_eq|].
  by rewrite lookup_alter_ne, lookup_insert_ne.
Qed.
Lemma omap_alter_same {B} (f : Client_conn -> option B) (conns : gmap nat Client_conn) c cn p : conns !! c = Some cn -> f (at_phase p cn) = f cn ->
  omap f (alter (at_phase p) c conns) = omap f conns.
Proof.
  intros Hc E. rewrite (omap_alter_view _ _ _ cn) by done. rewrite E.
  assert (omap f conns !! c = f cn) as Ho by (by rewrite lookup_omap, Hc). destruct (f cn); [by apply insert_id|by apply delete_id].
Qed.
Lemma size_alter (conns : gmap nat Client_conn) c p : size (alter (at_phase p) c conns) = size conns.
Proof.
  unfold at_phase. rewrite <- !(size_dom (D:=gset nat)). by rewrite dom_alter_L.
Qed.
Lemma registry_size i conns c cn : conns !! c = Some cn -> view i cn = None -> (size (registry i conns) < size conns)%nat.
Proof.
  intros Hc Hv. rewrite <- !(size_dom (D:=gset nat)). apply subset_size. split.
  - intros k [x Hx]%elem_of_dom. unfold registry in Hx. rewrite lookup_omap in Hx. apply elem_of_dom.
    destruct (conns !! k); [by eexists|done].
  - intros Hs. assert (c ∈ dom (registry i conns)) as [x Hx]%elem_of_dom by (apply Hs, elem_of_dom; by eexists).
    unfold registry in Hx. rewrite lookup_omap, Hc in Hx. cbn in Hx. congruence.
Qed.
(** Waiting connections are not disturbed by the others. *)
Lemma adds_frame i q conns conns' : adds_ok i q conns ->
  (forall c info, posted i conns (Some c, info) -> (Some c, info) ∈ omap joining q -> conns' !! c = conns !! c) ->
  adds_ok i q conns'.
Proof.
  intros [Hp Ho] Hf. split; [|done]. rewrite list.Forall_forall in *. intros [fr info] Hin.
  destruct (Hp _ Hin) as (c & E & Hc). cbn in E. subst fr. exists c. split; [done|]. cbn [fst snd] in *.
  rewrite <- Hc. eapply Hf; [|exact Hin]. by exists c.
Qed.
Lemma adds_alter i q conns c cn p : conns !! c = Some cn -> cn_shard cn <> i \/ cn_phase cn <> Posted ->
  adds_ok i q conns -> adds_ok i q (alter (at_phase p) c conns).
Proof.
  intros Hc Hne Ha. eapply adds_frame; [exact Ha|]. intros c' info (c0 & [= <-] & Hp) _. apply lookup_alter_ne. intros <-.
  rewrite Hc in Hp. injection Hp as ->. by destruct Hne.
Qed.
(** A message that neither registers nor removes joins a queue. *)
Lemma shard_enqueue conns i st q m : shard_ok conns i st q -> quiet (Msg (ml_msg m)) = true -> shard_ok conns i st (q ++ [m]).
Proof.
  intros [Hr [Hp Ho]] Hm. split.
  - intros Hs. specialize (Hr Hs). apply (registry_same st st q); [done|apply Hr|apply same_slots_refl| |].
    + intros m' r [| ->%list_elem_of_singleton]%elem_of_app E; [done|]. by rewrite E in Hm.
    + intros c r ?. apply elem_of_app. by left.
  - assert (omap joining (q ++ [m]) = omap joining q) as E; [|by split; rewrite E].
    rewrite omap_app. cbn [omap list_omap]. assert (joining m = None) as -> by (unfold joining; by destruct (ml_msg m)).
    apply app_nil_r.
Qed.

(** *** Sends *)
(** The messages of a line neither register nor remove. *)
Lemma shard_msg_quiet r v at_scaled m : shard_msg r v at_scaled = Some m -> quiet (Msg m) = true.
Proof.
  unfold shard_msg. destruct (jget v "sync") as [sy|].
  - destruct (jget sy "et" ≫= as_f64), (jget sy "ot" ≫= as_f64), (jget sy "em" ≫= as_str), (jget sy "om" ≫= as_str); try done.
    by intros [= <-].
  - destruct (jget v "mlat") as [ml|].
    + destruct (jget ml "t" ≫= as_f64), (jget ml "m" ≫= as_str); try done. by intros [= <-].
    + destruct (jget v "clock_reset"), (jget v "clock_jump"); try done; by intros [= <-].
Qed.
Lemma send_mail_some s i m s' : send_mail i m s = Some s' ->
  exists q, sv_mail s !! i = Some q /\ s' = with_mail (<[i := q ++ [m]]> (sv_mail s)) s.
Proof.
  unfold send_mail. destruct (sv_mail s !! i) as [q|]; [|done]. cbn [mbind option_bind].
  destruct (_ <? _)%nat; [|done]. intros [= <-]. by exists q.
Qed.
(** The shards' queues and the connections change; everything else is as it was. *)
Lemma server_ok_conns n s mail conns : server_ok n s -> length mail = n ->
  (forall i st q, sv_shards s !! i = Some st -> mail !! i = Some q -> shard_ok conns i st q) ->
  (forall c cn, conns !! c = Some cn -> (cn_shard cn < n)%nat) ->
  (forall i, counted_on i conns = counted_on i (sv_conns s)) ->
  server_ok n (with_conns conns (with_mail mail s)).
Proof.
  intros [????? He ? Hn ?] Hm Hs Hc Ht. split; try done; [by intros i st [? ? ?]%He|].
  intros i Hi. cbn [with_conns sv_conns with_mail sv_router]. rewrite Ht. by apply Hn.
Qed.
Lemma mail_insert (mail : list (list Mail)) i q q' j x : mail !! i = Some q -> <[i := q']> mail !! j = Some x ->
  j = i /\ x = q' \/ j <> i /\ mail !! j = Some x.
Proof.
  intros Hi. destruct (decide (j = i)) as [->|Hne]; [|rewrite list_lookup_insert_ne by done; by right].
  rewrite list_lookup_insert_eq by (by eapply lookup_lt_Some). intros [= <-]. by left.
Qed.
Lemma server_send_ok n s i m s' : server_ok n s -> quiet (Msg (ml_msg m)) = true -> send_mail i m s = Some s' -> server_ok n s'.
Proof.
  intros Hok Hm (q & Hq & ->)%send_mail_some.
  change (server_ok n (with_conns (sv_conns s) (with_mail (<[i := q ++ [m]]> (sv_mail s)) s))).
  apply server_ok_conns; [done| | |apply Hok|done].
  - rewrite length_insert. apply Hok.
  - intros j st x Hst [[-> ->]|[_ Hx]]%(mail_insert _ _ q); [|by eapply sk_shard|done].
    apply shard_enqueue; [by eapply sk_shard|done].
Qed.
Lemma alter_bound n (conns : gmap nat Client_conn) c p : (forall c cn, conns !! c = Some cn -> (cn_shard cn < n)%nat) ->
  forall k cn, alter (at_phase p) c conns !! k = Some cn -> (cn_shard cn < n)%nat.
Proof.
  intros Hb k cn. destruct (decide (k = c)) as [->|]; [rewrite lookup_alter_eq|rewrite lookup_alter_ne by done; apply Hb].
  destruct (conns !! c) as [cn0|] eqn:E; [|done]. intros [= <-]. cbn. by eapply Hb.
Qed.
(** A connection moves on without a message. *)
Lemma server_phase_ok n s c cn p : server_ok n s -> sv_conns s !! c = Some cn -> cn_phase cn <> Posted ->
  (forall i, view i (at_phase p cn) = view i cn) -> counted p = counted (cn_phase cn) -> server_ok n (set_phase c p s).
Proof.
  intros Hok Hc Hp Hv Hco. change (server_ok n (with_conns (alter (at_phase p) c (sv_conns s)) (with_mail (sv_mail s) s))).
  apply server_ok_conns; [done|apply Hok| |by apply alter_bound, Hok|].
  - intros i st q Hst Hq. destruct (sk_shard _ _ Hok i st q Hst Hq) as [Hr Ha]. split.
    + rewrite size_alter. unfold registry. by rewrite (omap_alter_same _ _ _ cn).
    + apply (adds_alter _ _ _ _ cn); [done|by right|done].
  - intros i. unfold counted_on. f_equal. apply (omap_alter_same _ _ _ cn); [done|]. unfold head_count. cbn [at_phase cn_shard cn_phase].
    by rewrite Hco.
Qed.

Lemma sk_queue n s i st : server_ok n s -> sv_shards s !! i = Some st -> exists q, sv_mail s !! i = Some q.
Proof.
  intros Hok Hst. destruct (lookup_lt_is_Some_2 (sv_mail s) i) as [q Hq]; [|by exists q].
  rewrite (sk_mail _ _ Hok), <- (sk_shards _ _ Hok). by eapply lookup_lt_Some.
Qed.

(** A connection sends its registration. *)
Lemma server_post_ok n s c cn s1 : server_ok n s -> sv_conns s !! c = Some cn -> cn_phase cn = Claimed ->
  send_mail (cn_shard cn) {| ml_from := Some c; ml_msg := AddReceiver (cn_info cn) |} s = Some s1 -> server_ok n (set_phase c Posted s1).
Proof.
  intros Hok Hc Hp (q & Hq & ->)%send_mail_some. set (m := {| ml_from := _; ml_msg := _ |}) in *.
  assert (forall i, view i (at_phase Posted cn) = view i cn) as Hv
    by (intros i; unfold view; cbn [at_phase cn_shard cn_info cn_phase]; by rewrite Hp).
  change (server_ok n (with_conns (alter (at_phase Posted) c (sv_conns s)) (with_mail (<[cn_shard cn := q ++ [m]]> (sv_mail s)) s))).
  apply server_ok_conns; [done|rewrite length_insert; apply Hok| |by apply alter_bound, Hok|].
  - intros j st x Hst Hx. destruct (sk_queue _ _ _ _ Hok Hst) as [qj Hqj].
    destruct (sk_shard _ _ Hok j st qj Hst Hqj) as [Hr Ha].
    assert (adds_ok j qj (alter (at_phase Posted) c (sv_conns s))) as Ha'
      by (apply (adds_alter _ _ _ _ cn); [done|right; by rewrite Hp|done]).
    assert (registry j (alter (at_phase Posted) c (sv_conns s)) = registry j (sv_conns s)) as Er
      by (unfold registry; by rewrite (omap_alter_same _ _ _ cn)).
    destruct (mail_insert _ _ _ _ _ _ Hq Hx) as [[-> ->]|[_ Hx']];
      [|rewrite Hqj in Hx'; injection Hx' as ->; split; [by rewrite size_alter, Er|done]].
    rewrite Hq in Hqj. injection Hqj as <-. split.
    + rewrite size_alter, Er. intros Hs. specialize (Hr Hs). apply (registry_same st st q); [done|apply Hr|apply same_slots_refl| |].
      * intros m' r [| ->%list_elem_of_singleton]%elem_of_app E; [done|]. done.
      * intros c' r ?. apply elem_of_app. by left.
    + destruct Ha' as [Hpo Hon], Ha as [Hpo0 _]. split; rewrite omap_app; cbn [omap list_omap joining m ml_msg ml_from].
      * apply Forall_app. split; [done|]. apply list.Forall_singleton. exists c. split; [done|]. cbn [fst snd].
        rewrite lookup_alter_eq, Hc. done.
      * rewrite fmap_app. apply list.NoDup_app. split_and!; [done| |apply list.NoDup_singleton].
        intros fr ([fr' info] & -> & Hin)%list_elem_of_fmap E%list_elem_of_singleton. cbn in E. subst fr'.
        rewrite list.Forall_forall in Hpo0. destruct (Hpo0 _ Hin) as (c0 & [= <-] & Hc0). rewrite Hc in Hc0. injection Hc0 as E0. by rewrite E0 in Hp.
  - intros i. unfold counted_on. f_equal. apply (omap_alter_same _ _ _ cn); [done|]. unfold head_count. cbn [at_phase cn_shard cn_phase].
    by rewrite Hp.
Qed.

(** A connection sends its removal. *)
Lemma server_leave_ok n s c cn r s1 : server_ok n s -> sv_conns s !! c = Some cn -> cn_phase cn = Serving r ->
  send_mail (cn_shard cn) {| ml_from := Some c; ml_msg := RemoveReceiver r |} s = Some s1 -> server_ok n (set_phase c (Removing r) s1).
Proof.
  intros Hok Hc Hp (q & Hq & ->)%send_mail_some. fold (removal c r) in *.
  change (server_ok n (with_conns (alter (at_phase (Removing r)) c (sv_conns s)) (with_mail (<[cn_shard cn := q ++ [removal c r]]> (sv_mail s)) s))).
  apply server_ok_conns; [done|rewrite length_insert; apply Hok| |by apply alter_bound, Hok|].
  - intros j st x Hst Hx. destruct (sk_queue _ _ _ _ Hok Hst) as [qj Hqj].
    destruct (sk_shard _ _ Hok j st qj Hst Hqj) as [Hr Ha].
    apply (adds_alter j qj (sv_conns s) c cn (Removing r)) in Ha; [|done|right; by rewrite Hp].
    destruct (mail_insert _ _ _ _ _ _ Hq Hx) as [[-> ->]|[Hne Hx']].
    + rewrite Hq in Hqj. injection Hqj as <-. split.
      * rewrite size_alter. intros Hs. specialize (Hr Hs). unfold registry in *.
        rewrite (omap_alter_view _ _ _ cn) by done. unfold view at 1.
        cbn [at_phase cn_shard cn_info cn_phase phase_ref staying fmap option_fmap option_map]. rewrite decide_True by done.
        apply registry_leave; [done|]. rewrite lookup_omap, Hc. cbn. unfold view. by rewrite decide_True, Hp.
      * destruct Ha as [Hpo Hon]. by split; rewrite omap_app; cbn [omap list_omap joining removal ml_msg]; rewrite app_nil_r.
    + rewrite Hqj in Hx'. injection Hx' as ->. split; [|done]. rewrite size_alter. unfold registry.
      rewrite (omap_alter_same _ _ _ cn); [done|done|]. unfold view. cbn [at_phase cn_shard]. by rewrite !decide_False.
  - intros i. unfold counted_on. f_equal. apply (omap_alter_same _ _ _ cn); [done|]. unfold head_count. cbn [at_phase cn_shard cn_phase].
    by rewrite Hp.
Qed.

(** *** A shard's turn *)
Lemma kept_sublist accepted ms : sublist (kept accepted ms) ms.
Proof.
  induction accepted as [|b bs IH] in ms |- *; destruct ms as [|m ms]; try apply sublist_nil_l; [by destruct b; apply sublist_nil_l|].
  destruct b; cbn [kept]; [apply sublist_skip, IH|apply sublist_cons, IH].
Qed.
Lemma fixes_of_own i j l : Forall (own_message i) l -> i <> j -> fixes_of j l = [].
Proof.
  intros Hf Hne. unfold fixes_of. induction Hf as [|m l Hm Hf IH]; [done|]. rewrite filter_cons_False; [done|].
  destruct m as [row|]; [|done]. cbn. destruct Hm as [-> _]. by apply not_true_iff_false, Nat.eqb_neq.
Qed.
(** The queue and the answered connections after a turn. *)
Lemma turn_registry conns window i tick now st q ev from q' st' rep : shard_ok conns i st q ->
  turn tick q = Some (ev, from, q') -> handle window st ev now = Some (st', rep) -> Z.of_nat (size conns) <= 2 ^ 32 ->
  (quiet ev = true \/ exists r, ev = Msg (RemoveReceiver r)) -> registry_ok st' q' (registry i conns).
Proof.
  intros [Hr _] Ht Eh Hs Hq. specialize (Hr Hs). pose proof (handle_ok _ _ _ _ _ _ (ro_state _ _ _ Hr) Eh) as Hst'.
  unfold turn in Ht. destruct tick.
  - injection Ht as <- <- <-. apply (registry_same st st' q); [done..| | |].
    + by eapply handle_same; [apply Hr| |exact Eh].
    + done.
    + done.
  - destruct q as [|m q]; [done|]. injection Ht as <- <- <-. destruct Hq as [Hq|[r Em]].
    + apply (registry_same st st' (m :: q)); [done..| | |].
      * by eapply handle_same; [apply Hr| |exact Eh].
      * intros m' r Hm _. by right.
      * intros c r [<-|]%elem_of_cons; [done|done].
    + injection Em as Em. rewrite Em in Eh. injection Eh as <- _.
      destruct (ro_remove _ _ _ Hr m r) as (c & info & -> & _); [by left|done|]. by eapply registry_remove.
Qed.
Lemma adds_tail i m q conns : adds_ok i (m :: q) conns -> adds_ok i q conns.
Proof.
  intros [Hp Ho]. cbn [omap list_omap] in Hp, Ho. destruct (joining m); [|done]. apply list.Forall_cons in Hp as [_ Hp].
  cbn [fmap list_fmap] in Ho. by apply list.NoDup_cons in Ho as [_ Ho].
Qed.
Lemma turn_adds conns i tick q ev from q' : turn tick q = Some (ev, from, q') -> adds_ok i q conns -> adds_ok i q' conns.
Proof.
  unfold turn. destruct tick; [by intros [= <- <- <-]|]. destruct q; [done|]. intros [= <- <- <-]. apply adds_tail.
Qed.
(** What a turn leaves of the server's emission invariant. *)
Lemma turn_emitted n s i st st' accepted : server_ok n s -> sv_shards s !! i = Some st -> emits st st' ->
  let s' := with_shards (<[i := st']> (sv_shards s)) (sv_out s ++ kept accepted (drop (length (emitted st)) (emitted st'))) s in
  forall j x, sv_shards s' !! j = Some x -> shard_emitted s' j x.
Proof.
  intros Hok Hst [Hcf (new & En & Hown)]. cbv zeta. rewrite En, drop_app_length. intros j x. cbn [with_shards sv_shards].
  destruct (sk_emitted _ _ Hok i st Hst) as [Hid Ho _]. rewrite Hid in Hown.
  assert (forall k y, sv_shards s !! k = Some y ->
    sublist (fixes_of k ((Fix <$> o_published (sv_task s)) ++ sv_out s ++ kept accepted new)) (emitted y ++ fixes_of k (kept accepted new))) as Hsub.
  { intros k y Hy. rewrite app_assoc. unfold fixes_of at 1. rewrite list.filter_app. apply sublist_app; [by eapply se_out, sk_emitted|done]. }
  destruct (decide (j = i)) as [->|Hne].
  - rewrite list_lookup_insert_eq by (by eapply lookup_lt_Some). intros [= <-]. split.
    + by rewrite Hcf.
    + rewrite En. by apply Forall_app.
    + rewrite En. cbn [sv_task sv_out]. etransitivity; [by apply Hsub|]. apply sublist_app; [done|].
      etransitivity; [apply sublist_filter|apply kept_sublist].
  - rewrite list_lookup_insert_ne by done. intros Hj. destruct (sk_emitted _ _ Hok j x Hj) as [Hid' Ho' _]. split; [done..|].
    cbn [sv_task sv_out]. etransitivity; [by apply Hsub|].
    rewrite (fixes_of_own i j); [by rewrite app_nil_r| |done]. apply list.Forall_forall. intros m Hm. rewrite list.Forall_forall in Hown. apply Hown.
    by eapply elem_of_submseteq, sublist_submseteq, kept_sublist.
Qed.

(** A shard answers a registration. *)
Lemma turn_added conns i st info q' now window st' rep from m : shard_ok conns i st (m :: q') ->
  ml_msg m = AddReceiver info -> ml_from m = from -> handle window st (Msg (AddReceiver info)) now = Some (st', rep) ->
  exists c r, from = Some c /\ rep = Issued r /\
    conns !! c = Some {| cn_shard := i; cn_info := info; cn_phase := Posted |} /\
    shard_ok (alter (at_phase (Answered r)) c conns) i st' q'.
Proof.
  intros [Hr [Hp Ho]] Em <- Eh. cbn [omap list_omap] in Hp, Ho. unfold joining at 1 in Hp. unfold joining at 1 in Ho. rewrite Em in Hp, Ho.
  apply list.Forall_cons in Hp as [(c & Ef & Hc) Hp]. cbn [fst snd] in Ef, Hc. rewrite Ef in Ho. cbn [fmap list_fmap fst] in Ho.
  apply list.NoDup_cons in Ho as [Hnew Ho]. cbn [handle] in Eh.
  pose proof (add_receiver_registered st info) as Hreg. pose proof (add_receiver_ok st info) as Hok'.
  destruct (add_receiver st info) as [st1 r]. injection Eh as <- <-. exists c, r. split_and!; try done.
  set (cn := {| cn_shard := i; cn_info := info; cn_phase := Posted |}) in *. split.
  - rewrite size_alter. intros Hs. specialize (Hr Hs). pose proof (ro_state _ _ _ Hr) as Hst.
    unfold registry in *. rewrite (omap_alter_view _ _ _ cn) by done.
    assert (view i (at_phase (Answered r) cn) = Some (info, r, true)) as -> by (unfold view; cbn; by rewrite decide_True).
    assert (view i cn = None) as Hv by (unfold view; cbn; by rewrite decide_True).
    apply (registry_add st st1 c info r m); [done|done|by apply Hok'|by apply Hreg| |].
    + by rewrite lookup_omap, Hc.
    + pose proof (registry_size i conns c cn Hc Hv). unfold registry in *. lia.
  - eapply adds_frame; [by split|]. intros c' info' _ Hin. apply lookup_alter_ne. intros <-. destruct Hnew.
    apply list_elem_of_fmap. by exists (Some c, info').
Qed.

Lemma event_kinds ev : (quiet ev = true \/ exists r, ev = Msg (RemoveReceiver r)) \/ exists info, ev = Msg (AddReceiver info).
Proof. destruct ev as [|[]]; eauto. Qed.
Lemma quiet_answers window st ev now st' rep from conns : (quiet ev = true \/ exists r, ev = Msg (RemoveReceiver r)) ->
  handle window st ev now = Some (st', rep) -> answered rep from conns = conns.
Proof.
  intros Hq Eh. unfold answered. destruct rep; try done. destruct Hq as [Hq|[r' ->]]; [|done].
  destruct ev as [|[info|r'|rx et ot em om at_|rx t m at_|r'|r'| |]]; try done; cbn [handle] in Eh.
  - by destruct (sweep st window now).
  - by destruct (receiver_stats st r').
Qed.
(** The connections after a turn, as the shard sees them and as the others do. *)
Lemma turn_conns conns window i tick now st q ev from q' st' rep : shard_ok conns i st q ->
  turn tick q = Some (ev, from, q') -> handle window st ev now = Some (st', rep) ->
  shard_ok (answered rep from conns) i st' q' /\
  (answered rep from conns = conns \/ exists c r info, answered rep from conns = alter (at_phase (Answered r)) c conns /\
     conns !! c = Some {| cn_shard := i; cn_info := info; cn_phase := Posted |}).
Proof.
  intros Hsh Ht Eh. destruct (event_kinds ev) as [Hq|[info ->]].
  - rewrite (quiet_answers _ _ _ _ _ _ _ _ Hq Eh). split; [|by left]. split; [|by eapply turn_adds, Hsh].
    intros Hs. by eapply turn_registry.
  - unfold turn in Ht. destruct tick; [done|]. destruct q as [|m q]; [done|]. injection Ht as Em Ef <-.
    destruct (turn_added _ _ _ _ _ _ _ _ _ from m Hsh Em Ef Eh) as (c & r & -> & -> & Hc & Hi).
    split; [done|]. right. by exists c, r, info.
Qed.

Lemma server_turn_ok n window s i tick now accepted s' : server_ok n s ->
  shard_turn window i tick now accepted s = Some s' -> server_ok n s'.
Proof.
  intros Hok. unfold shard_turn. destruct (sv_shards s !! i) as [st|] eqn:Hst; [|done]. cbn [mbind option_bind].
  destruct (sv_mail s !! i) as [q|] eqn:Hq; [|done]. cbn [mbind option_bind].
  destruct (turn tick q) as [[[ev from] q']|] eqn:Ht; [|done]. cbn [mbind option_bind].
  destruct (handle window st ev now) as [[st' rep]|] eqn:Eh; [|done]. cbn [mbind option_bind]. intros [= <-].
  destruct (turn_conns _ _ _ _ _ _ _ _ _ _ _ _ (sk_shard _ _ Hok i st q Hst Hq) Ht Eh) as [Hi Hc'].
  pose proof (turn_emitted n s i st st' accepted Hok Hst (handle_emits _ _ _ _ _ _ Eh)) as Hem. cbv zeta in Hem.
  set (out := sv_out s ++ _) in *. cbn [with_shards sv_mail].
  change (sv_conns (with_mail _ _)) with (sv_conns s). set (conns' := answered rep from (sv_conns s)) in *.
  split; cbn [with_conns with_mail with_shards sv_shards sv_mail sv_router sv_conns].
  - rewrite length_insert. apply Hok.
  - rewrite length_insert. apply Hok.
  - apply Hok.
  - apply Hok.
  - intros j x y Hx Hy. destruct (mail_insert _ _ _ _ _ _ Hq Hy) as [[-> ->]|[Hne Hy']].
    + rewrite list_lookup_insert_eq in Hx by (by eapply lookup_lt_Some). by injection Hx as <-.
    + rewrite list_lookup_insert_ne in Hx by done. destruct (sk_shard _ _ Hok j x y Hx Hy') as [Hr Ha].
      destruct Hc' as [->|(c & r & info & -> & Hc)]; [done|]. split.
      * rewrite size_alter. unfold registry. rewrite (omap_alter_same _ _ _ _ _ Hc); [done|].
        unfold view. cbn [at_phase cn_shard]. by rewrite !decide_False.
      * apply (adds_alter _ _ _ _ _ _ Hc); [by left|done].
  - intros j x Hx. destruct (Hem j x Hx) as [? ? ?]. by split.
  - destruct Hc' as [->|(c & r & info & -> & Hc)]; [apply Hok|]. apply alter_bound, Hok.
  - intros j Hj. rewrite (sk_count _ _ Hok j Hj). do 2 f_equal. destruct Hc' as [->|(c & r & info & -> & Hc)]; [done|].
    unfold counted_on. f_equal. symmetry. by apply (omap_alter_same _ _ _ _ _ Hc).
  - cbn [with_conns with_mail with_shards sv_task sv_out]. unfold out. rewrite app_assoc. apply Forall_app. split; [apply Hok|].
    apply list.Forall_forall. intros m Hm. destruct (handle_emits _ _ _ _ _ _ Eh) as [_ (new & En & Hown)].
    rewrite En, drop_app_length in Hm. rewrite list.Forall_forall in Hown.
    assert (own_message (shard_id (cfg st)) m) as Hom by (apply Hown; by eapply elem_of_submseteq, sublist_submseteq, kept_sublist).
    rewrite (se_id _ _ _ (sk_emitted _ _ Hok i st Hst)) in Hom. destruct m as [row|]; [|done]. cbn [marked]. destruct Hom as [-> _].
    rewrite <- (sk_shards _ _ Hok). by eapply lookup_lt_Some.
Qed.

(** *** The router and the output task *)
Lemma server_router_ok n s r : server_ok n s -> router_ok r -> length (Router.shards r) = n ->
  (forall i, (i < n)%nat -> receivers_of r i = u64 (Z.of_nat (counted_on i (sv_conns s)))) -> server_ok n (with_router r s).
Proof. intros [????? He ???] ???. split; try done. by intros i st [? ? ?]%He. Qed.
Lemma head_count_insert i conns c cn : conns !! c = None ->
  counted_on i (<[c := cn]> conns) = (counted_on i conns + match head_count i cn with Some _ => 1 | None => 0 end)%nat.
Proof.
  intros Hc. unfold counted_on. rewrite omap_insert. assert (omap (head_count i) conns !! c = None) as Ho by (by rewrite lookup_omap, Hc).
  destruct (head_count i cn); [rewrite map_size_insert_None by done; lia|]. rewrite delete_id by done. lia.
Qed.
Lemma server_connect_ok n s c hs_line s' : server_ok n s -> sv_conns s !! c = None -> connect c hs_line s = Some s' -> server_ok n s'.
Proof.
  intros Hok Hc. unfold connect. destruct (negb _); [by intros [= <-]|]. destruct (from_slice hs_line) as [hs|]; [|by intros [= <-]].
  destruct (accept_handshake hs) as [a|]; [|by intros [= <-]]. set (lat := lat_deg _). set (lon := lon_deg _).
  destruct (shard_for (sv_router s) lat lon) as [[r' i]|] eqn:E; [|done].
  destruct (shard_for_spec _ _ _ _ _ (sk_router _ _ Hok) E) as (leaf & _ & Hi & Hr' & Hn & _).
  pose proof (shard_for_counts _ _ _ _ _ E Hi) as Hcnt. cbn [mbind option_bind]. intros [= <-].
  set (cn := {| cn_shard := i; cn_info := ac_info a; cn_phase := Claimed |}).
  rewrite (sk_handles _ _ Hok) in Hi, Hn.
  split; cbn [with_conns with_router sv_shards sv_mail sv_router sv_conns]; try apply Hok; try done.
  - intros j st q Hst Hq. destruct (sk_shard _ _ Hok j st q Hst Hq) as [Hr Ha]. split.
    + rewrite map_size_insert_None by done. rewrite registry_insert by done. intros Hs. apply Hr. lia.
    + eapply adds_frame; [exact Ha|]. intros c' info (c0 & [= <-] & Hp) _. apply lookup_insert_ne. intros ->.
      cbn in Hp. by rewrite Hc in Hp.
  - intros j st Hst. by destruct (sk_emitted _ _ Hok j st Hst).
  - intros k x [(_ & <-)|(_ & Hx)]%lookup_insert_Some; [done|by eapply sk_conn].
  - intros j Hj. rewrite Hcnt, (sk_count _ _ Hok i Hi), (head_count_insert _ _ _ _ Hc). unfold head_count. cbn [cn cn_shard cn_phase counted].
    destruct (decide (j = i)) as [->|Hne].
    + rewrite decide_True by done. unfold wrap. rewrite Zplus_mod_idemp_l. f_equal. lia.
    + rewrite (sk_count _ _ Hok j Hj). rewrite decide_False by naive_solver. by rewrite Nat.add_0_r.
Qed.
Lemma server_release_ok n s c cn r : server_ok n s -> sv_conns s !! c = Some cn -> cn_phase cn = Removing r ->
  server_ok n (set_phase c (Gone r) (with_router (release (sv_router s) (cn_shard cn)) s)).
Proof.
  intros Hok Hc Hp. pose proof (sk_conn _ _ Hok _ _ Hc) as Hi.
  assert (omap (head_count (cn_shard cn)) (sv_conns s) !! c = Some tt) as Ht
    by (rewrite lookup_omap, Hc; cbn; unfold head_count; rewrite decide_True; [done|split; [done|by rewrite Hp]]).
  split; cbn [set_phase with_conns with_router sv_shards sv_mail sv_router sv_conns].
  - apply Hok.
  - apply Hok.
  - destruct (router_step_ok _ (release (sv_router s) (cn_shard cn)) (sk_router _ _ Hok)) as (? & _); [apply step_release|done].
  - unfold release. cbn [Router.shards set_shards]. rewrite length_alter. apply Hok.
  - intros j st q Hst Hq. destruct (sk_shard _ _ Hok j st q Hst Hq) as [Hr Ha]. split.
    + rewrite size_alter. unfold registry. rewrite (omap_alter_same _ _ _ cn); [done..|]. unfold view.
      cbn [at_phase cn_shard cn_info cn_phase]. by rewrite Hp.
    + apply (adds_alter _ _ _ _ cn); [done|right; by rewrite Hp|done].
  - intros j st Hst. by destruct (sk_emitted _ _ Hok j st Hst).
  - apply alter_bound, Hok.
  - intros j Hj. rewrite release_counts by (by rewrite (sk_handles _ _ Hok)). unfold counted_on.
    rewrite (omap_alter_view _ _ _ cn) by done.
    assert (head_count j (at_phase (Gone r) cn) = None) as -> by (unfold head_count; rewrite decide_False; [done|by intros [_ ?]]).
    destruct (decide (j = cn_shard cn)) as [->|Hne].
    + rewrite (sk_count _ _ Hok _ Hj), map_size_delete_Some by (by eexists).
      pose proof (map_size_ne_0_lookup_2 (omap (head_count (cn_shard cn)) (sv_conns s)) c ltac:(by eexists)).
      unfold counted_on, wrap. rewrite Zminus_mod_idemp_l. f_equal. lia.
    + rewrite delete_id by (rewrite lookup_omap, Hc; cbn; unfold head_count; rewrite decide_False; [done|intros [E _]; by destruct Hne]).
      by apply (sk_count _ _ Hok).
  - apply Hok.
Qed.
Lemma server_output_ok n s m out : server_ok n s -> sv_out s = m :: out ->
  server_ok n (with_task out (handle_out (sv_task s) (sv_router s, m)) s).
Proof.
  intros [????? He ?? Hma] Ho. split; try done; last first.
  { cbn [with_task sv_task sv_out]. rewrite (proj1 (handle_out_published _ _)), fmap_app, <- app_assoc. rewrite Ho in Hma.
    apply Forall_app in Hma as [Hma1 [Hm Hma2]%list.Forall_cons]. apply Forall_app. split; [done|]. apply Forall_app. split; [|done].
    unfold passes. cbn [fst snd]. destruct m as [row|]; [|constructor]. destruct (_ && _); [|constructor]. by apply list.Forall_singleton. }
  intros i st Hst. destruct (He i st Hst) as [Hid Hown Hsub]. split; try done.
  cbn [with_task sv_task sv_out]. rewrite (proj1 (handle_out_published _ _)). etransitivity; [|exact Hsub].
  rewrite Ho. unfold fixes_of. rewrite fmap_app, !list.filter_app, <- app_assoc.
  apply sublist_app; [done|]. change (m :: out) with ([m] ++ out). rewrite list.filter_app. apply sublist_app; [|done].
  unfold passes. cbn [fst snd]. destruct m as [row|]; [|apply sublist_nil_l]. destruct (_ && _); [done|apply sublist_nil_l].
Qed.

Lemma server_step_ok n window s a s' : server_ok n s -> server_step window s a = Some s' -> server_ok n s'.
Proof.
  intros Hok. unfold server_step. destruct a as [c hs_line|c|c ok|c line at_scaled|c|c|c|i tick now accepted|i sync_json|i rate|].
  - case_bool_decide as E; [done|]. apply server_connect_ok; [done|by apply not_elem_of_dom].
  - destruct (sv_conns s !! c) as [cn|] eqn:Hc; [|done]. cbn [mbind option_bind]. cbv zeta. destruct (cn_phase cn) eqn:Hp; try done.
    destruct (send_mail _ _ s) as [s1|] eqn:Es; [|done]. cbn [mbind option_bind]. intros [= <-]. by eapply server_post_ok.
  - destruct (sv_conns s !! c) as [cn|] eqn:Hc; [|done]. cbn [mbind option_bind]. cbv zeta. destruct (cn_phase cn) as [| |r| | | |] eqn:Hp; try done.
    intros [= <-]. apply (server_phase_ok n s c cn); [done|done|by rewrite Hp| |by rewrite Hp; destruct ok].
    intros i. unfold view. cbn [at_phase cn_shard cn_info cn_phase]. rewrite Hp. by destruct ok.
  - destruct (sv_conns s !! c) as [cn|] eqn:Hc; [|done]. cbn [mbind option_bind]. cbv zeta. destruct (cn_phase cn) as [| | |r| | |] eqn:Hp; try done.
    destruct (_ ≫= _) as [m|] eqn:Em; [|by intros [= <-]]. apply server_send_ok; [done|]. cbn [ml_msg].
    destruct (from_slice line) as [v|]; [|done]. cbn [mbind option_bind] in Em. by eapply shard_msg_quiet.
  - destruct (sv_conns s !! c) as [cn|] eqn:Hc; [|done]. cbn [mbind option_bind]. cbv zeta. destruct (cn_phase cn); try done.
    by apply server_send_ok.
  - destruct (sv_conns s !! c) as [cn|] eqn:Hc; [|done]. cbn [mbind option_bind]. cbv zeta. destruct (cn_phase cn) as [| | |r| | |] eqn:Hp; try done.
    destruct (send_mail _ _ s) as [s1|] eqn:Es; [|done]. cbn [mbind option_bind]. intros [= <-]. by eapply server_leave_ok.
  - destruct (sv_conns s !! c) as [cn|] eqn:Hc; [|done]. cbn [mbind option_bind]. cbv zeta. destruct (cn_phase cn) as [| | | | |r|] eqn:Hp; try done.
    intros [= <-]. by apply server_release_ok.
  - by apply server_turn_ok.
  - apply server_send_ok; [done|by destruct sync_json].
  - intros [= <-]. destruct (router_step_ok _ (store_rate (sv_router s) i rate) (sk_router _ _ Hok)) as (? & Hn & _); [apply step_rate|].
    apply server_router_ok; [done|done|by rewrite Hn; apply Hok|]. intros j Hj. rewrite store_rate_counts. by apply Hok.
  - destruct (sv_out s) as [|m out] eqn:Ho; [done|]. intros [= <-]. by apply server_output_ok.
Qed.
Lemma server_run_ok n window acts s s' : server_ok n s -> server_run window s acts = Some s' -> server_ok n s'.
Proof.
  revert s'. unfold server_run. induction acts as [|a acts IH] using rev_ind; intros s' Hok; [by intros [= <-]|].
  rewrite fold_left_app. cbn [fold_left]. destruct (fold_left _ acts (Some s)) as [s1|] eqn:E; [|done]. cbn [mbind option_bind].
  apply server_step_ok. by apply IH.
Qed.

(** A connection's phases follow one another: what it was answered stays, and it does not come back. *)
Record onward (cn cn' : Client_conn) : Prop := {
  on_shard : cn_shard cn' = cn_shard cn;
  on_info : cn_info cn' = cn_info cn;
  on_ref r : phase_ref (cn_phase cn) = Some r -> phase_ref (cn_phase cn') = Some r;
  on_staying : staying (cn_phase cn') = true -> staying (cn_phase cn) = true
}.





Lemma onward_trans x y z : onward x y -> onward y z -> onward x z.
Proof. intros [Hs Hi Hr Ht] [Hs' Hi' Hr' Ht']. split; [congruence|congruence|by intros r ?%Hr%Hr'|by intros ?%Ht'%Ht]. Qed.



(** C9: every fix the server publishes was emitted by the shard it names, whose fixes are
    published in the order of their emission and none twice; a shard emits only messages of
    four to sixteen receivers, with as many users named, an error below the ceiling and its
    own mark. *)
Theorem server_publishes cli parallelism epoch acts s : 0 <= cli_shards cli ->
  server_run (group_window cli) (Server_new cli parallelism epoch) acts = Some s ->
  let published := Fix <$> o_published (sv_task s) in
  (forall i st, sv_shards s !! i = Some st ->
     sublist (fixes_of i published) (emitted st) /\ Forall (own_message i) (emitted st)) /\
  (forall row, Fix row ∈ published -> exists st, sv_shards s !! or_shard row = Some st /\ Fix row ∈ emitted st /\
     (4 <= or_n row <= 16)%nat /\ length (or_users row) = or_n row /\ (or_err_m row >? MAX_ERR_M)%f64 = false).
Proof.
  intros Hn Hrun published. pose proof (server_run_ok _ _ _ _ _ (server_new_ok cli parallelism epoch Hn) Hrun) as Hok.
  assert (forall i st, sv_shards s !! i = Some st ->
    sublist (fixes_of i published) (emitted st) /\ Forall (own_message i) (emitted st)) as Hall.
  { intros i st Hst. destruct (sk_emitted _ _ Hok i st Hst) as [_ Hown Hsub]. split; [|done]. etransitivity; [|exact Hsub].
    unfold fixes_of. rewrite list.filter_app. apply sublist_inserts_r, reflexivity. }
  split; [exact Hall|]. intros row Hrow. pose proof (sk_marks _ _ Hok) as Hm.
  apply Forall_app in Hm as [Hm _]. rewrite list.Forall_forall in Hm. specialize (Hm _ Hrow). cbn [marked] in Hm.
  rewrite <- (sk_shards _ _ Hok) in Hm. destruct (lookup_lt_is_Some_2 _ _ Hm) as [st Hst]. exists st. split; [done|].
  destruct (Hall _ _ Hst) as [Hsub Hown].
  assert (Fix row ∈ emitted st) as Hin.
  { eapply elem_of_submseteq; [|by apply sublist_submseteq]. apply list_elem_of_filter. split; [apply Nat.eqb_refl|done]. }
  split; [done|]. rewrite list.Forall_forall in Hown. by destruct (Hown _ Hin) as [_ ?].
Qed.
End Whole.

(** ** Runs *)
Section Sample.
#[local] Existing Instance elem_taylor.
#[local] Existing Instance hex_tree.
#[local] Instance server_groups : HashIter string Group := hash_iter_list string Group.
#[local] Instance server_pairs : HashIter (nat * nat) (PairModel f64) := hash_iter_list (nat * nat) (PairModel f64).
#[local] Instance server_votes : HashIter nat nat := hash_iter_list nat nat.

(** Five stations; each clock started three seconds after the one before. *)
Definition station_places : list (Z * Z) := [(5200, 360); (5250, 350); (5245, 430); (5205, 440); (5230, 400)].
Definition station_names : list string := ["a"; "b"; "c"; "d"; "e"]%string.
Definition station_geo (i : nat) : Geodetic f64 :=
  let p := station_places !!! i in {| lat_deg := degrees p.1; lon_deg := degrees p.2; alt_m := fzero |}.
Definition station_info (i : nat) : ReceiverInfo := {|
  ri_user := station_names !!! i; ri_geo := station_geo i; ri_ecef := to_ecef (station_geo i); ri_freq_hz := of_Z 12000000;
  ri_gps := false; ri_jitter_s := lit 150 1000000000 |}.
Definition station_counts (i : nat) (t : f64) : Tree := TNum (inr (of_Z 12000000 * (t + of_Z (3 * Z.of_nat i)))%f64).
Definition station_hs (i : nat) : Tree :=
  TObj [("compress", TArr [TStr "none"]); ("lat", TNum (inr (lat_deg (station_geo i)))); ("lon", TNum (inr (lon_deg (station_geo i))));
    ("alt", TNum (inl 0)); ("user", TStr (station_names !!! i))]%string.
(** What a station overheard at time [t]: the two positions of the aircraft with ADS-B, the second half
    a second after the first; and a reply of the same aircraft at [flight]. *)
Definition flight : Geodetic f64 := {| lat_deg := degrees 5226; lon_deg := degrees 394; alt_m := (of_Z 38000 * lit 3048 10000)%f64 |}.
Definition station_sync (i : nat) (t : Z) : option Tree :=
  ev ← sync_event (station_info i) fzero fzero em_hex om_hex;
  Some (TObj [("sync", TObj [("et", station_counts i (of_Z t - se_te ev)%f64); ("ot", station_counts i (of_Z t + lit 5 10 - se_to ev)%f64);
    ("em", TStr em_hex); ("om", TStr om_hex)])]%string).
Definition station_mlat (i : nat) (t : Z) : Tree :=
  TObj [("mlat", TObj [("t", station_counts i (of_Z t + dist (ri_ecef (station_info i)) (to_ecef flight) / C_MPS)%f64);
    ("m", TStr (hex_encode (df11 0x40621D 5)))])]%string.
(** The lines of the clients, numbered. *)
Definition server_parse (l : list Z) : option Tree :=
  match l with
  | [1; i; 10] => Some (station_hs (Z.to_nat i))
  | [2; i; t; 10] => station_sync (Z.to_nat i) t
  | [3; i; t; 10] => Some (station_mlat (Z.to_nat i) t)
  | [4; 10] => Some (TObj [("clock_reset"%string, TNull)])
  | _ => None
  end.
#[local] Instance server_json : Json := json_with server_parse.

Definition sample_cli : Cli := {|
  cli_listen := "127.0.0.1:40160"; cli_client_listen := Some "40147"%string; cli_write_csv := true; cli_write_filtered_csv := false;
  cli_self_truth_csv := false; cli_group_window_ms := 900; cli_time_scale := of_Z 1; cli_shards := 0;
  cli_shard_cell_deg := of_Z 5; cli_shard_cap := 64 |}.
Example sample_start : n_shards sample_cli (Some 4) = 2 /\ n_shards sample_cli (Some 1) = 1 /\
  listen_address sample_cli = "0.0.0.0:40147"%string /\ hb_real sample_cli = Some (30 * 1000000000).
Proof. vm_compute. by split_and!. Qed.
(** The scale is not validated: zero and below are a panic, after the socket is bound. *)
Example heartbeat_panics : hb_real {| cli_listen := EmptyString; cli_client_listen := None; cli_write_csv := false; cli_write_filtered_csv := false;
  cli_self_truth_csv := false; cli_group_window_ms := 900; cli_time_scale := of_Z 0; cli_shards := 1; cli_shard_cell_deg := of_Z 5;
  cli_shard_cap := 64 |} = None.
Proof. vm_compute. reflexivity. Qed.
Definition start : Server := Server_new sample_cli (Some 4) (of_Z 1700000000, 0).
Definition sec : Z := 1000000000.
Definition joins (c : nat) (i : Z) : list Action := [AConnect c [1; i; 10]; APost c; AShard 0 false 1 []; AReply c true].
Definition says (t : Z) (c : nat) (line : list Z) : list Action := [ALine c line (of_Z (1700000000 + t)); AShard 0 false (t * sec) []].

(** A client connects twice under one name: the second connection takes the slot, and the
    removal the first one sends at its end finds its reference stale. *)
Definition twice : list Action :=
  joins 0 0 ++ says 2 0 [4; 10] ++ [AShard 0 true (3 * sec) []; AConnect 1 [1; 0; 10]; APost 1; AShard 0 false (4 * sec) []; AReply 1 true;
    ALeave 0; ARelease 0].
Definition end_state (acts : list Action) : option (nat * Z * nat) :=
  s ← server_run (group_window sample_cli) start acts;
  st ← sv_shards s !! 0%nat; q ← sv_mail s !! 0%nat;
  Some (live_receivers st, receivers_of (sv_router s) 0, length q).
Example slot_taken_over : end_state twice = Some (1%nat, 1, 1%nat) /\
  end_state (twice ++ [AShard 0 false (5 * sec) []]) = Some (1%nat, 1, 0%nat) /\ end_state (twice ++ [AOutput]) = None.
Proof. vm_compute. by split_and!. Qed.
(** A reply that cannot be written leaves the receiver registered and counted for ever. *)
Example reply_lost : end_state [AConnect 0 [1; 0; 10]; APost 0; AShard 0 false 1 []; AReply 0 false] = Some (1%nat, 1, 0%nat).
Proof. vm_compute. reflexivity. Qed.

(** Five clients connect, hear five pairs of positions and then the reply; the shard solves it. *)
Definition overheard (k t : Z) : list Action := seq 0 5 ≫= (fun i => says t i [k; Z.of_nat i; t; 10]).
Definition fix_run : list Action :=
  (seq 0 5 ≫= (fun i => joins i (Z.of_nat i))) ++
  (([5; 10; 15; 20; 25] : list Z) ≫= (fun t => overheard 2 t ++ [AShard 0 true ((t + 4) * sec) []])) ++
  overheard 3 30 ++ [AShard 0 true (31 * sec) [true]; AOutput].
Definition fixes (acts : list Action) : option (list (nat * nat * list string * Z)) :=
  s ← server_run (group_window sample_cli) start acts;
  Some ((fun row => (or_shard row, or_n row, or_users row, F64.as_i64 (haversine_m (or_pos row) flight))) <$> o_published (sv_task s)).
Lemma fix_found : fixes fix_run = Some [(0%nat, 5%nat, ["e"; "c"; "a"; "d"; "b"]%string, 0)].
Proof. vm_compute. reflexivity. Qed.

Lemma server_publishes_witness : exists s st row,
  server_run (group_window sample_cli) start fix_run = Some s /\ o_published (sv_task s) = [row] /\
  sv_shards s !! or_shard row = Some st /\ Fix row ∈ emitted st /\ or_n row = 5%nat.
Proof.
  pose proof fix_found as Hf. unfold fixes in Hf.
  destruct (server_run (group_window sample_cli) start fix_run) as [s|] eqn:E; [|discriminate Hf].
  cbn [mbind option_bind] in Hf. apply (inj Some) in Hf.
  destruct (o_published (sv_task s)) as [|row [|? ?]] eqn:Ep; [discriminate Hf| |discriminate Hf].
  destruct (server_publishes sample_cli (Some 4) (of_Z 1700000000, 0) fix_run s) as [_ Hrows]; [discriminate|exact E|].
  destruct (Hrows row) as (st & Hst & Hin & _); [rewrite Ep; left|].
  exists s, st, row. split; [reflexivity|]. split; [exact Ep|]. split; [exact Hst|]. split; [exact Hin|].
  exact (f_equal (fun l : list (nat * nat * list string * Z) => match l with x :: _ => x.1.1.2 | [] => 0%nat end) Hf).
Defined.
End Sample.
