(* ===== verification/Input.v ===== *)
(** * The client's input (crates/mlatc/src/main.rs: the input task, stats_path_for, the result pumps)

    The input task connects, decodes what it reads and passes the receptions on to the engine's
    task; a new connection starts a new decoder, and the engine forgets the halves of pairs
    between connections.  The two are composed here: whatever the reads, the reconnections and
    the interleaving with the other events of the engine, a pair of frames that a server is sent
    was decoded from the bytes of one connection of the input. *)
From Stdlib Require Import Ascii.
From S2P Require Import Prelude F64 Num Text Decimal Frames Beast Proto Engine Results Client.
Local Open Scope Z_scope.

(** ** The input task *)
(** One read: the bytes, and whether the engine still takes events. *)
Definition Read : Type := list Z * bool.
(** The reads of a connection until it ends; [true]: the task returned. *)
Fixpoint read_input (dec : BeastDecoder) (reads : list Read) : list Ev * bool :=
  match reads with
  | [] => ([], false)
  | (bytes, engine) :: reads =>
      let '(dec, rs) := feed dec bytes in
      match rs with
      | [] => read_input dec reads
      | _ =>
          if engine then let '(evs, ended) := read_input dec reads in (Receptions rs :: evs, ended)
          else ([], true)
      end
  end.
(** The task: one entry per attempt to connect, [None] for one that failed. *)
Fixpoint input_task (attempts : list (option (list Read))) : list Ev :=
  match attempts with
  | [] => []
  | None :: attempts => input_task attempts
  | Some reads :: attempts =>
      let '(evs, ended) := read_input {| buf := [] |} reads in
      InputUp :: evs ++ if ended then [] else InputDown :: input_task attempts
  end.

(** ** The stats file of a server *)
Definition is_alphanumeric (c : ascii) : bool :=
  is_digit c || (65 <=? byte_of c) && (byte_of c <=? 90) || (97 <=? byte_of c) && (byte_of c <=? 122).
Definition UNDERSCORE : ascii := ascii_of_nat 95.
Definition server_tag (addr : string) : string :=
  String.string_of_list_ascii ((fun c => if is_alphanumeric c then c else UNDERSCORE) <$> String.list_ascii_of_string addr).
(** A path is its directory and its file name; the stem is the name up to its last dot, if that is
    not its first character. *)
Record Path := { dir_of : string; name_of : string }.
Fixpoint before_last_dot (l : list ascii) : option (list ascii) :=
  match l with
  | [] => None
  | c :: l =>
      match before_last_dot l with
      | Some k => Some (c :: k)
      | None => if Ascii.eqb c (ascii_of_nat 46) then Some [] else None
      end
  end.
Definition file_stem (name : string) : string :=
  match before_last_dot (String.list_ascii_of_string name) with
  | Some (c :: k) => String.string_of_list_ascii (c :: k)
  | _ => name
  end.
Definition stats_path_for (stats_json : option Path) (server : list string) (idx : nat) : option Path :=
  base ← stats_json;
  if (length server =? 1)%nat then Some base
  else Some {| dir_of := dir_of base; name_of := sconcat [file_stem (name_of base); "-"; server_tag (server !!! idx); ".json"]%string |}.

(** ** The SBS pump *)
Inductive SbsEvent := SbsPos (p : ResultPos) (ok : bool) | SbsGone.
(** What a listener's client is sent: a line per position until a write or the channel fails. *)
Fixpoint sbs_pump (evs : list SbsEvent) : list string :=
  match evs with
  | SbsPos p true :: evs => rp_sbs_line p :: sbs_pump evs
  | _ => []
  end.

(** ** Halves of pairs *)
Section Pairs.
Context `{Json, Hex, !HashIter Z Aircraft}.
Implicit Types P : Z * string -> Prop.

Definition half_in P (m : option (Z * string)) : Prop := match m with Some x => P x | None => True end.
Definition halves P (a : Aircraft) : Prop := half_in P (even_msg a) /\ half_in P (odd_msg a).
(** Every stored half satisfies [P]. *)
Definition stored P (e : Engine) : Prop := map_Forall (fun _ a => halves P a) (aircraft e).

Lemma stored_mono P Q e : (forall x, P x -> Q x) -> stored P e -> stored Q e.
Proof.
  intros Hpq He i a Ha. destruct (He i a Ha) as [H1 H2].
  split; [destruct (even_msg a)|destruct (odd_msg a)]; cbn in *; auto.
Qed.
Lemma stored_reset P e : stored P (input_reset e).
Proof. intros i a Hi. cbn in Hi. by apply lookup_fmap_Some in Hi as (a' & <- & _). Qed.
Lemma stored_set_requested P e s hs v : stored P e -> stored P (set_requested e s hs v).
Proof.
  intros He. unfold set_requested. apply fold_left_invariant; [done|]. intros e' h Hm _.
  destruct (from_str_radix16 h) as [addr|]; [|done]. intros i a Hi. cbn in Hi. destruct (decide (addr = i)) as [->|].
  - rewrite lookup_alter_eq in Hi. apply fmap_Some in Hi as (a' & Ha & ->). exact (Hm _ _ Ha).
  - rewrite lookup_alter_ne in Hi by done. by apply (Hm i).
Qed.
Lemma stored_server_reset P e s : stored P e -> stored P (server_reset e s).
Proof. intros He i a Hi. cbn in Hi. apply lookup_fmap_Some in Hi as (a' & <- & Ha). exact (He _ _ Ha). Qed.
Lemma stored_touch P e addr now v : stored P e -> stored P (touch e addr now v).
Proof.
  intros He. unfold touch. destruct (aircraft e !! addr) as [a|] eqn:Ha; [|destruct v; [|done]].
  - apply map_Forall_insert_2; [exact (He _ _ Ha)|done].
  - by apply map_Forall_insert_2.
Qed.
Lemma stored_tick P e now : stored P e -> stored P (tick e now).1.
Proof.
  intros He. unfold tick. set (sw := sweep _ _ _). assert (map_Forall (fun _ a => halves P a) (kept sw)) as Hk.
  { intros i a' Hi. apply sweep_kept in Hi as (a & Ha & _ & ->); [|apply NoDup_hash_iter].
    apply elem_of_hash_iter in Ha. exact (He _ _ Ha). }
  destruct (_ >=? _)%f64; [|done]. cbn [fst]. intros i a Hi. cbn [aircraft set_aircraft] in Hi.
  apply lookup_fmap_Some in Hi as (a' & <- & Ha). exact (Hk _ _ Ha).
Qed.
Lemma tick_no_sync e now s et ot em om : (s, Sync et ot em om) ∈ (tick e now).2 -> False.
Proof.
  unfold tick. assert (forall n seen lost, (s, Sync et ot em om) ∈ announcements n seen lost -> False) as Ha.
  { intros n seen lost (x & Hin & _)%list_elem_of_bind. unfold told_lists in Hin.
    apply elem_of_app in Hin as [Hin|Hin]; [destruct (seen !!! x)|destruct (lost !!! x)];
      (by apply not_elem_of_nil in Hin) || by apply list_elem_of_singleton in Hin. }
  destruct (_ >=? _)%f64; [|by apply Ha]. cbn [snd]. case_bool_decide; [by apply Ha|].
  intros [?%Ha|(x & [=] & _)%list_elem_of_fmap]%elem_of_app. done.
Qed.

(** A reception stores itself at most, and a pair it completes is stored. *)
Lemma stored_reception P e r now : stored P e -> P (counts_12mhz r, hex_encode (frame r)) ->
  stored P (on_reception e r now).1 /\
  forall s et ot em om, (s, Sync et ot em om) ∈ (on_reception e r now).2 ->
    exists ce co, et = num_of_u64 ce /\ ot = num_of_u64 co /\ P (ce, em) /\ P (co, om) /\
      (of_Z (abs_diff ce co) / FREQ_12MHZ >? MAX_PAIR_S)%f64 = false.
Proof.
  intros He Hr. unfold on_reception.
  assert (stored P (check_counter e r).1) as Hc
    by (unfold check_counter; destruct (last_counter e); [destruct (clock_restarted _ _); [apply stored_reset|]|]; done).
  pose proof (fun s m => check_counter_out e r s m) as Ho. destruct (check_counter e r) as [e1 out]. cbn [fst snd] in *.
  assert (forall s et ot em om, (s, Sync et ot em om) ∈ out -> False) as Hno by (intros s et ot em om [? _]%Ho; done).
  set (e2 := set_last_counter _ e1). assert (stored P e2) as H2 by done. clearbody e2. clear Hc.
  destruct (df_of (frame r)) as [df|]; [|split; [done|by intros ????? ?%Hno]]. destruct (df =? 17).
  - destruct (negb _); [split; [done|by intros ????? ?%Hno]|]. set (e3 := touch _ _ _ _).
    assert (stored P e3) as H3 by by apply stored_touch. clearbody e3.
    destruct (parse_df17_airborne (frame r)) as [d|]; [|split; [done|by intros ????? ?%Hno]].
    destruct (aircraft e3 !! icao d) as [a|] eqn:Ha;
      [|unfold pair_sync; rewrite Ha; split; [done|intros ?????; rewrite app_nil_r; by intros ?%Hno]].
    destruct (pair_sync_spec e3 (icao d) (Frames.odd d) r now a Ha) as (g & out' & -> & _ & Hout).
    assert (halves P (paired a (Frames.odd d) r)) as Hpa.
    { destruct (H3 _ _ Ha). unfold paired. by destruct (Frames.odd d). }
    split; [by apply map_Forall_insert_2|]. intros s et ot em om [?%Hno|Hin]%elem_of_app; [done|].
    destruct Hout as [->|(ce & he & co & ho & Ee & Eo & Hsp & ->)]; [by apply not_elem_of_nil in Hin|].
    apply elem_of_send_where in Hin as [[= -> -> -> ->] _]. destruct Hpa as [P1 P2]. rewrite Ee in P1. rewrite Eo in P2.
    exists ce, co. by split_and!.
  - destruct (mlat_address e2 df (frame r) now) as [[addr e3]|] eqn:Hm; [|split; [done|by intros ????? ?%Hno]].
    assert (stored P e3) as H3 by (apply mlat_address_inv in Hm as [(_ & _ & _ & ->)| ->]; by apply stored_touch).
    destruct (aircraft e3 !! addr); [|split; [done|by intros ????? ?%Hno]]. split; [done|].
    intros s et ot em om [?%Hno|[? _]%elem_of_send_where]%elem_of_app; done.
Qed.
Lemma stored_receptions P e rs now : stored P e -> Forall (fun r => P (counts_12mhz r, hex_encode (frame r))) rs ->
  stored P (on_receptions e rs now).1 /\
  forall s et ot em om, (s, Sync et ot em om) ∈ (on_receptions e rs now).2 ->
    exists ce co, et = num_of_u64 ce /\ ot = num_of_u64 co /\ P (ce, em) /\ P (co, om) /\
      (of_Z (abs_diff ce co) / FREQ_12MHZ >? MAX_PAIR_S)%f64 = false.
Proof.
  intros He Hrs. unfold on_receptions.
  apply (fold_left_invariant (fun acc : Engine * list Outbound => stored P acc.1 /\ forall s et ot em om, (s, Sync et ot em om) ∈ acc.2 ->
    exists ce co, et = num_of_u64 ce /\ ot = num_of_u64 co /\ P (ce, em) /\ P (co, om) /\
      (of_Z (abs_diff ce co) / FREQ_12MHZ >? MAX_PAIR_S)%f64 = false)).
  - split; [done|]. by intros ????? ?%not_elem_of_nil.
  - intros [e1 out] r [H1 Hout] Hr. rewrite list.Forall_forall in Hrs. cbn [fst snd] in *.
    destruct (stored_reception P e1 r now H1 (Hrs r Hr)) as [H2 Ho]. destruct (on_reception e1 r now) as [e2 out2]. cbn [fst snd] in *.
    split; [done|]. intros s et ot em om [?%Hout|?%Ho]%elem_of_app; done.
Qed.
End Pairs.

(** ** The input task and the engine *)
Section Compose.
Context `{Json, Hex, !HashIter Z Aircraft}.

Definition engine_run (n_srv : nat) (eng : Engine) (evs : list (option Ev * Z)) : Engine :=
  fold_left (fun e x => (engine_event n_srv e x.1 x.2).1) evs eng.
(** The events of the input among the engine's, and what was received since it last changed. *)
Definition input_event (ev : option Ev) : option Ev :=
  match ev with Some (Receptions _ | InputUp | InputDown) => ev | _ => None end.
Definition recent (heard : list Reception) (ev : Ev) : list Reception :=
  match ev with Receptions rs => heard ++ rs | InputUp | InputDown => [] | _ => heard end.
Definition heard (evs : list Ev) : list Reception := fold_left recent evs [].
Definition among (rs : list Reception) (x : Z * string) : Prop := exists r, r ∈ rs /\ x = (counts_12mhz r, hex_encode (frame r)).

Lemma run_stored n user t0 evs :
  stored (among (heard (omap input_event evs.*1))) (engine_run n (Engine_new user t0 n) evs).
Proof.
  induction evs as [|[ev now] evs IH] using rev_ind; [apply map_Forall_empty|].
  unfold engine_run in *. rewrite fold_left_app, fmap_app, omap_app. unfold heard in *. rewrite fold_left_app.
  cbn [fold_left fst snd fmap list_fmap omap list_omap]. set (e := fold_left _ evs _) in *. set (h := fold_left recent _ []) in *.
  destruct ev as [[rs| | |s v|s v|s]|]; cbn [engine_event input_event fold_left recent].
  - apply stored_receptions; [eapply stored_mono; [|exact IH]; intros x (r & ? & ->); exists r; split; [set_solver|done]|].
    apply list.Forall_forall. intros r Hr. exists r. split; [set_solver|done].
  - apply stored_reset.
  - apply stored_reset.
  - by apply stored_set_requested.
  - by apply stored_set_requested.
  - by apply stored_server_reset.
  - by apply stored_tick.
Qed.

(** What one connection passes on is a prefix of what its bytes decode to. *)
Definition receptions_of (ev : Ev) : list Reception := match ev with Receptions rs => rs | _ => [] end.
Lemma read_input_receptions dec reads :
  prefix ((read_input dec reads).1 ≫= receptions_of) (feed_all dec reads.*1).2 /\
  Forall (fun ev => exists rs, ev = Receptions rs) (read_input dec reads).1.
Proof.
  induction reads as [|[bytes engine] reads IH] in dec |- *; [by split; [apply prefix_nil|constructor]|].
  cbn [read_input fmap list_fmap feed_all fst]. destruct (feed dec bytes) as [dec' rs]. specialize (IH dec') as [Hp Hf].
  destruct (feed_all dec' reads.*1) as [d2 rest]. cbn [snd] in *. destruct rs as [|r rs]; [done|].
  destruct engine; [|by split; [apply prefix_nil|constructor]]. destruct (read_input dec' reads) as [evs ended]. cbn [fst] in *.
  split; [|constructor; [by eexists|done]]. change (prefix ((r :: rs) ++ (evs ≫= receptions_of)) ((r :: rs) ++ rest)).
  by apply prefix_app.
Qed.
Lemma heard_receptions evs h : Forall (fun ev => exists rs, ev = Receptions rs) evs -> fold_left recent evs h = h ++ (evs ≫= receptions_of).
Proof.
  intros Hf. revert h. induction Hf as [|ev evs [rs ->] Hf IH]; intros h; [by rewrite app_nil_r|].
  cbn [fold_left recent]. rewrite IH. change ((Receptions rs :: evs) ≫= receptions_of) with (rs ++ (evs ≫= receptions_of)). by rewrite app_assoc.
Qed.
Lemma prefix_app_split {A} (l a b : list A) : prefix l (a ++ b) -> prefix l a \/ exists k, l = a ++ k /\ prefix k b.
Proof.
  revert l. induction a as [|x a IH]; intros l Hp; [right; by exists l|]. destruct l as [|y l]; [left; apply prefix_nil|].
  apply prefix_cons_inv_1 in Hp as E. subst y. apply prefix_cons_inv_2 in Hp. destruct (IH l Hp) as [|(k & -> & ?)].
  - left. by apply prefix_cons.
  - right. by exists k.
Qed.
(** At any point of the task, what was received since the input last changed is of one connection. *)
Lemma heard_one attempts evs : prefix evs (input_task attempts) -> heard evs = [] \/
  exists reads, Some reads ∈ attempts /\ forall r, r ∈ heard evs -> r ∈ (feed_all {| buf := [] |} reads.*1).2.
Proof.
  revert evs. induction attempts as [|[reads|] attempts IH]; intros evs Hp.
  - cbn in Hp. apply prefix_nil_inv in Hp as ->. by left.
  - cbn [input_task] in Hp. destruct (read_input_receptions {| buf := [] |} reads) as [Hr Hf].
    destruct (read_input {| buf := [] |} reads) as [es ended]. cbn [fst snd] in *.
    destruct evs as [|ev evs]; [by left|]. apply prefix_cons_inv_1 in Hp as Eev. subst ev. apply prefix_cons_inv_2 in Hp.
    unfold heard. cbn [fold_left recent].
    assert (forall k, prefix k es -> fold_left recent k [] = [] \/ exists reads0, Some reads0 ∈ Some reads :: attempts /\
      forall r, r ∈ fold_left recent k [] -> r ∈ (feed_all {| buf := [] |} reads0.*1).2) as Hin.
    { intros k [l El]. right. exists reads. split; [by left|]. intros r Hrin.
      rewrite El in Hf. apply Forall_app in Hf as [Hf _]. rewrite heard_receptions in Hrin by done. cbn [app] in Hrin.
      destruct Hr as [rest ->]. rewrite El, bind_app. set_solver. }
    apply prefix_app_split in Hp as [Hp|(k & -> & Hp)]; [by apply Hin|]. rewrite fold_left_app.
    destruct ended; [apply prefix_nil_inv in Hp as ->; by apply Hin|].
    destruct k as [|x k]; [by apply Hin|]. apply prefix_cons_inv_1 in Hp as Ex. subst x. apply prefix_cons_inv_2 in Hp.
    cbn [fold_left recent]. destruct (IH k Hp) as [|(reads' & ? & ?)]; [by left|right]. exists reads'. split; [by right|done].
  - cbn [input_task] in Hp. destruct (IH evs Hp) as [|(reads' & ? & ?)]; [by left|right]. exists reads'. split; [by right|done].
Qed.

(** C2: however the input is cut into reads, fails and reconnects, and however its events
    interleave with ticks, requests and resets of servers: the two frames of every sync message
    were decoded from the bytes of one and the same connection of the input, with the counters
    that connection gave them, not more than 4 s of counts apart. *)
Theorem pairs_within_connection n user t0 attempts evs ev now s et ot em om :
  prefix (omap input_event (evs.*1 ++ [ev])) (input_task attempts) ->
  (s, Sync et ot em om) ∈ (engine_event n (engine_run n (Engine_new user t0 n) evs) ev now).2 ->
  exists reads re ro, Some reads ∈ attempts /\
    re ∈ (feed {| buf := [] |} (concat reads.*1)).2 /\ ro ∈ (feed {| buf := [] |} (concat reads.*1)).2 /\
    et = num_of_u64 (counts_12mhz re) /\ em = hex_encode (frame re) /\
    ot = num_of_u64 (counts_12mhz ro) /\ om = hex_encode (frame ro) /\
    (of_Z (abs_diff (counts_12mhz re) (counts_12mhz ro)) / FREQ_12MHZ >? MAX_PAIR_S)%f64 = false.
Proof.
  intros Hp Hm. pose proof (run_stored n user t0 evs) as Hst. set (e := engine_run _ _ _) in *.
  pose proof (heard_one _ _ Hp) as Hone. unfold heard in Hone. rewrite omap_app, fold_left_app in Hone. unfold heard in Hst.
  set (h := fold_left recent (omap input_event evs.*1) []) in *.
  destruct ev as [[rs| | |s' v|s' v|s']|]; cbn [engine_event snd] in Hm;
    try (by apply not_elem_of_nil in Hm); try (by apply list_elem_of_fmap in Hm as (? & [=] & _)); [|by apply tick_no_sync in Hm].
  cbn [omap list_omap input_event fold_left recent] in Hone.
  destruct (stored_receptions (among (h ++ rs)) e rs now) as [_ Hout].
  - eapply stored_mono; [|exact Hst]. intros x (r & ? & ->). exists r. split; [set_solver|done].
  - apply list.Forall_forall. intros r Hr. exists r. split; [set_solver|done].
  - destruct (Hout _ _ _ _ _ Hm) as (ce & co & -> & -> & (re & Hre & [= -> ->]) & (ro & Hro & [= -> ->]) & Hsp).
    destruct Hone as [E|(reads & Hin & Hall)]; [rewrite E in Hre; by apply not_elem_of_nil in Hre|].
    rewrite (feed_all_scan {| buf := [] |} reads.*1), feed_scan in Hall by done. rewrite <- feed_scan in Hall.
    exists reads, re, ro. split_and!; try done; by apply Hall.
Qed.
End Compose.

(** ** The stats files of several servers *)
(** Addresses that differ only in other characters share one file, although each session is
    meant to write its own. *)
Example stats_paths_shared : let servers := ["feed.a-b:1"; "feed.a.b:1"]%string in
  let base := Some {| dir_of := "/run"; name_of := "stats.v2.json" |}%string in
  stats_path_for base servers 0 = stats_path_for base servers 1 /\
  name_of <$> stats_path_for base servers 0 = Some "stats.v2-feed_a_b_1.json"%string.
Proof. vm_compute. by split. Qed.

(** ** A run *)
Section Sample.
#[local] Existing Instance json_tree.
#[local] Existing Instance hex_tree.
#[local] Instance input_order : HashIter Z Aircraft := hash_iter_list Z Aircraft.
Definition even_frame : list Z := default [] (unhex "8d40621d58c382d690c8ac2863a7").
Definition odd_frame : list Z := default [] (unhex "8d40621d58c386435cc412692ad6").
Definition first_reads : list Read := [(encode 1000 1 even_frame, true)].
Definition second_reads : list Read :=
  [(take 5 (encode 500 1 even_frame), true); (drop 5 (encode 500 1 even_frame), true); (encode 6000500 1 odd_frame, true)].
Definition sample_attempts : list (option (list Read)) := [Some first_reads; None; Some second_reads].
(** The first connection ends between the two halves; only the second connection gives a pair. *)
Definition sample_events : list (option Ev * Z) :=
  [(Some InputUp, 1); (Some (Receptions [{| counts_12mhz := 1000; frame := even_frame |}]), 2); (Some (EvStart 0 ["40621d"%string]), 3);
   (Some InputDown, 4); (None, 5); (Some InputUp, 6); (Some (Receptions [{| counts_12mhz := 500; frame := even_frame |}]), 7)].
Definition last_event : option Ev := Some (Receptions [{| counts_12mhz := 6000500; frame := odd_frame |}]).
Lemma pairs_within_connection_witness : exists reads re ro,
  (0%nat, Sync (num_of_u64 500) (num_of_u64 6000500) (hex_encode even_frame) (hex_encode odd_frame))
    ∈ (engine_event 1 (engine_run 1 (Engine_new "u" 0 1) sample_events) last_event 8).2 /\
  Some reads ∈ sample_attempts /\
  re ∈ (feed {| buf := [] |} (concat reads.*1)).2 /\ ro ∈ (feed {| buf := [] |} (concat reads.*1)).2.
Proof.
  assert ((0%nat, Sync (num_of_u64 500) (num_of_u64 6000500) (hex_encode even_frame) (hex_encode odd_frame))
    ∈ (engine_event 1 (engine_run 1 (Engine_new "u" 0 1) sample_events) last_event 8).2) as Hin by (vm_compute; left).
  destruct (pairs_within_connection 1 "u" 0 sample_attempts sample_events last_event 8 0 _ _ _ _
    ltac:(eexists; vm_compute; reflexivity) Hin) as (reads & re & ro & ? & ? & ? & _).
  exists reads, re, ro. split_and!; assumption.
Defined.
End Sample.
