(* ===== verification/Start.v ===== *)
(** * Starting the client (crates/mlatc/src/main.rs: Cli, main)

    The command line as clap hands it over, what it is checked for, the outputs it opens and
    the sessions it makes, one per server; and what mlatd makes of their handshakes: from the
    arguments of a client to its registration at a server. *)
From S2P Require Import Prelude F64 Num Text Decimal Results Metrics Geo Proto Framing Beast Engine Frames.
From S2P Require Import ServerState Shard Router Session Wire Client Input Served Link.
Local Open Scope Z_scope.

(** ** The command line *)
Record Cli := {
  cli_input_type : string; cli_input_connect : string; cli_server : list string; cli_user : string; cli_lat : f64; cli_lon : f64;
  cli_alt : string; cli_uuid : list string; cli_stats_json : option Path; cli_results : list string
}.

(** ** Start-up *)
Inductive StartError := UnknownInput (input : string) | UnknownAlt (alt : string) | UuidCount (uuids servers : nat)
  | UnknownResults (spec : string) | BindFailed (addr : string).
Definition every_address (port : string) : string := sconcat ["0.0.0.0:"; port]%string.
(** The address a result output listens on, if it does. *)
Definition sink_listens (s : ResultSink) : option string :=
  match s with SinkSbsListen port | SinkBeastListen port => Some (every_address port) | SinkNone | SinkBeastConnect _ => None end.
(** The outputs in order; [bind i]: whether the address of the [i]-th can be bound. *)
Fixpoint open_results (bind : nat -> string -> bool) (i : nat) (specs : list string) : list ResultSink + StartError :=
  match specs with
  | [] => inl []
  | spec :: specs =>
      match parse_results spec with
      | None => inr (UnknownResults spec)
      | Some s =>
          match sink_listens s with
          | Some addr =>
              if bind i addr then match open_results bind (S i) specs with inl l => inl (s :: l) | inr e => inr e end
              else inr (BindFailed addr)
          | None => match open_results bind (S i) specs with inl l => inl (s :: l) | inr e => inr e end
          end
      end
  end.
Record Started := { st_clock : ClockType; st_alt_m : f64; st_sinks : list ResultSink }.
Definition takes_results (s : ResultSink) : bool := match s with SinkNone => false | _ => true end.
Definition want_results (st : Started) : bool := existsb takes_results (st_sinks st).
Definition startup (bind : nat -> string -> bool) (cli : Cli) : Started + StartError :=
  match input_clock (cli_input_type cli) with
  | None => inr (UnknownInput (cli_input_type cli))
  | Some clock =>
      match parse_alt (cli_alt cli) with
      | None => inr (UnknownAlt (cli_alt cli))
      | Some alt_m =>
          if negb (uuids_fit (cli_uuid cli) (length (cli_server cli))) then inr (UuidCount (length (cli_uuid cli)) (length (cli_server cli)))
          else match open_results bind 0 (cli_results cli) with
               | inr e => inr e
               | inl sinks => inl {| st_clock := clock; st_alt_m := alt_m; st_sinks := sinks |}
               end
      end
  end.

(** ** The sessions: one per server *)
Record SessionArgs := { sa_idx : nat; sa_addr : string; sa_uuid : option string; sa_stats_path : option Path }.
Definition session_args (cli : Cli) : list SessionArgs :=
  imap (fun idx addr => {| sa_idx := idx; sa_addr := addr; sa_uuid := uuid_of (cli_uuid cli) idx;
                           sa_stats_path := stats_path_for (cli_stats_json cli) (cli_server cli) idx |}) (cli_server cli).
Section Code.
Context `{Json}.
Definition session_handshake (program : string) (cli : Cli) (st : Started) (a : SessionArgs) : Handshake :=
  client_handshake (cli_user cli) (sa_uuid a) (cli_lat cli) (cli_lon cli) (st_alt_m st) (st_clock st) (want_results st)
    (bool_decide (is_Some (sa_stats_path a))) program.
End Code.

(** ** What starts *)
Section Starts.
Lemma open_results_ok bind i specs sinks : open_results bind i specs = inl sinks <->
  parse_results <$> specs = Some <$> sinks /\ forall k s addr, sinks !! k = Some s -> sink_listens s = Some addr -> bind (i + k)%nat addr = true.
Proof.
  revert i sinks. induction specs as [|spec specs IH]; intros i sinks; cbn [open_results fmap list_fmap].
  - split; [intros [= <-]; by split|]. intros [E _]. by destruct sinks.
  - destruct (parse_results spec) as [s|]; [|split; [done|]; intros [E _]; by destruct sinks].
    assert ((match open_results bind (S i) specs with inl l => inl (s :: l) | inr e => inr e end = inl sinks) <->
      exists l, sinks = s :: l /\ open_results bind (S i) specs = inl l) as Hrest.
    { destruct (open_results bind (S i) specs); split; try (by intros [= <-]; eexists); try done; by intros (? & -> & [= <-]). }
    assert ((exists l, sinks = s :: l /\ open_results bind (S i) specs = inl l /\ (forall addr, sink_listens s = Some addr -> bind i addr = true)) <->
      Some s :: (parse_results <$> specs) = Some <$> sinks /\
      forall k s' addr, sinks !! k = Some s' -> sink_listens s' = Some addr -> bind (i + k)%nat addr = true) as <-.
    { split.
      - intros (l & -> & [Ep Hb]%IH & Hs). split; [by rewrite Ep|]. intros [|k] s' addr E Hl; [injection E as <-; rewrite Nat.add_0_r; by apply Hs|].
        replace (i + S k)%nat with (S i + k)%nat by lia. by apply (Hb k s').
      - destruct sinks as [|s' l]; [by intros [E _]|]. intros [[= <- E] Hb]. exists l. split_and!; [done| |].
        + apply IH. split; [done|]. intros k s' addr Ek Hl. replace (S i + k)%nat with (i + S k)%nat by lia. by apply (Hb (S k) s').
        + intros addr Hl. rewrite <- (Nat.add_0_r i). by apply (Hb 0%nat s). }
    destruct (sink_listens s) as [addr|].
    + destruct (bind i addr) eqn:Eb; [rewrite Hrest|]; split; try done.
      * intros (l & ? & ?). exists l. split_and!; [done..|]. by intros ? [= <-].
      * intros (l & ? & ? & _). by exists l.
      * intros (l & _ & _ & Hs). by rewrite (Hs addr) in Eb.
    + rewrite Hrest. split; intros (l & ? & ?); exists l; [by split_and!|naive_solver].
Qed.
(** The client starts exactly when its input is of a known kind, its altitude a number with
    or without a unit, there is no uuid, one, or one for each server, every result output is
    of a known kind, and those that listen can be bound in their order. *)
Theorem startup_iff bind cli st : startup bind cli = inl st <->
  input_clock (cli_input_type cli) = Some (st_clock st) /\ parse_alt (cli_alt cli) = Some (st_alt_m st) /\
  ((length (cli_uuid cli) <= 1)%nat \/ length (cli_uuid cli) = length (cli_server cli)) /\
  parse_results <$> cli_results cli = Some <$> st_sinks st /\
  forall k s addr, st_sinks st !! k = Some s -> sink_listens s = Some addr -> bind k addr = true.
Proof.
  unfold startup. destruct st as [clock alt_m sinks]. cbn [st_clock st_alt_m st_sinks].
  destruct (input_clock _) as [clk|]; [|naive_solver]. destruct (parse_alt _) as [alt|]; [|naive_solver].
  assert (uuids_fit (cli_uuid cli) (length (cli_server cli)) = true <->
    (length (cli_uuid cli) <= 1)%nat \/ length (cli_uuid cli) = length (cli_server cli)) as <-.
  { unfold uuids_fit. destruct (Nat.ltb_spec 1 (length (cli_uuid cli))), (Nat.eqb_spec (length (cli_uuid cli)) (length (cli_server cli))); cbn; intuition lia. }
  destruct (uuids_fit _ _); cbn [negb]; [|naive_solver]. pose proof (open_results_ok bind 0 (cli_results cli)) as Ho.
  destruct (open_results bind 0 _) as [l|e].
  - split.
    + intros [= -> -> ->]. split_and!; try done; by apply (Ho sinks).
    + intros ([= ->] & [= ->] & _ & Hs). f_equal. apply (Ho sinks) in Hs. by injection Hs as ->.
  - split; [done|]. intros (_ & _ & _ & Hs). by apply Ho in Hs.
Qed.
Lemma want_results_iff bind cli st : startup bind cli = inl st ->
  want_results st = true <-> exists spec s, spec ∈ cli_results cli /\ parse_results spec = Some s /\ s <> SinkNone.
Proof.
  intros (_ & _ & _ & E & _)%startup_iff. unfold want_results. rewrite existsb_exists. split.
  - intros (s & Hs%list_elem_of_In & Ht). assert (Some s ∈ parse_results <$> cli_results cli) as (spec & Ep & Hin)%list_elem_of_fmap
      by (rewrite E; by apply list_elem_of_fmap_2). exists spec, s. split_and!; [done..|]. by intros ->.
  - intros (spec & s & Hin & Ep & Hs). assert (Some s ∈ Some <$> st_sinks st) as (s' & [= <-] & Hs')%list_elem_of_fmap
      by (rewrite <- E, <- Ep; by apply list_elem_of_fmap_2). exists s. split; [by apply list_elem_of_In|by destruct s].
Qed.
Lemma session_args_lookup cli k a : session_args cli !! k = Some a <->
  exists addr, cli_server cli !! k = Some addr /\
    a = {| sa_idx := k; sa_addr := addr; sa_uuid := uuid_of (cli_uuid cli) k; sa_stats_path := stats_path_for (cli_stats_json cli) (cli_server cli) k |}.
Proof. unfold session_args. rewrite list_lookup_imap, fmap_Some. done. Qed.
(** The uuid of a session is the only one given, or that of its server. *)
Lemma session_uuid bind cli st k a : startup bind cli = inl st -> session_args cli !! k = Some a ->
  sa_uuid a = match cli_uuid cli with [] => None | [u] => Some u | us => Some (us !!! k) end.
Proof.
  intros (_ & _ & Hu & _)%startup_iff (addr & Hk & ->)%session_args_lookup. cbn [sa_uuid]. unfold uuid_of.
  destruct (cli_uuid cli) as [|u [|u' us]]; [done..|]. apply list_lookup_lookup_total_lt. apply lookup_lt_Some in Hk. cbn in *. lia.
Qed.
Lemma session_stats cli k a : session_args cli !! k = Some a -> is_Some (sa_stats_path a) <-> is_Some (cli_stats_json cli).
Proof.
  intros (addr & Hk & ->)%session_args_lookup. cbn [sa_stats_path]. unfold stats_path_for. destruct (cli_stats_json cli) as [p|]; cbn; [|done].
  destruct (_ =? 1)%nat; by split.
Qed.
Lemma input_clock_12mhz s clk : input_clock s = Some clk -> freq_hz clk = of_Z 12000000 /\ clk <> RadarcapeGps.
Proof. unfold input_clock. repeat destruct (_ =? _)%string; cbn; by intros [= <-]. Qed.
End Starts.

(** ** From the command line to the server *)
Section Accepted.
Context `{JsonWriteLaws, JsonText, Hex, Flate, Elem f64}.
Context (program : string).
(** The texts of the server's answers are JSON with their fields. *)
Hypothesis reply_reads : forall a, ac_negotiated a ∈ ["zlib2"; "zlib"; "none"]%string -> exists v,
  from_slice (bytes_of (reply_line a)) = Some v /\ jget v "deny" = None /\ jget v "compress" ≫= as_str = Some (ac_negotiated a).
Hypothesis deny_reads : forall r, exists v, from_slice (bytes_of (deny_line r)) = Some v /\ is_Some (jget v "deny").

Lemma denied_session r : session_open (bytes_of (deny_line r)) = inr ExReply.
Proof.
  destruct (deny_reads r) as (v & Ev & d & Ed). assert (exists b l, bytes_of (deny_line r) = b :: l) as (b & l & El) by (destruct r; by eexists _, _).
  unfold session_open, parse_handshake_reply. by rewrite Ev, Ed, El.
Qed.
(** C4: from the command line to the server.  When a client starts, it has exactly one session
    per server, in their order: each to its address, with its own uuid or the one shared, and
    what a server makes of its handshake is what the command line says: the user at its
    position, a clock of 12 MHz without GPS, results exactly when an output takes them,
    statistics exactly when there is a stats file, compressed both ways, and the session opens.
    A position that is not finite, in any coordinate, is the only thing that is refused, and
    its session ends at once. *)
Theorem started_client_accepted bind cli st : startup bind cli = inl st ->
  sa_addr <$> session_args cli = cli_server cli /\
  forall k addr, cli_server cli !! k = Some addr -> exists a, session_args cli !! k = Some a /\ sa_idx a = k /\ sa_addr a = addr /\
  sa_uuid a = match cli_uuid cli with [] => None | [u] => Some u | us => Some (us !!! k) end /\
  exists v, from_slice (handshake_line (session_handshake program cli st a)) = Some v /\
  if is_finite (cli_lat cli) && is_finite (cli_lon cli) && is_finite (st_alt_m st) then
    exists ac, accept_handshake v = inl ac /\ ri_user (ac_info ac) = cli_user cli /\
      ri_geo (ac_info ac) = {| lat_deg := float_value (cli_lat cli); lon_deg := float_value (cli_lon cli); alt_m := float_value (st_alt_m st) |} /\
      ri_freq_hz (ac_info ac) = of_Z 12000000 /\ ri_gps (ac_info ac) = false /\
      (ac_results ac = true <-> exists spec s, spec ∈ cli_results cli /\ parse_results spec = Some s /\ s <> SinkNone) /\
      (ac_stats ac = true <-> is_Some (cli_stats_json cli)) /\
      ac_negotiated ac = "zlib2"%string /\ session_open (bytes_of (reply_line ac)) = inl (CSess_new CZlib2)
  else accept_handshake v = inr NoPosition /\ session_open (bytes_of (deny_line NoPosition)) = inr ExReply.
Proof.
  intros Hst. split.
  { unfold session_args. apply list_eq. intros k. rewrite list_lookup_fmap, list_lookup_imap. by destruct (cli_server cli !! k). }
  intros k addr0 Hk0. destruct (session_args cli !! k) as [a|] eqn:Ha; [|unfold session_args in Ha; by rewrite list_lookup_imap, Hk0 in Ha].
  exists a. split; [done|]. pose proof (session_uuid _ _ _ _ _ Hst Ha) as Hu. pose proof (session_stats _ _ _ Ha) as Hs.
  pose proof (want_results_iff _ _ _ Hst) as Hw. apply startup_iff in Hst as (Hclk & _). apply input_clock_12mhz in Hclk as [Hf Hg].
  apply session_args_lookup in Ha as Ha'. destruct Ha' as (addr & Hk & ->). cbn [sa_idx sa_addr]. split_and!; [done|congruence|done|].
  unfold session_handshake. set (stats := bool_decide _). set (uid := sa_uuid _). destruct (is_finite (cli_lat cli) && _ && _) eqn:Efin.
  - apply andb_prop in Efin as [[Hlat Hlon]%andb_prop Halt].
    destruct (session_opens program reply_reads (cli_user cli) uid _ _ _ (st_clock st) (want_results st) stats Hlat Hlon Halt)
      as (v & ac & Ev & Ea & ? & Ef & ? & Eg & Er & Es & ? & ?).
    exists v. split; [done|]. exists ac. rewrite Ef, Eg, Er, Es, Hw, Hf, bool_decide_eq_false_2 by done. split_and!; try done. subst stats. by rewrite bool_decide_eq_true.
  - destruct (handshake_understood (client_handshake (cli_user cli) uid (cli_lat cli) (cli_lon cli) (st_alt_m st) (st_clock st) (want_results st) stats program))
      as (v & Ev & Ea). exists v. rewrite Ea. unfold handshake_meaning. cbn [client_handshake Proto.compress hs_lat hs_lon hs_alt].
    rewrite Efin. split_and!; [done|done|apply denied_session].
Qed.
End Accepted.

(** ** A client of two servers *)
Section Sample.
#[local] Existing Instance flate_stored.
#[local] Existing Instance elem_taylor.
#[local] Existing Instance hex_tree.
#[local] Instance text_started : JsonText := {| strings_json l := sconcat ["["; String.concat "," l; "]"]%string |}.
(** The server's answers, as JSON. *)
Definition answer_table (l : list Z) : option Tree :=
  if decide (l = stripped (bytes_of (deny_line NoPosition))) then Some (TObj [("deny"%string, TArr [])])
  else if decide (l = stripped (bytes_of (deny_line NoCompression))) then Some (TObj [("deny"%string, TArr [])])
  else head (omap (fun a => if decide (l = stripped (bytes_of (reply_line a))) then Some (TObj [("compress"%string, TStr (ac_negotiated a))]) else None) replies).
#[local] Instance json_started : Json := json_coding answer_table.
#[local] Instance write_started : JsonWrite := write_coding answer_table.
#[local] Instance started_laws : JsonWriteLaws := coding_laws answer_table.
Lemma started_replies a : ac_negotiated a ∈ ["zlib2"; "zlib"; "none"]%string -> exists v,
  from_slice (bytes_of (reply_line a)) = Some v /\ jget v "deny" = None /\ jget v "compress" ≫= as_str = Some (ac_negotiated a).
Proof.
  destruct a as [info n results stats]. cbn [ac_negotiated]. intros Hn. rewrite !elem_of_cons, elem_of_nil in Hn.
  change (reply_line {| ac_info := info; ac_negotiated := n; ac_results := results; ac_stats := stats |}) with (reply_line (reply_of n results stats)).
  destruct Hn as [->|[->|[->|[]]]]; destruct results, stats; (eexists; split; [vm_compute; reflexivity|split; reflexivity]).
Qed.
Lemma started_denials r : exists v, from_slice (bytes_of (deny_line r)) = Some v /\ is_Some (jget v "deny").
Proof. destruct r; (eexists; split; [vm_compute; reflexivity|by eexists]). Qed.
Definition two_servers : Cli := {|
  cli_input_type := "beast"; cli_input_connect := "localhost:30005"; cli_server := ["a:31090"; "b:31090"]; cli_user := "me"; cli_lat := of_Z 47;
  cli_lon := of_Z (-1); cli_alt := "100ft"; cli_uuid := ["u-a"; "u-b"]; cli_stats_json := None;
  cli_results := ["none"; "beast,connect,localhost:30104"; "basestation,listen,30003"] |}%string.
Definition started_ok (cli : Cli) (bound : bool) : option StartError := match startup (fun _ _ => bound) cli with inl _ => None | inr e => Some e end.
Example startup_errors : started_ok two_servers true = None /\ started_ok two_servers false = Some (BindFailed "0.0.0.0:30003") /\
  uuids_fit ["x"; "y"; "z"] 2 = false /\ parse_results "beast,listen" = None /\ input_clock "radarcape_gps" = None.
Proof. split_and!; vm_compute; reflexivity. Qed.
Lemma started_client_accepted_witness : exists st a v ac, startup (fun _ _ => true) two_servers = inl st /\ session_args two_servers !! 1%nat = Some a /\
  sa_uuid a = Some "u-b"%string /\ from_slice (handshake_line (session_handshake "mlatc" two_servers st a)) = Some v /\
  accept_handshake v = inl ac /\ ri_user (ac_info ac) = "me"%string /\ ac_results ac = true /\
  session_open (bytes_of (reply_line ac)) = inl (CSess_new CZlib2).
Proof.
  assert (match startup (fun _ _ => true) two_servers with inl st => is_finite (st_alt_m st) | inr _ => false end = true) as Hs by (vm_compute; reflexivity).
  destruct (startup (fun _ _ => true) two_servers) as [st|] eqn:Est; [|discriminate Hs].
  destruct (started_client_accepted "mlatc" started_replies started_denials (fun _ _ => true) two_servers st Est) as [_ Hall].
  destruct (Hall 1%nat "b:31090"%string eq_refl) as (a & Ea & _ & _ & Hu & v & Ev & H).
  rewrite Hs in H. destruct H as (ac & Hac & Hn & _ & _ & _ & Hr & _ & _ & Ho). exists st, a, v, ac.
  split_and!; try done. apply Hr. exists "beast,connect,localhost:30104"%string, (SinkBeastConnect "localhost:30104").
  split_and!; [right; left|vm_compute; reflexivity|done].
Defined.
End Sample.
