(* ===== verification/Probe.v ===== *)
(** * The probe and the doctor (crates/mlat-bench/src/probe.rs, doctor.rs)

    The probe is a receiver of one handshake that holds its connection with heartbeats; its
    other side is a connection of mlatd ([Session]), which accepts it uncompressed, as it
    demands, and hears nothing in what it sends.  The doctor's checks run other programs,
    whose outcomes are the environment. *)
From S2P Require Import Prelude F64 Num Text Decimal Results Metrics Geo Proto Framing ServerState Shard Router Session Wire Client Served Link.
Local Open Scope Z_scope.

(** ** The doctor *)
(** What a command printed, if it could be run and succeeded. *)
Definition CheckOutcome : Type := option string.
Definition check_cmd (cmd : string) (args : list string) (out : CheckOutcome) : list string * bool :=
  match out with
  | Some v => ([sconcat ["ok    "; cmd; " "; String.concat " " args; ": "; trim v]%string], true)
  | None => ([sconcat ["FAIL  "; cmd; " "; String.concat " " args; " — not available"]%string], false)
  end.
Record Environment := { en_docker : CheckOutcome; en_compose : CheckOutcome; en_listening : bool; en_image : bool }.
Definition doctor (e : Environment) : list string * bool :=
  let '(docker, docker_ok) := check_cmd "docker" ["version"; "--format"; "{{.Server.Version}}"]%string (en_docker e) in
  let '(compose, compose_ok) := check_cmd "docker" ["compose"; "version"; "--short"]%string (en_compose e) in
  let hard_fail := negb docker_ok || negb compose_ok in
  let port := if en_listening e then "ok    port 40147: something is listening (oracle already up?)"%string else "ok    port 40147: free"%string in
  let image := if en_image e then "ok    oracle image built (mlat-bench-oracle)"%string
               else "warn  oracle image not built yet — run: docker compose -f oracle/compose.yaml build"%string in
  (docker ++ compose ++ [port; image] ++ (if hard_fail then [] else [EmptyString; "doctor: environment usable"%string]), negb hard_fail).

(** Only docker and its compose plugin decide; every check prints its line. *)
Theorem doctor_verdict e : (doctor e).2 = bool_decide (is_Some (en_docker e) /\ is_Some (en_compose e)) /\
  length (doctor e).1 = (if (doctor e).2 then 6 else 4)%nat.
Proof. destruct e as [[d|] [c|] p i]; split; try done; symmetry; apply bool_decide_eq_false_2; intros [[? [=]] [? [=]]]. Qed.

(** ** The probe *)
Section Code.
Context `{Json}.
Definition probe_handshake (program : string) : Handshake :=
  {| version := 3; user := "mb-probe-000"; uuid := None; compress := [CNone];
     hs_lat := lit 472181 10000; hs_lon := fneg (lit 15528 10000); hs_alt := of_Z 40; clock_type := Dump1090;
     return_results := Some true; return_result_format := None; client_version := Some program; selective_traffic := None;
     heartbeat := None; return_stats := None |}.
(** The first line: what came of waiting ten seconds for it. *)
Inductive FirstLine := FirstTimeout | FirstFails | FirstClosed | FirstLine_ (l : list Z).
Inductive ProbeError := ProbeConnect | ProbeTimeout | ProbeRead | ProbeClosed (messages : Z) | ProbeProto (e : ProtoError) | ProbeDenied (v : Value)
  | ProbeCompress (c : Compress) | ProbeUnexpected | ProbeWrite.
Definition probe_reply (first : FirstLine) : option ProbeError :=
  match first with
  | FirstTimeout => Some ProbeTimeout
  | FirstFails => Some ProbeRead
  | FirstClosed => Some (ProbeClosed 0)
  | FirstLine_ l =>
      match parse_handshake_reply l with
      | inl (HandshakeAccept c _ _ _ _) => if decide (c = CNone) then None else Some (ProbeCompress c)
      | inl (Deny v) => Some (ProbeDenied v)
      | inl _ => Some ProbeUnexpected
      | inr e => Some (ProbeProto e)
      end
  end.
(** What the loop's [select] waits for: the deadline, the timer with the outcome of the write,
    a line of the server, its end. *)
Inductive ProbeEvent := PDeadline | PHeartbeat (ok : bool) | PLine (l : list Z) | PReadFails | PEnd.
(** The heartbeats written, and the messages of the server counted or the error it ends with. *)
Fixpoint probe_hold (server_msgs : Z) (evs : list ProbeEvent) : nat * (Z + ProbeError) :=
  match evs with
  | [] | PDeadline :: _ => (0%nat, inl server_msgs)
  | PHeartbeat true :: evs => let '(beats, r) := probe_hold server_msgs evs in (S beats, r)
  | PHeartbeat false :: _ => (0%nat, inr ProbeWrite)
  | PReadFails :: _ => (0%nat, inr ProbeRead)
  | PEnd :: _ => (0%nat, inr (ProbeClosed server_msgs))
  | PLine l :: evs =>
      match parse_line l with
      | inl _ => probe_hold (u32 (server_msgs + 1)) evs
      | inr e => (0%nat, inr (ProbeProto e))
      end
  end.
(** The command: the lines it writes, and its end. *)
Definition probe `{!JsonWrite} (program : string) (connects handshake_ok : bool) (first : FirstLine) (evs : list ProbeEvent)
    : list (list Z) * (Z + ProbeError) :=
  if negb connects then ([], inr ProbeConnect)
  else if negb handshake_ok then ([], inr ProbeWrite)
  else
    let hs := handshake_line (probe_handshake program) in
    match probe_reply first with
    | Some e => ([hs], inr e)
    | None => let '(beats, r) := probe_hold 0 evs in (hs :: repeat (to_line heartbeat_now) beats, r)
    end.
End Code.

(** ** A probe at a server *)
Section AtServer.
Context `{JsonWriteLaws, JsonText, Hex, Flate, Elem f64}.
Context (program : string).
(** The text of the server's reply is JSON with its fields. *)
Hypothesis reply_reads : forall a, ac_negotiated a ∈ ["zlib2"; "zlib"; "none"]%string -> exists v,
  from_slice (bytes_of (reply_line a)) = Some v /\ jget v "deny" = None /\ jget v "compress" ≫= as_str = Some (ac_negotiated a).

(** The messages before the deadline, if nothing fails before it. *)
Fixpoint held (evs : list ProbeEvent) : option (list (list Z)) :=
  match evs with
  | [] | PDeadline :: _ => Some []
  | PHeartbeat true :: evs => held evs
  | PLine l :: evs => match parse_line l with inl _ => cons l <$> held evs | inr _ => None end
  | _ => None
  end.
Lemma hold_counts k evs : match held evs with
  | Some ls => (probe_hold k evs).2 = inl (match ls with [] => k | _ => u32 (k + Z.of_nat (length ls)) end)
  | None => exists e, (probe_hold k evs).2 = inr e
  end.
Proof.
  revert k. induction evs as [|[|[]|l| |] evs IH]; intros k; cbn [held probe_hold]; try done; try by eexists.
  - specialize (IH k). destruct (probe_hold k evs) as [beats r]. exact IH.
  - destruct (parse_line l); [|by eexists]. specialize (IH (u32 (k + 1))). destruct (held evs) as [ls|]; [|done]. cbn [fmap option_fmap option_map].
    rewrite IH. f_equal. destruct ls as [|l' ls]; [done|]. unfold wrap. rewrite Zplus_mod_idemp_l. cbn [length]. f_equal. lia.
Qed.
Lemma all_beats (P : ClientMsg -> Prop) k : P heartbeat_now -> Forall P (repeat heartbeat_now k).
Proof. intros Hp. induction k; by constructor. Qed.
Lemma beats_nothing ref ats k acc : length ats = k ->
  fold_left (fun acc tm => understood ref tm.1 acc tm.2) (zip ats (repeat heartbeat_now k)) acc = acc.
Proof. intros <-. induction ats as [|t ats IH]; [done|]. cbn [length repeat zip_with fold_left understood fst snd heartbeat_now]. apply IH. Qed.

(** A probe and a server that is well: the server accepts its handshake under its name,
    uncompressed, with results and without statistics; on the reply the probe holds the
    connection, and ends well exactly when until its deadline no write fails and every line
    of the server is JSON, having counted those lines; what it sends, cut into reads in any
    way, leaves nothing in the shard but its slot, and the connection open. *)
Theorem probe_meets_server : exists v a, from_slice (handshake_line (probe_handshake program)) = Some v /\ accept_handshake v = inl a /\
  ri_user (ac_info a) = "mb-probe-000"%string /\ ac_negotiated a = "none"%string /\ ac_results a = true /\ ac_stats a = false /\
  forall evs, let '(sent, ended) := probe program true true (FirstLine_ (bytes_of (reply_line a))) evs in
    match held evs with
    | Some ls => ended = inl (u32 (Z.of_nat (length ls)))
    | None => exists e, ended = inr e
    end /\
    exists k, sent = handshake_line (probe_handshake program) :: repeat (to_line heartbeat_now) k /\
    forall fuel hb_real now wants_stats ref reads s', Z.of_nat (length (to_line heartbeat_now)) <= LINE_LIMIT ->
      (reads.*2 ≫= data_of).*2 = concat (repeat (to_line heartbeat_now) k) -> undisturbed fuel (Plain, [], []) reads = true ->
      run_session fuel hb_real wants_stats ref (Sess_new hb_real now "none") reads = Some s' ->
      s_status s' = Running /\ s_requested s' = ∅ /\ s_sent s' = [].
Proof.
  destruct (handshake_understood (probe_handshake program)) as (v & Ev & Ea). exists v. rewrite Ea.
  replace (handshake_meaning (probe_handshake program)) with (inl (B := Refusal) {| ac_info := {| ri_user := "mb-probe-000";
    ri_ecef := to_ecef {| lat_deg := float_value (lit 472181 10000); lon_deg := float_value (fneg (lit 15528 10000)); alt_m := float_value (of_Z 40) |};
    ri_geo := {| lat_deg := float_value (lit 472181 10000); lon_deg := float_value (fneg (lit 15528 10000)); alt_m := float_value (of_Z 40) |};
    ri_freq_hz := freq_hz Dump1090; ri_gps := false; ri_jitter_s := lit 150 1000000000 |};
    ac_negotiated := "none"; ac_results := true; ac_stats := false |}%string) by reflexivity.
  eexists. split; [done|]. split; [reflexivity|]. cbn [ac_info ri_user ac_negotiated ac_results ac_stats]. split_and!; [done..|].
  intros evs. set (a := {| ac_info := _ |}). destruct (reply_reads a) as (r & Er & Ed & Ec); [right; right; by left|].
  unfold probe. cbn [negb probe_reply]. unfold parse_handshake_reply. rewrite Er, Ed, Ec. cbn [ac_negotiated a mbind option_bind compress_of String.eqb Ascii.eqb Bool.eqb].
  rewrite decide_True by done. pose proof (hold_counts 0 evs) as Hc. destruct (probe_hold 0 evs) as [k ended]. cbn [snd] in Hc. split.
  - destruct (held evs) as [[|l ls]|]; [done|by rewrite Hc|done].
  - exists k. split; [done|]. intros fuel hb_real now wants_stats ref reads s' Hlen Hdata Hu Hrun.
    assert (to_line <$> repeat heartbeat_now k = repeat (to_line heartbeat_now) k) as El by (clear; induction k as [|k IH]; [done|]; cbn; by f_equal).
    destruct (messages_heard fuel hb_real wants_stats ref now "none" CNone (to_line <$> repeat heartbeat_now k) (repeat heartbeat_now k) reads s')
      as (Hs & (ats & Hats & _ & Ho) & _); [done|apply plain_carries|..|done|done|].
    + by apply all_beats.
    + by apply all_beats.
    + by rewrite El.
    + rewrite repeat_length in Hats. rewrite (beats_nothing ref ats k _ Hats) in Ho. injection Ho as -> ->. by split_and!.
Qed.
End AtServer.

(** ** A probe that is held *)
Section Sample.
#[local] Existing Instance flate_stored.
#[local] Existing Instance elem_taylor.
#[local] Existing Instance hex_tree.
#[local] Existing Instance text_linked.
#[local] Existing Instance json_linked.
#[local] Existing Instance write_linked.
#[local] Existing Instance linked_laws.
Definition probe_lines : list ProbeEvent :=
  [PHeartbeat true; PLine (to_line heartbeat_now); PHeartbeat true; PLine (to_line (Seen [])); PDeadline; PEnd].
Definition probe_end (c : string) (evs : list ProbeEvent) : nat * (Z + string) :=
  let '(sent, r) := probe "p" true true (FirstLine_ (bytes_of (reply_line (reply_of c true false)))) evs in
  (length sent, match r with inl n => inl n | inr (ProbeCompress CZlib2) => inr "zlib2" | inr (ProbeClosed _) => inr "closed"
                | inr ProbeWrite => inr "write" | inr _ => inr "other" end)%string.
Example probes : probe_end "none" probe_lines = (3%nat, inl 2) /\ probe_end "zlib2" probe_lines = (1%nat, inr "zlib2"%string) /\
  probe_end "none" [PHeartbeat true; PLine (to_line heartbeat_now); PEnd] = (2%nat, inr "closed"%string) /\
  probe_end "none" [PHeartbeat false] = (1%nat, inr "write"%string).
Proof. split_and!; vm_compute; reflexivity. Qed.
Example probe_accepted : exists v a, from_slice (handshake_line (probe_handshake "p")) = Some v /\ accept_handshake v = inl a /\
  (probe "p" true true (FirstLine_ (bytes_of (reply_line a))) probe_lines).2 = inl 2.
Proof.
  destruct (probe_meets_server "p" linked_replies) as (v & a & Ev & Ea & _ & _ & _ & _ & Hp). exists v, a. split_and!; [done..|].
  specialize (Hp probe_lines). destruct (probe _ _ _ _ probe_lines) as [sent r]. destruct Hp as [Hr _].
  assert (length <$> held probe_lines = Some 2%nat) as Hh by (vm_compute; reflexivity). destruct (held probe_lines) as [ls|]; [|discriminate Hh].
  injection Hh as Hl. cbn [snd]. by rewrite Hr, Hl.
Qed.
End Sample.
Example doctors : (doctor {| en_docker := Some "29"; en_compose := Some "2.1"; en_listening := false; en_image := false |}).2 = true /\
  (doctor {| en_docker := None; en_compose := Some "2.1"; en_listening := true; en_image := true |}).2 = false.
Proof. done. Qed.
