(* ===== verification/Report.v ===== *)
(** * Reports (crates/mb-metrics/src/lib.rs: render_report; crates/mlat-bench/src/scorecmd.rs: report.md, diff)

    The report of a score, line by line, with the summary of the self-truth rows appended when
    the run has any, and the table that compares two runs.  Text is bytes; a column's width
    counts characters. *)
From Stdlib Require Import Ascii.
From S2P Require Import Prelude F64 Num Text Decimal Proto Results Metrics ScoreCmd.
Local Open Scope Z_scope.

(** ** The report of a score *)
(** Lines, each ended. *)
Definition unlines (ls : list string) : string := sconcat ((fun l => String.append l (char_text NEWLINE)) <$> ls).
Definition or_dash (f : f64 -> string) (v : option f64) : string := match v with Some v => f v | None => "—"%string end.
Definition aircraft_line (e : string * AircraftMetrics) : string :=
  let '(icao, a) := e in
  sconcat ["| "; icao; " | "; fmt_nat (Z.of_nat (results a)); " | "; or_dash (fun v => sconcat [fmt_fixed 0 v; " m"]) (p50_error_m a); " | ";
    or_dash (fun v => sconcat [fmt_fixed 0 (v * of_Z 100)%f64; "%"]) (coverage_ratio a); " | ";
    or_dash (fun v => sconcat [fmt_fixed 0 v; " s"]) (ttff_s a); " | "; or_dash (fun v => fmt_fixed 1 v) (update_rate_per_min a); " |"]%string.
(** A [BTreeMap] is visited in the order of its keys. *)
Definition key_leb (a b : string * AircraftMetrics) : bool := String.leb a.1 b.1.
Definition by_icao (m : Metrics) : list (string * AircraftMetrics) := stable_sort key_leb (map_to_list (per_aircraft m)).
Definition title_line (run_name : string) : string := sconcat ["# mlat-bench report — "; run_name]%string.
Definition totals_line (m : Metrics) : string :=
  sconcat ["**"; fmt_nat (Z.of_nat (results_total m)); " results**, "; fmt_nat (Z.of_nat (results_matched m)); " matched to truth, ";
    fmt_nat (Z.of_nat (ghosts_unknown_icao m)); " ghosts (unknown icao) + "; fmt_nat (Z.of_nat (ghosts_gross_error m)); " gross (>10 km)"]%string.
Definition metres (x : f64) : string := sconcat [fmt_fixed 0 x; " m"]%string.
Definition errors_line (h : ErrorStats) : string :=
  sconcat ["| "; metres (p50 h); " | "; metres (p90 h); " | "; metres (p99 h); " | "; metres (es_max h); " | "; metres (mean h); " |"]%string.
Definition altitude_lines (m : Metrics) : list string :=
  match altitude_error_m m with
  | Some a => [sconcat ["Altitude error: p50 "; metres (p50 a); " (n="; fmt_nat (Z.of_nat (es_n a)); ")"]%string; EmptyString]
  | None => []
  end.
Definition ratio_lines (m : Metrics) : list string :=
  match err_estimate_ratio_p50 m with
  | Some r => [sconcat ["Oracle self-estimate ÷ real error, p50: "; fmt_fixed 2 r; " (<1 = overconfident)"]%string; EmptyString]
  | None => []
  end.
Definition coverage_lines (m : Metrics) : list string :=
  match cov_ratio (coverage m) with
  | Some c => ["## Coverage"%string; EmptyString;
      sconcat [fmt_fixed 1 (c * of_Z 100)%f64; "% of trackable aircraft-seconds tracked ("; fmt_nat (tracked_aircraft_seconds (coverage m)); "/";
        fmt_nat (trackable_aircraft_seconds (coverage m)); ")"]%string; EmptyString]
  | None => []
  end.
Definition resources_line (r : Resources) : string :=
  sconcat ["CPU mean "; or_dash (fun v => sconcat [fmt_fixed 1 v; "%"]) (cpu_mean_pct r); " / max ";
    or_dash (fun v => sconcat [fmt_fixed 1 v; "%"]) (cpu_max_pct r); ", RSS max "; or_dash (fun v => sconcat [fmt_fixed 0 v; " MB"]) (mem_max_mb r);
    " ("; fmt_nat (Z.of_nat (samples r)); " samples)"]%string.
Definition head_lines (m : Metrics) (run_name : string) : list string :=
  [title_line run_name; EmptyString; totals_line m; EmptyString; "## Horizontal error"; EmptyString;
   "| p50 | p90 | p99 | max | mean |"; "|---|---|---|---|---|"; errors_line (horizontal_error_m m); EmptyString]%string ++
  altitude_lines m ++ ratio_lines m ++ coverage_lines m ++
  ["## Per aircraft (MLAT targets)"; EmptyString; "| icao | results | p50 err | coverage | TTFF | rate/min |"; "|---|---|---|---|---|---|"]%string.
Definition tail_lines (m : Metrics) : list string :=
  [EmptyString; "## Oracle resources"%string; EmptyString; resources_line (resources m)].
Definition render_report (m : Metrics) (run_name : string) : string :=
  String.append (unlines (head_lines m run_name)) (String.append (unlines (aircraft_line <$> by_icao m)) (unlines (tail_lines m))).

(** ** report.md: the self-truth summary is appended when the run has such rows *)
Definition self_truth_lines (s : nat * f64 * f64 * f64) : list string :=
  let '(n, q50, q90, q99) := s in
  [EmptyString; "## Self-truth (ADS-B aircraft as their own truth)"; EmptyString;
   sconcat ["n="; fmt_nat (Z.of_nat n); " · p50 "; metres q50; " · p90 "; metres q90; " · p99 "; metres q99]]%string.
Definition report_file (m : Metrics) (run_name : string) (selftruth : option string) : string :=
  match selftruth ≫= self_truth_summary with
  | Some s => String.append (render_report m run_name) (unlines (self_truth_lines s))
  | None => render_report m run_name
  end.

(** ** diff *)
Definition diff_rows : list (string * list string) := [
  ("results", ["results_total"]); ("matched", ["results_matched"]); ("p50 err (m)", ["horizontal_error_m"; "p50"]);
  ("p90 err (m)", ["horizontal_error_m"; "p90"]); ("p99 err (m)", ["horizontal_error_m"; "p99"]);
  ("mean err (m)", ["horizontal_error_m"; "mean"]); ("ghosts unknown", ["ghosts_unknown_icao"]); ("ghosts gross", ["ghosts_gross_error"]);
  ("coverage", ["coverage"; "ratio"]); ("cpu mean %", ["resources"; "cpu_mean_pct"]); ("rss max MB", ["resources"; "mem_max_mb"])]%string.
(** Characters: the bytes that do not continue one. *)
Definition starts_char (c : ascii) : bool := negb (Z.land (byte_of c) 0xC0 =? 0x80).
Definition width (s : string) : nat := length (filter (fun c => starts_char c = true) (String.list_ascii_of_string s)).
Definition SPACE : ascii := ascii_of_nat 32.
Fixpoint spaces (n : nat) : string := match n with O => EmptyString | S n => String SPACE (spaces n) end.
Definition pad_right (n : nat) (s : string) : string := String.append s (spaces (n - width s)).
Definition pad_left (n : nat) (s : string) : string := String.append (spaces (n - width s)) s.
Definition diff_line (label a b : string) : string := sconcat [pad_right 16 label; " "; pad_left 14 a; " "; pad_left 14 b]%string.
Section Diff.
Context `{Json}.
Definition diff_cell (m : Value) (path : list string) : string := or_dash (fmt_fixed 2) (metric_at m path).
Definition diff_lines (na nb : string) (ma mb : Value) : list string :=
  diff_line EmptyString na nb :: ((fun r => diff_line r.1 (diff_cell ma r.2) (diff_cell mb r.2)) <$> diff_rows).
End Diff.

(** ** Text of lines *)
Section Lines.
Definition text_char (c : ascii) : bool := not_char NEWLINE c && not_char CR c.
Definition one_line (s : string) : Prop := sall text_char s = true.

Lemma strip_cr_text s : one_line s -> strip_cr s = s.
Proof.
  unfold one_line. induction s as [|c s IH]; [done|]. cbn [sall]. rewrite andb_true_iff. intros [Hc Hs].
  destruct s as [|c' s]; cbn [strip_cr].
  - unfold text_char, not_char in Hc. rewrite andb_true_iff in Hc. destruct Hc as [_ Hc]. by destruct (Ascii.eqb c CR).
  - cbn [strip_cr] in IH. by rewrite IH.
Qed.
Lemma unlines_cons l ls : unlines (l :: ls) = String.append l (String NEWLINE (unlines ls)).
Proof. unfold unlines. rewrite fmap_cons. cbn [sconcat]. unfold char_text. by rewrite sapp_assoc. Qed.
Lemma unlines_app l l' : unlines (l ++ l') = String.append (unlines l) (unlines l').
Proof. induction l as [|x l IH]; [done|]. rewrite <- app_comm_cons, !unlines_cons, IH, sapp_assoc. by rewrite sapp_cons. Qed.
(** Ended lines are read back one by one. *)
Lemma lines_unlines ls : Forall one_line ls -> lines (unlines ls) = ls.
Proof.
  induction 1 as [|l ls Hl Hls IH]; [done|]. rewrite unlines_cons, lines_cons, IH, strip_cr_text; [done..|].
  eapply sall_impl; [|exact Hl]. unfold text_char. intros c. by rewrite andb_true_iff; intros [].
Qed.
Lemma plain_text c : plain c = true -> text_char c = true.
Proof.
  unfold plain, text_char, not_char. destruct (Ascii.eqb c NEWLINE) eqn:E1; [by rewrite andb_false_r|].
  destruct (Ascii.eqb c CR) eqn:E2; [|done]. apply Ascii.eqb_eq in E2 as ->. done.
Qed.
Lemma one_line_plain s : sall plain s = true -> one_line s.
Proof. apply sall_impl, plain_text. Qed.
Lemma one_line_app s t : one_line s -> one_line t -> one_line (String.append s t).
Proof. unfold one_line. intros Hs Ht. by rewrite sall_app, Hs, Ht. Qed.
Lemma one_line_sconcat l : Forall one_line l -> one_line (sconcat l).
Proof. induction 1; [done|]. by apply one_line_app. Qed.
Lemma one_line_fixed n x : one_line (fmt_fixed n x).
Proof. apply one_line_plain, plain_fmt_fixed. Qed.
Lemma one_line_nat z : one_line (fmt_nat z).
Proof. apply one_line_plain, plain_fmt_nat. Qed.
Lemma one_line_dash f v : (forall x, one_line (f x)) -> one_line (or_dash f v).
Proof. intros Hf. destruct v; [apply Hf|done]. Qed.
End Lines.
#[local] Hint Resolve one_line_fixed one_line_nat : report.
#[local] Ltac one_line := first [done | solve [auto with report] | apply one_line_sconcat; repeat constructor; one_line
  | apply one_line_dash; intros ?; one_line].

(** ** Strings in order *)
Section Order.
Lemma ascii_lt_trans a b c : Ascii.compare a b = Lt -> Ascii.compare b c = Lt -> Ascii.compare a c = Lt.
Proof. unfold Ascii.compare. rewrite !N.compare_lt_iff. apply N.lt_trans. Qed.
Lemma string_leb_trans s t u : String.leb s t = true -> String.leb t u = true -> String.leb s u = true.
Proof.
  unfold String.leb. revert t u. induction s as [|a s IH]; intros [|b t] [|c u]; cbn [String.compare]; try done.
  specialize (IH t u). destruct (Ascii.compare a b) eqn:Eab; [|destruct (Ascii.compare b c) eqn:Ebc|done]; try done.
  - apply Ascii.compare_eq_iff in Eab as ->. by destruct (Ascii.compare b c).
  - apply Ascii.compare_eq_iff in Ebc as ->. by rewrite Eab.
  - by rewrite (ascii_lt_trans _ _ _ Eab Ebc).
Qed.
End Order.

(** ** What the report says *)
Lemma head_one_line m name : one_line name -> Forall one_line (head_lines m name).
Proof.
  intros Hn. unfold head_lines, title_line, totals_line, errors_line, metres, altitude_lines, ratio_lines, coverage_lines.
  repeat apply list.Forall_app_2; [|destruct (altitude_error_m m)|destruct (err_estimate_ratio_p50 m)|destruct (cov_ratio (coverage m))|];
    repeat constructor; one_line.
Qed.
Lemma tail_one_line m : Forall one_line (tail_lines m).
Proof. unfold tail_lines, resources_line. repeat constructor; one_line. Qed.
Lemma aircraft_one_line e : one_line e.1 -> one_line (aircraft_line e).
Proof. intros He. destruct e as [icao a]. cbn [fst] in He. unfold aircraft_line. one_line. Qed.

(** The table of aircraft visits the map once, by ascending address. *)
Lemma by_icao_sorted m : by_icao m ≡ₚ map_to_list (per_aircraft m) /\ StronglySorted (fun a b => String.leb a.1 b.1 = true) (by_icao m).
Proof.
  split; [apply stable_sort_perm|]. apply (stable_sort_sorted key_leb).
  - intros a b. apply String.leb_total.
  - intros a b c. apply string_leb_trans.
Qed.
(** The addresses of a score's table are in hexadecimal. *)
Lemma score_keys `{Elem f64, !HashIter Z (list Z)} truth rows wall_t0 aud targets known res e :
  e ∈ by_icao (score truth rows wall_t0 aud targets known res) -> exists icao, e.1 = to_hex icao.
Proof.
  destruct e as [hex a]. rewrite (proj1 (by_icao_sorted _)), elem_of_map_to_list. unfold score.
  destruct (fold_left _ _ _) as [secs pa] eqn:Ef. cbn [per_aircraft]. intros Hlk.
  replace pa with (fold_left (cover_step (per_ac (tally truth rows wall_t0 known))) (hash_iter (trackable_of targets aud)) (0, ∅)).2 in Hlk by by rewrite Ef.
  apply cover_snd in Hlk as [Hlk|(kv & _ & <- & _)]; [cbn [snd] in Hlk; by rewrite lookup_empty in Hlk|]. by exists kv.1.
Qed.

Lemma report_one_line m name rows rest : one_line name -> Forall one_line rows -> Forall one_line rest ->
  Forall one_line (head_lines m name ++ rows ++ tail_lines m ++ rest).
Proof.
  intros Hn Hr Hs. apply list.Forall_app_2; [by apply head_one_line|]. apply list.Forall_app_2; [done|].
  apply list.Forall_app_2; [apply tail_one_line|done].
Qed.

(** The report of a score, read line by line: its head, one row for each aircraft of the table
    by ascending address, the resources, then the self-truth summary if there is any; a row's
    address reads back as the aircraft's. *)
Theorem report_reads `{Elem f64, !HashIter Z (list Z)} truth rows wall_t0 aud targets known res name selftruth :
  one_line name -> let m := score truth rows wall_t0 aud targets known res in
  lines (report_file m name selftruth) = head_lines m name ++ (aircraft_line <$> by_icao m) ++ tail_lines m ++
    match selftruth ≫= self_truth_summary with Some s => self_truth_lines s | None => [] end.
Proof.
  intros Hn m. assert (Forall one_line (aircraft_line <$> by_icao m)) as Hrows.
  { rewrite list.Forall_fmap, list.Forall_forall. intros e He. apply aircraft_one_line. unfold m in He. apply score_keys in He as [i ->].
    apply one_line_plain, plain_to_hex. }
  unfold report_file, render_report. destruct (selftruth ≫= self_truth_summary) as [[[[n q50] q90] q99]|]; rewrite <- !unlines_app.
  - rewrite <- !app_assoc. apply lines_unlines, report_one_line; [done..|]. unfold self_truth_lines, metres. repeat constructor; one_line.
  - rewrite app_nil_r, <- (app_nil_r (tail_lines m)). by apply lines_unlines, report_one_line.
Qed.

(** ** The columns of diff *)
Lemma width_app s t : width (String.append s t) = (width s + width t)%nat.
Proof.
  unfold width. induction s as [|c s IH]; [done|]. rewrite sapp_cons. cbn [String.list_ascii_of_string].
  rewrite !list.filter_cons. case_decide; cbn [length]; lia.
Qed.
Lemma width_spaces n : width (spaces n) = n.
Proof. induction n as [|n IH]; [done|]. change (width (spaces (S n))) with (S (width (spaces n))). by rewrite IH. Qed.
(** Where nothing is longer than its column every line of the comparison is as wide as its columns. *)
Lemma diff_line_width label a b : (width label <= 16)%nat -> (width a <= 14)%nat -> (width b <= 14)%nat -> width (diff_line label a b) = 46%nat.
Proof. intros. unfold diff_line, pad_right, pad_left. cbn [sconcat]. rewrite !width_app, !width_spaces.
  change (width " ") with 1%nat. change (width EmptyString) with 0%nat. lia.
Qed.
Example diff_dash_width : width (or_dash (fmt_fixed 2) None) = 1%nat /\ width (diff_line "p50 err (m)" "—" (fmt_fixed 2 (lit 4125 100))) = 46%nat.
Proof. by vm_compute. Qed.
Example diff_shown : diff_line "p50 err (m)" "—" (fmt_fixed 2 (lit 4125 100)) = "p50 err (m)                   —          41.25"%string.
Proof. by vm_compute. Qed.
