(* ===== verification/RunCmd.v ===== *)
(** * The run and replay commands (crates/mlat-bench/src/runcmd.rs)

    Generating and running a scenario, replaying a capture against the server of the bench or
    one already running, and the collectors that write what a run leaves beside its results:
    the resource samples, the snapshots of sync.json and the SBS log.  Clocks, files and
    sockets are the environment: a loop's turns come with the instant at which each starts. *)
From S2P Require Import Prelude F64 F64Int F64Bound Num Text Decimal Results Metrics Geo Proto Framing Capture Replay Trajectory SimClock.
From S2P Require Import Scenario Gen GenCmd Sampling ScoreCmd Run Report.
Local Open Scope Z_scope.

(** ** The compose file: beside the working directory or above it *)
Definition COMPOSE : list string := ["oracle"; "compose.yaml"]%string.
(** A directory is its components, the last first. *)
Fixpoint oracle_compose_path (exists_at : list string -> bool) (cwd : list string) : option (list string) :=
  if exists_at (rev cwd ++ COMPOSE) then Some (rev cwd ++ COMPOSE)
  else match cwd with [] => None | _ :: parent => oracle_compose_path exists_at parent end.

(** ** Loops that run until the end of the run *)
(** The turns that start before the end; a write that fails ends the loop after it. *)
Fixpoint until {A} (stop_at : Z) (turns : list (Z * A)) : list A :=
  match turns with
  | (now, a) :: turns => if now <? stop_at then a :: until stop_at turns else []
  | [] => []
  end.

Section Code.
Context `{Codec, Json, Elem f64, !HashIter Z (list Z), Rand, Hex, Flate, Ln f64}.
Context (msg_line : ClientMsg -> list Z) (hs_line : Handshake -> list Z) (program : string).
Context (toml_parse : list Z -> option Scenario) (row_json : AudibilityRow -> list Z).
(** JSON of a float, of an array and of nothing, and [Display] of a value. *)
Context (num : f64 -> Value) (arr : list Value -> Value) (null : Value) (to_text : Value -> string).

(** Resource samples: the files read in a turn, and the wall clock. *)
Definition opt_u64 (x : option Z) : Value := match x with Some n => vnum (num_of_u64 n) | None => null end.
Definition sample_json (s : ResourceSample) : Value :=
  vobject [("t", num (rs_t_wall s)); ("cpu_usec", opt_u64 (cpu_usec s)); ("mem_bytes", opt_u64 (mem_bytes s))]%string.
Definition sample_proc (stop_at : Z) (turns : list (Z * (f64 * option string * option string))) : string :=
  unlines ((fun x => to_text (sample_json (proc_sample x.1.1 x.1.2 x.2))) <$> until stop_at turns).
(** Nothing is written without the id of the container. *)
Definition sample_resources (id : string) (stop_at : Z) (turns : list (Z * (f64 * option string * option string))) : option string :=
  if (trim id =? EmptyString)%string then None
  else Some (unlines ((fun x => to_text (sample_json (cgroup_sample x.1.1 x.1.2 x.2))) <$> until stop_at turns)).

(** Snapshots of sync.json: the document as it is, nothing for one that does not parse. *)
Definition snapshot_json (now : f64) (snapshot : option string) : Value :=
  vobject [("t", num now); ("sync", default null (from_slice (bytes_of (default EmptyString snapshot))))]%string.
Definition poll_sync_json (stop_at : Z) (turns : list (Z * (f64 * option string))) : string :=
  unlines ((fun x => to_text (snapshot_json x.1 x.2)) <$> until stop_at turns).

(** The SBS log: connecting is tried until the end of the run, then lines are logged until the
    end, the close or a failure. *)
Fixpoint sbs_connects (stop_at : Z) (tries : list (Z * bool)) : bool :=
  match tries with
  | (_, true) :: _ => true
  | (now, false) :: tries => if now <? stop_at then sbs_connects stop_at tries else false
  | [] => false
  end.
Inductive SbsRead := SbsLine (now : f64) (l : string) | SbsStop | SbsClosed | SbsFails.
Definition sbs_log_line (now : f64) (l : string) : string := sconcat [fmt_fixed 3 now; " "; l]%string.
Fixpoint sbs_lines (reads : list SbsRead) : list string :=
  match reads with
  | SbsLine now l :: reads => sbs_log_line now l :: sbs_lines reads
  | _ => []
  end.
Definition collect_sbs (stop_at : Z) (tries : list (Z * bool)) (reads : list SbsRead) : string :=
  if sbs_connects stop_at tries then unlines (sbs_lines reads) else EmptyString.

(** ** A server already running: the clients only, and the results copied from its file *)
Definition external_file (ok : bool) (capture addr : string) (duration_s : Z) (wall_t0 speed : f64) (anchor : option (f64 * f64)) : Value :=
  vobject [("status", vstr (status_text ok)); ("capture", vstr capture); ("duration_s", vnum (num_of_u64 duration_s)); ("wall_t0", num wall_t0);
    ("speed", num speed); ("hb_anchor", anchor_json num arr null anchor); ("external_addr", vstr addr)]%string.
(** The results are those of the copy: [csv] is [None] when none is named or the copy fails. *)
Definition replay_external (dir : Dir) (capture addr : string) (speed : f64) (wall_t0 : f64) (nets : list Net)
    (evs : list (string * f64 * list Z)) (csv resource_log : option string) : (Value * option (Metrics + ScoreError)) + RunError :=
  if negb (speed_ok speed) then inr RunSpeed
  else
    match open dir with
    | inr e => inr (RunCapture e)
    | inl m =>
        match stop_after speed (m_duration_s m) with
        | None => inr RunPanic
        | Some _ =>
            let '(_, result) := drive dir m speed nets in
            let log := fold_left (reader_line speed) evs RunLog_new in
            let ok := match result with Some _ => true | None => false end in
            let file := external_file ok capture addr (m_duration_s m) wall_t0 speed (rl_anchor log) in
            inl (file, if ok then Some (score_cmd toml_parse file dir csv resource_log) else None)
        end
    end.

(** ** The commands *)
Definition run_path (stamp : Z) (name : string) (seed : Z) : string := sconcat ["runs/"; fmt_nat stamp; "_"; name; "_s"; fmt_nat seed]%string.
Definition replay_path (stamp : Z) (name : string) (seed : Z) : string := sconcat ["runs/"; fmt_nat stamp; "_"; name; "_replay_s"; fmt_nat seed]%string.
Inductive CmdError := CmdUtf8 | CmdScenario | CmdGen (e : GenError) | CmdCapture (e : CaptureError) | CmdRun (e : RunError).
(** What the environment gives a run: the server, the network, the files collected. *)
Record World := { wo_oracle_up : bool; wo_wall_t0 : f64; wo_nets : list Net; wo_lines : list (string * f64 * list Z);
                  wo_csv : option string; wo_resources : option string }.
Definition replay_in (w : World) (dir : Dir) (capture : string) (speed : f64) : (Value * option (Metrics + ScoreError)) + RunError :=
  replay_capture toml_parse num arr null dir capture speed (wo_oracle_up w) (wo_wall_t0 w) (wo_nets w) (wo_lines w) (wo_csv w) (wo_resources w).
(** [run]: the scenario generated into the directory of the run, then replayed. *)
Definition run (fuel : nat) (stamp : Z) (text : list Z) (speed : f64) (w : World) : (Value * option (Metrics + ScoreError)) + CmdError :=
  if negb (utf8_valid text) then inr CmdUtf8
  else
    match from_toml toml_parse text with
    | None => inr CmdScenario
    | Some sc =>
        match gen_cmd msg_line hs_line program toml_parse row_json fuel text None with
        | inr e => inr (CmdGen e)
        | inl dir =>
            let capture := String.append (run_path stamp (Scenario.name (meta sc)) (seed (meta sc))) "/capture" in
            match replay_in w dir capture speed with inl r => inl r | inr e => inr (CmdRun e) end
        end
    end.
(** [replay]: against the bench's server, or the one at the address given. *)
Definition replay (dir : Dir) (capture : string) (speed : f64) (addr : option string) (w : World) : (Value * option (Metrics + ScoreError)) + CmdError :=
  match open dir with
  | inr e => inr (CmdCapture e)
  | inl _ =>
      match match addr with
            | None => replay_in w dir capture speed
            | Some addr => replay_external dir capture addr speed (wo_wall_t0 w) (wo_nets w) (wo_lines w) (wo_csv w) (wo_resources w)
            end with
      | inl r => inl r
      | inr e => inr (CmdRun e)
      end
  end.
End Code.

(** ** The nearest compose file *)
Theorem compose_nearest exists_at cwd :
  match oracle_compose_path exists_at cwd with
  | Some p => exists k, (k <= length cwd)%nat /\ p = rev (drop k cwd) ++ COMPOSE /\ exists_at p = true /\
      forall j, (j < k)%nat -> exists_at (rev (drop j cwd) ++ COMPOSE) = false
  | None => forall j, exists_at (rev (drop j cwd) ++ COMPOSE) = false
  end.
Proof.
  induction cwd as [|d cwd IH]; cbn [oracle_compose_path]; destruct (exists_at _) eqn:E.
  - exists 0%nat. split_and!; [lia|done|done|lia].
  - intros j. by rewrite drop_nil.
  - exists 0%nat. split_and!; [lia|done|done|lia].
  - destruct (oracle_compose_path exists_at cwd) as [p|].
    + destruct IH as (k & Hk & -> & Hp & Hj). exists (S k). split_and!; [cbn; lia|done|done|]. intros [|j] ?; [done|]. apply Hj. lia.
    + intros [|j]; [done|]. apply IH.
Qed.

(** ** Turns before the end *)
Lemma until_filter {A} stop (turns : list (Z * A)) : StronglySorted (fun x y => x.1 <= y.1) turns ->
  until stop turns = (filter (fun x => x.1 < stop) turns).*2.
Proof.
  induction 1 as [|[t a] turns _ IH Hall]; [done|]. cbn [until]. rewrite list.filter_cons. cbn [fst].
  destruct (Z.ltb_spec t stop); [rewrite decide_True by done; cbn [fmap list_fmap snd]; by rewrite <- IH|].
  rewrite decide_False by lia. clear IH. induction Hall as [|x l Hx _ IHl]; [done|]. rewrite list.filter_cons, decide_False; [done|]. cbn in Hx. lia.
Qed.

Section Files.
Context `{Json, !HashIter Z (list Z), Elem f64}.
Context (num : f64 -> Value) (null : Value) (to_text : Value -> string) (reread : f64 -> f64).
Definition sample_ok (s : ResourceSample) : Prop :=
  is_finite (rs_t_wall s) = true /\ (forall n, cpu_usec s = Some n -> 0 <= n < 2 ^ 64) /\ (forall n, mem_bytes s = Some n -> 0 <= n < 2 ^ 64).
(** JSON: a sample is written on one line and read back; the keys of an object; a finite float
    is read back as [reread], an integer as itself, and nothing as no number. *)
Hypothesis text_line : forall s, sample_ok s -> one_line (to_text (sample_json num null s)).
Hypothesis text_read : forall s, sample_ok s -> from_slice (bytes_of (to_text (sample_json num null s))) = Some (sample_json num null s).
Hypothesis object_get : forall (l : list (string * Value)) k v, list_find (fun kv => kv.1 = k) l = Some v -> jget (vobject l) k = Some v.2.2.
Hypothesis num_get : forall x, is_finite x = true -> as_f64 (num x) = Some (reread x).
Hypothesis int_get : forall n, 0 <= n < 2 ^ 64 -> as_u64 (vnum (num_of_u64 n)) = Some n.
Hypothesis null_get : as_u64 null = None.

Definition reread_sample (s : ResourceSample) : ResourceSample :=
  {| rs_t_wall := reread (rs_t_wall s); cpu_usec := cpu_usec s; mem_bytes := mem_bytes s |}.
Lemma opt_get x : (forall n, x = Some n -> 0 <= n < 2 ^ 64) -> as_u64 (opt_u64 null x) = x.
Proof. destruct x as [n|]; intros Hn; [by apply int_get, Hn|done]. Qed.
Lemma sample_read s : sample_ok s -> resource_line (to_text (sample_json num null s)) = Some (reread_sample s).
Proof.
  intros Hs. unfold resource_line. rewrite text_read by done. destruct Hs as (Ht & Hc & Hm). cbn [mbind option_bind]. unfold sample_json. set (l := [_; _; _]).
  rewrite (object_get l "t" (0%nat, ("t"%string, num (rs_t_wall s)))), (object_get l "cpu_usec" (1%nat, ("cpu_usec"%string, opt_u64 null (cpu_usec s)))),
    (object_get l "mem_bytes" (2%nat, ("mem_bytes"%string, opt_u64 null (mem_bytes s)))) by done.
  cbn [mbind option_bind snd]. rewrite num_get by done. cbn [mbind option_bind]. by rewrite !opt_get.
Qed.
(** The samples a collector wrote are those the score reads, in order. *)
Lemma samples_read ss : Forall sample_ok ss ->
  omap resource_line (lines (unlines ((fun s => to_text (sample_json num null s)) <$> ss))) = reread_sample <$> ss.
Proof.
  intros Hs. rewrite lines_unlines.
  - induction Hs as [|s ss Hok _ IH]; [done|]. cbn [fmap list_fmap omap list_omap]. by rewrite sample_read, IH.
  - apply list.Forall_fmap, (list.Forall_impl _ _ _ Hs), text_line.
Qed.
Lemma wrapped_u64 (o : option string) (f : string -> option Z) n :
  (forall s n, f s = Some n -> 0 <= n < 2 ^ 64) -> o ≫= f = Some n -> 0 <= n < 2 ^ 64.
Proof. intros Hf. destruct o as [s|]; [apply Hf|done]. Qed.
Lemma proc_sample_ok now stat status : is_finite now = true -> sample_ok (proc_sample now stat status).
Proof.
  intros Hn. split_and!; [done| |]; intros n; cbn [proc_sample cpu_usec mem_bytes]; apply wrapped_u64; intros s k.
  - unfold stat_cpu_usec. intros ([? rest] & _ & E)%bind_Some. apply bind_Some in E as (? & _ & E). apply bind_Some in E as (ut & _ & E).
    apply bind_Some in E as (? & _ & E). apply bind_Some in E as (st & _ & E). injection E as <-. apply (wrap_range 64); done.
  - unfold status_mem_bytes. intros (kb & _ & ->)%fmap_Some. apply (wrap_range 64); done.
Qed.
(** What the score of a run makes of the sampled processor time and memory is what was
    sampled before the end of the run: no turn is lost, misread or out of order. *)
Theorem sampled_resources truth rows wall_t0 aud targets known stop_at turns :
  StronglySorted (fun x y => x.1 <= y.1) turns -> Forall (fun x => is_finite x.2.1.1 = true) turns ->
  resources (score truth rows wall_t0 aud targets known (omap resource_line (lines (sample_proc num null to_text stop_at turns))))
  = resources_of ((fun x => reread_sample (proc_sample x.2.1.1 x.2.1.2 x.2.2)) <$> filter (fun x => x.1 < stop_at) turns).
Proof.
  intros Hsort Hfin. unfold score. destruct (fold_left _ _ _) as [secs pa]. cbn [resources]. f_equal. unfold sample_proc.
  rewrite until_filter by done. rewrite <- list_fmap_compose.
  change (fun x : Z * (f64 * option string * option string) => reread_sample (proc_sample x.2.1.1 x.2.1.2 x.2.2))
    with (reread_sample ∘ (fun x : Z * (f64 * option string * option string) => proc_sample x.2.1.1 x.2.1.2 x.2.2)).
  rewrite (list_fmap_compose _ reread_sample), <- samples_read; [by rewrite <- list_fmap_compose|].
  apply list.Forall_fmap, list.Forall_forall. intros x [_ Hx]%list_elem_of_filter. rewrite list.Forall_forall in Hfin. by apply proc_sample_ok, Hfin.
Qed.
End Files.

(** ** What the two ways of running have in common *)
Section Commands.
Context `{Codec, !CodecLaws, Json, Hex, Flate, Rand, Elem f64, Ln f64, !HashIter Z (list Z)}.
Context (msg_line : ClientMsg -> list Z) (hs_line : Handshake -> list Z) (program : string).
Context (toml_parse : list Z -> option Scenario) (row_json : AudibilityRow -> list Z).
Context (num : f64 -> Value) (arr : list Value -> Value) (null : Value).
Hypothesis object_get : forall (l : list (string * Value)) k v, list_find (fun kv => kv.1 = k) l = Some v -> jget (vobject l) k = Some v.2.2.

(** The scorer cannot tell which way a capture was run. *)
Lemma files_alike ok capture capture' addr d w s a :
  run_wall_t0 (external_file num arr null ok capture addr d w s a) = run_wall_t0 (run_file num arr null ok capture' d w s a).
Proof.
  unfold run_wall_t0, run_anchor, external_file, run_file. set (l := [_; _; _; _; _; _; _]). set (l' := [_; _; _; _; _; _]).
  rewrite (object_get l "wall_t0" (3%nat, ("wall_t0"%string, num w))), (object_get l "speed" (4%nat, ("speed"%string, num s))),
    (object_get l "hb_anchor" (5%nat, ("hb_anchor"%string, anchor_json num arr null a))) by done.
  by rewrite (object_get l' "wall_t0" (3%nat, ("wall_t0"%string, num w))), (object_get l' "speed" (4%nat, ("speed"%string, num s))),
    (object_get l' "hb_anchor" (5%nat, ("hb_anchor"%string, anchor_json num arr null a))) by done.
Qed.
(** Whatever the capture, the network and the files collected, a server already running is
    refused, or scored, as the bench's own would be. *)
Theorem external_alike dir capture addr speed w : wo_oracle_up w = true ->
  match replay toml_parse num arr null dir capture speed (Some addr) w, replay toml_parse num arr null dir capture speed None w with
  | inl (_, outcome), inl (_, outcome') => outcome = outcome'
  | inr e, inr e' => e = e'
  | _, _ => False
  end.
Proof.
  intros Hup. unfold replay, replay_external, replay_in, replay_capture. rewrite Hup. cbn [negb]. destruct (open dir) as [m|e] eqn:Eo; [|done].
  destruct (speed_ok speed); [|done]. cbn [negb]. destruct (stop_after speed (m_duration_s m)); [|done].
  destruct (drive dir m speed (wo_nets w)) as [sents [failed|]]; [|done]. unfold score_cmd. by rewrite (files_alike _ capture capture).
Qed.
(** A run is the replay of the capture generated from its scenario. *)
Theorem run_generates fuel stamp text speed w r : run msg_line hs_line program toml_parse row_json num arr null fuel stamp text speed w = inl r ->
  exists sc dir, from_toml toml_parse text = Some sc /\ gen_cmd msg_line hs_line program toml_parse row_json fuel text None = inl dir /\
    let capture := String.append (run_path stamp (Scenario.name (meta sc)) (seed (meta sc))) "/capture" in
    replay toml_parse num arr null dir capture speed None w = inl r.
Proof.
  unfold run. destruct (negb _); [done|]. destruct (from_toml toml_parse text) as [sc|]; [|done].
  destruct (gen_cmd _ _ _ _ _ _ _ _) as [dir|e] eqn:Eg; [|done]. cbv zeta. intros E. exists sc, dir. split_and!; [done..|].
  unfold replay. destruct (open dir) as [m|e] eqn:Eo; [done|]. unfold replay_in, replay_capture in E. rewrite Eo in E. by destruct (negb _).
Qed.
End Commands.

(** ** Small runs *)
Section Sample.
Definition tick_text : string := "one sample".
Definition tick_sample : ResourceSample := {| rs_t_wall := of_Z 1002; cpu_usec := None; mem_bytes := Some 4096 |}.
Definition tick_json : Tree := TObj [("t", TNum (inr (of_Z 1002))); ("cpu_usec", TNull); ("mem_bytes", TNum (inl 4096))]%string.
#[local] Instance json_tick : Json := json_with (fun l => if decide (l = bytes_of tick_text) then Some tick_json else None).
#[local] Existing Instance seconds_order.
#[local] Existing Instance elem_taylor.
(** Two turns before the end, one after it. *)
Definition tick_turns : list (Z * (f64 * option string * option string)) :=
  let status := Some "VmRSS:	4 kB"%string in [(1, (of_Z 1002, None, status)); (3, (of_Z 1002, None, status)); (5, (of_Z 1006, None, None))].
Example tick_read : omap resource_line (lines (sample_proc (fun x => TNum (inr x)) TNull (fun _ => tick_text) 5 tick_turns)) = [tick_sample; tick_sample].
Proof. vm_compute. reflexivity. Qed.
End Sample.
Example compose_above : oracle_compose_path (fun p => bool_decide (p = ["home"; "bench"; "oracle"; "compose.yaml"])) ["sub"; "bench"; "home"]%string
  = Some ["home"; "bench"; "oracle"; "compose.yaml"]%string.
Proof. by vm_compute. Qed.
Example sbs_logged : collect_sbs 10 [(3, false); (9, false); (12, true)] [SbsLine (lit 3 2) "MSG,3"; SbsStop; SbsLine (of_Z 2) "MSG,4"]
  = sconcat ["1.500 MSG,3"; char_text NEWLINE]%string.
Proof. by vm_compute. Qed.
Example sbs_too_late : collect_sbs 10 [(3, false); (10, false); (12, true)] [SbsLine (lit 3 2) "MSG,3"] = EmptyString.
Proof. by vm_compute. Qed.
