(* ===== verification/Bench.v ===== *)
(** * The bench's command line (crates/mlat-bench/src/main.rs; gencmd.rs: inspect)

    The commands with their arguments and defaults, and what each does: the parts of the bench
    composed.  Reading the arguments is clap's; what a command finds on disk and on the
    network is an argument, what it writes its outcome.  Generating, replaying and scoring are
    proved to add up to a run, and the summary of a generated capture to what was generated. *)
From Stdlib Require Import Ascii.
From S2P Require Import Prelude F64 F64Int Num Text Decimal ServerState Shard Router Session Wire Probe Results Metrics Geo Proto Framing.
From S2P Require Import Capture Replay Trajectory SimClock Scenario Gen GenCmd BeastServe Fuzz Locards Tap ScoreCmd Run Report RunCmd.
Local Open Scope Z_scope.

(** ** inspect *)
Section Inspect.
Context `{Codec}.
(** [{:?}] of the counts: the map in the order of its keys. *)
Definition counts_text (m : gmap Z Z) : string :=
  let entry (kv : Z * Z) := sconcat [fmt_nat kv.1; ": "; fmt_nat kv.2]%string in
  let sorted := stable_sort (fun a b : Z * Z => a.1 <=? b.1) (map_to_list m) in
  sconcat ["{"; String.concat ", " (entry <$> sorted); "}"]%string.
Definition summary_line (c : ClientEntry) (s : Summary) : string :=
  sconcat ["  "; ce_id c; " ["; ce_clock_type c; " "; ce_compress c; "] records "; counts_text (sm_counts s); ", "; fmt_nat (sm_bytes s);
    " payload bytes, last event at "; fmt_fixed 1 (of_Z (sm_last s) / of_Z 1000000000)%f64; "s"]%string.
Definition capture_title (m : Manifest) : string :=
  sconcat [m_name m; " — seed "; fmt_nat (m_seed m); ", "; fmt_nat (m_duration_s m); "s, scenario sha ";
    String.substring 0 (Nat.min 12 (String.length (m_scenario_sha256 m))) (m_scenario_sha256 m); "…"]%string.
(** The lines of the clients, up to the first whose stream is broken. *)
Fixpoint inspect_clients (dir : Dir) (l : list ClientEntry) : list string * option CaptureError :=
  match l with
  | [] => ([], None)
  | c :: l =>
      match inspect_client dir c with
      | inr e => ([], Some e)
      | inl s => let '(out, e) := inspect_clients dir l in (summary_line c s :: out, e)
      end
  end.
Definition inspect (dir : Dir) : list string * option CaptureError :=
  match open dir with
  | inr e => ([], Some e)
  | inl m =>
      let points := match Capture.truth dir with inl l => Z.of_nat (length l) | inr _ => 0 end in
      let '(out, e) := inspect_clients dir (m_clients m) in
      (capture_title m :: sconcat ["truth points: "; fmt_nat points]%string :: out, e)
  end.
End Inspect.

(** ** The commands *)
Inductive Cmd :=
| CmdDoctor
| CmdProbe (addr : string) (hold_s : Z)
| CmdGen (scenario out : string)
| CmdRun (scenario : string) (speed : f64)
| CmdReplay (capture : string) (speed : f64) (addr results_csv : option string) (sample_pid : option Z) (selftruth_csv : option string)
| CmdDiff (a b : string)
| CmdScore (run_dir : string)
| CmdInspect (capture : string)
| CmdBeastServe (capture client listen : string) (speed : f64)
| CmdImportLocards (set_csv sensors_csv out : string) (duration_s : Z) (holdout_frac : f64) (seed : Z)
| CmdFuzz (capture out : string) (radius_km : f64) (seed : Z)
| CmdRecord (listen upstream out : string) (duration_s : Z).
(** The defaults of the arguments that may be left out. *)
Definition probe_args (addr : option string) (hold_s : option Z) : Cmd := CmdProbe (default "127.0.0.1:40147"%string addr) (default 60 hold_s).
Definition run_args (scenario : string) (speed : option f64) : Cmd := CmdRun scenario (default (of_Z 1) speed).
(** [requires]: a server's address comes with its results file. *)
Definition replay_args (capture : string) (speed : option f64) (addr results_csv : option string) (sample_pid : option Z) (selftruth_csv : option string)
    : option Cmd :=
  match addr, results_csv with
  | Some _, None => None
  | _, _ => Some (CmdReplay capture (default (of_Z 1) speed) addr results_csv sample_pid selftruth_csv)
  end.
Definition beast_serve_args (capture client : string) (listen : option string) (speed : option f64) : Cmd :=
  CmdBeastServe capture client (default "127.0.0.1:31101"%string listen) (default (of_Z 1) speed).
Definition import_locards_args (set_csv sensors_csv out : string) (duration_s : option Z) (holdout_frac : option f64) (seed : option Z) : Cmd :=
  CmdImportLocards set_csv sensors_csv out (default 600 duration_s) (default (lit 25 100) holdout_frac) (default 42 seed).
Definition fuzz_args (capture out : string) (radius_km : option f64) (seed : option Z) : Cmd :=
  CmdFuzz capture out (default (of_Z 5) radius_km) (default 42 seed).
Definition record_args (listen upstream out : string) (duration_s : option Z) : Cmd := CmdRecord listen upstream out (default 3600 duration_s).

Section Main.
Context `{Codec, JsonWrite, Hex, Flate, Rand, Elem f64, Ln f64, !HashIter Z (list Z), !HashIter Z bool, !HashIter Z ClientAcc}.
Context (program : string) (toml_parse : list Z -> option Scenario) (row_json : AudibilityRow -> list Z) (fmt_float : f64 -> string).
Context (obj_insert : Value -> string -> Value -> option Value).

(** [Path::file_name], nothing for one that ends in a parent directory. *)
Definition SLASH : ascii := ascii_of_nat 47.
Definition file_name (path : string) : string :=
  match list.last (filter (fun c => (c <> EmptyString) /\ (c <> "."%string)) (split_on SLASH path)) with
  | Some c => if (c =? "..")%string then EmptyString else c
  | None => EmptyString
  end.
(** What is on disk: the texts, the captures, the rows of csv files, the runs, and the name and
    metrics of a scored run. *)
Record RunDir := { rd_run : Value; rd_csv : option string; rd_resources : option string; rd_selftruth : option string }.
Record Disk := {
  dk_text : string -> option (list Z); dk_csv : string -> option string; dk_capture : string -> Dir; dk_rows : string -> option (list (option (list string)));
  dk_run : string -> option RunDir; dk_metrics : string -> option (string * Value)
}.
(** What happens meanwhile: the checks, the probe's events, a run's world, the connections of a
    recording, the writes of a stream that fail, the time. *)
Record Live := {
  lv_checks : Environment; lv_probe : bool * bool * FirstLine * list ProbeEvent; lv_world : World; lv_taps : list ProxyEvent;
  lv_fails : nat -> bool; lv_stamp : Z
}.
Inductive BenchError := BenchFile | BenchGen (e : GenError) | BenchImport (e : ImportError) | BenchFuzz (e : FuzzError) | BenchCapture (e : CaptureError).
Inductive Outcome :=
| OutDoctor (out : list string) (ok : bool)
| OutProbe (sent : list (list Z)) (ended : Z + ProbeError)
| OutCapture (written : Dir + BenchError)
| OutRun (r : (Value * option (Metrics + ScoreError)) + CmdError)
| OutScore (r : Metrics + ScoreError) (report : option string)
| OutInspect (out : list string) (e : option CaptureError)
| OutDiff (out : list string)
| OutServed (r : (list Sent * bool) + ServeError)
| OutNoFile.

Definition capture_result {E} (f : E -> BenchError) (r : Dir + E) : Outcome :=
  OutCapture match r with inl d => inl d | inr e => inr (f e) end.
(** The capture of a run: where its file says, or beside it. *)
Definition scored_capture (dk : Disk) (run_dir : string) (run : Value) : Dir :=
  let beside := dk_capture dk (String.append run_dir "/capture") in
  match jget run "capture" ≫= as_str with
  | Some p => match dk_capture dk p with Some d => Some d | None => beside end
  | None => beside
  end.
(** What a server already running leaves is copied from the files named; it is sampled only
    when its process is. *)
Definition external_world (dk : Disk) (w : World) (addr results_csv : option string) (sample_pid : option Z) : World :=
  match addr with
  | None => w
  | Some _ => {| wo_oracle_up := wo_oracle_up w; wo_wall_t0 := wo_wall_t0 w; wo_nets := wo_nets w; wo_lines := wo_lines w;
                 wo_csv := results_csv ≫= dk_csv dk; wo_resources := match sample_pid with Some _ => wo_resources w | None => None end |}
  end.
Definition main (fuel : nat) (lv : Live) (dk : Disk) (cmd : Cmd) : Outcome :=
  match cmd with
  | CmdDoctor => let '(out, ok) := doctor (lv_checks lv) in OutDoctor out ok
  | CmdProbe _ _ => let '(connects, hs_ok, first, evs) := lv_probe lv in let '(sent, ended) := probe program connects hs_ok first evs in OutProbe sent ended
  | CmdGen scenario out =>
      match dk_text dk scenario with
      | None => OutNoFile
      | Some text => capture_result BenchGen (gen_cmd to_line handshake_line program toml_parse row_json fuel text (dk_capture dk out))
      end
  | CmdInspect capture => let '(out, e) := inspect (dk_capture dk capture) in OutInspect out e
  | CmdRun scenario speed =>
      match dk_text dk scenario with
      | None => OutNoFile
      | Some text => OutRun (run to_line handshake_line program toml_parse row_json jf64 jarr jnull fuel (lv_stamp lv) text speed (lv_world lv))
      end
  | CmdReplay capture speed addr results_csv sample_pid _ =>
      OutRun (replay toml_parse jf64 jarr jnull (dk_capture dk capture) capture speed addr (external_world dk (lv_world lv) addr results_csv sample_pid))
  | CmdDiff a b =>
      match dk_metrics dk a, dk_metrics dk b with
      | Some (na, ma), Some (nb, mb) => OutDiff (diff_lines na nb ma mb)
      | _, _ => OutNoFile
      end
  | CmdBeastServe capture client _ speed =>
      OutServed match serve_list (dk_capture dk capture) client with inl rs => inl (serve_stream speed (lv_fails lv) 0 rs) | inr e => inr e end
  | CmdImportLocards set_csv sensors_csv out duration_s holdout_frac seed =>
      capture_result BenchImport (import fmt_float row_json (default [None] (dk_rows dk set_csv)) (default [None] (dk_rows dk sensors_csv))
        (dk_capture dk out) duration_s holdout_frac seed)
  | CmdScore run_dir =>
      match dk_run dk run_dir with
      | None => OutNoFile
      | Some r =>
          let scored := score_cmd toml_parse (rd_run r) (scored_capture dk run_dir (rd_run r)) (rd_csv r) (rd_resources r) in
          OutScore scored match scored with inl m => Some (report_file m (file_name run_dir) (rd_selftruth r)) | inr _ => None end
      end
  | CmdFuzz capture out radius_km seed =>
      capture_result BenchFuzz (fuzz obj_insert jf64 to_vec (dk_capture dk capture) (dk_capture dk out) radius_km seed)
  | CmdRecord _ _ out duration_s => capture_result BenchCapture (record_cmd (lv_taps lv) duration_s (dk_capture dk out))
  end.
End Main.

(** ** The summary of a generated capture *)
Section Inspected.
Context `{Codec, !CodecLaws, Json, Hex, Flate, Rand, Elem f64, Ln f64}.
Context (msg_line : ClientMsg -> list Z) (hs_line : Handshake -> list Z) (program : string).
Context (toml_parse : list Z -> option Scenario) (row_json : AudibilityRow -> list Z).

(** A client's connection and its writes. *)
Definition client_summary (c : ClientStream) : Summary :=
  let n := Z.of_nat (length (cs_records c)) in
  {| sm_counts := if n =? 0 then {[REC_CONNECT := 1]} else <[REC_C2S := n]> {[REC_CONNECT := 1]};
     sm_bytes := Z.of_nat (length (cs_handshake_line c) + length (concat (sr_bytes <$> cs_records c)));
     sm_last := fold_left Z.max (sr_t <$> cs_records c) 0 |}.
Lemma count_writes l s : fold_left count_record (send_rec <$> l) s =
  {| sm_counts := if Z.of_nat (length l) =? 0 then sm_counts s else <[REC_C2S := default 0 (sm_counts s !! REC_C2S) + Z.of_nat (length l)]> (sm_counts s);
     sm_bytes := sm_bytes s + Z.of_nat (length (concat (sr_bytes <$> l))); sm_last := fold_left Z.max (sr_t <$> l) (sm_last s) |}.
Proof.
  revert s. induction l as [|r l IH]; intros s; [destruct s as [c b t]; cbn; f_equal; lia|].
  cbn [fmap list_fmap fold_left]. rewrite IH. unfold count_record at 1 2 3 4. cbn [sm_counts sm_bytes sm_last send_rec kind payload t_nanos concat].
  rewrite length_app. f_equal; [|lia]. rewrite (proj2 (Z.eqb_neq (Z.of_nat (length (r :: l))) 0)) by (cbn; lia).
  rewrite lookup_insert_eq, insert_insert_eq. cbn [default]. change (Datatypes.id ?z) with z. destruct (Z.eqb_spec (Z.of_nat (length l)) 0) as [E|E].
  - do 2 f_equal. cbn [length]. lia.
  - f_equal. cbn [length]. lia.
Qed.
Lemma count_client c : fold_left count_record (client_recs c) Summary_new = client_summary c.
Proof.
  unfold client_recs. cbn [fold_left]. rewrite count_writes. unfold client_summary, count_record, Summary_new.
  cbn [sm_counts sm_bytes sm_last kind payload t_nanos]. rewrite lookup_empty, lookup_insert_ne, lookup_empty by done. cbn [default].
  rewrite insert_empty. f_equal; lia.
Qed.
(** What inspect prints of a generated capture: its title, the number of truth points, and for
    every receiver in the scenario's order the handshake and the records generated for it. *)
Theorem generated_inspected fuel text sc cap points m' dir :
  from_toml toml_parse text = Some sc -> generate msg_line hs_line program fuel sc = inl cap ->
  gen_cmd msg_line hs_line program toml_parse row_json fuel text None = inl dir ->
  Forall sized (clients cap) -> mapM reread_point (Gen.truth cap) = Some points ->
  let m := gen_manifest sc (sha256_hex text) (zip_with gen_entry (clients cap) (receivers sc)) in
  reread_manifest m = Some m' ->
  inspect dir = (capture_title m' :: sconcat ["truth points: "; fmt_nat (Z.of_nat (length (Gen.truth cap)))]%string ::
    zip_with (fun c e => summary_line e (client_summary c)) (clients cap) (m_clients m'), None).
Proof.
  intros Hsc Hcap Hdir Hsz Htr m Hm.
  destruct (gen_cmd_contents msg_line hs_line program toml_parse row_json fuel text sc cap points m' dir Hsc Hcap Hdir Hsz Htr Hm) as (Ho & _ & Ht & _ & Hrec).
  unfold inspect. rewrite Ho, Ht. assert (length points = length (Gen.truth cap)) as -> by (apply mapM_Some in Htr; symmetry; by eapply Forall2_length).
  assert (Forall2 (fun c e => c ∈ clients cap /\ ce_file e = client_file (cs_id c)) (clients cap) (m_clients m')) as Hall.
  { apply reread_manifest_some in Hm as (es & Hes%mapM_Some & ->). cbn [with_entries m_clients m gen_manifest] in *.
    destruct (generate_ids _ _ _ _ _ _ Hcap) as [Hids _]. apply (f_equal length) in Hids. rewrite !length_fmap in Hids.
    apply Forall2_same_length_lookup_2; [apply Forall2_length in Hes; rewrite length_zip_with in Hes; lia|].
    intros i c e Hc He. split; [by eapply list_elem_of_lookup_2|]. destruct (Forall2_lookup_r _ _ _ _ _ Hes He) as (e0 & He0 & Hr).
    apply lookup_zip_with_Some in He0 as (c' & rx & -> & Hc' & _). rewrite Hc in Hc'. injection Hc' as <-.
    by destruct (reread_entry_same _ _ Hr) as (_ & -> & _). }
  assert (inspect_clients dir (m_clients m') = (zip_with (fun c e => summary_line e (client_summary c)) (clients cap) (m_clients m'), None)) as ->; [|done].
  induction Hall as [|c e cs es [Hc He] _ IH]; [done|]. cbn [zip_with inspect_clients]. destruct (Hrec c e Hc He) as (z & Ez & Er).
  unfold inspect_client. rewrite Ez, Er, IH. by rewrite count_client.
Qed.
Lemma counts_text_client n : counts_text (<[REC_C2S := n]> {[REC_CONNECT := 1]}) = sconcat ["{1: "; fmt_nat n; ", 3: 1}"]%string.
Proof. unfold counts_text. change (stable_sort _ _) with [(1, n); (3, 1)]. cbn -[fmt_nat]. rewrite !sapp_nil_r, !sapp_assoc. reflexivity. Qed.
End Inspected.

(** ** A run is generating, replaying and scoring *)
Section Steps.
Context `{Codec, !CodecLaws, JsonWrite, Hex, Flate, Rand, Elem f64, Ln f64, !HashIter Z (list Z), !HashIter Z bool, !HashIter Z ClientAcc}.
Context (program : string) (toml_parse : list Z -> option Scenario) (row_json : AudibilityRow -> list Z) (fmt_float : f64 -> string).
Context (obj_insert : Value -> string -> Value -> option Value).
(** JSON: the keys of an object, and a string. *)
Hypothesis object_get : forall (l : list (string * Value)) k v, list_find (fun kv => kv.1 = k) l = Some v -> jget (vobject l) k = Some v.2.2.
Hypothesis str_get : forall s, as_str (vstr s) = Some s.

Lemma run_file_alike ok capture capture' d w s a :
  run_wall_t0 (run_file jf64 jarr jnull ok capture d w s a) = run_wall_t0 (run_file jf64 jarr jnull ok capture' d w s a).
Proof. by rewrite <- (files_alike jf64 jarr jnull object_get ok capture capture' EmptyString), (files_alike jf64 jarr jnull object_get ok capture capture). Qed.
Lemma open_some (dir : Dir) m : open dir = inl m -> exists d, dir = Some d.
Proof. destruct dir as [d|]; [by exists d|done]. Qed.
Lemma score_alike ok capture capture' d w s a dir csv log :
  score_cmd toml_parse (run_file jf64 jarr jnull ok capture d w s a) dir csv log
  = score_cmd toml_parse (run_file jf64 jarr jnull ok capture' d w s a) dir csv log.
Proof. unfold score_cmd. by rewrite (run_file_alike ok capture capture'). Qed.
Lemma run_file_capture ok capture d w s a : jget (run_file jf64 jarr jnull ok capture d w s a) "capture" ≫= as_str = Some capture.
Proof.
  unfold run_file. set (l := [_; _; _; _; _; _]). rewrite (object_get l "capture" (1%nat, ("capture"%string, vstr capture))) by done. apply str_get.
Qed.
(** A replay against the bench's server depends on the name of the capture only in its file. *)
Lemma replay_elsewhere dir capture capture' speed w file outcome :
  replay_in toml_parse jf64 jarr jnull w dir capture speed = inl (file, outcome) ->
  exists file', replay_in toml_parse jf64 jarr jnull w dir capture' speed = inl (file', outcome) /\
    jget file' "capture" ≫= as_str = Some capture' /\ (exists d, dir = Some d) /\
    forall scored, outcome = Some scored -> score_cmd toml_parse file' dir (wo_csv w) (wo_resources w) = scored.
Proof.
  unfold replay_in, replay_capture. destruct (negb _); [done|]. destruct (open dir) as [m|] eqn:Eo; [|done]. destruct (negb _); [done|].
  destruct (stop_after _ _); [|done]. destruct (drive _ _ _ _) as [sents result]. intros E. injection E as <- <-. eexists. split; [|split_and!].
  - do 2 f_equal. destruct result; [|done]. f_equal. apply score_alike.
  - apply run_file_capture.
  - by eapply open_some.
  - destruct result; [|done]. intros scored [= <-]. apply score_alike.
Qed.

(** A run does what its steps do one by one: its scenario generates a capture wherever there is
    none yet; the capture replays, from wherever it lies, with the same outcome, and the
    directory of the replay, with what was collected, scores again as it was scored. *)
Theorem run_adds_up fuel lv dk scenario speed file outcome :
  let main := main program toml_parse row_json fmt_float obj_insert fuel lv in
  main dk (CmdRun scenario speed) = OutRun (inl (file, outcome)) -> exists dir,
  (forall out, dk_capture dk out = None -> main dk (CmdGen scenario out) = OutCapture (inl dir)) /\
  forall dk' capture, dk_capture dk' capture = dir -> exists file',
    main dk' (CmdReplay capture speed None None None None) = OutRun (inl (file', outcome)) /\
    forall dk'' run_dir r scored, dk_run dk'' run_dir = Some r -> dk_capture dk'' capture = dir -> outcome = Some scored ->
      rd_run r = file' -> rd_csv r = wo_csv (lv_world lv) -> rd_resources r = wo_resources (lv_world lv) ->
      exists report, main dk'' (CmdScore run_dir) = OutScore scored report /\ (is_Some report <-> exists m, scored = inl m).
Proof.
  intros main. unfold main at 1. cbn [Bench.main]. destruct (dk_text dk scenario) as [text|] eqn:Et; [|done].
  destruct (run _ _ _ _ _ _ _ _ _ _ _ _ _) as [[f o]|] eqn:Er; [|done]. intros E. injection E as <- <-.
  destruct (run_generates to_line handshake_line program toml_parse row_json jf64 jarr jnull _ _ _ _ _ _ Er) as (sc & dir & _ & Eg & Erep). cbv zeta in Erep.
  exists dir. split.
  - intros out Hout. unfold main. cbn [Bench.main]. rewrite Et, Hout, Eg. done.
  - intros dk' capture Hc. unfold replay in Erep. destruct (open dir) as [m|] eqn:Eo; [|done].
    destruct (replay_in _ _ _ _ _ dir _ speed) as [[f' o']|] eqn:Ein; [|done]. injection Erep as -> ->.
    destruct (replay_elsewhere _ _ capture _ _ _ _ Ein) as (file' & Ef & Ecap & [d Ed] & Hs). exists file'. split.
    + unfold main. cbn [Bench.main external_world]. unfold replay. by rewrite Hc, Eo, Ef.
    + intros dk'' run_dir r scored Hr Hc'' Ho Hf Hcsv Hlog. unfold main. cbn [Bench.main]. rewrite Hr, Hcsv, Hlog, Hf. unfold scored_capture.
      rewrite Ecap, Hc'', Ed. rewrite <- Ed, (Hs scored Ho). eexists. split; [done|]. destruct scored; [split; by eexists|split; by intros [? [=]]].
Qed.
End Steps.

(** ** Arguments *)
(** A replay against a server already running always names its results; the speeds left out
    are accepted. *)
Theorem arguments_ok : (forall capture speed addr results pid st, is_Some (replay_args capture speed addr results pid st) <-> (is_Some addr -> is_Some results)) /\
  (forall capture addr results pid st c s a r p t, replay_args capture None addr results pid st = Some (CmdReplay c s a r p t) -> speed_ok s = true) /\
  (forall scenario sc s, run_args scenario None = CmdRun sc s -> speed_ok s = true).
Proof.
  split_and!.
  - intros capture speed addr results pid st. unfold replay_args. destruct addr as [a|], results as [r|]; cbn [is_Some].
    + split; [intros _ _; by eexists|by eexists].
    + split; [by intros [? [=]]|]. intros Hr. destruct (Hr ltac:(by eexists)) as [? [=]].
    + split; [by intros _ [? [=]]|by eexists].
    + split; [by intros _ [? [=]]|by eexists].
  - intros capture [a|] [r|] pid st c s a' r' p t; cbn; try done; by intros [= _ <-].
  - by intros scenario sc s [= _ <-].
Qed.
Example file_names : file_name "runs/17_smoke_s42" = "17_smoke_s42"%string /\ file_name "runs/17/" = "17"%string /\ file_name "../.." = EmptyString.
Proof. by split_and!; vm_compute. Qed.

(** ** A small bench *)
Section Sample.
#[local] Existing Instance json_scored.
#[local] Existing Instance hex_tree.
#[local] Existing Instance flate_stored.
#[local] Existing Instance rand_script.
#[local] Existing Instance elem_taylor.
#[local] Existing Instance ln_taylor.
#[local] Existing Instance codec_stored.
#[local] Existing Instance codec_stored_laws.
#[local] Existing Instance seconds_order.
#[local] Instance write_one : JsonWrite := {| jnull := TNull; jarr := TArr; jf64 := run_num; to_vec _ := [65] |}.
#[local] Instance holdouts_order : HashIter Z bool := hash_iter_list Z bool.
#[local] Instance clients_order : HashIter Z ClientAcc := hash_iter_list Z ClientAcc.
Definition bench_world : World := {|
  wo_oracle_up := true; wo_wall_t0 := of_Z 1000; wo_nets := [no_net]; wo_lines := run_heard; wo_csv := Some csv_text; wo_resources := None |}.
Definition bench_live : Live := {|
  lv_checks := {| en_docker := Some "29"; en_compose := None; en_listening := false; en_image := false |};
  lv_probe := (false, false, FirstTimeout, []); lv_world := bench_world; lv_taps := []; lv_fails _ := false; lv_stamp := 17 |}%string.
Definition bench_disk (capture : Dir) (r : option RunDir) : Disk := {|
  dk_text p := if (p =? "second.toml")%string then Some [] else None; dk_csv _ := Some csv_text;
  dk_capture p := if (p =? "c")%string then capture else None; dk_rows _ := None;
  dk_run p := if (p =? "r")%string then r else None; dk_metrics _ := None |}.
Definition bench (dk : Disk) (cmd : Cmd) : Outcome := main "p" second_of one_row (fun _ => EmptyString) (fun _ _ _ => None) 20 bench_live dk cmd.
(** The unknown ghosts of a run that was scored. *)
Definition ghosts (o : Outcome) : option nat :=
  match o with
  | OutRun (inl (_, Some (inl m))) => Some (ghosts_unknown_icao m)
  | _ => None
  end.
Lemma run_adds_up_sample : exists dir file file' report m, bench (bench_disk None None) (CmdRun "second.toml" (of_Z 4)) = OutRun (inl (file, Some (inl m))) /\
  bench (bench_disk None None) (CmdGen "second.toml" "c") = OutCapture (inl dir) /\
  bench (bench_disk dir None) (CmdReplay "c" (of_Z 4) None None None None) = OutRun (inl (file', Some (inl m))) /\
  bench (bench_disk dir (Some {| rd_run := file'; rd_csv := Some csv_text; rd_resources := None; rd_selftruth := None |})) (CmdScore "r") = OutScore (inl m) report /\
  ghosts_unknown_icao m = 1%nat.
Proof.
  assert (ghosts (bench (bench_disk None None) (CmdRun "second.toml" (of_Z 4))) = Some 1%nat) as Hg by (vm_compute; reflexivity).
  destruct (bench (bench_disk None None) (CmdRun "second.toml" (of_Z 4))) as [| | |[[file [[m|]|]]|]| | | | |] eqn:Er; try discriminate Hg. injection Hg as Hm.
  destruct (run_adds_up "p" second_of one_row (fun _ => EmptyString) (fun _ _ _ => None) run_object (fun _ => eq_refl) 20 bench_live (bench_disk None None)
    "second.toml" (of_Z 4) file (Some (inl m)) Er) as (dir & Hgen & Hrep).
  destruct (Hrep (bench_disk dir None) "c"%string eq_refl) as (file' & Erep & Hscore).
  destruct (Hscore (bench_disk dir (Some {| rd_run := file'; rd_csv := Some csv_text; rd_resources := None; rd_selftruth := None |})) "r"%string
    {| rd_run := file'; rd_csv := Some csv_text; rd_resources := None; rd_selftruth := None |} (inl m) eq_refl eq_refl eq_refl eq_refl eq_refl eq_refl) as (report & Es & _).
  exists dir, file, file', report, m. split_and!; [reflexivity|by apply Hgen|exact Erep|exact Es|exact Hm].
Qed.
End Sample.
